(* ===== verification/_CoqProject ===== *)
-Q . S2P
Prelude.v
Hoare.v
RList.v
Bios.v
Vm.v
Sched.v
SchedInv.v
SchedSteps.v
SchedProps.v
CondVar.v
KernelLock.v
Kernel.v
Devices.v
Streams.v
StreamInv.v
StreamCalls.v
StreamFrame.v
StreamIO.v
StreamProps.v
Proc.v
Threads.v
Syscalls.v
Typed.v
Frames.v
Wakeups.v
ProcInv.v
ProcExit.v
ProcExec.v
World.v
Boot.v
ProcProps.v
ThreadProps.v
SchedMoves.v
System.v
SystemSteps.v
SystemProps.v
Args.v
Stdio.v
Exceptions.v
Symposium.v
Console.v
Filters.v
Commands.v
Shell.v
Remote.v
Programs.v
PseudoConsole.v
ShellKernel.v
BootShell.v
Terminal.v
