(* ===== verification/Prelude.v ===== *)
(** * TinyOS v.3: a verification development (root file)

    TinyOS is a small operating system that runs as a user program: bios.c simulates
    a machine with several cores, timers, interrupts and serial ports, and the kernel
    and its programs run on it.  This library models the source as executable Rocq
    functions and proves that they do what they are meant to do, and where they do
    not.  This file holds what the others share.

    ** The parts, bottom up

    - util.h, resource lists: [RList.v].  The [rlnode] rings as pointer programs in a
      heap of nodes; they refine operations on Rocq lists, which the other files use
      for the kernel's intrusive lists.
    - bios.c: [Bios.v].  Cores, halting and restarting, raising, masking and
      dispatching interrupts, timers, the clock, serial ports ([machine]).  [Vm.v]:
      the threads of [vm_boot] and their two barriers, as steps from the first to the
      return; the sequential boot of [Bios.v] is what they come to.
    - kernel_sched.c: [Sched.v] (operations, state [sched]), [SchedInv.v] and
      [SchedSteps.v] (invariant and its preservation), [SchedProps.v] (theorems).
      The operations of the cores are the steps of a transition system.
      [SchedMoves.v]: they leave the threads, their owners and their blocks.
    - kernel_cc.c: [CondVar.v] (mutexes, the ring of waiters, condition variables) and
      [KernelLock.v] (the kernel's monitor, as steps between shared accesses).
    - the state of the kernel: [Kernel.v] (process, thread and file control blocks,
      device table, [kernel], and the monad [KM] of the system calls).
    - kernel_dev.c: [Devices.v].  kernel_streams.c, kernel_pipe.c, kernel_socket.c:
      [Streams.v], with [StreamInv.v], [StreamCalls.v], [StreamIO.v] (reference counts
      and the run of each call), [StreamFrame.v] (what the calls leave of the other
      streams) and [StreamProps.v] (theorems).
    - kernel_proc.c: [Proc.v].  kernel_threads.c and [Exit]: [Threads.v].  Their
      invariant is in [ProcInv.v]; the end of a process in [ProcExit.v], its creation
      in [ProcExec.v]; [World.v] puts process calls, stream calls and the scheduler
      together; [Wakeups.v]: threads that were woken up stay ready; theorems in
      [ProcProps.v] and [ThreadProps.v].
    - kernel_sys.c: [Syscalls.v], the table of system calls and the dispatch to them.
      [Typed.v]: what every call keeps without any condition; [Frames.v]: what calls
      on streams and processes leave of the threads (both on the rules of [Hoare.v]).
    - kernel_init.c: [Boot.v], from an empty machine to the invariant of [World.v].
    - all of the kernel: [System.v] (the states in which calls of all threads rest,
      wait and go on, interleaved with the scheduler; the invariant), [SystemSteps.v]
      (each call keeps it), [SystemProps.v] (the theorem).
    - util.h and tinyoslib.c, argument buffers, [Execute] and [exec_wrapper]: [Args.v];
      streams of the C library on file ids: [Stdio.v].  util.h and util.c, exceptions:
      [Exceptions.v].
    - symposium.c: [Symposium.v], and its programs, with mtask.c, in [Programs.v].
    - tinyos_shell.c: [Console.v] (the stream functions of the C library as an
      interface with laws), [Filters.v] (cap, lcase, lenum, more, wc, echo),
      [Commands.v] (the table, hanoi, fibo, repeat, runterm, ls, help), [Programs.v]
      (sysinfo, symposium, symp_thr), [Shell.v] (lines, pipelines, starting the
      shells), [Remote.v] (remote server and client); [ShellKernel.v] and
      [BootShell.v] run the pipelines and the start of the shells on the calls of
      [Streams.v] and [Proc.v].
    - console.c: the streams on the standard streams of the host, [stdio_ops], are in
      [Devices.v], and [tinyos_pseudo_console] in [PseudoConsole.v].
    - terminal.c: [Terminal.v], the emulator that shows a terminal on the host.

    A definition has the name of the function it models; a step of a loop, or a part
    of a long function, has a name of its own.

    ** How the code is modelled

    State is passed explicitly, in the monad [M]: an operation returns a result and
    a state, or a [fault].  A fault is what C leaves undefined (a null pointer, freed
    memory, an index out of bounds, an indeterminate variable, a division by zero,
    a pointer to an object of another type) and what the code turns into an abort (an assertion, [FATAL]).  Integers are in
    [Z], and wrap with [u32], [u64] and [i32] where the code computes with them.
    Control blocks are named by numbers: a process by its index in [PT], a stream by
    its index in [FT], threads and their PTCBs by allocation numbers that are never
    used again, so that an access to a freed block is an error and not an access to
    another one.

    What the host does is an argument: the time, what a serial port delivers, whether
    it takes a byte.  A system call runs with the kernel lock held: it is one step up
    to its return or to the point where it waits ([wait_resume], [exit_resume],
    [IoBlocked] say where it goes on).  [KernelLock.v] shows that the lock excludes
    other threads.  The user programs are over interfaces ([Console], [Files],
    [Spawn], [Waits], [Sockets]), so that their theorems hold of any system that
    keeps the laws that they name; a demonstration system implements each of them.

    ** What is proved

    - The system as a whole ([SystemProps.system_safe]): from boot, through every
      interleaving of the system calls of all threads, of the rests of calls that
      waited, and of the scheduler, the processes, their family tree, the free list,
      argument buffers, streams and threads stay consistent, and no call faults, as
      long as the calls are used as [System.allowed] says: nobody calls
      [ThreadDetach], joins a thread whose block is gone, or waits for a child next to
      another thread of its process, and init ends without children
      ([PTCB_lifetime] and [reaped_twice] say what happens otherwise).  Without that
      condition every call that returns keeps the kernel well typed, but for pointers
      to threads and PTCBs ([Typed.syscalls_typed]).
    - Safety and invariants of the parts: no scheduler operation faults in any
      reachable state and queues hold exactly the threads that are ready and clean;
      the kernel lock excludes, loses no wakeup and does not deadlock; the reference
      counts of streams are exact.
    - The machine: boot functions run when every core is set up and while the
      interrupt controller works; whatever the order of the threads the machine
      starts as the sequential boot says, and [vm_boot] can always come to its return.
    - Behaviour of each call, errors included: selection, wakeup and timeouts;
      signals and broadcasts; opening, reading, reserving and releasing streams;
      [Exec], [WaitChild] (against a specification), [ThreadExit], [ThreadJoin], the
      end of a process, the [Exit] of init, booting, a shell on every
      terminal or on the pseudo console.
    - Refinement and equivalence: rings implement lists and queues; unwinding of
      exceptions is a recursive specification; the parser of the command line is its
      definition over segments; filters are functions of their input; the terminal
      relays its two directions.
    - Round trips: arguments through [Execute], a request through any connection, the
      standard streams switched and switched back.
    - The symposium is safe and always ends.
    - What goes wrong: PTCBs that are used after they are freed, a process that is
      reaped twice, a line of bars, [wc] and empty lines, [more 0], [repeat] with a
      negative number, a shell whose input fails, pipelines without pipes, a terminal
      at the end of its input, a philosopher that divides by zero.

    ** Fuel

    Loops that are not structural take fuel, and [OutOfFuel] is the fault of running
    out.  The theorems show that it does not happen: loops over a ring have the number
    of its nodes, [sched_wakeup_expired_timeouts] the length of the list, [sys_Exit]
    the number of children of init and one ([exit_turns]), [exception_unwind] the
    number of handlers and frames ([unwind_turns]), the messages of the protocol
    their length and one; a filter needs more fuel than its input has bytes, and
    [repeat] more than its number of turns.  A loop that waits for ever (a shell, the
    accept loop) runs as far as its fuel goes.

    ** What is not modelled

    - The host: what pthreads, POSIX timers and signals, and descriptors do inside of a
      call; their answers are arguments.  The barriers of bios.c hold their threads as
      [pthread_barrier_wait] documents it.
    - The boot of the scheduler starts from an initialised queue array; that
      [initialize_scheduler] writes one element too many is a theorem of its own.
    - That [tinyos_pseudo_console] runs without the kernel's lock: it is one step, as
      when nothing else runs.  [stdio_read] waits in [fread] for the host, and not in the
      kernel, so that a read of the console is the one that returns.
    - [print_state]; messages on [stderr].  The logarithm of [adjust_symposium] is an argument.
    - The test suite (validate_api.c, unit_testing.c, unit_testing.h, test_util.c,
      test_example.c) and the examples for the machine (bios_example*.c). *)
From Stdlib Require Export ZArith Lia Bool.
From stdpp Require Export base tactics option numbers gmap sets fin_maps.
From stdpp Require Export list.

#[global] Set Default Proof Using "Type".

(** ** Outcomes

    Every operation of the C code is a total Rocq function.  What C leaves
    undefined, and what the code turns into [abort()], is a [Fault]. *)
Inductive fault :=
  | AssertFailed   (** a failed [assert] or [CHECK_CONDITION] *)
  | NullDeref      (** a dereference of a null pointer *)
  | UseAfterFree   (** an access to, or a second free of, a freed object *)
  | OutOfBounds    (** an array access outside its bounds *)
  | Fatal          (** the [FATAL] macro, or [abort()] *)
  | DivByZero      (** a division or remainder by zero *)
  | Indeterminate  (** a read of a variable that was never written *)
  | WrongType      (** an access to an object through a pointer to another type *)
  | OutOfFuel.     (** the model's bound on the turns of a loop was too small *)

Inductive outcome (A : Type) :=
  | Ok (a : A)
  | Fault (f : fault).
Arguments Ok {A} a.
Arguments Fault {A} f.

#[export] Instance fault_eq_dec : EqDecision fault.
Proof. solve_decision. Defined.

#[export] Instance outcome_eq_dec {A} `{EqDecision A} : EqDecision (outcome A).
Proof. solve_decision. Defined.

(** ** The state-and-fault monad *)
Definition M (S A : Type) : Type := S → outcome (A * S).

#[export] Instance M_ret S : MRet (M S) := λ A a s, Ok (a, s).
#[export] Instance M_fmap S : FMap (M S) := λ A B f m s,
  match m s with
  | Ok (a, s') => Ok (f a, s')
  | Fault e => Fault e
  end.
#[export] Instance M_bind S : MBind (M S) := λ A B k m s,
  match m s with
  | Ok (a, s') => k a s'
  | Fault f => Fault f
  end.

Definition get {S} : M S S := λ s, Ok (s, s).
Definition gets {S A} (f : S → A) : M S A := λ s, Ok (f s, s).
Definition modify {S} (f : S → S) : M S unit := λ s, Ok (tt, f s).
Definition raise {S A} (f : fault) : M S A := λ _, Fault f.

(** [assert(b)] *)
Definition c_assert {S} (b : bool) : M S unit :=
  if b then mret tt else raise AssertFailed.

(** The value of an [option], or the given fault. *)
Definition get_some {S A} (f : fault) (o : option A) : M S A :=
  match o with Some a => mret a | None => raise f end.

Definition when {S} (b : bool) (m : M S unit) : M S unit :=
  if b then m else mret tt.

(** A loop over a list, left to right: [for(x in l) f(x)]. *)
Fixpoint for_each {S A} (l : list A) (f : A → M S unit) : M S unit :=
  match l with
  | [] => mret tt
  | x :: l' => f x ;; for_each l' f
  end.

(** An operation on a component of the state, run on the whole state. *)
Definition zoom {S T A} (pr : S → T) (put : T → S → S) (m : M T A) : M S A :=
  λ s, match m (pr s) with
       | Ok (a, t) => Ok (a, put t s)
       | Fault f => Fault f
       end.

(** ** Specifications

    [triple P m Q]: from every state that satisfies [P], [m] terminates
    without a fault, in a state and with a result that satisfy [Q]. *)
Definition triple {S A} (P : S → Prop) (m : M S A) (Q : A → S → Prop) : Prop :=
  ∀ s, P s → ∃ a s', m s = Ok (a, s') ∧ Q a s'.

Section monad_lemmas.
Context {S : Type}.

Lemma bind_Ok {A B} (m : M S A) (k : A → M S B) s b s'' :
  (m ≫= k) s = Ok (b, s'') ↔
  ∃ a s', m s = Ok (a, s') ∧ k a s' = Ok (b, s'').
Proof.
  unfold mbind, M_bind. split.
  - destruct (m s) as [[a s0]|f]; [intros; by exists a, s0 | done].
  - intros (a & s0 & -> & ?). done.
Qed.

Lemma bind_run {A B} (m : M S A) (k : A → M S B) s a s' :
  m s = Ok (a, s') → (m ≫= k) s = k a s'.
Proof. unfold mbind, M_bind. by intros ->. Qed.

Lemma bind_fault {A B} (m : M S A) (k : A → M S B) s f :
  m s = Fault f → (m ≫= k) s = Fault f.
Proof. unfold mbind, M_bind. by intros ->. Qed.

(** Steps of a run, for rewriting. *)
Lemma run_assoc {A B C} (m : M S A) (k : A → M S B) (k' : B → M S C) s :
  ((m ≫= k) ≫= k') s = (m ≫= λ a, k a ≫= k') s.
Proof. unfold mbind, M_bind. by destruct (m s) as [[]|]. Qed.

Lemma run_ret {A B} (a : A) (k : A → M S B) s : (mret a ≫= k) s = k a s.
Proof. done. Qed.

Lemma run_get {B} (k : S → M S B) s : (get ≫= k) s = k s s.
Proof. done. Qed.

Lemma run_gets {A B} (f : S → A) (k : A → M S B) s : (gets f ≫= k) s = k (f s) s.
Proof. done. Qed.

Lemma run_modify {B} f (k : unit → M S B) s : (modify f ≫= k) s = k tt (f s).
Proof. done. Qed.

Lemma run_assert {B} b (k : unit → M S B) s :
  b = true → (c_assert b ≫= k) s = k tt s.
Proof. by intros ->. Qed.

Lemma run_some {A B} f o (a : A) (k : A → M S B) s :
  o = Some a → (get_some f o ≫= k) s = k a s.
Proof. by intros ->. Qed.

Lemma run_when_false {B} b m (k : unit → M S B) s :
  b = false → (when b m ≫= k) s = k tt s.
Proof. by intros ->. Qed.

Lemma run_when_true {B} b m (k : unit → M S B) s :
  b = true → (when b m ≫= k) s = (m ≫= k) s.
Proof. by intros ->. Qed.

Lemma for_each_app {A} (l1 l2 : list A) (f : A → M S unit) s :
  for_each (l1 ++ l2) f s = (for_each l1 f ;; for_each l2 f) s.
Proof.
  revert s. induction l1 as [|x l1 IH]; intros s; [done|]. cbn [app for_each].
  rewrite run_assoc. unfold mbind, M_bind. destruct (f x s) as [[[] s']|]; [apply IH|done].
Qed.

Lemma triple_bind {A B} P (m : M S A) Q (k : A → M S B) R :
  triple P m Q → (∀ a, triple (Q a) (k a) R) → triple P (m ≫= k) R.
Proof.
  intros Hm Hk s Hs. destruct (Hm s Hs) as (a & s' & Hrun & HQ).
  destruct (Hk a s' HQ) as (b & s'' & Hrun' & HR).
  exists b, s''. split; [|done]. apply bind_Ok; eauto.
Qed.

Lemma triple_ret {A} (a : A) (Q : A → S → Prop) : triple (Q a) (mret a) Q.
Proof. intros s Hs. exists a, s. done. Qed.

Lemma triple_conseq {A} (P P' : S → Prop) (m : M S A) (Q Q' : A → S → Prop) :
  triple P' m Q' → (∀ s, P s → P' s) → (∀ a s, Q' a s → Q a s) → triple P m Q.
Proof.
  intros Hm HP HQ s Hs. destruct (Hm s (HP s Hs)) as (a & s' & ? & ?). eauto 6.
Qed.

Lemma triple_for_each {A} (I : S → Prop) (f : A → M S unit) l :
  (∀ x, x ∈ l → triple I (f x) (λ _, I)) → triple I (for_each l f) (λ _, I).
Proof.
  induction l as [|x l IH]; intros Hf; simpl.
  - apply (triple_ret tt (λ _, I)).
  - eapply triple_bind; [apply Hf; left |].
    intros ?. apply IH. intros y Hy. apply Hf. by right.
Qed.

Lemma triple_zoom {T A} (pr : S → T) (put : T → S → S) (m : M T A)
    (P : S → Prop) (P' : T → Prop) (Q' : A → T → Prop) :
  triple P' m Q' → (∀ s, P s → P' (pr s)) →
  triple P (zoom pr put m)
    (λ a s', ∃ s t, P s ∧ Q' a t ∧ s' = put t s).
Proof.
  intros Hm HP s Hs. destruct (Hm (pr s) (HP s Hs)) as (a & t & Hrun & HQ).
  exists a, (put t s). unfold zoom. rewrite Hrun. eauto 8.
Qed.
End monad_lemmas.

(** ** Transition systems *)
Section star.
Context {A : Type} (R : A → A → Prop).

Inductive reachable (a : A) : A → Prop :=
  | reach_refl : reachable a a
  | reach_step b c : reachable a b → R b c → reachable a c.

Lemma reachable_invariant (I : A → Prop) a b :
  I a → (∀ x y, I x → R x y → I y) → reachable a b → I b.
Proof. intros Ha Hstep Hr. induction Hr; eauto. Qed.
End star.

(** ** Machine integers *)
Definition u32 (z : Z) : Z := z mod 2 ^ 32.
Definition u64 (z : Z) : Z := z mod 2 ^ 64.
(** The value of a signed 32-bit [int] after a computation that wraps
    (what the compilers the code is built with produce). *)
Definition i32 (z : Z) : Z := (z + 2 ^ 31) mod 2 ^ 32 - 2 ^ 31.

Lemma u32_range z : (0 ≤ u32 z < 2 ^ 32)%Z.
Proof. apply Z.mod_pos_bound; lia. Qed.

Lemma u32_small z : (0 ≤ z < 2 ^ 32)%Z → u32 z = z.
Proof. apply Z.mod_small. Qed.

Lemma u64_range z : (0 ≤ u64 z < 2 ^ 64)%Z.
Proof. apply Z.mod_pos_bound; lia. Qed.

Lemma u64_small z : (0 ≤ z < 2 ^ 64)%Z → u64 z = z.
Proof. apply Z.mod_small. Qed.

Lemma i32_small z : (- 2 ^ 31 ≤ z < 2 ^ 31)%Z → i32 z = z.
Proof. intros ?. unfold i32. rewrite Z.mod_small; lia. Qed.

(** ** Lists as intrusive queues

    [remove_node x l]: the list after the node of [x] is spliced out of it. *)
Section remove_node.
Context {A : Type} `{EqDecision A}.
Implicit Types (x y : A) (l : list A).

Definition remove_node x l : list A := filter (λ y, y ≠ x) l.

Lemma elem_of_remove_node x y l : y ∈ remove_node x l ↔ y ≠ x ∧ y ∈ l.
Proof. unfold remove_node. by rewrite list_elem_of_filter. Qed.

Lemma remove_node_notin x l : x ∉ l → remove_node x l = l.
Proof.
  unfold remove_node. induction l as [|y l IH]; intros Hx; [done|].
  rewrite filter_cons_True.
  - f_equal. apply IH. set_solver.
  - set_solver.
Qed.

Lemma remove_node_cons x l : x ∉ l → remove_node x (x :: l) = l.
Proof.
  intros. unfold remove_node. rewrite filter_cons_False; [|naive_solver].
  by apply remove_node_notin.
Qed.

Lemma remove_node_app x l1 l2 :
  remove_node x (l1 ++ l2) = remove_node x l1 ++ remove_node x l2.
Proof. apply filter_app. Qed.

Lemma NoDup_remove_node x l : NoDup l → NoDup (remove_node x l).
Proof. apply NoDup_filter. Qed.

Lemma length_remove_node x l : length (remove_node x l) ≤ length l.
Proof. apply length_filter. Qed.

Lemma length_remove_node_in x l :
  NoDup l → x ∈ l → S (length (remove_node x l)) = length l.
Proof.
  induction l as [|y l IH]; [set_solver|].
  rewrite NoDup_cons. intros [Hy Hnd] Hin.
  destruct (decide (y = x)) as [->|Hne].
  - rewrite remove_node_cons by done. done.
  - unfold remove_node. rewrite filter_cons_True by done. simpl.
    rewrite <- IH; [done | done | set_solver].
Qed.
End remove_node.

(** Updating an element of a table that exists. *)
Lemma table_update {A} (l : list A) i x y j :
  l !! i = Some x → <[i := y]> l !! j = if decide (i = j) then Some y else l !! j.
Proof.
  intros Hi%lookup_lt_Some. case_decide as Hij.
  - subst. by apply list_lookup_insert_eq.
  - by apply list_lookup_insert_ne.
Qed.

(** ** Automation shared by the components *)
Create HintDb tinyos.

#[export] Hint Resolve NoDup_remove_node : tinyos.

(** Unfold one layer of the monad in a hypothesis [m s = Ok _]. *)
Ltac inv_bind H :=
  let a := fresh "a" in let s := fresh "s" in let H1 := fresh "Hrun" in
  apply bind_Ok in H as (a & s & H1 & H).

(** The administrative steps of a run. *)
Ltac mstep :=
  repeat first [rewrite run_assoc | rewrite run_ret | rewrite run_get
               | rewrite run_gets | rewrite run_modify].

(** One step of a run by a lemma [m s = Ok (a, s')]. *)
Ltac mrun H := erewrite bind_run by H.

Ltac unfold_monad :=
  unfold c_assert, get_some, when, zoom, get, gets, modify, raise,
    mbind, M_bind, mret, M_ret in *.
