(* ===== verification/Hoare.v ===== *)
(** * Preservation, construct by construct

    [keeps I m Q]: a run of [m] that does not fault keeps the invariant [I], and its
    result satisfies [Q].  Unlike [triple] it says nothing of faults, so that it
    holds of an operation in every state that satisfies [I].  There is a rule for
    each construct of the monad; the rules and the lemmas of the operations are in
    the hint database [keeps], from which [keeps_go] proves the operations that are
    built from them. *)
From S2P Require Import Prelude.

Definition keeps {S A} (I : S → Prop) (m : M S A) (Q : A → Prop) : Prop :=
  ∀ s a s', I s → m s = Ok (a, s') → I s' ∧ Q a.

Create HintDb keeps.

Section rules.
Context {S : Type} (I : S → Prop).

Lemma keeps_ret {A} (a : A) (Q : A → Prop) : Q a → keeps I (mret a) Q.
Proof. intros HQ s a' s' Hs [= <- <-]. done. Qed.

Lemma keeps_bind {A B} (m : M S A) (k : A → M S B) (Q : A → Prop) (R : B → Prop) :
  keeps I m Q → (∀ a, Q a → keeps I (k a) R) → keeps I (m ≫= k) R.
Proof.
  intros Hm Hk s b s' Hs (a & s1 & H1 & H2)%bind_Ok.
  destruct (Hm s a s1 Hs H1) as [Hs1 Ha]. by apply (Hk a Ha s1).
Qed.

(** When the result of the first part does not matter. *)
Lemma keeps_seq {A B} (m : M S A) (k : A → M S B) (R : B → Prop) :
  keeps I m (λ _, True) → (∀ a, keeps I (k a) R) → keeps I (m ≫= k) R.
Proof. intros Hm Hk. by eapply keeps_bind. Qed.

Lemma keeps_weaken {A} (m : M S A) (Q Q' : A → Prop) :
  keeps I m Q → (∀ a, Q a → Q' a) → keeps I m Q'.
Proof. intros Hm HQ s a s' Hs Hr. destruct (Hm s a s' Hs Hr). auto. Qed.

Lemma keeps_True {A} (m : M S A) (Q : A → Prop) : keeps I m Q → keeps I m (λ _, True).
Proof. intros Hm. by eapply keeps_weaken. Qed.

Lemma keeps_get : keeps I get I.
Proof. intros s a s' Hs [= <- <-]. done. Qed.

Lemma keeps_gets {A} (f : S → A) (Q : A → Prop) : (∀ s, I s → Q (f s)) → keeps I (gets f) Q.
Proof. intros HQ s a s' Hs [= <- <-]. auto. Qed.

Lemma keeps_modify (f : S → S) (Q : unit → Prop) :
  (∀ s, I s → I (f s)) → Q tt → keeps I (modify f) Q.
Proof. intros Hf HQ s a s' Hs [= <- <-]. auto. Qed.

Lemma keeps_raise {A} f (Q : A → Prop) : keeps I (raise f) Q.
Proof. intros s a s' Hs [=]. Qed.

Lemma keeps_assert b : keeps I (c_assert b) (λ _, b = true).
Proof. intros s a s' Hs. unfold c_assert. destruct b; [by intros [= _ <-]|by intros [=]]. Qed.

Lemma keeps_some {A} f (o : option A) : keeps I (get_some f o) (λ a, o = Some a).
Proof. intros s a s' Hs. unfold get_some. destruct o; [by intros [= <- <-]|by intros [=]]. Qed.

Lemma keeps_when b m (Q : unit → Prop) :
  (b = true → keeps I m Q) → Q tt → keeps I (when b m) Q.
Proof. intros Hm HQ. destruct b; [by apply Hm|by apply keeps_ret]. Qed.

Lemma keeps_for_each {A} (f : A → M S unit) l :
  (∀ x, x ∈ l → keeps I (f x) (λ _, True)) → keeps I (for_each l f) (λ _, True).
Proof.
  induction l as [|x l IH]; intros Hf; [by apply keeps_ret|].
  cbn [for_each]. eapply keeps_seq; [apply Hf; left|].
  intros ?. apply IH. intros y Hy. apply Hf. by right.
Qed.
End rules.

(** An operation on a component keeps an invariant of the whole that it is the
    component's part of. *)
Lemma keeps_zoom {S T A} (I : S → Prop) (J : T → Prop) pr put (m : M T A) (Q : A → Prop) :
  keeps J m Q → (∀ s, I s → J (pr s)) → (∀ s t, I s → J t → I (put t s)) →
  keeps I (zoom pr put m) Q.
Proof.
  intros Hm Hpr Hput s a s' Hs. unfold zoom.
  destruct (m (pr s)) as [[b t]|f] eqn:Hr; [|by intros [=]]. intros [= <- <-].
  destruct (Hm _ _ _ (Hpr s Hs) Hr). auto.
Qed.

#[export] Hint Resolve keeps_get keeps_raise keeps_assert keeps_some : keeps.

(** The result of a part, and what is known of it. *)
Ltac keeps_intro :=
  let a := fresh "a" in let Ha := fresh "Ha" in intros a Ha; cbv beta in Ha;
  lazymatch type of Ha with
  | True => clear Ha
  | _ ∧ _ => destruct Ha
  | _ => idtac
  end.

(** Splits a composition into its parts; [eauto] looks the operations up. *)
Ltac keeps_step :=
  match goal with
  | |- keeps _ (mret _) _ => apply keeps_ret
  | |- keeps _ (raise _) _ => apply keeps_raise
  | |- keeps _ (when _ _) _ => apply keeps_when; [intros|]
  | |- keeps _ (for_each _ _) (λ _, True) => apply keeps_for_each; intros
  | |- keeps _ (modify _) _ => first [solve [eauto 3 with keeps] | apply keeps_modify; [intros|]]
  | |- keeps _ (gets _) _ => apply keeps_gets; intros
  | |- keeps _ (mbind _ _) _ =>
      first [ eapply keeps_bind; [solve [eauto 5 with keeps]|keeps_intro] | eapply keeps_seq; [|intros ?] ]
  | |- keeps _ (if ?b then _ else _) _ => destruct b eqn:?
  | |- keeps _ (match ?x with _ => _ end) _ => destruct x eqn:?
  | |- keeps _ _ _ =>
      first [ solve [eauto 5 with keeps] | solve [eapply keeps_weaken; [eauto 5 with keeps|simpl; eauto]]
            | eapply keeps_True; solve [eauto 5 with keeps] ]
  end.
Ltac keeps_go := repeat (cbv beta zeta; keeps_step).

Lemma keeps_fmap {S A B} (I : S → Prop) (f : A → B) (m : M S A) (Q : A → Prop) (R : B → Prop) :
  keeps I m Q → (∀ a, Q a → R (f a)) → keeps I (f <$> m) R.
Proof.
  intros Hm HR s b s' Hs. unfold fmap, M_fmap. destruct (m s) as [[a t]|] eqn:Hr; [|by intros [=]].
  intros [= <- <-]. destruct (Hm _ _ _ Hs Hr). auto.
Qed.

(** The state after a successful [fmap]. *)
Lemma fmap_Ok {S A B} (f : A → B) (m : M S A) s b s' :
  (f <$> m) s = Ok (b, s') ↔ ∃ a, m s = Ok (a, s') ∧ b = f a.
Proof.
  unfold fmap, M_fmap. split.
  - destruct (m s) as [[a t]|]; [intros [= <- <-]; by exists a|done].
  - by intros (a & -> & ->).
Qed.
Lemma fmap_run {S A B} (f : A → B) (m : M S A) s a s' : m s = Ok (a, s') → (f <$> m) s = Ok (f a, s').
Proof. unfold fmap, M_fmap. by intros ->. Qed.
