(* ===== verification/RList.v ===== *)
(** * Resource lists: the doubly linked rings of util.h

    Every queue, table list and wait ring of the kernel is built from the
    [rlnode] rings of util.h, whose only primitive is [rl_splice].  This file
    models the nodes in a heap, the operations as the pointer programs they
    are, and proves that they implement operations on Rocq lists.  The
    other components of the development use lists of object names for their
    queues; the theorems of this file are what justifies that. *)
From S2P Require Import Prelude.

(** ** Nodes, heap and operations *)
Definition loc := positive.
Bind Scope positive_scope with loc.

(** [key] is the union of util.h, read as [intptr_t num]; 0 is [NULL]. *)
Record rlnode := RLNode { key : Z; prev : loc; next : loc }.
Abbreviation heap := (gmap loc rlnode).
Abbreviation HM := (M heap).

Definition load (p : loc) : HM rlnode :=
  h ← get; get_some NullDeref (h !! p).
Definition store (p : loc) (n : rlnode) : HM unit :=
  load p ;; modify (<[p := n]>).
Definition set_prev (p q : loc) : HM unit :=
  n ← load p; store p (RLNode (key n) q (next n)).
Definition set_next (p q : loc) : HM unit :=
  n ← load p; store p (RLNode (key n) (prev n) q).
Definition get_prev (p : loc) : HM loc := n ← load p; mret (prev n).
Definition get_next (p : loc) : HM loc := n ← load p; mret (next n).
Definition get_key (p : loc) : HM Z := n ← load p; mret (key n).

(** [rlnode_new(p)] *)
Definition rlnode_new (p : loc) : HM loc :=
  set_next p p ;; set_prev p p ;; mret p.

(** [rlnode_init(p, ptr)] *)
Definition rlnode_init (p : loc) (ptr : Z) : HM loc :=
  rlnode_new p ;;
  n ← load p; store p (RLNode ptr (prev n) (next n)) ;;
  mret p.

(** [rlnode_swap(&(p->prev), &(q->prev))] and the same on [next]. *)
Definition rlnode_swap_prev (p q : loc) : HM unit :=
  temp ← get_prev p; x ← get_prev q; set_prev p x ;; set_prev q temp.
Definition rlnode_swap_next (p q : loc) : HM unit :=
  temp ← get_next p; x ← get_next q; set_next p x ;; set_next q temp.

(** [rl_splice(a, b)] *)
Definition rl_splice (a b : loc) : HM loc :=
  an ← get_next a; bn ← get_next b;
  rlnode_swap_prev an bn ;;
  rlnode_swap_next a b ;;
  mret b.

Definition rlist_remove (a : loc) : HM loc :=
  p ← get_prev a; rl_splice a p ;; mret a.
Definition is_rlist_empty (a : loc) : HM bool :=
  n ← get_next a; mret (bool_decide (a = n)).
Definition rlist_push_front (l node : loc) : HM unit :=
  rl_splice l node ;; mret tt.
Definition rlist_push_back (l node : loc) : HM unit :=
  p ← get_prev l; rl_splice p node ;; mret tt.
Definition rlist_pop_front (l : loc) : HM loc :=
  n ← get_next l; rl_splice l n.
Definition rlist_pop_back (l : loc) : HM loc :=
  p ← get_prev l; rl_splice l p.

(** The loops take fuel; the refinement theorems show that one more than the
    number of nodes is enough.  Running out is reported as [OutOfFuel]. *)
Fixpoint rlist_len_from (fuel : nat) (l p : loc) (count : Z) : HM Z :=
  match fuel with
  | O => raise OutOfFuel
  | S fuel =>
      if decide (p = l) then mret count
      else p' ← get_next p; rlist_len_from fuel l p' (u32 (count + 1))
  end.
Definition rlist_len (fuel : nat) (l : loc) : HM Z :=
  p ← get_next l; rlist_len_from fuel l p 0.

Fixpoint rlist_equal_from (fuel : nat) (L1 L2 i1 i2 : loc) : HM bool :=
  match fuel with
  | O => raise OutOfFuel
  | S fuel =>
      if decide (i1 = L1) then mret (bool_decide (i2 = L2))
      else if decide (i2 = L2) then mret false
      else
        k1 ← get_key i1; k2 ← get_key i2;
        if decide (k1 = k2) then
          i1' ← get_next i1; i2' ← get_next i2;
          rlist_equal_from fuel L1 L2 i1' i2'
        else mret false
  end.
Definition rlist_equal (fuel : nat) (L1 L2 : loc) : HM bool :=
  i1 ← get_next L1; i2 ← get_next L2; rlist_equal_from fuel L1 L2 i1 i2.

Definition rlist_append (ldest lsrc : loc) : HM unit :=
  rlist_push_back ldest lsrc ;; rlist_remove lsrc ;; mret tt.
Definition rlist_prepend (ldest lsrc : loc) : HM unit :=
  rlist_push_front ldest lsrc ;; rlist_remove lsrc ;; mret tt.

(** [do { swap(&p->prev, &p->next); p = p->next; } while(p != l);] *)
Fixpoint rlist_reverse_from (fuel : nat) (l p : loc) : HM unit :=
  match fuel with
  | O => raise OutOfFuel
  | S fuel =>
      n ← load p; store p (RLNode (key n) (next n) (prev n)) ;;
      p' ← get_next p;
      if decide (p' = l) then mret tt else rlist_reverse_from fuel l p'
  end.
Definition rlist_reverse (fuel : nat) (l : loc) : HM unit :=
  rlist_reverse_from fuel l l.

Fixpoint rlist_find_from (fuel : nat) (List : loc) (k : Z) (fail : option loc)
    (i : loc) : HM (option loc) :=
  match fuel with
  | O => raise OutOfFuel
  | S fuel =>
      if decide (i = List) then mret fail
      else
        ki ← get_key i;
        if decide (ki = k) then mret (Some i)
        else i' ← get_next i; rlist_find_from fuel List k fail i'
  end.
(** [rlist_find(List, key, fail)]: the node pointers it returns may be NULL. *)
Definition rlist_find (fuel : nat) (List : loc) (k : Z) (fail : option loc)
  : HM (option loc) :=
  i ← get_next List; rlist_find_from fuel List k fail i.

(** [rlist_select(Lsrc, Ldest, pred)]; [pred] reads the node it is given. *)
Fixpoint rlist_select_from (fuel : nat) (Lsrc Ldest : loc)
    (pred : rlnode → bool) (I : loc) : HM unit :=
  match fuel with
  | O => raise OutOfFuel
  | S fuel =>
      n ← get_next I;
      if decide (n = Lsrc) then mret tt
      else
        nd ← load n;
        if pred nd then
          p ← rlist_remove n;
          rlist_push_back Ldest p ;;
          rlist_select_from fuel Lsrc Ldest pred I
        else rlist_select_from fuel Lsrc Ldest pred n
  end.
Definition rlist_select (fuel : nat) (Lsrc Ldest : loc) (pred : rlnode → bool)
  : HM unit := rlist_select_from fuel Lsrc Ldest pred Lsrc.

(** ** Abstraction: edges, chains, rings *)
Definition next_of (h : heap) (p : loc) : option loc := next <$> h !! p.
Definition prev_of (h : heap) (p : loc) : option loc := prev <$> h !! p.
Definition key_of (h : heap) (p : loc) : option Z := key <$> h !! p.

Definition edge (h : heap) (u v : loc) : Prop :=
  next_of h u = Some v ∧ prev_of h v = Some u.

(** Consecutive elements of the list are linked. *)
Fixpoint chain (h : heap) (l : list loc) : Prop :=
  match l with
  | u :: (v :: _) as l' => edge h u v ∧ chain h l'
  | _ => True
  end.

(** [ring h a xs]: starting from [a], the ring is [a, xs...]. *)
Definition ring (h : heap) (a : loc) (xs : list loc) : Prop :=
  NoDup (a :: xs) ∧ chain h (a :: xs ++ [a]).

(** The heap changed, but no key and no address did. *)
Definition same_keys (h h' : heap) : Prop := ∀ p, key_of h' p = key_of h p.
(** Edges that start outside [P] are kept. *)
Definition keeps_edges (P : loc → Prop) (h h' : heap) : Prop :=
  ∀ u v, ¬ P u → edge h u v → edge h' u v.

(** ** Primitive writes *)
Section writes.
Implicit Types (h : heap) (p q x : loc).

Lemma valid_next h p v : next_of h p = Some v → is_Some (h !! p).
Proof. unfold next_of. intros (n & ? & ?)%fmap_Some. eauto. Qed.
Lemma valid_prev h p v : prev_of h p = Some v → is_Some (h !! p).
Proof. unfold prev_of. intros (n & ? & ?)%fmap_Some. eauto. Qed.

Lemma get_next_run h p v : next_of h p = Some v → get_next p h = Ok (v, h).
Proof.
  unfold next_of, get_next, load. intros (n & Hn & ->)%fmap_Some.
  unfold_monad. by rewrite Hn.
Qed.
Lemma get_prev_run h p v : prev_of h p = Some v → get_prev p h = Ok (v, h).
Proof.
  unfold prev_of, get_prev, load. intros (n & Hn & ->)%fmap_Some.
  unfold_monad. by rewrite Hn.
Qed.
Lemma get_key_run h p v : key_of h p = Some v → get_key p h = Ok (v, h).
Proof.
  unfold key_of, get_key, load. intros (n & Hn & ->)%fmap_Some.
  unfold_monad. by rewrite Hn.
Qed.

Lemma set_prev_run h p q :
  is_Some (h !! p) → ∃ h', set_prev p q h = Ok (tt, h') ∧
    (∀ x, prev_of h' x = if decide (x = p) then Some q else prev_of h x) ∧
    (∀ x, next_of h' x = next_of h x) ∧ same_keys h h'.
Proof.
  intros [n Hn]. exists (<[p := RLNode (key n) q (next n)]> h). split.
  { unfold set_prev, store, load. unfold_monad. by rewrite !Hn. }
  unfold same_keys, prev_of, next_of, key_of.
  split; [|split]; intros x; rewrite lookup_insert;
    repeat case_decide; subst; rewrite ?Hn; done.
Qed.

Lemma set_next_run h p q :
  is_Some (h !! p) → ∃ h', set_next p q h = Ok (tt, h') ∧
    (∀ x, next_of h' x = if decide (x = p) then Some q else next_of h x) ∧
    (∀ x, prev_of h' x = prev_of h x) ∧ same_keys h h'.
Proof.
  intros [n Hn]. exists (<[p := RLNode (key n) (prev n) q]> h). split.
  { unfold set_next, store, load. unfold_monad. by rewrite !Hn. }
  unfold same_keys, prev_of, next_of, key_of.
  split; [|split]; intros x; rewrite lookup_insert;
    repeat case_decide; subst; rewrite ?Hn; done.
Qed.

Lemma same_keys_trans h1 h2 h3 :
  same_keys h1 h2 → same_keys h2 h3 → same_keys h1 h3.
Proof. unfold same_keys. intros H1 H2 p. by rewrite H2. Qed.

Lemma swap_prev_run h p q vp vq :
  prev_of h p = Some vp → prev_of h q = Some vq →
  ∃ h', rlnode_swap_prev p q h = Ok (tt, h') ∧
    (∀ x, prev_of h' x = if decide (x = q) then Some vp
                         else if decide (x = p) then Some vq else prev_of h x) ∧
    (∀ x, next_of h' x = next_of h x) ∧ same_keys h h'.
Proof.
  intros Hp Hq.
  destruct (set_prev_run h p vq) as (h1 & Hr1 & Hp1 & Hn1 & Hk1);
    [by eapply valid_prev|].
  destruct (set_prev_run h1 q vp) as (h2 & Hr2 & Hp2 & Hn2 & Hk2).
  { pose proof (Hp1 q) as Hq1. rewrite Hq in Hq1.
    destruct (decide (q = p)); eapply valid_prev, Hq1. }
  exists h2. split.
  { unfold rlnode_swap_prev.
    rewrite (bind_run _ _ _ _ _ (get_prev_run _ _ _ Hp)).
    rewrite (bind_run _ _ _ _ _ (get_prev_run _ _ _ Hq)).
    by rewrite (bind_run _ _ _ _ _ Hr1). }
  split; [|split].
  - intros x. by rewrite Hp2, Hp1.
  - intros x. by rewrite Hn2, Hn1.
  - by eapply same_keys_trans.
Qed.

Lemma swap_next_run h p q vp vq :
  next_of h p = Some vp → next_of h q = Some vq →
  ∃ h', rlnode_swap_next p q h = Ok (tt, h') ∧
    (∀ x, next_of h' x = if decide (x = q) then Some vp
                         else if decide (x = p) then Some vq else next_of h x) ∧
    (∀ x, prev_of h' x = prev_of h x) ∧ same_keys h h'.
Proof.
  intros Hp Hq.
  destruct (set_next_run h p vq) as (h1 & Hr1 & Hp1 & Hn1 & Hk1);
    [by eapply valid_next|].
  destruct (set_next_run h1 q vp) as (h2 & Hr2 & Hp2 & Hn2 & Hk2).
  { pose proof (Hp1 q) as Hq1. rewrite Hq in Hq1.
    destruct (decide (q = p)); eapply valid_next, Hq1. }
  exists h2. split.
  { unfold rlnode_swap_next.
    rewrite (bind_run _ _ _ _ _ (get_next_run _ _ _ Hp)).
    rewrite (bind_run _ _ _ _ _ (get_next_run _ _ _ Hq)).
    by rewrite (bind_run _ _ _ _ _ Hr1). }
  split; [|split].
  - intros x. by rewrite Hp2, Hp1.
  - intros x. by rewrite Hn2, Hn1.
  - by eapply same_keys_trans.
Qed.
End writes.

(** ** Splicing, on edges

    The two edges out of [a] and [b] exchange their targets and every other
    edge is kept.  [a = b] is allowed, and then nothing changes. *)
Lemma rl_splice_edges h a b an bn :
  edge h a an → edge h b bn →
  ∃ h', rl_splice a b h = Ok (b, h') ∧ edge h' a bn ∧ edge h' b an ∧
    keeps_edges (λ u, u = a ∨ u = b) h h' ∧ same_keys h h'.
Proof.
  intros [Ha Han] [Hb Hbn].
  destruct (swap_prev_run h an bn a b Han Hbn) as (h1 & Hr1 & Hp1 & Hn1 & Hk1).
  destruct (swap_next_run h1 a b an bn) as (h2 & Hr2 & Hn2 & Hp2 & Hk2);
    [by rewrite Hn1 .. |].
  exists h2. split.
  { unfold rl_splice.
    rewrite (bind_run _ _ _ _ _ (get_next_run _ _ _ Ha)).
    rewrite (bind_run _ _ _ _ _ (get_next_run _ _ _ Hb)).
    rewrite (bind_run _ _ _ _ _ Hr1). by rewrite (bind_run _ _ _ _ _ Hr2). }
  assert (Hab : an = bn → a = b) by (intros ->; congruence).
  unfold edge, keeps_edges. rewrite !Hn2, !Hp2, !Hp1.
  split; [|split; [|split]].
  - split; repeat case_decide; simplify_eq; auto.
  - split; repeat case_decide; simplify_eq; auto.
  - intros u v Hu [Hnu Hpv]. assert (u ≠ a ∧ u ≠ b) as [Hua Hub] by tauto.
    assert (v ≠ an) by congruence. assert (v ≠ bn) by congruence.
    split; [rewrite Hn2, !decide_False, Hn1 by done
           |rewrite Hp2, Hp1, !decide_False by done]; done.
  - by eapply same_keys_trans.
Qed.

(** ** Chains and rings *)
Lemma chain_app h l1 x l2 :
  chain h (l1 ++ x :: l2) ↔ chain h (l1 ++ [x]) ∧ chain h (x :: l2).
Proof.
  induction l1 as [|y l1 IH]; simpl; [tauto|].
  destruct l1 as [|z l1]; simpl in *; tauto.
Qed.

Lemma chain_cons h a l z :
  chain h (a :: l ++ [z]) ↔ edge h a (default z (head l)) ∧ chain h (l ++ [z]).
Proof. destruct l; simpl; tauto. Qed.

Lemma chain_keeps P h h' l z :
  keeps_edges P h h' → (∀ u, u ∈ l → ¬ P u) →
  chain h (l ++ [z]) → chain h' (l ++ [z]).
Proof.
  intros Hk. induction l as [|u l IH]; intros HP Hc; [done|].
  simpl app in *. apply chain_cons in Hc as [He Hc]. apply chain_cons. split.
  - apply Hk; [|done]. apply HP. left.
  - apply IH; [|done]. intros v Hv. apply HP. by right.
Qed.

Lemma ring_keeps P h h' a xs :
  keeps_edges P h h' → (∀ u, u ∈ a :: xs → ¬ P u) → ring h a xs → ring h' a xs.
Proof.
  intros Hk HP [Hnd Hc]. split; [done|].
  exact (chain_keeps P h h' (a :: xs) a Hk HP Hc).
Qed.

Lemma ring_rotate h a xs b ys :
  ring h a (xs ++ b :: ys) → ring h b (ys ++ a :: xs).
Proof.
  intros [Hnd Hc]. split.
  - assert (b :: ys ++ a :: xs ≡ₚ a :: xs ++ b :: ys) as -> by solve_Permutation.
    done.
  - rewrite <-app_assoc in Hc. cbn [app] in Hc.
    rewrite app_comm_cons in Hc. apply chain_app in Hc as [H1 H2].
    rewrite <-app_assoc. cbn [app]. rewrite app_comm_cons. by apply chain_app.
Qed.

Lemma ring_next h a xs : ring h a xs → next_of h a = Some (default a (head xs)).
Proof. intros [_ Hc]. by apply chain_cons in Hc as [[? _] _]. Qed.

Lemma ring_prev h a xs p : ring h a (xs ++ [p]) → prev_of h a = Some p.
Proof.
  intros [_ Hc]. rewrite <-app_assoc in Hc.
  apply (chain_app h (a :: xs) p [a]) in Hc as [_ [[_ ?] _]]. done.
Qed.

Lemma ring_prev_nil h a : ring h a [] → prev_of h a = Some a.
Proof. intros [_ [[_ ?] _]]. done. Qed.

(** *** The two cases of a splice, as the comment of util.h draws them:
    [[a, x...] [b, y...] ==> [a, y..., b, x...]]. *)
Lemma rl_splice_join h a xs b ys :
  ring h a xs → ring h b ys → (a :: xs) ## (b :: ys) →
  ∃ h', rl_splice a b h = Ok (b, h') ∧ ring h' a (ys ++ b :: xs) ∧
    keeps_edges (λ u, u = a ∨ u = b) h h' ∧ same_keys h h'.
Proof.
  intros [Hnda Ha] [Hndb Hb] Hd.
  apply chain_cons in Ha as [Ea Ha]. apply chain_cons in Hb as [Eb Hb].
  destruct (rl_splice_edges h a b _ _ Ea Eb) as (h' & Hr & E1 & E2 & Hk & Hs).
  exists h'. split; [done|]. split; [|done]. split.
  - assert (NoDup ((a :: xs) ++ (b :: ys))) as Hnd.
    { apply NoDup_app. split; [done|]. split; [|done].
      intros x ??. by eapply Hd. }
    assert (a :: ys ++ b :: xs ≡ₚ (a :: xs) ++ (b :: ys)) as ->
      by solve_Permutation. done.
  - rewrite <-app_assoc. apply (chain_app h' (a :: ys) b (xs ++ [a])). split.
    + apply (chain_cons h' a ys b). split; [done|].
      eapply chain_keeps; [done| |done]. apply NoDup_cons in Hndb. set_solver.
    + apply chain_cons. split; [done|].
      eapply chain_keeps; [done| |done]. apply NoDup_cons in Hnda. set_solver.
Qed.

(** [[a, x..., b, y...] ==> [a, y...] [b, x...]]. *)
Lemma rl_splice_split h a xs b ys :
  ring h a (xs ++ b :: ys) →
  ∃ h', rl_splice a b h = Ok (b, h') ∧ ring h' a ys ∧ ring h' b xs ∧
    keeps_edges (λ u, u = a ∨ u = b) h h' ∧ same_keys h h'.
Proof.
  intros [Hnd Hc]. rewrite <-app_assoc in Hc.
  apply (chain_app h (a :: xs) b (ys ++ [a])) in Hc as [Ha Hb].
  apply (chain_cons h a xs b) in Ha as [Ea Ha]. apply chain_cons in Hb as [Eb Hb].
  destruct (rl_splice_edges h a b _ _ Ea Eb) as (h' & Hr & E1 & E2 & Hk & Hs).
  apply NoDup_cons in Hnd as [Hna Hnd]. apply NoDup_app in Hnd as (Hx & Hxy & Hy).
  apply NoDup_cons in Hy as [Hby Hy].
  exists h'. split; [done|]. split; [|split; [|done]]; split.
  - apply NoDup_cons. set_solver.
  - apply chain_cons. split; [done|].
    eapply chain_keeps; [done| |done]. set_solver.
  - apply NoDup_cons. split; [|done]. intros ?. by apply (Hxy b); [|left].
  - apply chain_cons. split; [done|].
    eapply chain_keeps; [done| |done].
    intros u Hu [->| ->]; [set_solver|]. by apply (Hxy b); [|left].
Qed.

(** A splice of a node with itself changes no edge. *)
Lemma rl_splice_self h a xs :
  ring h a xs →
  ∃ h', rl_splice a a h = Ok (a, h') ∧
    (∀ u v, edge h u v → edge h' u v) ∧ same_keys h h'.
Proof.
  intros [Hnd Hc]. apply chain_cons in Hc as [Ea Hc].
  destruct (rl_splice_edges h a a _ _ Ea Ea) as (h' & Hr & E1 & _ & Hk & Hs).
  exists h'. split; [done|]. split; [|done].
  intros u v He. destruct (decide (u = a)) as [->|]; [|apply Hk; naive_solver].
  destruct He as [Hn _], Ea as [Hn' _]. congruence.
Qed.

Lemma ring_all h h' a xs :
  (∀ u v, edge h u v → edge h' u v) → ring h a xs → ring h' a xs.
Proof. intros Hk. apply (ring_keeps (λ _, False)); [|tauto]. intros u v _. auto. Qed.

(** ** The list operations

    A list with sentinel [L] and nodes [xs] is [ring h L xs].  [frame h h' P]:
    the rings that have no node in [P] are left alone, and so are all keys. *)
Definition frame (h h' : heap) (P : list loc) : Prop :=
  same_keys h h' ∧ ∀ a xs, ring h a xs → (∀ u, u ∈ a :: xs → u ∉ P) → ring h' a xs.

Lemma frame_splice h h' a b P :
  keeps_edges (λ u, u = a ∨ u = b) h h' → same_keys h h' → a ∈ P → b ∈ P →
  frame h h' P.
Proof.
  intros Hk Hs Ha Hb. split; [done|]. intros c zs Hr Hd.
  eapply ring_keeps; [exact Hk| |done]. intros u Hu [->| ->]; by eapply Hd.
Qed.

Lemma frame_trans h1 h2 h3 P : frame h1 h2 P → frame h2 h3 P → frame h1 h3 P.
Proof.
  intros [H1 F1] [H2 F2]. split; [by eapply same_keys_trans|]. auto.
Qed.

Lemma is_rlist_empty_spec h L xs :
  ring h L xs → is_rlist_empty L h = Ok (bool_decide (xs = []), h).
Proof.
  intros Hr. unfold is_rlist_empty.
  rewrite (bind_run _ _ _ _ _ (get_next_run _ _ _ (ring_next _ _ _ Hr))).
  unfold mret, M_ret. do 3 f_equal. destruct Hr as [[HL _]%NoDup_cons _].
  destruct xs as [|x xs]; [by rewrite !bool_decide_true|].
  rewrite !bool_decide_false; [done|done|]. simpl. set_solver.
Qed.

Lemma rlist_push_front_spec h L xs n :
  ring h L xs → ring h n [] → n ∉ L :: xs →
  ∃ h', rlist_push_front L n h = Ok (tt, h') ∧ ring h' L (n :: xs) ∧
    frame h h' (n :: L :: xs).
Proof.
  intros HL Hn Hd.
  destruct (rl_splice_join h L xs n [] HL Hn) as (h' & Hr & Hring & Hk & Hs);
    [set_solver|].
  exists h'. unfold rlist_push_front. rewrite (bind_run _ _ _ _ _ Hr).
  split; [done|]. split; [done|]. eapply frame_splice; set_solver.
Qed.

(** The ring of [n] may have other nodes: [push_back(L, n)] then moves them all,
    the use [rlist_append] makes of it. *)
Lemma rlist_push_back_ring h L xs n ys :
  ring h L xs → ring h n ys → (L :: xs) ## (n :: ys) →
  ∃ h', rlist_push_back L n h = Ok (tt, h') ∧ ring h' L (xs ++ ys ++ [n]) ∧
    frame h h' (n :: L :: xs).
Proof.
  intros HL Hn Hd. unfold rlist_push_back.
  destruct xs as [|p xs' _] using rev_ind.
  - rewrite (bind_run _ _ _ _ _ (get_prev_run _ _ _ (ring_prev_nil _ _ HL))).
    destruct (rl_splice_join h L [] n ys HL Hn Hd) as (h' & Hr & Hring & Hk & Hs).
    exists h'. rewrite (bind_run _ _ _ _ _ Hr). split; [done|]. split; [done|].
    eapply frame_splice; set_solver.
  - rewrite (bind_run _ _ _ _ _ (get_prev_run _ _ _ (ring_prev _ _ _ _ HL))).
    apply ring_rotate in HL as Hp. cbn [app] in Hp.
    destruct (rl_splice_join h p (L :: xs') n ys Hp Hn)
      as (h' & Hr & Hring & Hk & Hs); [set_solver|].
    exists h'. rewrite (bind_run _ _ _ _ _ Hr). split; [done|]. split.
    + rewrite <-app_assoc. apply (ring_rotate h' p (ys ++ [n])).
      rewrite <-app_assoc. done.
    + eapply frame_splice; set_solver.
Qed.

Lemma frame_mono h h' P P' : frame h h' P → P ⊆ P' → frame h h' P'.
Proof. intros [Hs Hf] HP. split; [done|]. intros a xs Hr Hd. apply Hf; set_solver. Qed.

Lemma rlist_pop_front_spec h L x xs :
  ring h L (x :: xs) →
  ∃ h', rlist_pop_front L h = Ok (x, h') ∧ ring h' L xs ∧ ring h' x [] ∧
    frame h h' (L :: x :: xs).
Proof.
  intros HL. unfold rlist_pop_front.
  rewrite (bind_run _ _ _ _ _ (get_next_run _ _ _ (ring_next _ _ _ HL))). simpl.
  destruct (rl_splice_split h L [] x xs HL) as (h' & Hr & H1 & H2 & Hk & Hs).
  exists h'. do 3 (split; [done|]). eapply frame_splice; set_solver.
Qed.

Lemma rlist_pop_front_nil h L :
  ring h L [] →
  ∃ h', rlist_pop_front L h = Ok (L, h') ∧ same_keys h h' ∧
    ∀ a xs, ring h a xs → ring h' a xs.
Proof.
  intros HL. unfold rlist_pop_front.
  rewrite (bind_run _ _ _ _ _ (get_next_run _ _ _ (ring_next _ _ _ HL))). simpl.
  destruct (rl_splice_self h L [] HL) as (h' & Hr & He & Hs).
  exists h'. split; [done|]. split; [done|]. intros a xs. by apply ring_all.
Qed.

(** [rlist_pop_back] splices [L] with its predecessor, so the ring that is left
    around [L] is the singleton: the list becomes empty and the other nodes
    stay in the ring of the node that is returned. *)
Lemma pop_back_ring h L xs x :
  ring h L (xs ++ [x]) →
  ∃ h', rlist_pop_back L h = Ok (x, h') ∧ ring h' L [] ∧ ring h' x xs ∧
    frame h h' [L; x].
Proof.
  intros HL. unfold rlist_pop_back.
  rewrite (bind_run _ _ _ _ _ (get_prev_run _ _ _ (ring_prev _ _ _ _ HL))).
  destruct (rl_splice_split h L xs x [] HL) as (h' & Hr & H1 & H2 & Hk & Hs).
  exists h'. do 3 (split; [done|]). eapply frame_splice; set_solver.
Qed.

(** Removing a node of a list makes it a singleton and leaves the other nodes
    in their order. *)
Lemma rlist_remove_spec h L xs n zs :
  ring h L (xs ++ n :: zs) →
  ∃ h', rlist_remove n h = Ok (n, h') ∧ ring h' L (xs ++ zs) ∧ ring h' n [] ∧
    frame h h' (L :: xs ++ n :: zs).
Proof.
  intros HL. unfold rlist_remove. apply ring_rotate in HL as Hn.
  destruct xs as [|p xs' _] using rev_ind; cbn [app] in *.
  - rewrite (bind_run _ _ _ _ _ (get_prev_run _ _ _ (ring_prev _ _ _ _ Hn))).
    destruct (rl_splice_split h n zs L [] Hn) as (h' & Hr & H1 & H2 & Hk & Hs).
    exists h'. rewrite (bind_run _ _ _ _ _ Hr). do 3 (split; [done|]).
    eapply frame_splice; set_solver.
  - rewrite app_comm_cons, app_assoc in Hn.
    rewrite (bind_run _ _ _ _ _ (get_prev_run _ _ _ (ring_prev _ _ _ _ Hn))).
    destruct (rl_splice_split h n _ p [] Hn) as (h' & Hr & H1 & H2 & Hk & Hs).
    exists h'. rewrite (bind_run _ _ _ _ _ Hr). split; [done|].
    split; [|split; [done|eapply frame_splice; set_solver]].
    rewrite <-app_assoc. by apply ring_rotate.
Qed.

(** A singleton is not changed. *)
Lemma rlist_remove_singleton h n :
  ring h n [] →
  ∃ h', rlist_remove n h = Ok (n, h') ∧ same_keys h h' ∧
    ∀ a xs, ring h a xs → ring h' a xs.
Proof.
  intros Hn. unfold rlist_remove.
  rewrite (bind_run _ _ _ _ _ (get_prev_run _ _ _ (ring_prev_nil _ _ Hn))).
  destruct (rl_splice_self h n [] Hn) as (h' & Hr & He & Hs).
  exists h'. rewrite (bind_run _ _ _ _ _ Hr). split; [done|]. split; [done|].
  intros a xs. by apply ring_all.
Qed.

Lemma rlist_push_back_spec h L xs n :
  ring h L xs → ring h n [] → n ∉ L :: xs →
  ∃ h', rlist_push_back L n h = Ok (tt, h') ∧ ring h' L (xs ++ [n]) ∧
    frame h h' (n :: L :: xs).
Proof.
  intros HL Hn Hd.
  apply (rlist_push_back_ring h L xs n [] HL Hn). set_solver.
Qed.

Lemma rlist_append_ring h L xs S ys :
  ring h L xs → ring h S ys → (L :: xs) ## (S :: ys) →
  ∃ h', rlist_append L S h = Ok (tt, h') ∧ ring h' L (xs ++ ys) ∧ ring h' S [] ∧
    frame h h' ((L :: xs) ++ (S :: ys)).
Proof.
  intros HL HS Hd. unfold rlist_append.
  destruct (rlist_push_back_ring h L xs S ys HL HS Hd) as (h1 & Hr1 & HL1 & Hf1).
  rewrite (bind_run _ _ _ _ _ Hr1). rewrite app_assoc in HL1.
  destruct (rlist_remove_spec h1 L _ S [] HL1) as (h2 & Hr2 & HL2 & HS2 & Hf2).
  rewrite (bind_run _ _ _ _ _ Hr2). rewrite app_nil_r in HL2.
  exists h2. do 3 (split; [done|]).
  eapply frame_trans; eapply frame_mono; [done| |done|]; set_solver.
Qed.

Lemma rlist_prepend_ring h L xs S ys :
  ring h L xs → ring h S ys → (L :: xs) ## (S :: ys) →
  ∃ h', rlist_prepend L S h = Ok (tt, h') ∧ ring h' L (ys ++ xs) ∧ ring h' S [] ∧
    frame h h' ((L :: xs) ++ (S :: ys)).
Proof.
  intros HL HS Hd. unfold rlist_prepend.
  destruct (rl_splice_join h L xs S ys HL HS Hd) as (h1 & Hr1 & HL1 & Hk1 & Hs1).
  assert (Hp : rlist_push_front L S h = Ok (tt, h1)).
  { unfold rlist_push_front. by rewrite (bind_run _ _ _ _ _ Hr1). }
  rewrite (bind_run _ _ _ _ _ Hp).
  destruct (rlist_remove_spec h1 L ys S xs HL1) as (h2 & Hr2 & HL2 & HS2 & Hf2).
  rewrite (bind_run _ _ _ _ _ Hr2).
  exists h2. do 3 (split; [done|]).
  eapply frame_trans; [eapply frame_splice; [done|done|set_solver..]|].
  eapply frame_mono; [done|set_solver].
Qed.

(** ** The loops over a list *)
Lemma ring_next_mid h L xs x ys :
  ring h L (xs ++ x :: ys) → next_of h x = Some (default L (head ys)).
Proof. intros ->%ring_rotate%ring_next. by destruct ys. Qed.

Lemma ring_mid_ne h L xs x ys : ring h L (xs ++ x :: ys) → x ≠ L.
Proof. intros [[HL _]%NoDup_cons _] ->. set_solver. Qed.

Lemma ring_valid h L xs x : ring h L xs → x ∈ L :: xs → ∃ k, key_of h x = Some k.
Proof.
  intros Hr Hx. unfold key_of.
  assert (is_Some (h !! x)) as [n ->]; [|by exists (key n)].
  apply elem_of_cons in Hx as [->|(xs1 & xs2 & ->)%list_elem_of_split].
  - eapply valid_next, ring_next, Hr.
  - eapply valid_next, ring_next_mid, Hr.
Qed.

Lemma rlist_len_from_spec h L ys : ∀ fuel xs count,
  ring h L (xs ++ ys) → (length ys < fuel)%nat → (0 ≤ count < 2 ^ 32)%Z →
  rlist_len_from fuel L (default L (head ys)) count h
    = Ok (u32 (count + Z.of_nat (length ys)), h).
Proof.
  induction ys as [|y ys IH]; intros fuel xs count Hr Hf Hc;
    (destruct fuel as [|fuel]; [simpl in Hf; lia|]); simpl.
  - rewrite decide_True by done. rewrite Z.add_0_r, u32_small by lia. done.
  - rewrite decide_False by (by eapply ring_mid_ne).
    rewrite (bind_run _ _ _ _ _ (get_next_run _ _ _ (ring_next_mid _ _ _ _ _ Hr))).
    rewrite (cons_middle y xs ys), app_assoc in Hr.
    rewrite (IH _ _ _ Hr); [|simpl in Hf; lia|apply u32_range].
    unfold u32. rewrite Zplus_mod_idemp_l. do 3 f_equal. lia.
Qed.

(** The first node of [xs] whose key is [k]. *)
Definition find_key (h : heap) (k : Z) (xs : list loc) : option loc :=
  snd <$> list_find (λ x, key_of h x = Some k) xs.

Lemma rlist_find_from_spec h L k fail ys : ∀ fuel xs,
  ring h L (xs ++ ys) → (length ys < fuel)%nat →
  rlist_find_from fuel L k fail (default L (head ys)) h
    = Ok (match find_key h k ys with Some x => Some x | None => fail end, h).
Proof.
  induction ys as [|y ys IH]; intros fuel xs Hr Hf;
    (destruct fuel as [|fuel]; [simpl in Hf; lia|]); simpl.
  - by rewrite decide_True.
  - rewrite decide_False by (by eapply ring_mid_ne).
    destruct (ring_valid h L _ y Hr) as [ky Hky]; [set_solver|].
    rewrite (bind_run _ _ _ _ _ (get_key_run _ _ _ Hky)). unfold find_key. simpl.
    destruct (decide (ky = k)) as [->|Hne].
    + by rewrite decide_True.
    + rewrite decide_False by congruence.
      rewrite (bind_run _ _ _ _ _ (get_next_run _ _ _ (ring_next_mid _ _ _ _ _ Hr))).
      rewrite (cons_middle y xs ys), app_assoc in Hr.
      rewrite (IH _ _ Hr) by (simpl in Hf; lia). unfold find_key.
      by destruct (list_find _ ys) as [[i x]|].
Qed.

Lemma rlist_equal_from_spec h L1 L2 ys1 : ∀ fuel xs1 xs2 ys2,
  ring h L1 (xs1 ++ ys1) → ring h L2 (xs2 ++ ys2) → (length ys1 < fuel)%nat →
  rlist_equal_from fuel L1 L2 (default L1 (head ys1)) (default L2 (head ys2)) h
    = Ok (bool_decide (key_of h <$> ys1 = key_of h <$> ys2), h).
Proof.
  induction ys1 as [|y1 ys1 IH]; intros fuel xs1 xs2 ys2 Hr1 Hr2 Hf;
    (destruct fuel as [|fuel]; [simpl in Hf; lia|]); simpl.
  - rewrite decide_True by done. destruct ys2 as [|y2 ys2]; simpl; [by rewrite !bool_decide_true|].
    rewrite !bool_decide_false; try done. by eapply ring_mid_ne.
  - rewrite decide_False by (by eapply ring_mid_ne).
    destruct ys2 as [|y2 ys2]; simpl; [by rewrite decide_True|].
    rewrite decide_False by (by eapply ring_mid_ne).
    destruct (ring_valid h L1 _ y1 Hr1) as [k1 Hk1]; [set_solver|].
    destruct (ring_valid h L2 _ y2 Hr2) as [k2 Hk2]; [set_solver|].
    rewrite (bind_run _ _ _ _ _ (get_key_run _ _ _ Hk1)).
    rewrite (bind_run _ _ _ _ _ (get_key_run _ _ _ Hk2)).
    destruct (decide (k1 = k2)) as [->|Hne].
    + rewrite (bind_run _ _ _ _ _ (get_next_run _ _ _ (ring_next_mid _ _ _ _ _ Hr1))).
      rewrite (bind_run _ _ _ _ _ (get_next_run _ _ _ (ring_next_mid _ _ _ _ _ Hr2))).
      rewrite (cons_middle y1), app_assoc in Hr1.
      rewrite (cons_middle y2), app_assoc in Hr2.
      rewrite (IH _ _ _ _ Hr1 Hr2) by (simpl in Hf; lia).
      do 2 f_equal. apply bool_decide_ext. rewrite Hk1, Hk2.
      split; [intros E; f_equal; exact E|intros [= E]; exact E].
    + unfold mret, M_ret. do 2 f_equal. rewrite bool_decide_false; [done|congruence].
Qed.

(** Reversing: every node of the ring exchanges its two pointers. *)
Definition flipped (h h' : heap) (P : loc → Prop) : Prop :=
  ∀ u, (P u → next_of h' u = prev_of h u ∧ prev_of h' u = next_of h u) ∧
       (¬ P u → h' !! u = h !! u).

Fixpoint prev_path (h : heap) (l : list loc) : Prop :=
  match l with
  | x :: (y :: _) as l' => prev_of h x = Some y ∧ prev_path h l'
  | _ => True
  end.

Lemma prev_path_ext h h' l z :
  (∀ u, u ∈ l → prev_of h' u = prev_of h u) →
  prev_path h (l ++ [z]) → prev_path h' (l ++ [z]).
Proof.
  induction l as [|x l IH]; intros Hu Hp; [done|].
  destruct l as [|y l]; simpl in *; rewrite Hu by left; [done|].
  destruct Hp as [? Hp]. split; [done|]. apply IH; [|done].
  intros u ?. apply Hu. by right.
Qed.

Lemma rlist_reverse_from_spec L ps : ∀ h fuel p,
  NoDup (p :: ps) → L ∉ ps → (length ps < fuel)%nat →
  prev_path h (p :: ps ++ [L]) →
  ∃ h', rlist_reverse_from fuel L p h = Ok (tt, h') ∧ same_keys h h' ∧
    flipped h h' (λ u, u ∈ p :: ps).
Proof.
  induction ps as [|q ps IH]; intros h fuel p Hnd HL Hf Hp;
    (destruct fuel as [|fuel]; [simpl in Hf; lia|]).
  all: destruct Hp as [Hp Hpath].
  all: assert (∃ n, h !! p = Some n) as [n Hn] by (by eapply valid_prev).
  all: assert (prev_of h p = Some (prev n)) as Hpn by (unfold prev_of; by rewrite Hn).
  all: simpl; unfold load, store, get_next, load; unfold_monad; rewrite !Hn;
    rewrite lookup_insert_eq; simpl.
  all: set (h1 := <[p:=RLNode (key n) (next n) (prev n)]> h).
  all: assert (same_keys h h1) as Hk1
    by (intros x; unfold key_of, h1; rewrite lookup_insert; case_decide; subst;
        by rewrite ?Hn).
  all: assert (flipped h h1 (λ u, u = p)) as Hfl1
    by (intros u; unfold next_of, prev_of, h1; rewrite lookup_insert;
        case_decide; subst; rewrite ?Hn; naive_solver).
  - simplify_eq. rewrite decide_True by congruence. exists h1. split; [done|].
    split; [done|]. intros u. destruct (Hfl1 u). set_solver.
  - assert (prev n = q) as -> by congruence.
    apply NoDup_cons in Hnd as [Hpq Hnd]. rewrite decide_False by set_solver.
    destruct (IH h1 fuel q) as (h' & Hr & Hs & Hfl); [done|set_solver|simpl in Hf; lia| |].
    { eapply (prev_path_ext h h1 (q :: ps)); [|done]. intros u Hu. unfold prev_of.
      destruct (Hfl1 u) as [_ ->]; [done|]. set_solver. }
    exists h'. split; [done|]. split; [by eapply same_keys_trans|].
    intros u. destruct (Hfl1 u) as [F1 F2], (Hfl u) as [G1 G2].
    destruct (decide (u = p)) as [->|Hne].
    + unfold next_of, prev_of in *. rewrite G2 by done. set_solver.
    + rewrite F2 in G2 by done. unfold next_of, prev_of in *.
      rewrite F2 in G1 by done. set_solver.
Qed.

Lemma chain_prev_path h l : chain h l → prev_path h (rev l).
Proof.
  induction l as [|x l IH]; [done|]. destruct l as [|y l]; [done|].
  intros [[_ He] Hc]. apply IH in Hc. simpl rev in *. clear IH.
  revert Hc. generalize (rev l) as r. clear l. intros r.
  induction r as [|z r IH]; [simpl; tauto|].
  destruct r; simpl in *; tauto.
Qed.

Lemma chain_rev h h' P l :
  flipped h h' P → (∀ u, u ∈ l → P u) → chain h l → chain h' (rev l).
Proof.
  intros Hfl. induction l as [|x l IH]; [done|]. destruct l as [|y l]; [done|].
  intros HP [[Hn Hp] Hc]. simpl rev. rewrite <-app_assoc. simpl. apply chain_app. split.
  - apply IH; [|done]. intros u ?. apply HP. by right.
  - split; [|done]. destruct (Hfl x) as [Hx _], (Hfl y) as [Hy _].
    destruct Hx as [_ Hx]; [apply HP; left|]. destruct Hy as [Hy _]; [apply HP; right; left|].
    split; congruence.
Qed.

Lemma chain_ext h h' l :
  (∀ u, u ∈ l → h' !! u = h !! u) → chain h l → chain h' l.
Proof.
  induction l as [|x l IH]; intros Hu Hc; [done|]. destruct l as [|y l]; [done|].
  destruct Hc as [He Hc]. split.
  - unfold edge, next_of, prev_of. rewrite !Hu by set_solver. done.
  - apply IH; [|done]. intros u ?. apply Hu. by right.
Qed.

Lemma rlist_reverse_ring h L xs fuel :
  ring h L xs → (length xs < fuel)%nat →
  ∃ h', rlist_reverse fuel L h = Ok (tt, h') ∧ ring h' L (rev xs) ∧
    frame h h' (L :: xs).
Proof.
  intros [Hnd Hc] Hf. apply chain_prev_path in Hc as Hpp.
  assert (Hrev : rev (L :: xs ++ [L]) = L :: rev xs ++ [L])
    by (simpl; rewrite rev_app_distr; done).
  assert (Hp : rev xs ≡ₚ xs) by (symmetry; apply Permutation_rev).
  rewrite Hrev in Hpp.
  assert (NoDup (L :: rev xs)) as Hnd' by (by rewrite Hp).
  destruct (rlist_reverse_from_spec L (rev xs) h fuel L) as (h' & Hr & Hs & Hfl).
  { done. }
  { by apply NoDup_cons in Hnd' as [? _]. }
  { by rewrite length_rev. }
  { done. }
  exists h'. split; [done|]. split; [split; [done|]|split; [done|]].
  - change (chain h' (L :: rev xs ++ [L])). rewrite <-Hrev.
    eapply chain_rev; [done| |done]. intros u Hu.
    assert (u ∈ rev xs ↔ u ∈ xs) by (by rewrite Hp). set_solver.
  - intros a zs [Hnda Ha] Hd. split; [done|].
    eapply chain_ext; [|done]. intros u Hu.
    assert (u ∈ rev xs ↔ u ∈ xs) by (by rewrite Hp).
    destruct (Hfl u) as [_ ->]; [done|]. specialize (Hd u). set_solver.
Qed.

(** [rlist_select] with a predicate on keys: the position [I] of the loop is the
    sentinel, or the last of the nodes [xs] that were visited and kept. *)
Lemma ring_next_last h L xs ys I pre :
  L :: xs = pre ++ [I] → ring h L (xs ++ ys) →
  next_of h I = Some (default L (head ys)).
Proof.
  intros HI Hr. destruct xs as [|x xs _] using rev_ind.
  - destruct pre as [|? [|]]; simplify_eq/=. by apply ring_next.
  - rewrite app_comm_cons in HI. apply app_inj_tail in HI as [_ ->].
    rewrite <-app_assoc in Hr. by eapply ring_next_mid.
Qed.

Definition selected (f : Z → bool) (h : heap) (b : bool) (ys : list loc) : list loc :=
  filter (λ y, (f <$> key_of h y) = Some b) ys.

Lemma selected_ext f h h' b ys : same_keys h h' → selected f h' b ys = selected f h b ys.
Proof. intros Hs. apply list_filter_iff. intros y. by rewrite Hs. Qed.

Lemma rlist_select_from_spec Lsrc Ldest (f : Z → bool) ys : ∀ fuel h I pre xs ds,
  Lsrc :: xs = pre ++ [I] →
  ring h Lsrc (xs ++ ys) → ring h Ldest ds →
  (Lsrc :: xs ++ ys) ## (Ldest :: ds) → (length ys < fuel)%nat →
  ∃ h', rlist_select_from fuel Lsrc Ldest (λ nd, f (key nd)) I h = Ok (tt, h') ∧
    ring h' Lsrc (xs ++ selected f h false ys) ∧
    ring h' Ldest (ds ++ selected f h true ys) ∧ same_keys h h'.
Proof.
  induction ys as [|y ys IH]; intros fuel h I pre xs ds HI Hsrc Hdst Hd Hf;
    (destruct fuel as [|fuel]; [simpl in Hf; lia|]); cbn [rlist_select_from].
  all: rewrite (bind_run _ _ _ _ _
    (get_next_run _ _ _ (ring_next_last _ _ _ _ _ _ HI Hsrc))); simpl.
  - rewrite decide_True by done. exists h. unfold selected. simpl.
    by rewrite !app_nil_r in *.
  - rewrite decide_False by (by eapply ring_mid_ne).
    destruct (ring_valid h Lsrc _ y Hsrc) as [k Hk]; [set_solver|].
    assert (∃ nd, h !! y = Some nd ∧ key nd = k) as (nd & Hnd & Hkn)
      by (unfold key_of in Hk; apply fmap_Some in Hk; naive_solver).
    assert (load y h = Ok (nd, h)) as Hl by (unfold load; unfold_monad; by rewrite Hnd).
    rewrite (bind_run _ _ _ _ _ Hl), Hkn.
    destruct (f k) eqn:Hfk.
    + destruct (rlist_remove_spec h Lsrc xs y ys Hsrc) as (h1 & Hr1 & Hs1 & Hy1 & [Hk1 Hf1]).
      rewrite (bind_run _ _ _ _ _ Hr1).
      assert (ring h1 Ldest ds) as Hd1 by (apply Hf1; set_solver).
      destruct (rlist_push_back_spec h1 Ldest ds y Hd1 Hy1) as (h2 & Hr2 & Hd2 & [Hk2 Hf2]);
        [set_solver|].
      rewrite (bind_run _ _ _ _ _ Hr2).
      assert (y ∉ Lsrc :: xs ++ ys) as Hyn.
      { destruct Hsrc as [Hn _]. assert (NoDup (y :: Lsrc :: xs ++ ys)) as Hn'.
        { assert (y :: Lsrc :: xs ++ ys ≡ₚ Lsrc :: xs ++ y :: ys) as -> by solve_Permutation.
          done. }
        by apply NoDup_cons in Hn' as [? _]. }
      assert (same_keys h h2) as Hk02 by (by eapply same_keys_trans).
      edestruct (IH fuel h2 I pre xs (ds ++ [y])) as (h3 & Hr3 & Hs3 & Hd3 & Hk3);
        [done|apply Hf2; [done|set_solver]|done|set_solver|simpl in Hf; lia|].
      exists h3. split; [done|]. rewrite !(selected_ext _ _ _ _ _ Hk02) in *.
      unfold selected in *. rewrite filter_cons_False by (rewrite Hk; simpl; congruence).
      rewrite filter_cons_True by (rewrite Hk; simpl; congruence).
      rewrite <-app_assoc in Hd3. split; [done|]. split; [done|]. by eapply same_keys_trans.
    + edestruct (IH fuel h y (Lsrc :: xs) (xs ++ [y]) ds) as (h3 & Hr3 & Hs3 & Hd3 & Hk3);
        [done|by rewrite <-app_assoc|done|set_solver|simpl in Hf; lia|].
      exists h3. split; [done|]. unfold selected in *.
      rewrite filter_cons_True by (rewrite Hk; simpl; congruence).
      rewrite filter_cons_False by (rewrite Hk; simpl; congruence).
      by rewrite <-app_assoc in Hs3.
Qed.

(** ** Sequences of list operations

    The operations the kernel performs on one list, and what they mean on the
    Rocq list of its nodes. *)
Inductive list_op :=
  | OpPushFront (n : loc)
  | OpPushBack (n : loc)
  | OpPopFront
  | OpRemove (n : loc).

Definition run_op (L : loc) (o : list_op) : HM unit :=
  match o with
  | OpPushFront n => rlist_push_front L n
  | OpPushBack n => rlist_push_back L n
  | OpPopFront => rlist_pop_front L ;; mret tt
  | OpRemove n => rlist_remove n ;; mret tt
  end.

(** [free]: the singletons that are in no list. *)
Definition spec_op (o : list_op) (st : list loc * gset loc) : option (list loc * gset loc) :=
  let '(xs, free) := st in
  match o with
  | OpPushFront n => if decide (n ∈ free) then Some (n :: xs, free ∖ {[n]}) else None
  | OpPushBack n => if decide (n ∈ free) then Some (xs ++ [n], free ∖ {[n]}) else None
  | OpPopFront =>
      match xs with x :: xs' => Some (xs', {[x]} ∪ free) | [] => Some ([], free) end
  | OpRemove n =>
      if decide (n ∈ xs) then Some (remove_node n xs, {[n]} ∪ free)
      else if decide (n ∈ free) then Some (xs, free) else None
  end.

Fixpoint spec_ops (os : list list_op) (st : list loc * gset loc) :=
  match os with
  | [] => Some st
  | o :: os' => st' ← spec_op o st; spec_ops os' st'
  end.

Definition list_rep (h : heap) (L : loc) (st : list loc * gset loc) : Prop :=
  ring h L (fst st) ∧ (∀ n, n ∈ snd st → ring h n [] ∧ n ∉ L :: fst st).

Lemma list_rep_insert h h' L xs xs' free n :
  list_rep h L (xs, free) → n ∈ free → ring h' L xs' → xs' ≡ₚ n :: xs →
  frame h h' (n :: L :: xs) → list_rep h' L (xs', free ∖ {[n]}).
Proof.
  intros [_ Hfree] Hn HL' Hp [_ Hf]. split; [done|]. simpl in *.
  intros m [Hm Hmn]%elem_of_difference. destruct (Hfree m Hm). rewrite Hp.
  split; [apply Hf|]; set_solver.
Qed.

Lemma list_rep_take h h' L xs1 n xs2 free :
  list_rep h L (xs1 ++ n :: xs2, free) → ring h' L (xs1 ++ xs2) → ring h' n [] →
  frame h h' (L :: xs1 ++ n :: xs2) → list_rep h' L (xs1 ++ xs2, {[n]} ∪ free).
Proof.
  intros [[Hnd _] Hfree] HL' Hn' [_ Hf]. simpl in *. split; [done|]. simpl.
  assert (Hp : L :: xs1 ++ n :: xs2 ≡ₚ n :: L :: xs1 ++ xs2) by solve_Permutation.
  rewrite Hp in Hnd. apply NoDup_cons in Hnd as [Hn _].
  intros m [->%elem_of_singleton|Hm]%elem_of_union; [done|].
  destruct (Hfree m Hm). split; [apply Hf|]; set_solver.
Qed.

Lemma list_rep_all h h' L st :
  list_rep h L st → (∀ a xs, ring h a xs → ring h' a xs) → list_rep h' L st.
Proof. intros [HL Hfree] Hall. split; [auto|]. intros n Hn. destruct (Hfree n Hn). auto. Qed.

Lemma run_op_remove h L xs free n st' :
  list_rep h L (xs, free) → spec_op (OpRemove n) (xs, free) = Some st' →
  ∃ h', run_op L (OpRemove n) h = Ok (tt, h') ∧ list_rep h' L st' ∧ same_keys h h'.
Proof.
  intros Hrep Ho. cbn [run_op spec_op] in *. pose proof Hrep as [HL Hfree].
  simpl in HL, Hfree. repeat case_decide; simplify_eq.
  - apply list_elem_of_split in H as (xs1 & xs2 & ->).
    pose proof (proj1 HL) as [_ (_ & Hn12 & [Hn2 _]%NoDup_cons)%NoDup_app]%NoDup_cons.
    destruct (rlist_remove_spec h L xs1 n xs2) as (h' & Hr & HL' & Hx & Hf); [apply Hrep|].
    exists h'. rewrite (bind_run _ _ _ _ _ Hr). split; [done|]. split; [|apply Hf].
    rewrite remove_node_app, remove_node_cons, remove_node_notin by set_solver.
    by eapply list_rep_take.
  - destruct (Hfree n) as [Hn1 _]; [done|].
    destruct (rlist_remove_singleton h n Hn1) as (h' & Hr & Hs & Hall).
    exists h'. rewrite (bind_run _ _ _ _ _ Hr). split; [done|]. split; [|done].
    by eapply list_rep_all.
Qed.

Lemma run_op_refines h L o st st' :
  list_rep h L st → spec_op o st = Some st' →
  ∃ h', run_op L o h = Ok (tt, h') ∧ list_rep h' L st' ∧ same_keys h h'.
Proof.
  destruct st as [xs free]. intros Hrep Ho. pose proof Hrep as [HL Hfree].
  simpl in HL, Hfree. destruct o as [n|n| |n]; [..|by eapply run_op_remove];
    cbn [run_op spec_op] in *.
  - case_decide as Hn; simplify_eq. destruct (Hfree n Hn) as [Hn1 Hn2].
    destruct (rlist_push_front_spec h L xs n HL Hn1 Hn2) as (h' & Hr & HL' & Hf).
    exists h'. split; [done|]. split; [|apply Hf]. by eapply list_rep_insert.
  - case_decide as Hn; simplify_eq. destruct (Hfree n Hn) as [Hn1 Hn2].
    destruct (rlist_push_back_spec h L xs n HL Hn1 Hn2) as (h' & Hr & HL' & Hf).
    exists h'. split; [done|]. split; [|apply Hf]. eapply list_rep_insert; eauto.
    solve_Permutation.
  - destruct xs as [|x xs]; simplify_eq.
    + destruct (rlist_pop_front_nil h L HL) as (h' & Hr & Hs & Hall).
      exists h'. rewrite (bind_run _ _ _ _ _ Hr). split; [done|]. split; [|done].
      by eapply list_rep_all.
    + destruct (rlist_pop_front_spec h L x xs HL) as (h' & Hr & HL' & Hx & Hf).
      exists h'. rewrite (bind_run _ _ _ _ _ Hr). split; [done|]. split; [|apply Hf].
      by eapply (list_rep_take h h' L []).
Qed.

(** ** Properties *)

(** A small heap used by the witnesses: the list [10, 20, 30] of keys at the
    nodes 2, 3, 4 with sentinel 1, and the singletons 5 and 6. *)
Definition demo_heap : heap :=
  list_to_map [(1%positive, RLNode 0 4 2); (2%positive, RLNode 10 1 3);
               (3%positive, RLNode 20 2 4); (4%positive, RLNode 30 3 1);
               (5%positive, RLNode 40 5 5); (6%positive, RLNode 50 6 6)].

Ltac solve_ring := split; [apply (bool_decide_unpack _); by vm_compute|repeat split].

Lemma demo_ring : ring demo_heap 1 [2; 3; 4]%positive.
Proof. solve_ring. Qed.
Lemma demo_ring5 : ring demo_heap 5 [].
Proof. solve_ring. Qed.
Lemma demo_ring6 : ring demo_heap 6 [].
Proof. solve_ring. Qed.

(** C40 (refinement). The pointer programs [rlist_push_front], [rlist_push_back],
    [rlist_pop_front] and [rlist_remove] of util.h implement the operations on
    lists: along every sequence of operations that inserts only nodes that are
    in no list, the heap keeps representing the Rocq list, no pointer is
    dereferenced that is not a node, and no key is changed. *)
Theorem rlist_refines_lists L os : ∀ h st st',
  list_rep h L st → spec_ops os st = Some st' →
  ∃ h', for_each os (run_op L) h = Ok (tt, h') ∧ list_rep h' L st' ∧ same_keys h h'.
Proof.
  induction os as [|o os IH]; intros h st st' Hrep Hs; simpl in *.
  - simplify_eq. by exists h.
  - apply bind_Some in Hs as (st1 & Ho & Hs).
    destruct (run_op_refines h L o st st1 Hrep Ho) as (h1 & Hr & Hrep1 & Hk1).
    destruct (IH h1 st1 st' Hrep1 Hs) as (h2 & Hr2 & Hrep2 & Hk2).
    exists h2. rewrite (bind_run _ _ _ _ _ Hr). split; [done|]. split; [done|].
    by eapply same_keys_trans.
Qed.

Lemma rlist_refines_lists_witness :
  ∃ h', for_each [OpPushBack 5; OpPopFront; OpPushFront 6; OpRemove 3]%positive (run_op 1)
          demo_heap = Ok (tt, h')
    ∧ list_rep h' 1 ([6; 4; 5], {[3]} ∪ (({[2]} ∪ ({[5; 6]} ∖ {[5]})) ∖ {[6]}))%positive
    ∧ same_keys demo_heap h'.
Proof.
  apply (rlist_refines_lists 1 [OpPushBack 5; OpPopFront; OpPushFront 6; OpRemove 3]%positive
           demo_heap ([2; 3; 4], {[5; 6]})%positive).
  - split; [apply demo_ring|]. simpl. intros n Hn. apply elem_of_union in Hn.
    destruct Hn as [->%elem_of_singleton| ->%elem_of_singleton];
      (split; [apply demo_ring5 || apply demo_ring6|apply (bool_decide_unpack _); by vm_compute]).
  - reflexivity.
Defined.

Lemma ring_halves_disjoint h a xs b ys :
  ring h a (xs ++ b :: ys) → (a :: ys) ## (b :: xs).
Proof.
  intros [[Ha Hnd]%NoDup_cons _]. apply NoDup_app in Hnd as (Hx & Hd & Hy).
  apply NoDup_cons in Hy as [Hb Hy]. set_solver.
Qed.

(** [rl_splice(a, b)] does what the comment of util.h draws:
    on two rings it joins them, on one ring it splits it, and it can be undone
    by repeating it. *)
Theorem rl_splice_joins_and_splits h a b :
  (∀ xs ys, ring h a xs → ring h b ys → (a :: xs) ## (b :: ys) →
     ∃ h', rl_splice a b h = Ok (b, h') ∧ ring h' a (ys ++ b :: xs) ∧
     ∃ h'', rl_splice a b h' = Ok (b, h'') ∧ ring h'' a xs ∧ ring h'' b ys) ∧
  (∀ xs ys, ring h a (xs ++ b :: ys) →
     ∃ h', rl_splice a b h = Ok (b, h') ∧ ring h' a ys ∧ ring h' b xs ∧
     ∃ h'', rl_splice a b h' = Ok (b, h'') ∧ ring h'' a (xs ++ b :: ys)).
Proof.
  split.
  - intros xs ys Ha Hb Hd.
    destruct (rl_splice_join h a xs b ys Ha Hb Hd) as (h1 & Hr1 & H1 & _).
    destruct (rl_splice_split h1 a ys b xs H1) as (h2 & Hr2 & H2 & H2' & _).
    eauto 10.
  - intros xs ys Hr. pose proof (ring_halves_disjoint _ _ _ _ _ Hr).
    destruct (rl_splice_split h a xs b ys Hr) as (h1 & Hr1 & H1 & H1' & _).
    destruct (rl_splice_join h1 a ys b xs H1 H1') as (h2 & Hr2 & H2 & _); eauto 10.
Qed.

Lemma rl_splice_joins_and_splits_witness :
  (∃ h', rl_splice 1 5 demo_heap = Ok (5%positive, h') ∧ ring h' 1 [5; 2; 3; 4]%positive) ∧
  (∃ h', rl_splice 1 3 demo_heap = Ok (3%positive, h') ∧ ring h' 1 [4%positive] ∧
         ring h' 3 [2%positive]).
Proof.
  split.
  - destruct (proj1 (rl_splice_joins_and_splits demo_heap 1 5) [2; 3; 4]%positive []
      demo_ring demo_ring5) as (h' & Hr & H & _); [|by exists h'].
    set_solver.
  - destruct (proj2 (rl_splice_joins_and_splits demo_heap 1 3) [2]%positive [4]%positive
      demo_ring) as (h' & Hr & H1 & H2 & _). by exists h'.
Defined.

(** [rlist_pop_back] returns the tail of the list, but it leaves the
    list empty: on a list of two or more nodes the nodes before the tail are no
    longer in the list, and the node returned is not a singleton.  (It meant to
    remove the tail, as [rlist_pop_front] removes the head.) *)
Theorem rlist_pop_back_empties h L xs x :
  ring h L (xs ++ [x]) →
  ∃ h', rlist_pop_back L h = Ok (x, h') ∧ ring h' L [] ∧ ring h' x xs ∧
    is_rlist_empty L h' = Ok (true, h').
Proof.
  intros HL. destruct (pop_back_ring h L xs x HL) as (h' & Hr & H1 & H2 & _).
  exists h'. do 3 (split; [done|]). by rewrite (is_rlist_empty_spec h' L []).
Qed.

Lemma rlist_pop_back_empties_witness :
  ∃ h', rlist_pop_back 1 demo_heap = Ok (4%positive, h') ∧ ring h' 1 [] ∧
    ring h' 4 [2; 3]%positive ∧ is_rlist_empty 1 h' = Ok (true, h').
Proof. apply (rlist_pop_back_empties demo_heap 1 [2; 3]%positive 4 demo_ring). Defined.

(** [rlist_reverse] terminates with fuel for the nodes of the
    list, reverses it, and reversing twice gives the list back. *)
Theorem rlist_reverse_involutive h L xs fuel :
  ring h L xs → (length xs < fuel)%nat →
  ∃ h', rlist_reverse fuel L h = Ok (tt, h') ∧ ring h' L (rev xs) ∧
  ∃ h'', rlist_reverse fuel L h' = Ok (tt, h'') ∧ ring h'' L xs ∧ same_keys h h''.
Proof.
  intros Hr Hf. destruct (rlist_reverse_ring h L xs fuel Hr Hf) as (h1 & Hr1 & H1 & Hf1).
  destruct (rlist_reverse_ring h1 L (rev xs) fuel H1) as (h2 & Hr2 & H2 & Hf2);
    [by rewrite length_rev|].
  rewrite rev_involutive in H2. exists h1. do 2 (split; [done|]). exists h2.
  do 2 (split; [done|]). eapply same_keys_trans; [apply Hf1|apply Hf2].
Qed.

Lemma rlist_reverse_involutive_witness :
  ∃ h', rlist_reverse 4 1 demo_heap = Ok (tt, h') ∧ ring h' 1 [4; 3; 2]%positive ∧
  ∃ h'', rlist_reverse 4 1 h' = Ok (tt, h'') ∧ ring h'' 1 [2; 3; 4]%positive ∧
    same_keys demo_heap h''.
Proof. apply (rlist_reverse_involutive demo_heap 1 [2; 3; 4]%positive 4 demo_ring). simpl; lia. Defined.

(** The traversals of a list: [rlist_select] moves the nodes
    whose key satisfies the predicate, in order, to the end of the other list
    and keeps the rest in order; [rlist_len], [rlist_find] and [rlist_equal]
    compute the length (as a 32-bit counter), the first node with a key and the
    equality of the key sequences.  One unit of fuel more than the length of
    the list is enough for each loop. *)
Theorem rlist_traversals h L xs D ds (f : Z → bool) k fail fuel :
  ring h L xs → ring h D ds → (L :: xs) ## (D :: ds) → (length xs < fuel)%nat →
  rlist_len fuel L h = Ok (u32 (Z.of_nat (length xs)), h) ∧
  rlist_find fuel L k fail h
    = Ok (match find_key h k xs with Some x => Some x | None => fail end, h) ∧
  rlist_equal fuel L D h = Ok (bool_decide (key_of h <$> xs = key_of h <$> ds), h) ∧
  ∃ h', rlist_select fuel L D (λ nd, f (key nd)) h = Ok (tt, h') ∧
    ring h' L (selected f h false xs) ∧ ring h' D (ds ++ selected f h true xs) ∧
    same_keys h h'.
Proof.
  intros HL HD Hd Hf. unfold rlist_len, rlist_find, rlist_equal.
  rewrite !(bind_run _ _ _ _ _ (get_next_run _ _ _ (ring_next _ _ _ HL))).
  rewrite !(bind_run _ _ _ _ _ (get_next_run _ _ _ (ring_next _ _ _ HD))).
  split; [|split; [|split]].
  - apply (rlist_len_from_spec h L xs fuel [] 0 HL Hf). lia.
  - apply (rlist_find_from_spec h L k fail xs fuel [] HL Hf).
  - apply (rlist_equal_from_spec h L D xs fuel [] [] ds HL HD Hf).
  - apply (rlist_select_from_spec L D f xs fuel h L [] [] ds); done.
Qed.

Lemma rlist_traversals_witness :
  ring demo_heap 1 [2; 3; 4]%positive ∧ ring demo_heap 5 [] ∧
  rlist_len 4 1 demo_heap = Ok (3%Z, demo_heap) ∧
  rlist_find 4 1 20 None demo_heap = Ok (Some 3%positive, demo_heap) ∧
  ∃ h', rlist_select 4 1 5 (λ nd, key nd =? 20)%Z demo_heap = Ok (tt, h') ∧
    ring h' 1 [2; 4]%positive ∧ ring h' 5 [3]%positive.
Proof.
  split; [apply demo_ring|]. split; [apply demo_ring5|].
  destruct (rlist_traversals demo_heap 1 [2; 3; 4]%positive 5 [] (λ k, k =? 20)%Z 20 None 4
    demo_ring demo_ring5) as (H1 & H2 & _ & h' & H3 & H4 & H5 & _).
  - set_solver.
  - simpl; lia.
  - split; [exact H1|]. split; [exact H2|]. exists h'. split; [exact H3|].
    split; [exact H4|exact H5].
Defined.
