(* ===== verification/Bios.v ===== *)
(** * The virtual machine (bios.c): cores, interrupts, timers, serial devices

    The state is the tables of bios.c.  The host system (pthreads, POSIX timers
    and signals, the descriptors behind the serial ports) is not modelled: what
    it answers is an argument of the operation that asks.  Interrupt handlers
    are the functions the kernel installs; [dispatch_interrupts] calls them
    through an argument. *)
From S2P Require Import Prelude.
Local Open Scope Z_scope.

(** ** Data *)
Inductive Interrupt := ICI | ALARM | SERIAL_RX_READY | SERIAL_TX_READY.
Definition maximum_interrupt_no : nat := 4.
Definition MAX_CORES : nat := 32.
Definition MAX_TERMINALS : nat := 4.
Definition SERIAL_TIMEOUT : Z := 300.

#[export] Instance Interrupt_eq_dec : EqDecision Interrupt.
Proof. solve_decision. Defined.

Definition int_no (i : Interrupt) : nat :=
  match i with ICI => 0 | ALARM => 1 | SERIAL_RX_READY => 2 | SERIAL_TX_READY => 3 end%nat.

Lemma int_no_lt i : (int_no i < maximum_interrupt_no)%nat.
Proof. destruct i; unfold maximum_interrupt_no; simpl; lia. Qed.

(** The handlers the kernel passes to [cpu_interrupt_handler]. *)
Inductive interrupt_handler :=
  | yield_handler | ici_handler | serial_rx_handler | serial_tx_handler.

#[export] Instance interrupt_handler_eq_dec : EqDecision interrupt_handler.
Proof. solve_decision. Defined.

Record Core := MkCore {
  core_id : nat;
  intvec : list (option interrupt_handler);
  intpending : list bool;
  int_disabled : bool;
  halted : bool;
  irq_count : Z;
  irq_raised : list Z;
  irq_delivered : list Z }.

Definition set_intvec v c := MkCore (core_id c) v (intpending c) (int_disabled c)
  (halted c) (irq_count c) (irq_raised c) (irq_delivered c).
Definition set_intpending v c := MkCore (core_id c) (intvec c) v (int_disabled c)
  (halted c) (irq_count c) (irq_raised c) (irq_delivered c).
Definition set_int_disabled v c := MkCore (core_id c) (intvec c) (intpending c) v
  (halted c) (irq_count c) (irq_raised c) (irq_delivered c).
Definition set_halted v c := MkCore (core_id c) (intvec c) (intpending c)
  (int_disabled c) v (irq_count c) (irq_raised c) (irq_delivered c).
Definition set_irq_count v c := MkCore (core_id c) (intvec c) (intpending c)
  (int_disabled c) (halted c) v (irq_raised c) (irq_delivered c).
Definition set_irq_raised v c := MkCore (core_id c) (intvec c) (intpending c)
  (int_disabled c) (halted c) (irq_count c) v (irq_delivered c).
Definition set_irq_delivered v c := MkCore (core_id c) (intvec c) (intpending c)
  (int_disabled c) (halted c) (irq_count c) (irq_raised c) v.

Inductive io_direction := IODIR_RX | IODIR_TX.
#[export] Instance io_direction_eq_dec : EqDecision io_direction.
Proof. solve_decision. Defined.

Record io_device := IoDevice {
  fd : Z; iodir : io_direction; int_core : nat; ready : bool; last_int : Z }.

Definition set_ready v d := IoDevice (fd d) (iodir d) (int_core d) v (last_int d).
Definition set_last_int v d := IoDevice (fd d) (iodir d) (int_core d) (ready d) v.
Definition set_int_core v d := IoDevice (fd d) (iodir d) v (ready d) (last_int d).

Record terminal := Terminal { con : io_device; kbd : io_device }.

(** [PIC_kicks] counts the calls of [interrupt_pic_thread]. *)
Record machine := Machine {
  CORE : list Core;
  ncores : nat;
  halted_list : list nat;
  system_clock : Z;
  TERM : list terminal;
  nterm : nat;
  PIC_active : bool;
  PIC_usr1_queued : Z }.

Definition set_CORE v m := Machine v (ncores m) (halted_list m) (system_clock m)
  (TERM m) (nterm m) (PIC_active m) (PIC_usr1_queued m).
Definition set_halted_list v m := Machine (CORE m) (ncores m) v (system_clock m)
  (TERM m) (nterm m) (PIC_active m) (PIC_usr1_queued m).
Definition set_system_clock v m := Machine (CORE m) (ncores m) (halted_list m) v
  (TERM m) (nterm m) (PIC_active m) (PIC_usr1_queued m).
Definition set_TERM v m := Machine (CORE m) (ncores m) (halted_list m) (system_clock m)
  v (nterm m) (PIC_active m) (PIC_usr1_queued m).
Definition set_PIC_usr1_queued v m := Machine (CORE m) (ncores m) (halted_list m)
  (system_clock m) (TERM m) (nterm m) (PIC_active m) v.

Abbreviation BM := (M machine).

Definition get_core (c : nat) : BM Core :=
  m ← get; get_some OutOfBounds (CORE m !! c).
Definition upd_core (c : nat) (f : Core → Core) : BM unit :=
  k ← get_core c; modify (λ m, set_CORE (<[c := f k]> (CORE m)) m).

(** ** Booting *)

(** The fields [vm_boot] and [bootfunc_wrapper] initialise. *)
Definition initialize_core (c : nat) (k : Core) : Core :=
  MkCore c (replicate maximum_interrupt_no None) (replicate maximum_interrupt_no false)
    false false 0 (replicate maximum_interrupt_no 0) (replicate maximum_interrupt_no 0).

Definition vm_boot_cores (cores serialno : nat) : BM unit :=
  m ← get;
  (if decide ((0 < cores)%nat ∧ (cores ≤ MAX_CORES)%nat) then mret tt else raise Fatal) ;;
  (if decide (ncores m = 0%nat) then mret tt else raise Fatal) ;;
  (if decide (serialno ≤ MAX_TERMINALS)%nat then mret tt else raise Fatal) ;;
  modify (λ m, Machine (CORE m) cores [] (system_clock m) (TERM m) serialno true 0) ;;
  for_each (seq 0 cores) (λ c, upd_core c (initialize_core c)).

(** ** Halting and restarting cores *)
Definition core_restart (c : nat) : BM unit :=
  k ← get_core c;
  when (halted k)
    (upd_core c (set_halted false) ;;
     modify (λ m, set_halted_list (remove_node c (halted_list m)) m)).

Definition cpu_core_restart (c : nat) : BM unit := core_restart c.

Definition cpu_core_restart_one : BM unit :=
  m ← get;
  match halted_list m with
  | [] => mret tt
  | c :: l => modify (set_halted_list l) ;; core_restart c
  end.

Definition cpu_core_restart_all : BM unit :=
  m ← get; for_each (seq 0 (ncores m)) core_restart.

(** The part of [cpu_core_halt] before the core sleeps on its condition. *)
Definition cpu_core_halt_begin (c : nat) : BM unit :=
  k ← get_core c;
  c_assert (negb (int_disabled k)) ;;
  upd_core c (set_halted true) ;;
  modify (λ m, set_halted_list (c :: halted_list m) m).

(** ** Interrupts *)
Definition raise_interrupt (c : nat) (i : Interrupt) : BM unit :=
  upd_core c (λ k, set_intpending (<[int_no i := true]> (intpending k)) k) ;;
  upd_core c (λ k, set_irq_raised (alter (λ z, i32 (z + 1)) (int_no i) (irq_raised k)) k) ;;
  cpu_core_restart c.

Definition cpu_ici (c : nat) : BM unit :=
  m ← get; c_assert (bool_decide (c < ncores m)%nat) ;; raise_interrupt c ICI.

Definition cpu_interrupt_handler (c : nat) (i : Interrupt) (h : option interrupt_handler)
  : BM unit :=
  upd_core c (λ k, set_intvec (<[int_no i := h]> (intvec k)) k).

Section dispatch.
(** What a call of a handler does to the machine. *)
Context (run : interrupt_handler → BM unit).

Definition dispatch_one (c intno : nat) : BM unit :=
  k ← get_core c;
  p ← get_some OutOfBounds (intpending k !! intno);
  when p
    (upd_core c (λ k, set_intpending (<[intno := false]> (intpending k)) k) ;;
     upd_core c (λ k, set_irq_delivered (alter (λ z, i32 (z + 1)) intno (irq_delivered k)) k) ;;
     h ← get_some OutOfBounds (intvec k !! intno);
     match h with Some h => run h | None => mret tt end).

(** [for(intno...) { if(core->int_disabled) break; ... }] *)
Fixpoint dispatch_from (c : nat) (intnos : list nat) : BM unit :=
  match intnos with
  | [] => mret tt
  | intno :: rest =>
      k ← get_core c;
      if int_disabled k then mret tt
      else dispatch_one c intno ;; dispatch_from c rest
  end.

Definition dispatch_interrupts (c : nat) : BM unit :=
  dispatch_from c (seq 0 maximum_interrupt_no).

Definition sigusr1_handler (c : nat) : BM unit :=
  upd_core c (λ k, set_irq_count (i32 (irq_count k + 1)) k) ;;
  k ← get_core c;
  if int_disabled k then mret tt else dispatch_interrupts c.

(** The part of [cpu_core_halt] after the condition was signalled.  [sig]: whether a
    [SIGUSR1] of [raise_interrupt] is pending, and is handled where it is unblocked. *)
Definition cpu_core_halt_end (sig : bool) (c : nat) : BM unit :=
  k ← get_core c; c_assert (negb (halted k)) ;; when sig (sigusr1_handler c) ;; dispatch_interrupts c.

Definition cpu_disable_interrupts (c : nat) : BM unit :=
  k ← get_core c;
  when (negb (int_disabled k)) (upd_core c (set_int_disabled true)).

Definition cpu_enable_interrupts (sig : bool) (c : nat) : BM unit :=
  k ← get_core c;
  when (int_disabled k)
    (upd_core c (set_int_disabled false) ;; when sig (sigusr1_handler c) ;; dispatch_interrupts c).
End dispatch.

(** ** Timers *)
Record timespec := Timespec { tv_sec : Z; tv_nsec : Z }.

(** The [it_value] that [bios_set_timer(usec)] passes to [timer_settime]. *)
Definition timer_value (usec : Z) : timespec :=
  Timespec (usec / 1000000) (usec mod 1000000 * 1000).

(** The [it_interval] that every call passes, and that the next one gets back. *)
Definition timer_interval : timespec := Timespec 0 0.

(** The number of microseconds in the old value that [timer_settime] returns. *)
Definition timer_remaining (old : timespec) : Z :=
  u64 (1000000 * tv_sec old + tv_nsec old / 1000).

(** [bios_set_timer(usec)] on core [c]: returns what is passed to
    [timer_settime] and the time that remained; [old] is the host's answer. *)
Definition bios_set_timer (c : nat) (usec : Z) (old : timespec) : BM (timespec * Z) :=
  upd_core c (λ k, set_intpending (<[int_no ALARM := false]> (intpending k)) k) ;;
  c_assert (bool_decide (tv_sec timer_interval = 0 ∧ tv_nsec timer_interval = 0)) ;;
  mret (timer_value usec, timer_remaining old).

Definition bios_cancel_timer (c : nat) (old : timespec) : BM (timespec * Z) :=
  bios_set_timer c 0 old.

Definition bios_clock : BM Z := m ← get; mret (u64 (system_clock m * 1000)).

(** ** Serial devices *)
Definition bios_serial_ports : BM nat := gets nterm.

Definition get_term (t : nat) : BM terminal :=
  m ← get; get_some OutOfBounds (TERM m !! t).
Definition upd_term (t : nat) (f : terminal → terminal) : BM unit :=
  tm ← get_term t; modify (λ m, set_TERM (<[t := f tm]> (TERM m)) m).

Definition interrupt_pic_thread : BM unit :=
  modify (λ m, set_PIC_usr1_queued (PIC_usr1_queued m + 1) m).

(** A failed transfer makes a ready device not ready. *)
Definition io_failed (d : io_device) (put : io_device → BM unit) : BM unit :=
  when (ready d) (put (set_ready false d) ;; interrupt_pic_thread).

(** [input] is the byte that read(2) returns, if it returns one. *)
Definition io_device_read (d : io_device) (put : io_device → BM unit)
    (input : option Z) : BM (option Z) :=
  c_assert (bool_decide (iodir d = IODIR_RX)) ;;
  match input with
  | Some b => mret (Some b)
  | None => io_failed d put ;; mret None
  end.

(** [sent]: whether write(2) took the byte. *)
Definition io_device_write (d : io_device) (put : io_device → BM unit)
    (value : Z) (sent : bool) : BM bool :=
  c_assert (bool_decide (iodir d = IODIR_TX)) ;;
  (if sent then mret tt else io_failed d put) ;; mret sent.

Definition put_kbd (t : nat) (d : io_device) : BM unit :=
  upd_term t (λ tm, Terminal (con tm) d).
Definition put_con (t : nat) (d : io_device) : BM unit :=
  upd_term t (λ tm, Terminal d (kbd tm)).

Definition bios_read_serial (t : nat) (input : option Z) : BM (option Z) :=
  tm ← get_term t; io_device_read (kbd tm) (put_kbd t) input.
Definition bios_write_serial (t : nat) (value : Z) (sent : bool) : BM bool :=
  tm ← get_term t; io_device_write (con tm) (put_con t) value sent.

Definition bios_serial_interrupt_core (serial : nat) (i : Interrupt) (coreid : nat)
  : BM unit :=
  m ← get;
  c_assert (bool_decide (serial < nterm m)%nat) ;;
  c_assert (bool_decide (i = SERIAL_RX_READY ∨ i = SERIAL_TX_READY)) ;;
  c_assert (bool_decide (coreid < ncores m)%nat) ;;
  upd_term serial (λ tm,
    if decide (i = SERIAL_RX_READY) then Terminal (con tm) (set_int_core coreid (kbd tm))
    else Terminal (set_int_core coreid (con tm)) (kbd tm)).

(** ** The interrupt controller *)

(** Which descriptors the daemon passes to select(2): those of the connected
    terminals whose device is not ready. *)
Definition pic_watch (connected : bool) (tm : terminal) : bool * bool :=
  if connected then (negb (ready (kbd tm)), negb (ready (con tm))) else (false, false).

(** One side of a terminal: [isset] is [FD_ISSET] after select(2). *)
Definition pic_device (isset : bool) (d : io_device) (put : io_device → BM unit)
    (i : Interrupt) : BM unit :=
  m ← get;
  when (isset || bool_decide (SERIAL_TIMEOUT < u64 (system_clock m - last_int d)))
    (put (set_last_int (system_clock m) (set_ready true d)) ;;
     raise_interrupt (int_core d) i).

Definition pic_terminal (sets : nat → bool * bool) (t : nat) : BM unit :=
  tm ← get_term t;
  pic_device (snd (sets t)) (con tm) (put_con t) SERIAL_TX_READY ;;
  tm ← get_term t;
  pic_device (fst (sets t)) (kbd tm) (put_kbd t) SERIAL_RX_READY.

(** One turn of the multiplexing loop of [PIC_daemon]: [now] is the time read
    after select(2), [alarms] the cores whose timer signals were read, and
    [sets t] the ready sides (keyboard, console) of terminal [t]. *)
Definition pic_turn (now : Z) (alarms : list nat) (sets : nat → bool * bool) : BM unit :=
  modify (set_system_clock now) ;;
  for_each alarms (λ c, raise_interrupt c ALARM) ;;
  m ← get;
  for_each (seq 0 (nterm m)) (pic_terminal sets).

(** ** Running the operations *)
Lemma get_core_run c k m : CORE m !! c = Some k → get_core c m = Ok (k, m).
Proof. intros H. unfold get_core. unfold_monad. by rewrite H. Qed.

Lemma upd_core_run c f k m :
  CORE m !! c = Some k → upd_core c f m = Ok (tt, set_CORE (<[c := f k]> (CORE m)) m).
Proof. intros H. unfold upd_core. by rewrite (bind_run _ _ _ _ _ (get_core_run _ _ _ H)). Qed.

(** The core [c] of [m] is [k]. *)
Definition core_is (m : machine) (c : nat) (k : Core) : Prop := CORE m !! c = Some k.

Lemma core_is_set m c k k' : core_is m c k → core_is (set_CORE (<[c := k']> (CORE m)) m) c k'.
Proof. intros H. apply list_lookup_insert_eq. by eapply lookup_lt_Some. Qed.

Lemma core_is_set_ne m c d k' k :
  c ≠ d → core_is m d k → core_is (set_CORE (<[c := k']> (CORE m)) m) d k.
Proof. intros ? H. unfold core_is. simpl. by rewrite list_lookup_insert_ne. Qed.

Lemma upd_core_twice_run {A} c f g k m (r : BM A) :
  CORE m !! c = Some k →
  (upd_core c f ;; upd_core c g ;; r) m = r (set_CORE (<[c := g (f k)]> (CORE m)) m).
Proof.
  intros H. rewrite (bind_run _ _ _ _ _ (upd_core_run _ _ _ _ H)).
  rewrite (bind_run _ _ _ _ _ (upd_core_run _ _ _ _ (core_is_set _ _ _ _ H))).
  unfold set_CORE. simpl. by rewrite list_insert_insert_eq.
Qed.

(** ** Halted cores

    The list of halted cores is exact: a core is in it iff its [halted] flag is
    set, and no core is in it twice. *)
Definition halted_ok (m : machine) : Prop :=
  NoDup (halted_list m) ∧
  ∀ c, c ∈ halted_list m ↔ ∃ k, CORE m !! c = Some k ∧ halted k = true.

Lemma core_restart_run m c k :
  halted_ok m → CORE m !! c = Some k →
  ∃ m', core_restart c m = Ok (tt, m') ∧ halted_ok m' ∧
    halted_list m' = remove_node c (halted_list m) ∧
    CORE m' = <[c := set_halted false k]> (CORE m) ∧
    ncores m' = ncores m ∧ nterm m' = nterm m ∧ system_clock m' = system_clock m ∧
    TERM m' = TERM m.
Proof.
  intros [Hnd Hok] Hk. unfold core_restart.
  rewrite (bind_run _ _ _ _ _ (get_core_run _ _ _ Hk)). unfold when.
  destruct (halted k) eqn:Hh.
  - rewrite (bind_run _ _ _ _ _ (upd_core_run _ _ _ _ Hk)). simpl.
    eexists. split; [reflexivity|]. simpl. split; [|done]. split; simpl.
    + auto with tinyos.
    + intros d. rewrite elem_of_remove_node, Hok, (table_update _ _ _ _ _ Hk).
      case_decide; naive_solver.
  - exists m. split; [done|]. split; [done|].
    rewrite remove_node_notin; [|rewrite Hok; intros (? & ? & ?); congruence].
    assert (set_halted false k = k) as -> by (destruct k; simpl in *; by subst).
    by rewrite list_insert_id.
Qed.

Lemma raise_interrupt_run m c i k :
  halted_ok m → CORE m !! c = Some k →
  ∃ m', raise_interrupt c i m = Ok (tt, m') ∧ halted_ok m' ∧
    halted_list m' = remove_node c (halted_list m) ∧
    CORE m' = <[c := set_halted false
       (set_irq_raised (alter (λ z, i32 (z + 1)) (int_no i) (irq_raised k))
         (set_intpending (<[int_no i := true]> (intpending k)) k))]> (CORE m).
Proof.
  intros Hok Hk. unfold raise_interrupt.
  rewrite (upd_core_twice_run _ _ _ _ _ _ Hk).
  set (k' := set_irq_raised _ _). set (m1 := set_CORE _ m).
  assert (Hk1 : CORE m1 !! c = Some k') by (by eapply core_is_set).
  destruct (core_restart_run m1 c k') as (m' & Hr & Hok' & Hl & Hc & _).
  - destruct Hok as [Hnd Hok]. split; [done|]. intros d. unfold m1. simpl. rewrite Hok.
    rewrite (table_update _ _ _ _ _ Hk). case_decide; [|done]. subst.
    unfold k'. naive_solver.
  - done.
  - exists m'. split; [exact Hr|]. do 2 (split; [done|]).
    rewrite Hc. simpl. by rewrite list_insert_insert_eq.
Qed.

Lemma restart_one_run m :
  halted_ok m →
  ∃ m', cpu_core_restart_one m = Ok (tt, m') ∧ halted_ok m' ∧
    halted_list m' = tail (halted_list m) ∧ length (CORE m') = length (CORE m) ∧
    system_clock m' = system_clock m.
Proof.
  intros Hok. unfold cpu_core_restart_one. unfold mbind at 1, M_bind at 1. unfold get.
  destruct (halted_list m) as [|c l] eqn:Hl; [by exists m; rewrite Hl|]. simpl.
  destruct Hok as [Hnd Hok]. rewrite Hl in Hnd, Hok.
  apply NoDup_cons in Hnd as [Hc Hnd].
  destruct (proj1 (Hok c)) as (k & Hk & Hh); [left|].
  unfold core_restart. unfold_monad. unfold get_core, upd_core, get_core.
  unfold_monad. simpl. rewrite Hk, Hh. simpl. rewrite Hk. simpl.
  eexists. split; [reflexivity|]. simpl. rewrite remove_node_notin by done.
  rewrite length_insert. split; [|done]. split; [done|]. simpl. intros d.
  rewrite (table_update _ _ _ _ _ Hk). specialize (Hok d). set_unfold.
  case_decide; naive_solver.
Qed.

(** Restarting cores: from a state whose halted list is exact,
    [cpu_core_restart_one] wakes the first halted core and no other,
    [cpu_core_halt] adds the calling core, and an interrupt raised at a core
    leaves it running; the list stays exact through each of them, so a halted
    core is never lost. *)
Theorem halted_list_exact m :
  halted_ok m →
  (∃ m', cpu_core_restart_one m = Ok (tt, m') ∧ halted_ok m' ∧
     halted_list m' = tail (halted_list m)) ∧
  (∀ c k, CORE m !! c = Some k → halted k = false → int_disabled k = false →
     ∃ m', cpu_core_halt_begin c m = Ok (tt, m') ∧ halted_ok m' ∧
       halted_list m' = c :: halted_list m) ∧
  (∀ c i k, CORE m !! c = Some k →
     ∃ m' k', raise_interrupt c i m = Ok (tt, m') ∧ halted_ok m' ∧
       CORE m' !! c = Some k' ∧ halted k' = false ∧
       intpending k' = <[int_no i := true]> (intpending k)).
Proof.
  intros Hok. split; [|split].
  - destruct (restart_one_run m Hok) as (m' & ? & ? & ? & _). by exists m'.
  - intros c k Hk Hh Hi. unfold cpu_core_halt_begin.
    rewrite (bind_run _ _ _ _ _ (get_core_run _ _ _ Hk)). rewrite Hi. simpl.
    unfold mbind at 1, M_bind at 1. simpl.
    rewrite (bind_run _ _ _ _ _ (upd_core_run _ _ _ _ Hk)).
    eexists. split; [reflexivity|]. simpl. split; [|done].
    destruct Hok as [Hnd Hok]. split; simpl.
    + apply NoDup_cons. split; [|done]. rewrite Hok. intros (? & ? & ?); congruence.
    + intros d. rewrite elem_of_cons, Hok, (table_update _ _ _ _ _ Hk).
      case_decide; naive_solver.
  - intros c i k Hk. destruct (raise_interrupt_run m c i k Hok Hk) as (m' & Hr & Hok' & _ & Hc).
    exists m'. eexists. do 2 (split; [done|]). rewrite Hc.
    split; [apply list_lookup_insert_eq; by eapply lookup_lt_Some|done].
Qed.

Lemma halted_ok_flags m c k k' :
  halted_ok m → CORE m !! c = Some k → halted k' = halted k →
  halted_ok (set_CORE (<[c := k']> (CORE m)) m).
Proof.
  intros [Hnd Hok] Hk Hh. split; [done|]. intros d. simpl. rewrite Hok.
  rewrite (table_update _ _ _ _ _ Hk). case_decide; [|done]. subst. naive_solver.
Qed.

(** Updates of a core that do not touch [halted]. *)
Lemma upd_core_ok m c k f :
  halted_ok m → CORE m !! c = Some k → halted (f k) = halted k →
  ∃ m', upd_core c f m = Ok (tt, m') ∧ halted_ok m' ∧
    length (CORE m') = length (CORE m) ∧ system_clock m' = system_clock m.
Proof.
  intros Hok Hk Hh. eexists. split; [by eapply upd_core_run|].
  split; [by eapply halted_ok_flags|]. simpl. by rewrite length_insert.
Qed.

Lemma bios_set_timer_ok m c k usec old :
  halted_ok m → CORE m !! c = Some k →
  ∃ r m', bios_set_timer c usec old m = Ok (r, m') ∧ halted_ok m' ∧
    length (CORE m') = length (CORE m) ∧ system_clock m' = system_clock m.
Proof.
  intros Hok Hk. unfold bios_set_timer.
  destruct (upd_core_ok m c k (λ k, set_intpending (<[int_no ALARM := false]> (intpending k)) k)
    Hok Hk eq_refl) as (m' & Hr & ?).
  rewrite (bind_run _ _ _ _ _ Hr). by do 2 eexists.
Qed.

(** A machine of two cores: core 0 runs, core 1 is halted. *)
Definition demo_core (c : nat) (h d : bool) : Core :=
  MkCore c [Some ici_handler; Some yield_handler; None; None]
    [false; false; false; false] d h 0 [0; 0; 0; 0] [0; 0; 0; 0].
Definition demo_machine : machine :=
  Machine [demo_core 0 false true; demo_core 1 true false] 2 [1%nat] 5 [] 0 true 0.

Lemma demo_halted_ok : halted_ok demo_machine.
Proof.
  split; [apply (bool_decide_unpack _); by vm_compute|].
  intros [|[|c]]; simpl; split; set_solver by congruence.
Qed.

Lemma halted_list_exact_witness :
  ∃ m', cpu_core_restart_one demo_machine = Ok (tt, m') ∧ halted_ok m' ∧
    halted_list m' = [].
Proof. apply (proj1 (halted_list_exact demo_machine demo_halted_ok)). Defined.

(** ** Delivery of interrupts *)
Section delivery.
Context (run : interrupt_handler → BM unit).

Lemma dispatch_from_skip c k m intnos rest :
  CORE m !! c = Some k → int_disabled k = false →
  (∀ j, j ∈ intnos → intpending k !! j = Some false) →
  dispatch_from run c (intnos ++ rest) m = dispatch_from run c rest m.
Proof.
  intros Hk Hd. induction intnos as [|j l IH]; intros Hj; [done|]. simpl.
  rewrite (bind_run _ _ _ _ _ (get_core_run _ _ _ Hk)), Hd.
  assert (dispatch_one run c j m = Ok (tt, m)) as Hone.
  { unfold dispatch_one. rewrite (bind_run _ _ _ _ _ (get_core_run _ _ _ Hk)).
    rewrite Hj by left. done. }
  rewrite (bind_run _ _ _ _ _ Hone). apply IH. intros ??. apply Hj. by right.
Qed.

(** The core after its interrupt [i] is taken from the pending ones. *)
Definition acknowledged (i : nat) (k : Core) : Core :=
  set_irq_delivered (alter (λ z, i32 (z + 1)) i (irq_delivered k))
    (set_intpending (<[i := false]> (intpending k)) k).
(** The call of what the vector [vec] has for the interrupt [i]. *)
Definition call_handler (vec : list (option interrupt_handler)) (i : nat) : BM unit :=
  match vec !! i with Some (Some h) => run h | _ => mret tt end.
Definition deliver (c : nat) (vec : list (option interrupt_handler)) (i : nat) : BM unit :=
  upd_core c (acknowledged i) ;; call_handler vec i.
(** The handlers leave the interrupts of core [c] as they find them. *)
Definition quiet (c : nat) : Prop :=
  ∀ h x x' k, run h x = Ok (tt, x') → CORE x !! c = Some k →
    ∃ k', CORE x' !! c = Some k' ∧ int_disabled k' = int_disabled k ∧
      intpending k' = intpending k ∧ intvec k' = intvec k.

Lemma dispatch_one_hit c k m i :
  CORE m !! c = Some k → intpending k !! i = Some true → (i < length (intvec k))%nat →
  dispatch_one run c i m = deliver c (intvec k) i m.
Proof.
  intros Hk Hp [h Hv]%lookup_lt_is_Some. unfold dispatch_one, deliver, call_handler.
  rewrite (bind_run _ _ _ _ _ (get_core_run _ _ _ Hk)), Hp. cbn [get_some when]. unfold mbind at 1, M_bind at 1. simpl.
  rewrite (upd_core_twice_run _ _ _ _ _ _ Hk), (bind_run _ _ _ _ _ (upd_core_run _ _ _ _ Hk)). simpl. rewrite Hv.
  by destruct h.
Qed.

Lemma deliver_quiet c k m i x :
  quiet c → CORE m !! c = Some k → deliver c (intvec k) i m = Ok (tt, x) →
  ∃ k', CORE x !! c = Some k' ∧ int_disabled k' = int_disabled k ∧
    intpending k' = <[i := false]> (intpending k) ∧ intvec k' = intvec k.
Proof.
  intros Hq Hk. unfold deliver. rewrite (bind_run _ _ _ _ _ (upd_core_run _ _ _ _ Hk)).
  set (m1 := set_CORE _ m). assert (CORE m1 !! c = Some (acknowledged i k)) as Hk1 by (by eapply core_is_set).
  unfold call_handler. destruct (intvec k !! i) as [[h|]|]; [|intros [= <-]; by eexists..].
  intros Hx. by destruct (Hq _ _ _ _ Hx Hk1) as (k' & ? & ? & ? & ?); exists k'.
Qed.

Lemma filter_same {A} (P Q : A → Prop) `{!∀ x, Decision (P x), !∀ x, Decision (Q x)} (l : list A) :
  (∀ x, x ∈ l → P x ↔ Q x) → filter P l = filter Q l.
Proof.
  induction l as [|x l IH]; intros Hl; [done|]. rewrite !filter_cons, IH by (intros; apply Hl; by right).
  pose proof (Hl x ltac:(left)). repeat case_decide; tauto.
Qed.

(** The loop delivers what is pending, and leaves nothing pending. *)
Lemma dispatch_from_quiet c l : ∀ k m,
  quiet c → NoDup l → CORE m !! c = Some k → int_disabled k = false →
  (∀ j, j ∈ l → (j < length (intpending k))%nat ∧ (j < length (intvec k))%nat) →
  dispatch_from run c l m = for_each (filter (λ j, intpending k !! j = Some true) l) (deliver c (intvec k)) m ∧
  ∀ x, dispatch_from run c l m = Ok (tt, x) → ∃ k', CORE x !! c = Some k' ∧ int_disabled k' = false ∧
    length (intpending k') = length (intpending k) ∧ intvec k' = intvec k ∧
    ∀ j, intpending k' !! j = if decide (j ∈ l) then Some false else intpending k !! j.
Proof.
  induction l as [|i l IH]; intros k m Hq Hnd Hk Hd Hl.
  { split; [done|]. intros x [= <-]. exists k. by split_and!. }
  apply NoDup_cons in Hnd as [Hi Hnd]. destruct (Hl i ltac:(left)) as [Hip Hiv].
  cbn [dispatch_from]. rewrite (bind_run _ _ _ _ _ (get_core_run _ _ _ Hk)), Hd.
  destruct (lookup_lt_is_Some_2 _ _ Hip) as [[] Hp].
  - rewrite filter_cons_True by done. cbn [for_each]. pose proof (dispatch_one_hit c k m i Hk Hp Hiv) as Hone.
    destruct (deliver c (intvec k) i m) as [[[] m1]|] eqn:Hm; rewrite ?(bind_fault _ _ _ _ Hone), ?(bind_fault _ _ _ _ Hm);
      [rewrite (bind_run _ _ _ _ _ Hone), (bind_run _ _ _ _ _ Hm)|by split].
    destruct (deliver_quiet c k m i m1 Hq Hk Hm) as (k1 & Hk1 & Hd1 & Hp1 & Hv1).
    destruct (IH k1 m1 Hq Hnd Hk1) as [He Hx]; [congruence|rewrite Hp1, Hv1, length_insert; intros; apply Hl; by right|].
    split.
    + rewrite He, Hv1. f_equal. apply filter_same. intros j Hj. rewrite Hp1, list_lookup_insert_ne; [done|congruence].
    + intros x Hr. destruct (Hx x Hr) as (k' & Hk' & Hd' & Hl' & Hv' & Hj). exists k'.
      rewrite Hl', Hv', Hv1, Hp1, length_insert. split_and!; try done. intros j. rewrite Hj, Hp1.
      destruct (decide (j = i)) as [->|Hji].
      * rewrite (decide_True (P := i ∈ i :: l)) by left. case_decide; [done|]. by apply list_lookup_insert_eq.
      * rewrite list_lookup_insert_ne by done. repeat case_decide; set_solver.
  - rewrite filter_cons_False by congruence.
    assert (dispatch_one run c i m = Ok (tt, m)) as Hone.
    { unfold dispatch_one. rewrite (bind_run _ _ _ _ _ (get_core_run _ _ _ Hk)). by rewrite Hp. }
    rewrite (bind_run _ _ _ _ _ Hone). destruct (IH k m Hq Hnd Hk Hd) as [He Hx]; [intros; apply Hl; by right|].
    split; [done|]. intros x Hr. destruct (Hx x Hr) as (k' & Hk' & Hd' & Hl' & Hv' & Hj). exists k'.
    split_and!; try done. intros j. rewrite Hj. destruct (decide (j = i)) as [->|Hji].
    + rewrite (decide_True (P := i ∈ i :: l)) by left. by case_decide.
    + repeat case_decide; set_solver.
Qed.

Lemma dispatch_interrupts_first c k m j :
  CORE m !! c = Some k → int_disabled k = false → intpending k !! j = Some true →
  (∀ x, (x < j)%nat → intpending k !! x = Some false) →
  (j < maximum_interrupt_no)%nat → (j < length (intvec k))%nat →
  dispatch_interrupts run c m = (call_handler (intvec k) j ;;
    dispatch_from run c (seq (S j) (maximum_interrupt_no - S j))) (set_CORE (<[c := acknowledged j k]> (CORE m)) m).
Proof.
  intros Hk Hd Hp Hlow Hj Hv. unfold dispatch_interrupts.
  replace (seq 0 maximum_interrupt_no) with (seq 0 j ++ j :: seq (S j) (maximum_interrupt_no - S j))
    by (destruct j as [|[|[|[|j]]]]; [reflexivity..|unfold maximum_interrupt_no in Hj; lia]).
  rewrite (dispatch_from_skip c k) by (try done; intros x Hx%elem_of_seq; apply Hlow; lia).
  cbn [dispatch_from]. rewrite (bind_run _ _ _ _ _ (get_core_run _ _ _ Hk)), Hd.
  pose proof (dispatch_one_hit c k m j Hk Hp Hv) as Hone.
  unfold deliver in Hone. rewrite (bind_run _ _ _ _ _ (upd_core_run _ _ _ _ Hk)) in Hone.
  unfold mbind, M_bind. by rewrite Hone.
Qed.

(** The core when interrupts are enabled, and a pending [SIGUSR1] was counted. *)
Definition opened (sig : bool) (k : Core) : Core :=
  set_irq_count (if sig then i32 (irq_count k + 1) else irq_count k) (set_int_disabled false k).

Lemma cpu_enable_interrupts_run sig c k m :
  CORE m !! c = Some k → int_disabled k = true →
  cpu_enable_interrupts run sig c m =
    (dispatch_interrupts run c ;; when sig (dispatch_interrupts run c))
      (set_CORE (<[c := opened sig k]> (CORE m)) m).
Proof.
  intros Hk Hd. unfold cpu_enable_interrupts. rewrite (bind_run _ _ _ _ _ (get_core_run _ _ _ Hk)), Hd. cbn [when].
  rewrite (bind_run _ _ _ _ _ (upd_core_run _ _ _ _ Hk)). destruct sig; cbn [when].
  - set (m1 := set_CORE _ m). assert (CORE m1 !! c = Some (set_int_disabled false k)) as Hk1 by (by eapply core_is_set).
    unfold sigusr1_handler. set (m2 := set_CORE _ m).
    assert (upd_core c (λ k, set_irq_count (i32 (irq_count k + 1)) k) m1 = Ok (tt, m2)) as Hu
      by (rewrite (upd_core_run _ _ _ _ Hk1); unfold m1, m2; cbn; by rewrite list_insert_insert_eq).
    assert (CORE m2 !! c = Some (opened true k)) as Hk2 by (by eapply core_is_set).
    unfold mbind at 1, M_bind at 1. rewrite (bind_run _ _ _ _ _ Hu).
    rewrite (bind_run _ _ _ _ _ (get_core_run _ _ _ Hk2)). done.
  - replace (opened false k) with (set_int_disabled false k) by (by destruct k).
    set (m3 := set_CORE _ m). rewrite (bind_run _ _ m3 tt m3) by done.
    destruct (dispatch_interrupts run c m3) as [[[] x]|f] eqn:Hr;
      [by rewrite (bind_run _ _ _ _ _ Hr)|by rewrite (bind_fault _ _ _ _ Hr)].
Qed.

Lemma dispatch_interrupts_idle c k m :
  CORE m !! c = Some k → int_disabled k = false →
  (∀ j, (j < maximum_interrupt_no)%nat → intpending k !! j = Some false) → dispatch_interrupts run c m = Ok (tt, m).
Proof.
  intros Hk Hd Hp. unfold dispatch_interrupts. rewrite <-(app_nil_r (seq _ _)).
  rewrite (dispatch_from_skip c k); [done..|]. intros j Hj%elem_of_seq. apply Hp. lia.
Qed.
End delivery.

(** C32 (functional). Interrupts that are pending while the core has interrupts
    disabled are not lost.  An interrupt that is raised then is pending, next to those
    that were.  When [cpu_enable_interrupts] is called, with or without a pending
    signal, it calls what the core has installed for the first pending interrupt, in a
    state in which this one is counted and no longer pending and all others still are,
    and goes on with those that follow.  As long as the handlers leave the interrupts
    of the core as they find them, exactly the pending interrupts are delivered, each
    once and in order, and none is pending in the end. *)
Theorem masked_interrupt_delivered run sig m c k i :
  halted_ok m → CORE m !! c = Some k → int_disabled k = true →
  length (intpending k) = maximum_interrupt_no → length (intvec k) = maximum_interrupt_no →
  let flags := <[int_no i := true]> (intpending k) in
  ∃ m' k', raise_interrupt c i m = Ok (tt, m') ∧ CORE m' !! c = Some k' ∧ int_disabled k' = true ∧
    intpending k' = flags ∧ intvec k' = intvec k ∧
    (∀ j, flags !! j = Some true → (∀ x, (x < j)%nat → flags !! x = Some false) →
       ∃ m2 k2, CORE m2 !! c = Some k2 ∧ int_disabled k2 = false ∧ intpending k2 = <[j := false]> flags ∧
         irq_delivered k2 = alter (λ z, i32 (z + 1)) j (irq_delivered k) ∧
         cpu_enable_interrupts run sig c m' =
           ((call_handler run (intvec k) j ;; dispatch_from run c (seq (S j) (maximum_interrupt_no - S j))) ;;
            when sig (dispatch_interrupts run c)) m2) ∧
    (quiet run c → ∃ m1, upd_core c (opened sig) m' = Ok (tt, m1) ∧
       cpu_enable_interrupts run sig c m' =
         for_each (filter (λ j, flags !! j = Some true) (seq 0 maximum_interrupt_no)) (deliver run c (intvec k)) m1 ∧
       ∀ x, cpu_enable_interrupts run sig c m' = Ok (tt, x) →
         ∃ kx, CORE x !! c = Some kx ∧ ∀ j, (j < maximum_interrupt_no)%nat → intpending kx !! j = Some false).
Proof.
  intros Hok Hk Hd Hlen Hvec flags. destruct (raise_interrupt_run m c i k Hok Hk) as (m' & Hr & _ & _ & Hc).
  set (k' := set_halted false _) in Hc.
  assert (CORE m' !! c = Some k') as Hk' by (rewrite Hc; apply list_lookup_insert_eq; by eapply lookup_lt_Some).
  exists m', k'. split; [done|]. split; [done|]. split; [done|]. split; [done|]. split; [done|].
  set (m1 := set_CORE (<[c := opened sig k']> (CORE m')) m').
  assert (CORE m1 !! c = Some (opened sig k')) as Hk1 by (by eapply core_is_set).
  assert (cpu_enable_interrupts run sig c m' = (dispatch_interrupts run c ;; when sig (dispatch_interrupts run c)) m1)
    as Hen by (by apply cpu_enable_interrupts_run).
  assert (length flags = maximum_interrupt_no) as Hfl by (unfold flags; by rewrite length_insert).
  split.
  - intros j Hj Hlow. assert (j < maximum_interrupt_no)%nat as Hlt by (rewrite <-Hfl; by eapply lookup_lt_Some).
    exists (set_CORE (<[c := acknowledged j (opened sig k')]> (CORE m1)) m1), (acknowledged j (opened sig k')).
    split; [by eapply core_is_set|]. do 3 (split; [done|]). rewrite Hen.
    unfold mbind at 1, M_bind at 1. rewrite (dispatch_interrupts_first run c (opened sig k') m1 j); try done.
    change (j < length (intvec k))%nat. by rewrite Hvec.
  - intros Hq. exists m1. split; [by apply upd_core_run|]. rewrite Hen.
    destruct (dispatch_from_quiet run c (seq 0 maximum_interrupt_no) (opened sig k') m1 Hq (NoDup_seq _ _) Hk1 eq_refl)
      as [He Hx]; [intros j Hj%elem_of_seq; cbn; rewrite length_insert; lia|].
    assert (∀ x, dispatch_interrupts run c m1 = Ok (tt, x) →
      ∃ kx, CORE x !! c = Some kx ∧ int_disabled kx = false ∧
        ∀ j, (j < maximum_interrupt_no)%nat → intpending kx !! j = Some false) as Hend.
    { intros x Hr2. destruct (Hx x Hr2) as (kx & Hkx & Hdx & _ & _ & Hj). exists kx. split; [done|]. split; [done|].
      intros j Hlt. rewrite Hj, decide_True; [done|]. apply elem_of_seq. lia. }
    assert ((dispatch_interrupts run c ;; when sig (dispatch_interrupts run c)) m1 = dispatch_interrupts run c m1) as Htwice.
    { destruct (dispatch_interrupts run c m1) as [[[] x]|] eqn:Hr2; [|by apply bind_fault].
      rewrite (bind_run _ _ _ _ _ Hr2). destruct sig; [|done].
      destruct (Hend x eq_refl) as (kx & Hkx & Hdx & Hj). by apply (dispatch_interrupts_idle run c kx). }
    rewrite Htwice. split; [exact He|]. intros x Hr2. destruct (Hend x Hr2) as (kx & Hkx & _ & Hj). by exists kx.
Qed.

(** A terminal interrupt is pending when the alarm is raised; both are delivered. *)
Definition demo_masked : machine :=
  set_CORE [set_intpending [false; false; true; false] (demo_core 0 false true); demo_core 1 true false] demo_machine.
Lemma masked_interrupt_delivered_witness :
  let run h := when (bool_decide (h = yield_handler)) (modify (set_system_clock 77)) in
  ∃ m' m1, raise_interrupt 0 ALARM demo_masked = Ok (tt, m') ∧
    upd_core 0 (opened true) m' = Ok (tt, m1) ∧
    cpu_enable_interrupts run true 0 m' =
      for_each [1; 2]%nat (deliver run 0 [Some ici_handler; Some yield_handler; None; None]) m1.
Proof.
  intros run. destruct (masked_interrupt_delivered run true demo_masked 0
    (set_intpending [false; false; true; false] (demo_core 0 false true)) ALARM) as (m' & k' & Hr & _ & _ & _ & _ & _ & Hq).
  - split; [apply (bool_decide_unpack _); by vm_compute|].
    intros [|[|c]]; simpl; split; set_solver by congruence.
  - reflexivity.
  - reflexivity.
  - reflexivity.
  - reflexivity.
  - destruct Hq as (m1 & Hm1 & He & _).
    + intros h x x' k Hx Hk. exists k. revert Hx. unfold run, when. case_bool_decide; intros [= <-]; done.
    + exists m', m1. split; [exact Hr|]. split; [exact Hm1|exact He].
Defined.

(** Setting a timer: the value passed to the host has the seconds
    and a number of nanoseconds below one second, and reading the same value
    back gives the number of microseconds that was set. *)
Theorem timer_roundtrip usec :
  0 ≤ usec < 2 ^ 64 →
  0 ≤ tv_nsec (timer_value usec) < 1000000000 ∧ 0 ≤ tv_sec (timer_value usec) ∧
  timer_remaining (timer_value usec) = usec.
Proof.
  intros Hu. unfold timer_value, timer_remaining. simpl.
  pose proof (Z.mod_pos_bound usec 1000000 ltac:(lia)).
  split; [lia|]. split; [apply Z.div_pos; lia|].
  rewrite Z.div_mul by lia. rewrite <-Z.div_mod by lia. by apply u64_small.
Qed.

Lemma timer_roundtrip_witness :
  0 ≤ 10000 < 2 ^ 64 ∧ timer_value 10000 = Timespec 0 10000000 ∧
  timer_remaining (timer_value 10000) = 10000.
Proof. split; [lia|]. split; [reflexivity|]. apply (timer_roundtrip 10000). lia. Defined.
