(* ===== verification/Vm.v ===== *)
(** * Starting and stopping the virtual machine (bios.c)

    [vm_boot] runs in the thread of the caller, which becomes the interrupt
    controller, and starts a thread for each core; two barriers bring them together
    before the boot function, and after it.  The threads are a transition system over
    the machine of [Bios.v]; what the cores and the controller do in between is any
    change of the machine. *)
From S2P Require Import Prelude Bios.
Local Open Scope Z_scope.

(** ** The threads

    [InBoot j]: in the boot function, which will call [cpu_core_barrier_sync] [j] more
    times; [InSync j]: in such a call, with [j] more to come. *)
Inductive core_pc :=
  | NotCreated | Setup | AtStart | InBoot (j : nat) | InSync (j : nat) | AtCoreEnd | Stopping | AtEnd | Finished.
Inductive main_pc :=
  | Launching (c : nat) | Opening (i : nat) | MainAtStart | PicLoop | PicTurn | MainAtEnd | Closing (i : nat)
  | Joining (c : nat) | Returned.
#[export] Instance core_pc_eq_dec : EqDecision core_pc.
Proof. solve_decision. Defined.
#[export] Instance main_pc_eq_dec : EqDecision main_pc.
Proof. solve_decision. Defined.

Record vm_state := Vm { mach : machine; main : main_pc; cores : list core_pc }.

(** ** Barriers

    [system_barrier] is for the cores and the main thread, [core_barrier] for the
    cores.  [pthread_barrier_wait] holds a thread until as many as the barrier is for
    wait on it. *)
Definition core_at_system (pc : core_pc) : bool := match pc with AtStart | AtEnd => true | _ => false end.
Definition main_at_system (pc : main_pc) : bool := match pc with MainAtStart | MainAtEnd => true | _ => false end.
Definition core_at_core (pc : core_pc) : bool := match pc with InSync _ | AtCoreEnd => true | _ => false end.

Lemma filter_full {A} (P : A → Prop) `{∀ x, Decision (P x)} l n :
  length l = n → length (filter P l) = n ↔ Forall P l.
Proof.
  intros <-. induction l as [|x l IH]; [done|]. rewrite Forall_cons, filter_cons, <- IH.
  case_decide; simpl; [naive_solver lia|]. pose proof (length_filter P l). naive_solver lia.
Qed.

Lemma init_cores n k (m : machine) :
  (k + n ≤ length (CORE m))%nat →
  ∃ l, for_each (seq k n) (λ c, upd_core c (initialize_core c)) m = Ok (tt, set_CORE l m) ∧
    ∀ c, l !! c = if decide (k ≤ c < k + n)%nat then initialize_core c <$> CORE m !! c else CORE m !! c.
Proof.
  revert k m. induction n as [|n IH]; intros k m Hk; simpl.
  - exists (CORE m). split; [by destruct m|]. intros c. case_decide; [lia|done].
  - destruct (lookup_lt_is_Some_2 (CORE m) k ltac:(lia)) as (kc & Hkc).
    rewrite (bind_run _ _ _ _ _ (upd_core_run _ _ _ _ Hkc)).
    destruct (IH (S k) (set_CORE (<[k := initialize_core k kc]> (CORE m)) m)) as (l & Hl & Hspec);
      [simpl; rewrite length_insert; lia|].
    exists l. split; [exact Hl|]. intros c. rewrite Hspec. simpl.
    destruct (decide (c = k)) as [->|Hne].
    + rewrite list_lookup_insert_eq, Hkc by lia. do 2 case_decide; done || lia.
    + rewrite list_lookup_insert_ne by done. do 2 case_decide; done || lia.
Qed.

Section protocol.
(** [syncs]: how often the boot function calls [cpu_core_barrier_sync]. *)
Context (ncpu serialno syncs : nat).

Definition core_past_system (pc : core_pc) : core_pc :=
  match pc with AtStart => InBoot syncs | AtEnd => Finished | _ => pc end.
Definition main_past_system (pc : main_pc) : main_pc :=
  match pc with MainAtStart => PicLoop | MainAtEnd => Closing 0 | _ => pc end.
Definition core_past_core (pc : core_pc) : core_pc :=
  match pc with InSync j => InBoot j | AtCoreEnd => Stopping | _ => pc end.

Definition waiting_system (s : vm_state) : nat :=
  (if main_at_system (main s) then 1 else 0) + length (filter (λ pc, core_at_system pc = true) (cores s)).
Definition system_barrier (s : vm_state) : vm_state :=
  if decide (waiting_system s = S ncpu)
  then Vm (mach s) (main_past_system (main s)) (core_past_system <$> cores s) else s.
Definition core_barrier (s : vm_state) : vm_state :=
  if decide (length (filter (λ pc, core_at_core pc = true) (cores s)) = ncpu)
  then Vm (mach s) (main s) (core_past_core <$> cores s) else s.

(** ** The steps *)

(** The start of [vm_boot], up to the threads; [now] is the time of the host. *)
Definition vm_boot_start (now : Z) : BM unit :=
  m ← get;
  (if decide ((0 < ncpu)%nat ∧ (ncpu ≤ MAX_CORES)%nat) then mret tt else raise Fatal) ;;
  (if decide (ncores m = 0%nat) then mret tt else raise Fatal) ;;
  (if decide (serialno ≤ MAX_TERMINALS)%nat then mret tt else raise Fatal) ;;
  modify (λ m, Machine (CORE m) ncpu [] now (TERM m) (nterm m) true (PIC_usr1_queued m)).

(** The fields that [vm_boot] sets before it creates the thread of core [c], and
    those that the thread sets. *)
Definition launch_core (c : nat) (k : Core) : Core :=
  MkCore c (intvec k) (intpending k) (int_disabled k) false 0
    (replicate maximum_interrupt_no 0) (replicate maximum_interrupt_no 0).
Definition setup_core (k : Core) : Core :=
  MkCore (core_id k) (replicate maximum_interrupt_no None) (replicate maximum_interrupt_no false) false
    (halted k) (irq_count k) (irq_raised k) (irq_delivered k).
Definition reset_handlers (k : Core) : Core := set_intvec (replicate maximum_interrupt_no None) k.

(** [io_device_init] and [terminal_init]; [rdy]: what [poll] answers. *)
Definition io_device_init (m : machine) (fd : Z) (dir : io_direction) (rdy : bool) : io_device :=
  IoDevice fd dir 0 rdy (system_clock m).
Definition terminal_init (m : machine) (confd kbdfd : Z) (crdy krdy : bool) : terminal :=
  Terminal (io_device_init m confd IODIR_TX crdy) (io_device_init m kbdfd IODIR_RX krdy).

Definition set_nterm (v : nat) (m : machine) : machine := Machine (CORE m) (ncores m) (halted_list m) (system_clock m)
  (TERM m) v (PIC_active m) (PIC_usr1_queued m).
Definition set_ncores (v : nat) (m : machine) : machine := Machine (CORE m) v (halted_list m) (system_clock m)
  (TERM m) (nterm m) (PIC_active m) (PIC_usr1_queued m).
(** Core 0 stops the controller, and interrupts it. *)
Definition stop_pic (m : machine) : machine := Machine (CORE m) (ncores m) (halted_list m) (system_clock m)
  (TERM m) (nterm m) false (PIC_usr1_queued m + 1).

(** The cores that run code or take signals, at a barrier too. *)
Definition signalled (pc : core_pc) : bool :=
  match pc with InBoot _ | InSync _ | AtCoreEnd | Stopping | AtEnd => true | _ => false end.

(** What runs on the machine leaves the controller on, and the tables as large. *)
Definition works (m m' : machine) : Prop :=
  PIC_active m' = PIC_active m ∧ ncores m' = ncores m ∧ length (CORE m') = length (CORE m).

Definition upd (f : machine → machine) (s : vm_state) : vm_state := Vm (f (mach s)) (main s) (cores s).
Definition go_main (pc : main_pc) (s : vm_state) : vm_state := Vm (mach s) pc (cores s).
Definition go_core (c : nat) (pc : core_pc) (s : vm_state) : vm_state := Vm (mach s) (main s) (<[c := pc]> (cores s)).
Definition on_core (c : nat) (f : Core → Core) (m : machine) : machine := set_CORE (alter f c (CORE m)) m.

Inductive vm_step (s : vm_state) : vm_state → Prop :=
  (** The thread of the caller *)
  | launch c : main s = Launching c → (c < ncpu)%nat →
      vm_step s (go_main (Launching (S c)) (go_core c Setup (upd (on_core c (launch_core c)) s)))
  | launched : main s = Launching ncpu → vm_step s (go_main (Opening 0) (upd (λ m, set_nterm serialno (set_PIC_usr1_queued 0 m)) s))
  | open_one i confd kbdfd crdy krdy : main s = Opening i → (i < serialno)%nat →
      vm_step s (go_main (Opening (S i))
        (upd (λ m, set_TERM (<[i := terminal_init m confd kbdfd crdy krdy]> (TERM m)) m) s))
  | opened : main s = Opening serialno → vm_step s (system_barrier (go_main MainAtStart s))
  | pic_enters : main s = PicLoop → PIC_active (mach s) = true → vm_step s (go_main PicTurn s)
  | pic_works m : main s = PicTurn → works (mach s) m → vm_step s (upd (λ _, m) s)
  | pic_again : main s = PicTurn → vm_step s (go_main PicLoop s)
  | pic_left : main s = PicLoop → PIC_active (mach s) = false → vm_step s (system_barrier (go_main MainAtEnd s))
  | close_one i : main s = Closing i → (i < serialno)%nat → vm_step s (go_main (Closing (S i)) s)
  | closed : main s = Closing serialno → vm_step s (go_main (Joining 0) (upd (set_nterm 0) s))
  | join_one c : main s = Joining c → cores s !! c = Some Finished → vm_step s (go_main (Joining (S c)) s)
  | joined : main s = Joining ncpu → vm_step s (go_main Returned (upd (set_ncores 0) s))
  (** The threads of the cores *)
  | setup c : cores s !! c = Some Setup →
      vm_step s (system_barrier (go_core c AtStart (upd (on_core c setup_core) s)))
  | core_works c pc m : cores s !! c = Some pc → signalled pc = true → works (mach s) m → vm_step s (upd (λ _, m) s)
  | core_syncs c j : cores s !! c = Some (InBoot (S j)) → vm_step s (core_barrier (go_core c (InSync j) s))
  | core_returns c : cores s !! c = Some (InBoot 0) →
      vm_step s (core_barrier (go_core c AtCoreEnd (upd (on_core c reset_handlers) s)))
  | core_stops c : cores s !! c = Some Stopping →
      vm_step s (system_barrier (go_core c AtEnd (upd (if decide (c = 0%nat) then stop_pic else id) s))).

Definition vm_start (m : machine) : vm_state := Vm m (Launching 0) (replicate ncpu NotCreated).

(** ** The invariant

    How often a thread has passed a barrier, and how often the others have. *)
Definition core_hs (pc : core_pc) : nat :=
  match pc with NotCreated | Setup | AtStart => 0 | Finished => 2 | _ => 1 end.
Definition main_hs (pc : main_pc) : nat :=
  match pc with
  | Launching _ | Opening _ | MainAtStart => 0
  | PicLoop | PicTurn | MainAtEnd => 1
  | Closing _ | Joining _ | Returned => 2
  end.
Definition core_gs (pc : core_pc) : nat :=
  match pc with
  | NotCreated | Setup | AtStart => 0
  | InBoot j => syncs - j
  | InSync j => syncs - S j
  | AtCoreEnd => syncs
  | Stopping | AtEnd | Finished => S syncs
  end.
Definition core_in (pc : core_pc) : Prop :=
  match pc with InBoot j => j ≤ syncs | InSync j => S j ≤ syncs | _ => True end%nat.
Definition main_in (pc : main_pc) : Prop :=
  match pc with
  | Launching c | Joining c => c ≤ ncpu | Opening i | Closing i => i ≤ serialno | _ => True end%nat.
Definition stopped (pc : core_pc) : bool := match pc with AtEnd | Finished => true | _ => false end.

(** Nobody is left behind at a barrier that is full. *)
Definition system_full (s : vm_state) : Prop :=
  main_at_system (main s) = true ∧ Forall (λ pc, core_at_system pc = true) (cores s).
Definition core_full (s : vm_state) : Prop := Forall (λ pc, core_at_core pc = true) (cores s).

Record vm_mid (s : vm_state) : Prop := {
  mid_length : length (cores s) = ncpu;
  mid_hs : Forall (λ pc, core_hs pc = main_hs (main s)) (cores s);
  mid_gs : ∃ g, Forall (λ pc, core_gs pc = g) (cores s);
  mid_in : Forall core_in (cores s);
  mid_main : main_in (main s);
  mid_created c : cores s !! c = Some NotCreated ↔ (c < ncpu)%nat ∧ ∃ c0, main s = Launching c0 ∧ (c0 ≤ c)%nat;
  mid_active pc : cores s !! 0%nat = Some pc → PIC_active (mach s) = negb (stopped pc);
  mid_end : main s = MainAtEnd → PIC_active (mach s) = false }.
Definition vm_ok (s : vm_state) : Prop := vm_mid s ∧ ¬ system_full s ∧ ¬ core_full s.

Context (Hcpu : (0 < ncpu)%nat).
#[local] Set Default Proof Using "Type*".

Lemma system_fires s : length (cores s) = ncpu → waiting_system s = S ncpu ↔ system_full s.
Proof.
  intros Hl. unfold waiting_system, system_full. rewrite <- (filter_full _ _ _ Hl).
  pose proof (length_filter (λ pc, core_at_system pc = true) (cores s)).
  destruct (main_at_system _); naive_solver lia.
Qed.

Lemma core_0 s : length (cores s) = ncpu → ∃ pc, cores s !! 0%nat = Some pc.
Proof. intros Hl. apply lookup_lt_is_Some. lia. Qed.

(** A predicate that a step of the barrier keeps. *)
Lemma barrier_forall (P Q : core_pc → Prop) f l :
  (∀ pc, P pc → Q (f pc)) → Forall P l → Forall Q (f <$> l).
Proof. intros HPQ Hl. rewrite Forall_fmap. by eapply Forall_impl. Qed.

Lemma not_all (P : core_pc → Prop) s : vm_mid s → Forall (λ pc, ¬ P pc) (cores s) → ¬ Forall P (cores s).
Proof.
  intros Hok HN HP. destruct (core_0 _ (mid_length _ Hok)) as (pc & Hpc).
  by apply (Forall_lookup_1 _ _ _ _ HN Hpc), (Forall_lookup_1 _ _ _ _ HP Hpc).
Qed.

Lemma system_barrier_ok s : vm_mid s → ¬ core_full s → vm_ok (system_barrier s).
Proof.
  intros Hok Hc. unfold system_barrier.
  case_decide as Hf; [|by rewrite (system_fires s (mid_length _ Hok)) in Hf].
  apply system_fires in Hf as [Hm Hf]; [|by apply Hok].
  destruct Hok as [Hl Hhs [g Hgs] Hin Hmain Hcr Hact Hend].
  assert (Hboth : Forall (λ pc, (pc = AtStart ∨ pc = AtEnd) ∧ core_hs pc = main_hs (main s) ∧ core_gs pc = g) (cores s)).
  { rewrite Forall_lookup in Hf, Hhs, Hgs. apply Forall_lookup_2. intros i pc Hi.
    split; [|by eauto]. specialize (Hf _ _ Hi). destruct pc; naive_solver. }
  set (s' := Vm _ _ _). assert (Hmid : vm_mid s').
  { split; simpl.
    - by rewrite length_fmap.
    - eapply barrier_forall; [|exact Hboth]. intros pc ([-> | ->] & Hh & _); destruct (main s); simpl in *; done.
    - exists g. eapply barrier_forall; [|exact Hboth]. intros pc ([-> | ->] & _ & Hg); simpl in *; lia.
    - eapply barrier_forall; [|exact Hboth]. intros pc ([-> | ->] & _); simpl; lia.
    - destruct (main s); simpl in *; done || lia.
    - intros c. rewrite list_lookup_fmap. split.
      + intros (pc & Hpc & ?)%fmap_Some. destruct (Forall_lookup_1 _ _ _ _ Hboth Hpc) as ([-> | ->] & _); done.
      + intros (_ & c0 & Hc0 & _). destruct (main s); simpl in *; done.
    - intros pc. rewrite list_lookup_fmap. intros (pc0 & Hpc & ->)%fmap_Some. rewrite (Hact _ Hpc).
      destruct (Forall_lookup_1 _ _ _ _ Hboth Hpc) as ([-> | ->] & _); done.
    - destruct (main s); simpl in *; done. }
  split; [done|]. split.
  - intros [Hm' _]. unfold s' in Hm'. simpl in Hm'. destruct (main s); simpl in *; done.
  - apply (not_all _ _ Hmid). simpl. eapply barrier_forall; [|exact Hboth]. by intros pc ([-> | ->] & _).
Qed.

Lemma core_barrier_ok s : vm_mid s → ¬ system_full s → vm_ok (core_barrier s).
Proof.
  intros Hok Hs. unfold core_barrier.
  case_decide as Hf; [|by rewrite (filter_full _ _ _ (mid_length _ Hok)) in Hf].
  rewrite (filter_full _ _ _ (mid_length _ Hok)) in Hf.
  destruct Hok as [Hl Hhs [g Hgs] Hin Hmain Hcr Hact Hend].
  assert (Hboth : Forall (λ pc, (pc = AtCoreEnd ∨ ∃ j, pc = InSync j) ∧ core_in pc ∧
    core_hs pc = main_hs (main s) ∧ core_gs pc = g) (cores s)).
  { rewrite Forall_lookup in Hf, Hhs, Hgs, Hin. apply Forall_lookup_2. intros i pc Hi.
    split; [|by eauto 8]. specialize (Hf _ _ Hi). destruct pc; naive_solver. }
  set (s' := Vm _ _ _). assert (Hmid : vm_mid s').
  { split; simpl.
    - by rewrite length_fmap.
    - eapply barrier_forall; [|exact Hboth]. by intros pc ([-> | (j & ->)] & _ & Hh & _).
    - exists (S g). eapply barrier_forall; [|exact Hboth].
      intros pc ([-> | (j & ->)] & Hj & _ & Hg); simpl in *; lia.
    - eapply barrier_forall; [|exact Hboth]. intros pc ([-> | (j & ->)] & Hj & _); simpl in *; lia.
    - done.
    - intros c. rewrite <- Hcr, list_lookup_fmap. split.
      + intros (pc & Hpc & ?)%fmap_Some. by destruct (Forall_lookup_1 _ _ _ _ Hboth Hpc) as ([-> | (j & ->)] & _).
      + intros Hpc. by destruct (Forall_lookup_1 _ _ _ _ Hboth Hpc) as ([? | (j & ?)] & _).
    - intros pc. rewrite list_lookup_fmap. intros (pc0 & Hpc & ->)%fmap_Some. rewrite (Hact _ Hpc).
      destruct (Forall_lookup_1 _ _ _ _ Hboth Hpc) as ([-> | (j & ->)] & _); done.
    - done. }
  split; [done|]. split.
  - intros [_ Hs']. revert Hs'. apply (not_all _ _ Hmid). simpl. eapply barrier_forall; [|exact Hboth].
    by intros pc ([-> | (j & ->)] & _).
  - apply (not_all _ _ Hmid). simpl. eapply barrier_forall; [|exact Hboth]. by intros pc ([-> | (j & ->)] & _).
Qed.

Lemma go_main_mid s m pc :
  vm_mid s → main_hs pc = main_hs (main s) → main_in pc →
  (∀ c, main s = Launching c → (ncpu ≤ c)%nat) → (∀ c, pc ≠ Launching c) →
  PIC_active m = PIC_active (mach s) → (pc = MainAtEnd → PIC_active m = false) → vm_mid (Vm m pc (cores s)).
Proof.
  intros [Hl Hhs Hgs Hin Hmain Hcr Hact Hend] Hh Hi Hm Hpc Ha He. split; simpl; try done.
  - by rewrite Hh.
  - intros c. rewrite Hcr. naive_solver lia.
  - by rewrite Ha.
Qed.

Lemma go_core_mid s m c pc pc' :
  vm_mid s → cores s !! c = Some pc → core_hs pc' = core_hs pc → core_gs pc' = core_gs pc → core_in pc' →
  pc ≠ NotCreated → pc' ≠ NotCreated → stopped pc = false →
  PIC_active m = (if decide (c = 0%nat) then negb (stopped pc') else PIC_active (mach s)) →
  vm_mid (Vm m (main s) (<[c := pc']> (cores s))).
Proof.
  intros [Hl Hhs [g Hgs] Hin Hmain Hcr Hact Hend] Hc Hh Hg Hi Hpc Hpc' Hst Ha. split; simpl; try done.
  - by rewrite length_insert.
  - apply Forall_insert; [done|]. rewrite Hh. by apply (Forall_lookup_1 _ _ _ _ Hhs Hc).
  - exists g. apply Forall_insert; [done|]. rewrite Hg. by apply (Forall_lookup_1 _ _ _ _ Hgs Hc).
  - by apply Forall_insert.
  - intros d. rewrite <- Hcr. destruct (decide (c = d)) as [<-|Hne].
    + rewrite list_lookup_insert_eq by (by eapply lookup_lt_Some). naive_solver.
    + by rewrite list_lookup_insert_ne.
  - intros pc0. rewrite Ha. case_decide as H0.
    + subst c. rewrite list_lookup_insert_eq by (by eapply lookup_lt_Some). by intros [= <-].
    + rewrite list_lookup_insert_ne by done. apply Hact.
  - rewrite Ha. case_decide as H0; [|done]. subst c. intros Hend'%Hend. rewrite (Hact _ Hc), Hst in Hend'. done.
Qed.

Lemma not_all_insert (f : core_pc → bool) c pc l :
  f pc = false → (c < length l)%nat → ¬ Forall (λ pc, f pc = true) (<[c := pc]> l).
Proof.
  intros Hpc Hc HF. assert (Hi : <[c := pc]> l !! c = Some pc) by (by rewrite list_lookup_insert_eq).
  pose proof (Forall_lookup_1 _ _ _ _ HF Hi) as Ht. simpl in Ht. congruence.
Qed.

Lemma active_same s c pc pc' :
  vm_mid s → cores s !! c = Some pc → stopped pc' = stopped pc →
  PIC_active (mach s) = (if decide (c = 0%nat) then negb (stopped pc') else PIC_active (mach s)).
Proof. intros Hok Hc Hs. case_decide; [|done]. subst. rewrite Hs. by apply (mid_active _ Hok). Qed.

Lemma launch_mid s m c :
  vm_mid s → main s = Launching c → (c < ncpu)%nat → PIC_active m = PIC_active (mach s) →
  vm_mid (Vm m (Launching (S c)) (<[c := Setup]> (cores s))).
Proof.
  intros [Hl Hhs [g Hgs] Hin Hmain Hcr Hact Hend] Hm Hc Ha. rewrite Hm in *.
  assert (Hnc : cores s !! c = Some NotCreated) by (apply Hcr; eauto).
  split; simpl; try done.
  - by rewrite length_insert.
  - by apply Forall_insert.
  - exists g. apply Forall_insert; [done|]. apply (Forall_lookup_1 _ _ _ _ Hgs Hnc).
  - by apply Forall_insert.
  - intros d. destruct (decide (c = d)) as [<-|Hne].
    + rewrite list_lookup_insert_eq by lia. naive_solver lia.
    + rewrite list_lookup_insert_ne by done. rewrite Hcr. naive_solver lia.
  - intros pc. rewrite Ha. destruct (decide (c = 0%nat)) as [->|Hne].
    + rewrite list_lookup_insert_eq by lia. intros [= <-]. apply (Hact _ Hnc).
    + rewrite list_lookup_insert_ne by done. apply Hact.
Qed.

Ltac main_moves :=
  match goal with Hok : vm_mid ?s |- _ => apply (go_main_mid s); [done|..] end;
  repeat match goal with
    | H : main _ = _, Hok : vm_mid _ |- _ =>
        let Hin := fresh "Hin" in pose proof (mid_main _ Hok) as Hin; rewrite H in *; clear Hok
    end; simpl in *; unfold works in *; try done; try lia; try naive_solver lia.

Ltac core_moves :=
  match goal with Hok : vm_mid ?s, H : cores ?s !! ?c = Some ?pc |- _ =>
    apply (go_core_mid s _ c pc); try (by apply (active_same s c pc)); simpl in *;
    try done; try lia; try by case_decide
  end.

Lemma vm_step_ok s s' : vm_ok s → vm_step s s' → vm_ok s'.
Proof.
  intros (Hok & Hsf & Hcf) Hstep.
  assert (Hl : length (cores s) = ncpu) by apply Hok.
  assert (Hlt : ∀ c pc, cores s !! c = Some pc → (c < length (cores s))%nat) by (intros; by eapply lookup_lt_Some).
  destruct Hstep; try match goal with H : cores s !! _ = Some _ |- _ =>
    pose proof (Hlt _ _ H); pose proof (Forall_lookup_1 _ _ _ _ (mid_in _ Hok) H) end.
  - split; [by apply (launch_mid s)|]. split; [by intros [? _]|]. apply not_all_insert; [done|simpl; lia].
  - split; [by main_moves|]. split; [by intros [? _]|done].
  - split; [by main_moves|]. split; [by intros [? _]|done].
  - apply system_barrier_ok; [by main_moves|done].
  - split; [by main_moves|]. split; [by intros [? _]|done].
  - split; [by main_moves|]. split; [intros [Hm _]; simpl in Hm; rewrite H in Hm; done|done].
  - split; [by main_moves|]. split; [by intros [? _]|done].
  - apply system_barrier_ok; [by main_moves|done].
  - split; [by main_moves|]. split; [by intros [? _]|done].
  - split; [by main_moves|]. split; [by intros [? _]|done].
  - split; [by main_moves|]. split; [by intros [? _]|done].
  - split; [by main_moves|]. split; [by intros [? _]|done].
  - apply system_barrier_ok; [by core_moves|]. by apply not_all_insert.
  - destruct H1 as (Ha & _). split; [|done]. destruct Hok as [? ? ? ? ? ? Hact Hend]. split; simpl; try done.
    + intros p0. rewrite Ha. apply Hact.
    + intros Hm. rewrite Ha. by apply Hend.
  - apply core_barrier_ok; [by core_moves|]. intros [_ HF]. by apply not_all_insert in HF.
  - apply core_barrier_ok; [by core_moves|]. intros [_ HF]. by apply not_all_insert in HF.
  - apply system_barrier_ok; [|by apply not_all_insert]. case_decide; by core_moves.
Qed.

Lemma vm_start_ok m : PIC_active m = true → vm_ok (vm_start m).
Proof.
  intros Ha. assert (H0 : replicate ncpu NotCreated !! 0%nat = Some NotCreated) by (by apply lookup_replicate_2).
  split; [|split; [by intros [? _]|]].
  - split; simpl; try done.
    + by rewrite length_replicate.
    + by apply Forall_replicate.
    + exists 0%nat. by apply Forall_replicate.
    + by apply Forall_replicate.
    + lia.
    + intros c. rewrite lookup_replicate. naive_solver lia.
    + intros pc [-> _]%lookup_replicate. done.
  - intros HF. by pose proof (Forall_lookup_1 _ _ _ _ HF H0).
Qed.

(** ** Up to the first barrier

    The threads start concurrently; what they leave is what [vm_boot_cores] leaves. *)
Context (now : Z) (m0 : machine).

Definition boot_core (pc : core_pc) (c : nat) (k : Core) : Core :=
  match pc with NotCreated => k | Setup => launch_core c k | _ => initialize_core c k end.
Definition opened_term (tm : terminal) : Prop :=
  ∃ confd kbdfd crdy krdy,
    tm = Terminal (IoDevice confd IODIR_TX 0 crdy now) (IoDevice kbdfd IODIR_RX 0 krdy now).
Definition terms_open (pc : main_pc) : nat :=
  match pc with Launching _ => 0 | Opening i => i | _ => serialno end.

Record booting (s : vm_state) : Prop := {
  bt_cores c pc : cores s !! c = Some pc → CORE (mach s) !! c = boot_core pc c <$> CORE m0 !! c;
  bt_rest c : cores s !! c = None → CORE (mach s) !! c = CORE m0 !! c;
  bt_fields : ncores (mach s) = ncpu ∧ halted_list (mach s) = [] ∧ system_clock (mach s) = now ∧
    PIC_active (mach s) = true;
  bt_ports : (∃ c, main s = Launching c) ∨ (nterm (mach s) = serialno ∧ PIC_usr1_queued (mach s) = 0);
  bt_length : length (TERM (mach s)) = length (TERM m0);
  bt_opened i : (i < terms_open (main s))%nat → ∃ tm, TERM (mach s) !! i = Some tm ∧ opened_term tm }.

Context (Hterm : (serialno ≤ length (TERM m0))%nat).

Lemma launch_booting s c :
  vm_mid s → booting s → main s = Launching c → (c < ncpu)%nat →
  booting (go_main (Launching (S c)) (go_core c Setup (upd (on_core c (launch_core c)) s))).
Proof.
  intros Hok [Hc Hr Hf Hp Hl Ho] Hm Hlt.
  assert (Hnc : cores s !! c = Some NotCreated) by (apply (mid_created _ Hok); eauto).
  split; simpl; try done; [| |by eauto|lia].
  - intros d pc. destruct (decide (c = d)) as [<-|Hne].
    + rewrite list_lookup_insert_eq by (by eapply lookup_lt_Some). intros [= <-].
      rewrite list_lookup_alter_eq, (Hc _ _ Hnc). by destruct (CORE m0 !! c).
    + rewrite list_lookup_insert_ne, list_lookup_alter_ne by done. apply Hc.
  - intros d Hd. rewrite list_lookup_insert_None in Hd.
    rewrite list_lookup_alter_ne; [by apply Hr|]. congruence.
Qed.

Lemma setup_booting s c :
  booting s → cores s !! c = Some Setup →
  booting (go_core c AtStart (upd (on_core c setup_core) s)).
Proof.
  intros [Hc Hr Hf Hp Hl Ho] Hs. split; simpl; try done.
  - intros d pc. destruct (decide (c = d)) as [<-|Hne].
    + rewrite list_lookup_insert_eq by (by eapply lookup_lt_Some). intros [= <-].
      rewrite list_lookup_alter_eq, (Hc _ _ Hs). by destruct (CORE m0 !! c).
    + rewrite list_lookup_insert_ne, list_lookup_alter_ne by done. apply Hc.
  - intros d Hd. rewrite list_lookup_insert_None in Hd.
    rewrite list_lookup_alter_ne; [by apply Hr|]. congruence.
Qed.

Lemma open_booting s i confd kbdfd crdy krdy :
  booting s → main s = Opening i → (i < serialno)%nat →
  booting (go_main (Opening (S i))
    (upd (λ m, set_TERM (<[i := terminal_init m confd kbdfd crdy krdy]> (TERM m)) m) s)).
Proof.
  intros [Hc Hr (Hn & Hh & Hk & Ha) Hp Hl Ho] Hm Hi. rewrite Hm in *. split; simpl; try done.
  - right. destruct Hp as [(? & ?)|?]; done.
  - by rewrite length_insert.
  - intros j Hj. destruct (decide (i = j)) as [<-|Hne].
    + rewrite list_lookup_insert_eq by lia. eexists. split; [done|].
      unfold terminal_init, io_device_init. rewrite Hk. by exists confd, kbdfd, crdy, krdy.
    + rewrite list_lookup_insert_ne by done. apply Ho. simpl. lia.
Qed.

Lemma main_booting s m pc :
  booting s → CORE m = CORE (mach s) → ncores m = ncores (mach s) → halted_list m = halted_list (mach s) →
  system_clock m = system_clock (mach s) → PIC_active m = PIC_active (mach s) → TERM m = TERM (mach s) →
  nterm m = serialno → PIC_usr1_queued m = 0 → terms_open pc = terms_open (main s) →
  booting (Vm m pc (cores s)).
Proof.
  intros [Hc Hr Hf Hp Hl Ho] E1 E2 E3 E4 E5 E6 ? ? E. split; simpl; rewrite ?E1, ?E2, ?E3, ?E4, ?E5, ?E6, ?E; auto.
Qed.

Lemma vm_step_booting s s' :
  vm_ok s → booting s → main_hs (main s) = 0%nat → vm_step s s' →
  ∃ s1, booting s1 ∧ vm_mid s1 ∧ main_hs (main s1) = 0%nat ∧ (s' = s1 ∨ s' = system_barrier s1).
Proof.
  intros (Hok & _ & _) Hb H0 Hstep.
  assert (Hports : (∀ c, main s ≠ Launching c) → nterm (mach s) = serialno ∧ PIC_usr1_queued (mach s) = 0).
  { intros Hn. destruct (bt_ports _ Hb) as [(c & ?)|?]; [by destruct (Hn c)|done]. }
  assert (Hh : ∀ c pc, cores s !! c = Some pc → core_hs pc = 0%nat)
    by (intros c pc Hc; rewrite <- H0; apply (Forall_lookup_1 _ _ _ _ (mid_hs _ Hok) Hc)).
  destruct Hstep; try (rewrite H in H0; done); try (apply Hh in H; done); try (apply Hh in H; by destruct pc).
  - eexists. split; [by apply launch_booting|]. split; [by apply (launch_mid s)|]. split; [done|by left].
  - eexists. split; [apply main_booting with (m := set_nterm serialno (set_PIC_usr1_queued 0 (mach s))) (pc := Opening 0);
      try done; by rewrite H|].
    split; [by main_moves|]. split; [done|by left].
  - eexists. split; [by apply open_booting|]. split; [by main_moves|]. split; [done|by left].
  - exists (go_main MainAtStart s). destruct Hports; [by rewrite H|].
    split; [apply main_booting; try done; by rewrite H|]. split; [by main_moves|]. split; [done|by right].
  - eexists. split; [by apply setup_booting|]. pose proof (lookup_lt_Some _ _ _ H).
    split; [by core_moves|]. split; [done|by right].
Qed.

Lemma main_hs_step s s' : vm_step s s' → (main_hs (main s) ≤ main_hs (main s'))%nat.
Proof.
  assert (Hb : ∀ s, (main_hs (main s) ≤ main_hs (main (system_barrier s)))%nat).
  { intros s1. unfold system_barrier. case_decide; [|done]. simpl. destruct (main s1); simpl; lia. }
  assert (Hc : ∀ s, main (core_barrier s) = main s) by (intros; unfold core_barrier; by case_decide).
  intros Hstep. destruct Hstep; rewrite ?Hc; try (rewrite H; simpl; lia); try (simpl; lia);
    (etrans; [|apply Hb]); try done; rewrite H; simpl; lia.
Qed.

Lemma booted_barrier s :
  vm_mid s → booting s → main_hs (main s) = 0%nat → main_hs (main (system_barrier s)) = 1%nat →
  mach (system_barrier s) = mach s ∧ (∀ i, (i < serialno)%nat → ∃ tm, TERM (mach s) !! i = Some tm ∧ opened_term tm) ∧
  nterm (mach s) = serialno ∧ PIC_usr1_queued (mach s) = 0 ∧
  (∀ c, CORE (mach s) !! c = if decide (c < ncpu)%nat then initialize_core c <$> CORE m0 !! c else CORE m0 !! c).
Proof.
  intros Hok [Hc Hr Hf Hp Hl Ho] H0. unfold system_barrier. case_decide as Hfull; [|congruence].
  apply system_fires in Hfull as [Hm Hfull]; [|by apply Hok]. simpl. intros H1. split; [done|].
  assert (main s = MainAtStart) as Hms by (destruct (main s); done). rewrite Hms in *.
  split; [exact Ho|]. destruct Hp as [(? & ?)|[Hn Hu]]; [done|]. do 2 (split; [done|]).
  intros c. case_decide as Hlt.
  - destruct (lookup_lt_is_Some_2 (cores s) c) as (pc & Hpc); [by rewrite (mid_length _ Hok)|].
    rewrite (Hc _ _ Hpc). pose proof (Forall_lookup_1 _ _ _ _ Hfull Hpc) as Ha.
    pose proof (Forall_lookup_1 _ _ _ _ (mid_hs _ Hok) Hpc) as Hh. rewrite Hms in Hh.
    destruct pc; simpl in *; done.
  - apply Hr, lookup_ge_None. rewrite (mid_length _ Hok). lia.
Qed.


Lemma reach_booting m1 s :
  m1 = Machine (CORE m0) ncpu [] now (TERM m0) (nterm m0) true (PIC_usr1_queued m0) →
  rtc vm_step (vm_start m1) s → vm_ok s ∧ (main_hs (main s) = 0%nat → booting s).
Proof.
  intros ->. revert s. apply rtc_ind_r; [|intros s s' Hr Hstep [Hok IH]].
  - split; [by apply vm_start_ok|]. intros _. split; simpl; try done; [|by eauto|lia].
    intros c pc [-> _]%lookup_replicate. simpl. by destruct (CORE m0 !! c).
  - split; [by eapply vm_step_ok|]. intros H0. pose proof (main_hs_step _ _ Hstep).
    assert (H00 : main_hs (main s) = 0%nat) by lia.
    destruct (vm_step_booting _ _ Hok (IH H00) H00 Hstep) as (s1 & Hb & Hm & H01 & [->| ->]); [done|].
    unfold system_barrier in *. case_decide as Hf; [|done].
    apply system_fires in Hf as [Hf _]; [|by apply Hm]. simpl in H0. by destruct (main s1).
Qed.
End protocol.

(** ** Executions of [vm_boot] *)
Definition vm_execution (ncpu serialno syncs : nat) (now : Z) (m0 : machine) (s : vm_state) : Prop :=
  ∃ m1, vm_boot_start ncpu serialno now m0 = Ok (tt, m1) ∧
    rtc (vm_step ncpu serialno syncs) (vm_start ncpu m1) s.

Lemma vm_boot_start_run ncpu serialno now m0 m1 :
  vm_boot_start ncpu serialno now m0 = Ok (tt, m1) →
  (0 < ncpu ∧ ncpu ≤ MAX_CORES)%nat ∧ ncores m0 = 0%nat ∧ (serialno ≤ MAX_TERMINALS)%nat ∧
  m1 = Machine (CORE m0) ncpu [] now (TERM m0) (nterm m0) true (PIC_usr1_queued m0).
Proof. unfold vm_boot_start. unfold_monad. intros H. repeat case_decide; simpl in *; simplify_eq; done. Qed.

(** C7 (refinement). The threads that [vm_boot] starts do what the sequential boot
    does: whatever the order in which the cores and the controller run up to the
    barrier, when they pass it the machine is the one that [vm_boot_cores] leaves,
    with the clock read and every serial port open on a console that sends and a
    keyboard that receives. *)
Theorem vm_boot_refines ncpu serialno syncs now m0 s s' :
  vm_execution ncpu serialno syncs now m0 s → vm_step ncpu serialno syncs s s' →
  main_hs (main s) = 0%nat → main_hs (main s') = 1%nat →
  (MAX_CORES ≤ length (CORE m0))%nat → (MAX_TERMINALS ≤ length (TERM m0))%nat →
  ∃ mb, vm_boot_cores ncpu serialno m0 = Ok (tt, mb) ∧
    mach s' = set_TERM (TERM (mach s')) (set_system_clock now mb) ∧
    ∀ i, (i < serialno)%nat → ∃ tm, TERM (mach s') !! i = Some tm ∧ opened_term now tm.
Proof.
  intros (m1 & Hstart & Hr) Hstep H0 H1 Hlc Hlt.
  apply vm_boot_start_run in Hstart as ((Hn & Hmax) & Hnc & Hs & ->).
  assert (Hterm : (serialno ≤ length (TERM m0))%nat) by lia.
  destruct (reach_booting ncpu serialno syncs Hn now m0 Hterm _ s eq_refl Hr) as [Hok Hb].
  destruct (vm_step_booting ncpu serialno syncs Hn now m0 Hterm _ _ Hok (Hb H0) H0 Hstep)
    as (s1 & Hb1 & Hm1 & H01 & [->| ->]); [lia|].
  destruct (booted_barrier ncpu serialno syncs Hn now m0 Hterm _ Hm1 Hb1 H01 H1) as (-> & Ho & Hnt & Hu & Hc).
  set (m2 := Machine (CORE m0) ncpu [] (system_clock m0) (TERM m0) serialno true 0).
  destruct (init_cores ncpu 0 m2) as (l & Hl & Hspec); [simpl; lia|].
  exists (set_CORE l m2). split.
  - unfold vm_boot_cores. unfold_monad. do 3 (rewrite decide_True by done; simpl). exact Hl.
  - split; [|exact Ho]. destruct (bt_fields _ _ _ _ _ Hb1) as (? & ? & ? & ?).
    assert (CORE (mach s1) = l).
    { apply list_eq. intros c. rewrite Hc, Hspec. simpl. repeat case_decide; done || lia. }
    destruct (mach s1); simpl in *. unfold set_TERM, set_system_clock, m2. simpl. by subst.
Qed.

(** ** Phases *)
Section phases.
Context (ncpu serialno syncs : nat) (Hcpu : (0 < ncpu)%nat).
#[local] Set Default Proof Using "Type*".
Local Abbreviation step := (vm_step ncpu serialno syncs).
Local Abbreviation ok := (vm_ok ncpu serialno syncs).

(** In the boot function, up to its end. *)
Definition running (pc : core_pc) : bool :=
  match pc with InBoot _ | InSync _ | AtCoreEnd => true | _ => false end.
Definition set_up (pc : core_pc) : bool :=
  match pc with NotCreated | Setup | AtStart => false | _ => true end.

Lemma same_gs s c pc d pd :
  ok s → cores s !! c = Some pc → cores s !! d = Some pd → core_gs syncs pc = core_gs syncs pd.
Proof.
  intros ([? ? [g Hgs] ? ? ? ? ?] & _) Hc Hd.
  by rewrite (Forall_lookup_1 _ _ _ _ Hgs Hc), (Forall_lookup_1 _ _ _ _ Hgs Hd).
Qed.

Lemma running_gs pc : running pc = true → core_in syncs pc → (core_gs syncs pc < S syncs)%nat.
Proof. clear Hcpu. destruct pc; simpl; try done; lia. Qed.

Lemma running_active s c pc :
  ok s → cores s !! c = Some pc → running pc = true → PIC_active (mach s) = true.
Proof.
  intros Hok Hc Hr. destruct (core_0 ncpu Hcpu s) as (p0 & Hp0); [apply Hok|].
  rewrite (mid_active _ _ _ _ (proj1 Hok) _ Hp0). pose proof (same_gs _ _ _ _ _ Hok Hc Hp0) as Hg.
  pose proof (running_gs _ Hr (Forall_lookup_1 _ _ _ _ (mid_in _ _ _ _ (proj1 Hok)) Hc)).
  destruct p0; simpl in *; done || lia.
Qed.

Lemma all_finished s : ok s → main_hs (main s) = 2%nat → Forall (λ pc, pc = Finished) (cores s).
Proof.
  intros ([? Hhs ? ? ? ? ? ?] & _) H2. eapply Forall_impl; [exact Hhs|]. rewrite H2. by intros [].
Qed.

Lemma ended_step s s' :
  ok s → step s s' →
  ((∃ c, main s = Joining c) ∨ main s = Returned → nterm (mach s) = 0%nat) ∧
    (main s = Returned → ncores (mach s) = 0%nat) →
  ((∃ c, main s' = Joining c) ∨ main s' = Returned → nterm (mach s') = 0%nat) ∧
    (main s' = Returned → ncores (mach s') = 0%nat).
Proof.
  intros Hok Hstep [Hj Hr].
  assert (Hfin : ∀ c pc, cores s !! c = Some pc → pc ≠ Finished →
    ¬ ((∃ c, main s = Joining c) ∨ main s = Returned)).
  { intros c pc Hc Hn Hend. apply Hn. eapply (Forall_lookup_1 _ _ _ _ (all_finished s Hok _) Hc).
    Unshelve. by destruct Hend as [(? & ->)| ->]. }
  destruct Hstep; try (eapply Hfin in H; [|done || by intros ->]); unfold system_barrier, core_barrier;
    repeat case_decide; simpl; try naive_solver;
    destruct (main s); simpl; naive_solver.
Qed.

Lemma vm_reach_ok m s :
  PIC_active m = true → rtc step (vm_start ncpu m) s →
  ok s ∧ ((∃ c, main s = Joining c) ∨ main s = Returned → nterm (mach s) = 0%nat) ∧
    (main s = Returned → ncores (mach s) = 0%nat).
Proof.
  intros Ha. revert s. apply rtc_ind_r.
  - split; [by apply vm_start_ok|]. naive_solver.
  - intros s s' _ Hstep [Hok Hend]. split; [by eapply vm_step_ok|by eapply ended_step].
Qed.

(** ** Progress *)
Definition core_cost (pc : core_pc) : nat :=
  match pc with
  | NotCreated => 2 * syncs + 9 | Setup => 2 * syncs + 8 | AtStart => 2 * syncs + 7
  | InBoot j => 2 * j + 5 | InSync j => 2 * j + 6 | AtCoreEnd => 4 | Stopping => 3 | AtEnd => 2 | Finished => 1
  end.
Definition main_cost (pc : main_pc) : nat :=
  match pc with
  | Launching c => (ncpu - c) + 2 * serialno + ncpu + 8
  | Opening i => (serialno - i) + serialno + ncpu + 7
  | MainAtStart => serialno + ncpu + 6
  | PicTurn => serialno + ncpu + 5
  | PicLoop => serialno + ncpu + 4
  | MainAtEnd => serialno + ncpu + 3
  | Closing i => (serialno - i) + ncpu + 2
  | Joining c => (ncpu - c) + 1
  | Returned => 0
  end.
Definition cost (s : vm_state) : nat := main_cost (main s) + sum_list (core_cost <$> cores s).

Lemma sum_insert l c pc pc' :
  l !! c = Some pc → (core_cost pc' < core_cost pc)%nat →
  (sum_list (core_cost <$> <[c := pc']> l) < sum_list (core_cost <$> l))%nat.
Proof.
  clear Hcpu. intros Hc Hlt. rewrite list_fmap_insert. revert c Hc. induction l as [|x l IH]; intros [|c] Hc; simplify_eq/=; [lia|].
  specialize (IH _ Hc). lia.
Qed.

Lemma sum_fmap f l :
  (∀ pc, core_cost (f pc) ≤ core_cost pc)%nat →
  (sum_list (core_cost <$> (f <$> l)) ≤ sum_list (core_cost <$> l))%nat.
Proof. clear Hcpu. intros Hf. induction l as [|x l IH]; [done|]. rewrite !fmap_cons. simpl. specialize (Hf x). unfold fmap in *. lia. Qed.

Lemma system_barrier_cost s : (cost (system_barrier ncpu syncs s) ≤ cost s)%nat.
Proof.
  unfold system_barrier. case_decide; [|done]. unfold cost. simpl.
  pose proof (sum_fmap (core_past_system syncs) (cores s) ltac:(by intros []; simpl; lia)).
  destruct (main s); simpl; lia.
Qed.
Lemma core_barrier_cost s : (cost (core_barrier ncpu s) ≤ cost s)%nat.
Proof.
  unfold core_barrier. case_decide; [|done]. unfold cost. simpl.
  pose proof (sum_fmap core_past_core (cores s) ltac:(by intros []; simpl; lia)). lia.
Qed.

(** A core that is not held by a barrier makes progress. *)
Lemma core_progress s c pc :
  cores s !! c = Some pc → match pc with Setup | InBoot _ | Stopping => True | _ => False end →
  ∃ s', step s s' ∧ (cost s' < cost s)%nat.
Proof.
  intros Hc Hpc.
  assert (Hgo : ∀ f pc', (core_cost pc' < core_cost pc)%nat → (cost (go_core c pc' (upd f s)) < cost s)%nat).
  { intros f pc' Hlt. unfold cost. simpl. pose proof (sum_insert _ _ _ _ Hc Hlt). lia. }
  destruct pc as [| | |[|j]| | | | |]; try done; eexists.
  - split; [by apply setup|]. eapply Nat.le_lt_trans; [apply system_barrier_cost|]. apply Hgo. simpl. lia.
  - split; [by apply core_returns|]. eapply Nat.le_lt_trans; [apply core_barrier_cost|]. apply Hgo. simpl. lia.
  - split; [by apply core_syncs|]. eapply Nat.le_lt_trans; [apply core_barrier_cost|].
    apply (Hgo id). simpl. lia.
  - split; [by apply core_stops|]. eapply Nat.le_lt_trans; [apply system_barrier_cost|]. apply Hgo. simpl. lia.
Qed.

(** As long as the controller is before its last barrier, some core is free or the
    controller is. *)
Lemma free_core s :
  ok s → main_hs (main s) = 1%nat → main s ≠ PicTurn →
  (∃ c pc, cores s !! c = Some pc ∧ match pc with InBoot _ | Stopping => True | _ => False end) ∨
  (main s = PicLoop ∧ PIC_active (mach s) = false).
Proof.
  intros Hok H1 Hn.
  set (free pc := match pc with InBoot _ | Stopping => true | _ => false end).
  destruct (decide (Forall (λ pc, free pc = false) (cores s))) as [Hno|Hex].
  2:{ left. apply not_Forall_Exists in Hex; [|intros; apply _].
      apply Exists_exists in Hex as (pc & (c & Hc)%list_elem_of_lookup & Hf). exists c, pc.
      unfold compose in Hf. split; [done|]. by destruct pc; try destruct (Hf eq_refl). }
  right. destruct (core_0 ncpu Hcpu s) as (p0 & Hp0); [apply Hok|].
  pose proof Hok as [[Hl Hhs [g Hgs] Hin Hm Hcr Hact Hend] [Hsf Hcf]].
  rewrite H1 in Hhs.
  assert (Hall : ∀ c pc, cores s !! c = Some pc →
    (core_at_core pc = true ∨ pc = AtEnd) ∧ core_gs syncs pc = g ∧ core_in syncs pc).
  { intros c pc Hc. pose proof (Forall_lookup_1 _ _ _ _ Hhs Hc). pose proof (Forall_lookup_1 _ _ _ _ Hno Hc).
    split; [|by split; [apply (Forall_lookup_1 _ _ _ _ Hgs Hc)|apply (Forall_lookup_1 _ _ _ _ Hin Hc)]].
    destruct pc; simpl in *; auto; done. }
  destruct (decide (p0 = AtEnd)) as [->|Hne].
  - assert (Ha : PIC_active (mach s) = false) by (apply (Hact _ Hp0)). split; [|done].
    destruct (main s) eqn:Hmain; try done. destruct Hsf. split; [by rewrite Hmain|].
    apply Forall_lookup_2. intros c pc Hc. destruct (Hall _ _ Hc) as ([Hpc| ->] & Hg & Hi); [|done].
    destruct (Hall _ _ Hp0) as (_ & Hg0 & _). destruct pc; simpl in *; done || lia.
  - destruct Hcf. apply Forall_lookup_2. intros c pc Hc.
    destruct (Hall _ _ Hc) as ([Hpc| ->] & Hg & Hi); [done|].
    destruct (Hall _ _ Hp0) as ([Hpc0|?] & Hg0 & Hi0); [|done]. destruct p0; simpl in *; done || lia.
Qed.

Lemma core_in_setup s : ok s → main s = MainAtStart → ∃ c, cores s !! c = Some Setup.
Proof.
  intros Hok Hm. destruct (decide (Forall (λ pc, pc = AtStart) (cores s))) as [Hall|Hex].
  - destruct Hok as (_ & [] & _). split; [by rewrite Hm|]. eapply Forall_impl; [exact Hall|]. by intros ? ->.
  - apply not_Forall_Exists in Hex; [|intros; apply _].
    apply Exists_exists in Hex as (pc & (c & Hc)%list_elem_of_lookup & Hf). exists c.
    pose proof (Forall_lookup_1 _ _ _ _ (mid_hs _ _ _ _ (proj1 Hok)) Hc) as Hh. rewrite Hm in Hh.
    unfold compose in Hf. destruct pc; try done.
    apply (mid_created _ _ _ _ (proj1 Hok)) in Hc as (_ & c0 & Hc0 & _). congruence.
Qed.

Lemma vm_progress s : ok s → main s ≠ Returned → ∃ s', step s s' ∧ (cost s' < cost s)%nat.
Proof.
  intros Hok Hn. pose proof (mid_main _ _ _ _ (proj1 Hok)) as Hin.
  destruct (main s) as [c|i| | | | |i|c|] eqn:Hm; simpl in Hin; try done.
  - destruct (decide (c < ncpu)%nat) as [Hlt|Hge].
    + eexists. split; [by apply launch|]. unfold cost. simpl.
      assert (Hc : cores s !! c = Some NotCreated) by (apply (mid_created _ _ _ _ (proj1 Hok)); eauto).
      pose proof (sum_insert _ _ _ Setup Hc ltac:(simpl; lia)). rewrite Hm. simpl. lia.
    + assert (c = ncpu) as -> by lia. eexists. split; [by apply launched|]. unfold cost. rewrite Hm. simpl. lia.
  - destruct (decide (i < serialno)%nat) as [Hlt|Hge].
    + eexists. split; [by apply (open_one _ _ _ _ i 0 0 true true)|]. unfold cost. rewrite Hm. simpl. lia.
    + assert (i = serialno) as -> by lia. eexists. split; [by apply opened|].
      eapply Nat.le_lt_trans; [apply system_barrier_cost|]. unfold cost. rewrite Hm. simpl. lia.
  - destruct (core_in_setup s Hok Hm) as (c & Hc). by eapply core_progress.
  - destruct (free_core s Hok) as [(c & pc & Hc & Hpc)|[_ Ha]]; [by rewrite Hm|by rewrite Hm| |].
    + eapply core_progress; [done|]. by destruct pc.
    + eexists. split; [by apply pic_left|]. eapply Nat.le_lt_trans; [apply system_barrier_cost|].
      unfold cost. rewrite Hm. simpl. lia.
  - eexists. split; [by apply pic_again|]. unfold cost. rewrite Hm. simpl. lia.
  - destruct (free_core s Hok) as [(c & pc & Hc & Hpc)|[? _]]; [by rewrite Hm|by rewrite Hm| |congruence].
    eapply core_progress; [done|]. by destruct pc.
  - destruct (decide (i < serialno)%nat) as [Hlt|Hge].
    + eexists. split; [by eapply close_one|]. unfold cost. rewrite Hm. simpl. lia.
    + assert (i = serialno) as -> by lia. eexists. split; [by apply closed|]. unfold cost. rewrite Hm. simpl. lia.
  - destruct (decide (c < ncpu)%nat) as [Hlt|Hge].
    + destruct (lookup_lt_is_Some_2 (cores s) c) as (pc & Hpc); [by rewrite (mid_length _ _ _ _ (proj1 Hok))|].
      assert (pc = Finished) as -> by (apply (Forall_lookup_1 _ _ _ _ (all_finished s Hok ltac:(by rewrite Hm)) Hpc)).
      eexists. split; [by eapply join_one|]. unfold cost. rewrite Hm. simpl. lia.
    + assert (c = ncpu) as -> by lia. eexists. split; [by apply joined|]. unfold cost. rewrite Hm. simpl. lia.
Qed.

Lemma returns s : ok s → ∃ s', rtc step s s' ∧ main s' = Returned.
Proof.
  induction s as [s IH] using (well_founded_induction (well_founded_ltof _ cost)). intros Hok.
  destruct (decide (main s = Returned)) as [Hr|Hn]; [by exists s|].
  destruct (vm_progress s Hok Hn) as (s1 & Hstep & Hlt).
  destruct (IH s1 Hlt) as (s' & Hr & Hm); [by eapply vm_step_ok|].
  exists s'. split; [by eapply rtc_l|done].
Qed.

(** The steps that are not towards the end: what runs on the machine, and a new turn
    of the controller. *)
Definition idles (s s' : vm_state) : Prop :=
  cores s' = cores s ∧ (main s' = main s ∨ main s = PicLoop ∧ main s' = PicTurn).

Lemma step_cost s s' : ok s → step s s' → (cost s' < cost s)%nat ∨ idles s s'.
Proof.
  intros Hok Hstep. pose proof (mid_main _ _ _ _ (proj1 Hok)) as Hin.
  assert (Hgo : ∀ f c pc pc', cores s !! c = Some pc → (core_cost pc' < core_cost pc)%nat →
    (cost (go_core c pc' (upd f s)) < cost s)%nat).
  { intros f c pc pc' Hc Hlt. unfold cost. simpl. pose proof (sum_insert _ _ _ _ Hc Hlt). lia. }
  destruct Hstep; try (right; split; [done|by left]); try (right; split; [done|by right]); left;
    try (unfold cost; rewrite H in *; simpl in *; lia);
    try (eapply Nat.le_lt_trans; [first [apply system_barrier_cost|apply core_barrier_cost]|]);
    try (unfold cost; rewrite H in *; simpl in *; lia);
    try (first [eapply (Hgo id)|eapply Hgo]; [done|]; simpl; lia).
  - assert (Hc : cores s !! c = Some NotCreated) by (apply (mid_created _ _ _ _ (proj1 Hok)); eauto).
    unfold cost. rewrite H in *. simpl. pose proof (sum_insert _ _ _ Setup Hc ltac:(simpl; lia)). lia.
  - apply lookup_lt_Some in H0. rewrite (mid_length _ _ _ _ (proj1 Hok)) in H0.
    unfold cost. rewrite H in *. simpl. lia.
Qed.
End phases.

(** C6 (safety). The phases of the machine: while a core is in its boot function every
    core has been set up and the controller is at work, and stays at work until all the
    cores have met after their boot functions; all cores have met equally often; the
    terminals are closed and the threads joined when every core has finished; and when
    [vm_boot] returns there are no serial ports and no cores. *)
Theorem vm_phases ncpu serialno syncs now m0 s :
  vm_execution ncpu serialno syncs now m0 s →
  (∀ c pc, cores s !! c = Some pc → running pc = true →
     (main s = PicLoop ∨ main s = PicTurn) ∧ PIC_active (mach s) = true ∧
     Forall (λ pc, set_up pc = true) (cores s)) ∧
  (∀ c d pc pd, cores s !! c = Some pc → cores s !! d = Some pd → core_gs syncs pc = core_gs syncs pd) ∧
  (main_hs (main s) = 2%nat → Forall (λ pc, pc = Finished) (cores s)) ∧
  (main s = Returned → nterm (mach s) = 0%nat ∧ ncores (mach s) = 0%nat).
Proof.
  intros (m1 & Hstart & Hr). apply vm_boot_start_run in Hstart as ((Hn & _) & _ & _ & ->).
  destruct (vm_reach_ok ncpu serialno syncs Hn _ s (eq_refl : PIC_active (Machine _ _ _ _ _ _ true _) = true) Hr) as (Hok & Hj & Hret).
  split; [|split; [by intros; eapply (same_gs ncpu serialno syncs)|]].
  2:{ split; [by apply (all_finished ncpu serialno syncs)|by auto]. }
  intros c pc Hc Hrun. assert (Ha := running_active ncpu serialno syncs Hn s c pc Hok Hc Hrun).
  pose proof (proj1 Hok) as [_ Hhs _ _ _ _ _ Hend]. pose proof (Forall_lookup_1 _ _ _ _ Hhs Hc) as H1.
  assert (main_hs (main s) = 1%nat) as Hm by (rewrite <- H1; by destruct pc).
  split; [|split; [done|]].
  - destruct (main s); simpl in *; auto; try done. by rewrite Hend in Ha.
  - rewrite Hm in Hhs. eapply Forall_impl; [exact Hhs|]. by intros [].
Qed.

(** C8 (liveness). The two barriers never leave a thread behind: from every state that
    the threads can reach they can go on until [vm_boot] returns, and they only fail to
    get nearer to it while a boot function or the controller's loop runs on. *)
Theorem vm_returns ncpu serialno syncs now m0 s :
  vm_execution ncpu serialno syncs now m0 s →
  (∃ s', vm_execution ncpu serialno syncs now m0 s' ∧ rtc (vm_step ncpu serialno syncs) s s' ∧ main s' = Returned) ∧
  (∀ s', vm_step ncpu serialno syncs s s' →
     (cost ncpu serialno syncs s' < cost ncpu serialno syncs s)%nat ∨ idles s s').
Proof.
  intros (m1 & Hstart & Hr). pose proof Hstart as Hrun.
  apply vm_boot_start_run in Hrun as ((Hn & _) & _ & _ & ->).
  destruct (vm_reach_ok ncpu serialno syncs Hn _ s (eq_refl : PIC_active (Machine _ _ _ _ _ _ true _) = true) Hr) as (Hok & _). split; [|by intros; apply step_cost].
  destruct (returns ncpu serialno syncs Hn s Hok) as (s' & Hr' & Hm).
  exists s'. split; [|done]. eexists. split; [done|by etrans].
Qed.

(** ** An execution: one core, one terminal *)
Definition off_machine : machine :=
  Machine (replicate MAX_CORES (MkCore 7 [] [] true true 5 [] [])) 0 [3%nat] 11
    (replicate MAX_TERMINALS (Terminal (IoDevice 0 IODIR_RX 9 false 0) (IoDevice 0 IODIR_RX 9 false 0))) 0 false 3.
Definition on_machine0 : machine := Machine (CORE off_machine) 1 [] 42 (TERM off_machine) 0 true 3.
Definition last_setup : vm_state :=
  Eval vm_compute in
    go_main MainAtStart
      (go_main (Opening 1) (upd (λ m, set_TERM (<[0%nat := terminal_init m 5 6 true false]> (TERM m)) m)
        (go_main (Opening 0) (upd (λ m, set_nterm 1 (set_PIC_usr1_queued 0 m))
          (go_main (Launching 1) (go_core 0 Setup (upd (on_core 0 (launch_core 0)) (vm_start 1 on_machine0)))))))).
Definition first_booted : vm_state :=
  Eval vm_compute in system_barrier 1 1 (go_core 0 AtStart (upd (on_core 0 setup_core) last_setup)).

Lemma boots_to_setup : vm_execution 1 1 1 42 off_machine last_setup.
Proof.
  exists on_machine0. split; [reflexivity|].
  eapply rtc_l; [apply (launch 1 1 1 _ 0); [reflexivity|lia]|].
  eapply rtc_l; [by apply launched|].
  eapply rtc_l; [apply (open_one 1 1 1 _ 0 5 6 true false); [reflexivity|lia]|].
  eapply rtc_l; [by apply opened|]. apply rtc_refl.
Qed.
Lemma setup_boots : vm_step 1 1 1 last_setup first_booted.
Proof. by apply (setup 1 1 1 last_setup 0). Qed.

Lemma vm_boot_refines_witness :
  main first_booted = PicLoop ∧ cores first_booted = [InBoot 1] ∧
  ∃ mb, vm_boot_cores 1 1 off_machine = Ok (tt, mb) ∧
    mach first_booted = set_TERM (TERM (mach first_booted)) (set_system_clock 42 mb) ∧
    ∀ i, (i < 1)%nat → ∃ tm, TERM (mach first_booted) !! i = Some tm ∧ opened_term 42 tm.
Proof.
  split; [reflexivity|]. split; [reflexivity|].
  apply (vm_boot_refines 1 1 1 42 off_machine _ _ boots_to_setup setup_boots); try reflexivity;
    vm_compute; lia.
Defined.

Lemma booted_execution : vm_execution 1 1 1 42 off_machine first_booted.
Proof. destruct boots_to_setup as (m & ? & ?). exists m. split; [done|]. by eapply rtc_r; [|apply setup_boots]. Qed.

Lemma vm_phases_witness :
  cores first_booted !! 0%nat = Some (InBoot 1) ∧ PIC_active (mach first_booted) = true ∧
  Forall (λ pc, set_up pc = true) (cores first_booted).
Proof.
  split; [reflexivity|].
  by destruct (vm_phases 1 1 1 42 off_machine _ booted_execution) as [H _]; apply (H 0%nat (InBoot 1)).
Defined.

Lemma vm_returns_witness :
  ∃ s', vm_execution 1 1 1 42 off_machine s' ∧ rtc (vm_step 1 1 1) first_booted s' ∧ main s' = Returned.
Proof. apply (vm_returns 1 1 1 42 off_machine _ booted_execution). Defined.
