(* ===== verification/Sched.v ===== *)
(** * The scheduler (kernel_sched.c)

    Thread control blocks, the three priority queues, the list of timeouts and
    the core control blocks, and the operations on them.  A thread is named by
    the address of its TCB; the idle thread of core [c] is the TCB inside
    [cctx[c]].  Mutual exclusion by [sched_spinlock] is what makes each of the
    operations below one step; the spinlock itself is modelled in [CondVar.v]. *)
From S2P Require Import Prelude Bios.
Local Open Scope Z_scope.

(** ** Data *)
Inductive Thread_state := INIT | READY | RUNNING | STOPPED | EXITED.
Inductive Thread_phase := CTX_CLEAN | CTX_DIRTY.
Inductive Thread_type := IDLE_THREAD | NORMAL_THREAD.
Inductive SCHED_CAUSE :=
  | SCHED_QUANTUM | SCHED_IO | SCHED_MUTEX | SCHED_PIPE | SCHED_POLL
  | SCHED_IDLE | SCHED_USER.

#[export] Instance Thread_state_eq_dec : EqDecision Thread_state.
Proof. solve_decision. Defined.
#[export] Instance Thread_phase_eq_dec : EqDecision Thread_phase.
Proof. solve_decision. Defined.
#[export] Instance Thread_type_eq_dec : EqDecision Thread_type.
Proof. solve_decision. Defined.
#[export] Instance SCHED_CAUSE_eq_dec : EqDecision SCHED_CAUSE.
Proof. solve_decision. Defined.

(** [TCB*] *)
Inductive tid := Idle (core : nat) | Thr (n : nat).
#[export] Instance tid_eq_dec : EqDecision tid.
Proof. solve_decision. Defined.
#[export] Instance tid_countable : Countable tid.
Proof.
  refine (inj_countable' (λ t, match t with Idle c => inl c | Thr n => inr n end)
    (λ s, match s with inl c => Idle c | inr n => Thr n end) _).
  by intros [].
Defined.

(** The two functions the kernel starts threads with. *)
Inductive thread_entry := start_main_thread_entry | start_thread_entry.

Definition Pid_t := Z.
Definition ptcb_ptr := nat.

Definition NO_TIMEOUT : Z := 2 ^ 64 - 1.
Definition QUANTUM : Z := 10000.
Definition SCHED_MAX_LEVEL : Z := 3.
Definition SCHED_MAX_SCHEDULED : Z := 3.

Record TCB := MkTCB {
  owner_pcb : Pid_t;
  priority : Z;
  tcb_ptcb : option ptcb_ptr;
  tcb_type : Thread_type;
  tcb_state : Thread_state;
  tcb_phase : Thread_phase;
  thread_func : option thread_entry;
  wakeup_time : Z;
  its : Z;
  rts : Z;
  curr_cause : SCHED_CAUSE;
  last_cause : SCHED_CAUSE }.

Definition set_priority v t := MkTCB (owner_pcb t) v (tcb_ptcb t) (tcb_type t)
  (tcb_state t) (tcb_phase t) (thread_func t) (wakeup_time t) (its t) (rts t)
  (curr_cause t) (last_cause t).
Definition set_tcb_ptcb v t := MkTCB (owner_pcb t) (priority t) v (tcb_type t)
  (tcb_state t) (tcb_phase t) (thread_func t) (wakeup_time t) (its t) (rts t)
  (curr_cause t) (last_cause t).
Definition set_state v t := MkTCB (owner_pcb t) (priority t) (tcb_ptcb t) (tcb_type t)
  v (tcb_phase t) (thread_func t) (wakeup_time t) (its t) (rts t)
  (curr_cause t) (last_cause t).
Definition set_phase v t := MkTCB (owner_pcb t) (priority t) (tcb_ptcb t) (tcb_type t)
  (tcb_state t) v (thread_func t) (wakeup_time t) (its t) (rts t)
  (curr_cause t) (last_cause t).
Definition set_wakeup_time v t := MkTCB (owner_pcb t) (priority t) (tcb_ptcb t)
  (tcb_type t) (tcb_state t) (tcb_phase t) (thread_func t) v (its t) (rts t)
  (curr_cause t) (last_cause t).
Definition set_its v t := MkTCB (owner_pcb t) (priority t) (tcb_ptcb t)
  (tcb_type t) (tcb_state t) (tcb_phase t) (thread_func t) (wakeup_time t) v (rts t)
  (curr_cause t) (last_cause t).
Definition set_rts v t := MkTCB (owner_pcb t) (priority t) (tcb_ptcb t)
  (tcb_type t) (tcb_state t) (tcb_phase t) (thread_func t) (wakeup_time t) (its t) v
  (curr_cause t) (last_cause t).
Definition set_causes cc lc t := MkTCB (owner_pcb t) (priority t) (tcb_ptcb t)
  (tcb_type t) (tcb_state t) (tcb_phase t) (thread_func t) (wakeup_time t) (its t) (rts t)
  cc lc.

(** [preemption] is the flag the locking code reads. *)
Record CCB := MkCCB {
  current_thread : tid;
  previous_thread : option tid;
  preemption : bool }.

(** The sentinels of [SCHED[i]] and [TIMEOUT_LIST] are implicit: each is the
    list of the threads whose [sched_node] is in it. *)
Record sched := MkSched {
  tcbs : gmap tid TCB;
  SCHED : list (list tid);
  TIMEOUT_LIST : list tid;
  cctx : gmap nat CCB;
  active_threads : Z;
  scheduled : Z;
  next_tcb : nat;
  vm : machine }.

Definition set_tcbs v s := MkSched v (SCHED s) (TIMEOUT_LIST s) (cctx s)
  (active_threads s) (scheduled s) (next_tcb s) (vm s).
Definition set_SCHED v s := MkSched (tcbs s) v (TIMEOUT_LIST s) (cctx s)
  (active_threads s) (scheduled s) (next_tcb s) (vm s).
Definition set_TIMEOUT_LIST v s := MkSched (tcbs s) (SCHED s) v (cctx s)
  (active_threads s) (scheduled s) (next_tcb s) (vm s).
Definition set_cctx v s := MkSched (tcbs s) (SCHED s) (TIMEOUT_LIST s) v
  (active_threads s) (scheduled s) (next_tcb s) (vm s).
Definition set_active_threads v s := MkSched (tcbs s) (SCHED s) (TIMEOUT_LIST s) (cctx s)
  v (scheduled s) (next_tcb s) (vm s).
Definition set_scheduled v s := MkSched (tcbs s) (SCHED s) (TIMEOUT_LIST s) (cctx s)
  (active_threads s) v (next_tcb s) (vm s).
Definition set_next_tcb v s := MkSched (tcbs s) (SCHED s) (TIMEOUT_LIST s) (cctx s)
  (active_threads s) (scheduled s) v (vm s).
Definition set_vm v s := MkSched (tcbs s) (SCHED s) (TIMEOUT_LIST s) (cctx s)
  (active_threads s) (scheduled s) (next_tcb s) v.

Abbreviation SM := (M sched).

Definition get_tcb (t : tid) : SM TCB :=
  s ← get; get_some UseAfterFree (tcbs s !! t).
Definition upd_tcb (t : tid) (f : TCB → TCB) : SM unit :=
  k ← get_tcb t; modify (λ s, set_tcbs (<[t := f k]> (tcbs s)) s).
Definition get_ccb (c : nat) : SM CCB :=
  s ← get; get_some OutOfBounds (cctx s !! c).
Definition upd_ccb (c : nat) (f : CCB → CCB) : SM unit :=
  k ← get_ccb c; modify (λ s, set_cctx (<[c := f k]> (cctx s)) s).
Definition on_vm {A} : BM A → SM A := zoom vm set_vm.

Definition CURTHREAD (c : nat) : SM tid := k ← get_ccb c; mret (current_thread k).

(** [set_core_preemption(preempt)] on core [c].  When it turns preemption on, the
    pending interrupts are dispatched; a dispatched ALARM is a call of [yield],
    which is a step of its own. *)
Definition set_core_preemption (c : nat) (preempt : bool) : SM bool :=
  k ← get_ccb c;
  upd_ccb c (λ k, MkCCB (current_thread k) (previous_thread k) preempt) ;;
  on_vm (upd_core c (set_int_disabled (negb preempt))) ;;
  mret (preemption k).
Definition get_core_preemption (c : nat) : SM bool := k ← get_ccb c; mret (preemption k).

(** ** Threads *)

(** [spawn_thread(pcb, func)]: the TCB is a new block of memory.  The context
    and the stack belong to the host.  The pointer to the PTCB, which the code leaves
    unset until [new_thread] sets it, is null. *)
Definition new_TCB (pcb : Pid_t) (func : thread_entry) : TCB :=
  MkTCB pcb 0 None NORMAL_THREAD INIT CTX_CLEAN (Some func) NO_TIMEOUT QUANTUM QUANTUM
    SCHED_IDLE SCHED_IDLE.

Definition spawn_thread (pcb : Pid_t) (func : thread_entry) : SM tid :=
  s ← get;
  let tcb := Thr (next_tcb s) in
  modify (λ s, set_next_tcb (S (next_tcb s)) (set_tcbs (<[tcb := new_TCB pcb func]> (tcbs s)) s)) ;;
  modify (λ s, set_active_threads (u32 (active_threads s + 1)) s) ;;
  mret tcb.

Definition release_TCB (tcb : tid) : SM unit :=
  get_tcb tcb ;;
  modify (λ s, set_tcbs (delete tcb (tcbs s)) s) ;;
  modify (λ s, set_active_threads (u32 (active_threads s - 1)) s).

(** ** Queues *)

(** The insertion into the timeout list, before the first later entry. *)
Fixpoint timeout_insert (tm : gmap tid TCB) (tcb : tid) (w : Z) (l : list tid) : list tid :=
  match l with
  | [] => [tcb]
  | n :: l' =>
      if w <? default 0 (wakeup_time <$> tm !! n) then tcb :: n :: l'
      else n :: timeout_insert tm tcb w l'
  end.

Definition sched_register_timeout (tcb : tid) (timeout : Z) : SM unit :=
  if decide (timeout = NO_TIMEOUT) then mret tt
  else
    curtime ← on_vm bios_clock;
    upd_tcb tcb (set_wakeup_time (u64 (curtime + timeout))) ;;
    s ← get;
    modify (set_TIMEOUT_LIST
      (timeout_insert (tcbs s) tcb (u64 (curtime + timeout)) (TIMEOUT_LIST s))).

Definition sched_queue_add (tcb : tid) : SM unit :=
  k ← get_tcb tcb;
  s ← get;
  q ← get_some OutOfBounds (if decide (0 ≤ priority k) then SCHED s !! Z.to_nat (priority k) else None);
  modify (set_SCHED (<[Z.to_nat (priority k) := q ++ [tcb]]> (SCHED s))) ;;
  on_vm cpu_core_restart_one.

(** [tcb->sched_node] is spliced out of whichever list it is in. *)
Definition unlink (tcb : tid) (s : sched) : sched :=
  set_TIMEOUT_LIST (remove_node tcb (TIMEOUT_LIST s))
    (set_SCHED (remove_node tcb <$> SCHED s) s).

Definition sched_make_ready (tcb : tid) : SM unit :=
  k ← get_tcb tcb;
  c_assert (bool_decide (tcb_state k = STOPPED ∨ tcb_state k = INIT)) ;;
  when (negb (bool_decide (wakeup_time k = NO_TIMEOUT)))
    (s ← get;
     (* [assert(tcb->sched_node.next != &(tcb->sched_node) && ...)] *)
     c_assert (bool_decide (tcb ∈ TIMEOUT_LIST s ++ concat (SCHED s))
               && bool_decide (tcb_state k = STOPPED)) ;;
     modify (unlink tcb) ;;
     upd_tcb tcb (set_wakeup_time NO_TIMEOUT)) ;;
  upd_tcb tcb (set_state READY) ;;
  k ← get_tcb tcb;
  when (bool_decide (tcb_phase k = CTX_CLEAN)) (sched_queue_add tcb).

(** The loop of [sched_wakeup_expired_timeouts]: each turn removes an entry. *)
Fixpoint wakeup_expired (fuel : nat) (curtime : Z) : SM unit :=
  match fuel with
  | O => raise OutOfFuel
  | S fuel =>
      s ← get;
      match TIMEOUT_LIST s with
      | [] => mret tt
      | tcb :: _ =>
          k ← get_tcb tcb;
          if wakeup_time k >? curtime then mret tt
          else sched_make_ready tcb ;; wakeup_expired fuel curtime
      end
  end.
Definition sched_wakeup_expired_timeouts : SM unit :=
  curtime ← on_vm bios_clock;
  s ← get;
  wakeup_expired (S (length (TIMEOUT_LIST s))) curtime.

(** The selection loop: [SCHED[i]] while [scheduled] is small, and
    [SCHED[i%4]] after that. *)
Fixpoint select_from (idx : list nat) : SM (option tid) :=
  match idx with
  | [] => mret None
  | i :: rest =>
      s ← get;
      let fair := scheduled s <=? SCHED_MAX_SCHEDULED in
      let j := if fair then i else (i mod 4)%nat in
      q ← get_some OutOfBounds (SCHED s !! j);
      match q with
      | [] => select_from rest
      | t :: q' =>
          modify (set_SCHED (<[j := q']> (SCHED s))) ;;
          (if fair then mret tt else modify (set_scheduled 0)) ;;
          mret (Some t)
      end
  end.

Definition sched_queue_select (c : nat) (current : tid) : SM tid :=
  sel ← select_from (seq 0 (Z.to_nat SCHED_MAX_LEVEL));
  next ← match sel with
         | Some t => mret t
         | None =>
             k ← get_tcb current;
             mret (if decide (tcb_state k = READY) then current else Idle c)
         end;
  upd_tcb next (set_its QUANTUM) ;;
  mret next.

(** ** The scheduler's interface *)
Definition wakeup (tcb : tid) : SM bool :=
  k ← get_tcb tcb;
  if decide (tcb_state k = STOPPED ∨ tcb_state k = INIT)
  then sched_make_ready tcb ;; mret true
  else mret false.

(** [sleep_releasing] up to the release of [sched_spinlock]; the call of
    [yield(cause)] that follows is a step of its own. *)
Definition sleep_mark (c : nat) (state : Thread_state) (timeout : Z) : SM unit :=
  c_assert (bool_decide (state = STOPPED ∨ state = EXITED)) ;;
  tcb ← CURTHREAD c;
  set_core_preemption c false ;;
  upd_tcb tcb (set_state state) ;;
  when (negb (bool_decide (state = EXITED))) (sched_register_timeout tcb timeout).

(** The changes of priority in [yield]. *)
Definition adjust_priority (cause : SCHED_CAUSE) (p : Z) : Z :=
  let p := if bool_decide (cause = SCHED_QUANTUM) && (p <? SCHED_MAX_LEVEL - 1) then p + 1 else p in
  let p := if bool_decide (cause = SCHED_IO) && (p >? 0) then p - 1 else p in
  if bool_decide (cause = SCHED_MUTEX) && (p <? SCHED_MAX_LEVEL - 1) then p + 1 else p.

(** What [yield] does to the TCB of the current thread. *)
Definition yield_update (cause : SCHED_CAUSE) (remaining : Z) (k : TCB) : TCB :=
  let k := if decide (tcb_state k = RUNNING) then set_state READY k else k in
  let k := set_rts remaining k in
  let k := set_causes cause (curr_cause k) k in
  set_priority (adjust_priority cause (priority k)) k.

(** [yield(cause)] up to the context switch, on core [c]; [old] is the timer
    value the host returns. *)
Definition yield (c : nat) (cause : SCHED_CAUSE) (old : timespec) : SM unit :=
  rem ← on_vm (bios_cancel_timer c old);
  set_core_preemption c false ;;
  current ← CURTHREAD c;
  upd_tcb current (yield_update cause (snd rem)) ;;
  sched_wakeup_expired_timeouts ;;
  next ← sched_queue_select c current;
  modify (λ s, set_scheduled (i32 (scheduled s + 1)) s) ;;
  upd_ccb c (λ k, MkCCB (current_thread k) (Some current) (preemption k)) ;;
  when (negb (bool_decide (current = next)))
    (upd_ccb c (λ k, MkCCB next (previous_thread k) (preemption k))).

(** [gain(preempt)] on core [c]. *)
Definition gain (c : nat) (preempt : bool) (old : timespec) : SM unit :=
  ccb ← get_ccb c;
  let current := current_thread ccb in
  upd_tcb current (λ k, set_rts (its k) (set_phase CTX_DIRTY (set_state RUNNING k))) ;;
  prev ← get_some NullDeref (previous_thread ccb);
  when (negb (bool_decide (current = prev)))
    (upd_tcb prev (set_phase CTX_CLEAN) ;;
     k ← get_tcb prev;
     match tcb_state k with
     | READY => when (negb (bool_decide (tcb_type k = IDLE_THREAD))) (sched_queue_add prev)
     | EXITED => release_TCB prev
     | STOPPED => mret tt
     | _ => raise AssertFailed
     end) ;;
  when preempt (set_core_preemption c true ;; mret tt) ;;
  k ← get_tcb current;
  on_vm (bios_set_timer c (rts k) old) ;; mret tt.

(** [initialize_scheduler]: the loop runs to [i <= SCHED_MAX_LEVEL], so its last
    turn writes [SCHED[SCHED_MAX_LEVEL]]. *)
Definition init_queue (i : nat) : SM unit :=
  s ← get;
  get_some OutOfBounds (SCHED s !! i) ;;
  modify (set_SCHED (<[i := []]> (SCHED s))).
Definition initialize_scheduler : SM unit :=
  for_each (seq 0 (S (Z.to_nat SCHED_MAX_LEVEL))) init_queue ;;
  modify (set_TIMEOUT_LIST []).

(** The part of [run_scheduler] that sets up the core. *)
Definition idle_TCB : TCB :=
  MkTCB 0 0 None IDLE_THREAD RUNNING CTX_DIRTY None NO_TIMEOUT QUANTUM QUANTUM
    SCHED_IDLE SCHED_IDLE.
Definition run_scheduler_begin (c : nat) : SM unit :=
  modify (λ s, set_cctx (<[c := MkCCB (Idle c) None false]> (cctx s)) s) ;;
  modify (λ s, set_tcbs (<[Idle c := idle_TCB]> (tcbs s)) s) ;;
  on_vm (cpu_interrupt_handler c ALARM (Some yield_handler)) ;;
  on_vm (cpu_interrupt_handler c ICI (Some ici_handler)) ;;
  set_core_preemption c true ;; mret tt.

(** The loop condition of [idle_thread]. *)
Definition idle_continues (s : sched) : bool := 0 <? active_threads s.
