(* ===== verification/SchedInv.v ===== *)
(** * The scheduler's invariant

    The operations of [Sched.v] as the steps of a transition system over any
    number of cores, the invariant that the comment of kernel_sched.h states
    (made precise for the window between [yield] and [gain]), and its
    preservation: no assertion of the scheduler can fail, no thread is lost and
    none is in two places. *)
From Stdlib Require Import Sorting.Sorted.
From S2P Require Import Prelude Bios Sched.
Local Open Scope Z_scope.

(** Where the control of a core is. *)
Inductive mode :=
  | Running     (** in a thread, or in the idle loop *)
  | Yielding    (** [sleep_releasing] has marked the thread, [yield] comes next *)
  | Switching.  (** after the switch of contexts, [gain] comes next *)
#[export] Instance mode_eq_dec : EqDecision mode.
Proof. solve_decision. Defined.

Record config := Config { st : sched; md : gmap nat mode }.

(** ** The place of a thread *)
Inductive place :=
  | PNew                (** spawned, not yet woken up *)
  | PQueued (i : nat)   (** in the queue of level [i] *)
  | PBlocked            (** stopped, its context saved *)
  | PParked             (** an idle thread that does not run *)
  | PRun (c : nat)      (** runs on core [c] *)
  | PStop (c : nat)     (** marked by [sleep_releasing], still on core [c] *)
  | PNext (c : nat)     (** selected by [yield] on core [c], before [gain] *)
  | PPrev (c : nat)     (** switched out by core [c], before [gain] *)
  | PSame (c : nat).    (** selected again on its own core, before [gain] *)

Definition stopping (k : TCB) : Prop :=
  tcb_state k = READY ∨
  (tcb_type k = NORMAL_THREAD ∧ (tcb_state k = STOPPED ∨ tcb_state k = EXITED)).

Definition place_ok (p : place) (k : TCB) : Prop :=
  match p with
  | PNew => tcb_state k = INIT ∧ tcb_phase k = CTX_CLEAN ∧ tcb_type k = NORMAL_THREAD
  | PQueued i => tcb_state k = READY ∧ tcb_phase k = CTX_CLEAN ∧
                 tcb_type k = NORMAL_THREAD ∧ priority k = Z.of_nat i
  | PBlocked => tcb_state k = STOPPED ∧ tcb_phase k = CTX_CLEAN ∧ tcb_type k = NORMAL_THREAD
  | PParked => tcb_state k = READY ∧ tcb_phase k = CTX_CLEAN ∧ tcb_type k = IDLE_THREAD
  | PRun _ => tcb_state k = RUNNING ∧ tcb_phase k = CTX_DIRTY
  | PStop _ => stopping k ∧ tcb_phase k = CTX_DIRTY
  | PNext _ => tcb_state k = READY ∧ tcb_phase k = CTX_CLEAN
  | PPrev _ => stopping k ∧ tcb_phase k = CTX_DIRTY
  | PSame _ => tcb_state k = READY ∧ tcb_phase k = CTX_DIRTY
  end.

(** What a core's control block and mode say about places. *)
Definition core_ok (pl : gmap tid place) (c : nat) (b : CCB) (m : mode) : Prop :=
  match m with
  | Running => pl !! current_thread b = Some (PRun c)
  | Yielding => pl !! current_thread b = Some (PStop c)
  | Switching =>
      ∃ prev, previous_thread b = Some prev ∧
        if decide (prev = current_thread b) then pl !! prev = Some (PSame c)
        else pl !! current_thread b = Some (PNext c) ∧ pl !! prev = Some (PPrev c)
  end.

(** The core that a place names, and the threads a core names. *)
Definition place_core (p : place) : option nat :=
  match p with
  | PRun c | PStop c | PNext c | PPrev c | PSame c => Some c
  | _ => None
  end.
Definition core_names (b : CCB) (m : mode) (t : tid) : Prop :=
  t = current_thread b ∨ (m = Switching ∧ previous_thread b = Some t).

Definition wake (tm : gmap tid TCB) (t : tid) : Z := default 0 (wakeup_time <$> tm !! t).

(** Every thread has a place, and its TCB fits it. *)
Record threads_ok (tm : gmap tid TCB) (pl : gmap tid place) : Prop := ThreadsOk {
  t_dom : ∀ t, is_Some (pl !! t) ↔ is_Some (tm !! t);
  t_place : ∀ t k p, tm !! t = Some k → pl !! t = Some p → place_ok p k;
  t_idle : ∀ t k, tm !! t = Some k → tcb_type k = IDLE_THREAD ↔ ∃ c, t = Idle c;
  t_idle_core : ∀ c c' p, pl !! Idle c = Some p → place_core p = Some c' → c' = c;
  t_priority : ∀ t k, tm !! t = Some k → 0 ≤ priority k < SCHED_MAX_LEVEL }.

(** The queue of level [i] holds exactly the threads whose place it is. *)
Definition queues_ok (qs : list (list tid)) (pl : gmap tid place) : Prop :=
  length qs = 3%nat ∧
  ∀ i q, qs !! i = Some q → NoDup q ∧ ∀ t, t ∈ q ↔ pl !! t = Some (PQueued i).

Record cores_ok (cc : gmap nat CCB) (ms : gmap nat mode) (pl : gmap tid place) : Prop :=
  CoresOk {
  c_modes : ∀ c, is_Some (ms !! c) ↔ is_Some (cc !! c);
  c_core : ∀ c b m, cc !! c = Some b → ms !! c = Some m → core_ok pl c b m;
  c_named : ∀ t p c, pl !! t = Some p → place_core p = Some c →
    ∃ b m, cc !! c = Some b ∧ ms !! c = Some m ∧ core_names b m t }.

Record timeouts_ok (tm : gmap tid TCB) (tl : list tid) : Prop := TimeoutsOk {
  to_elem : ∀ t, t ∈ tl ↔ ∃ k, tm !! t = Some k ∧ wakeup_time k ≠ NO_TIMEOUT;
  to_nodup : NoDup tl;
  to_sorted : StronglySorted Z.le (wake tm <$> tl);
  to_stopped : ∀ t k, tm !! t = Some k → wakeup_time k ≠ NO_TIMEOUT → tcb_state k = STOPPED }.

Definition vm_ok (cc : gmap nat CCB) (m : machine) : Prop :=
  halted_ok m ∧ ∀ c, is_Some (cc !! c) → is_Some (CORE m !! c).

(** The threads that [spawn_thread] created and [release_TCB] has not freed. *)
Definition is_thr (t : tid) : Prop := match t with Thr _ => True | Idle _ => False end.
#[export] Instance is_thr_dec t : Decision (is_thr t).
Proof. destruct t; simpl; apply _. Defined.
Definition live_threads (tm : gmap tid TCB) : gset tid := filter is_thr (dom tm).

Record inv (s : sched) (ms : gmap nat mode) (pl : gmap tid place) : Prop := Inv {
  i_threads : threads_ok (tcbs s) pl;
  i_queues : queues_ok (SCHED s) pl;
  i_cores : cores_ok (cctx s) ms pl;
  i_timeouts : timeouts_ok (tcbs s) (TIMEOUT_LIST s);
  i_idle_exists : ∀ c, is_Some (cctx s !! c) → is_Some (tcbs s !! Idle c);
  i_active : active_threads s = u32 (Z.of_nat (size (live_threads (tcbs s))));
  i_fresh : ∀ n, (next_tcb s ≤ n)%nat → tcbs s !! Thr n = None;
  i_vm : vm_ok (cctx s) (vm s) }.

Definition sched_ok (x : config) : Prop := ∃ pl, inv (st x) (md x) pl.

(** ** Updating one thread *)
Definition not_queued (p : place) : Prop := ∀ i, p ≠ PQueued i.

Lemma threads_ok_insert tm pl t k' p' :
  threads_ok tm pl → place_ok p' k' →
  (tcb_type k' = IDLE_THREAD ↔ ∃ c, t = Idle c) →
  (∀ c c', t = Idle c → place_core p' = Some c' → c' = c) →
  0 ≤ priority k' < SCHED_MAX_LEVEL →
  threads_ok (<[t := k']> tm) (<[t := p']> pl).
Proof.
  intros [Hd Hp Hi Hic Hpr] Hok Hty Hcore Hprio. split.
  - intros u. rewrite !lookup_insert. case_decide; [by split|]. done.
  - intros u k p. rewrite !lookup_insert. case_decide; naive_solver.
  - intros u k. rewrite !lookup_insert. case_decide; [|eauto]. naive_solver.
  - intros c c' p. rewrite lookup_insert. case_decide; naive_solver.
  - intros u k. rewrite lookup_insert. case_decide; naive_solver.
Qed.

Lemma threads_ok_delete tm pl t :
  threads_ok tm pl → threads_ok (delete t tm) (delete t pl).
Proof.
  intros [Hd Hp Hi Hic Hpr]. split.
  - intros u. rewrite !lookup_delete. case_decide; [|done]. split; intros []; done.
  - intros u k p. rewrite !lookup_delete. case_decide; naive_solver.
  - intros u k. rewrite !lookup_delete. case_decide; [done|]. eauto.
  - intros c c' p. rewrite lookup_delete. case_decide; naive_solver.
  - intros u k. rewrite lookup_delete. case_decide; naive_solver.
Qed.

Lemma queues_ok_keep qs pl t p' :
  queues_ok qs pl → (∀ p, pl !! t = Some p → not_queued p) → not_queued p' →
  queues_ok qs (<[t := p']> pl).
Proof.
  intros [Hl Hq] Hp Hp'. split; [done|]. intros i q Hi. destruct (Hq i q Hi) as [Hn He].
  split; [done|]. intros u. rewrite He, lookup_insert. case_decide; [|done]. subst.
  split; intros H; [by destruct (Hp _ H i)|]. simplify_eq. by destruct (Hp' i).
Qed.

Lemma queues_ok_delete qs pl t :
  queues_ok qs pl → (∀ p, pl !! t = Some p → not_queued p) → queues_ok qs (delete t pl).
Proof.
  intros [Hl Hq] Hp. split; [done|]. intros i q Hi. destruct (Hq i q Hi) as [Hn He].
  split; [done|]. intros u. rewrite He, lookup_delete. case_decide; [|done]. subst.
  split; intros H; [by destruct (Hp _ H i)|done].
Qed.

Lemma queues_ok_push qs pl t i q :
  queues_ok qs pl → (∀ p, pl !! t = Some p → not_queued p) → qs !! i = Some q →
  queues_ok (<[i := q ++ [t]]> qs) (<[t := PQueued i]> pl).
Proof.
  intros [Hl Hq] Hp Hi. split; [by rewrite length_insert|]. intros j q'.
  rewrite (table_update _ _ _ _ _ Hi). destruct (Hq i q Hi) as [Hn He].
  assert (t ∉ q) as Ht by (rewrite He; intros H; by destruct (Hp _ H i)).
  case_decide as Hij; intros; simplify_eq.
  - split; [apply NoDup_app; set_solver by eauto using NoDup_singleton|].
    intros u. rewrite elem_of_app, He, list_elem_of_singleton, lookup_insert.
    case_decide; naive_solver.
  - destruct (Hq j q') as [Hn' He']; [done|]. split; [done|]. intros u.
    rewrite He', lookup_insert. case_decide; [|done]. subst.
    split; intros H'; [by destruct (Hp _ H' j)|naive_solver].
Qed.

Lemma queues_ok_pop qs pl t i q p' :
  queues_ok qs pl → qs !! i = Some (t :: q) → not_queued p' →
  queues_ok (<[i := q]> qs) (<[t := p']> pl) ∧ pl !! t = Some (PQueued i).
Proof.
  intros [Hl Hq] Hi Hp'. destruct (Hq i _ Hi) as [Hn He].
  assert (pl !! t = Some (PQueued i)) as Ht by (apply He; left).
  split; [|done]. split; [by rewrite length_insert|]. intros j q'.
  apply NoDup_cons in Hn as [Htq Hn].
  rewrite (table_update _ _ _ _ _ Hi). case_decide as Hij; intros; simplify_eq.
  - split; [done|]. intros u. specialize (He u). rewrite elem_of_cons in He.
    rewrite lookup_insert. case_decide; [|naive_solver]. subst.
    split; [done|]. intros. simplify_eq. exfalso. by eapply Hp'.
  - destruct (Hq j q') as [Hn' He']; [done|]. split; [done|]. intros u.
    rewrite He', lookup_insert. case_decide; [|done]. subst.
    split; intros ?; simplify_eq. exfalso. by eapply Hp'.
Qed.

Lemma core_ok_ext pl pl' c b m :
  (∀ t, core_names b m t → pl' !! t = pl !! t) → core_ok pl c b m → core_ok pl' c b m.
Proof.
  intros He. destruct m; simpl; [rewrite He; [done|by left] ..|].
  intros (prev & Hprev & H). exists prev. split; [done|].
  rewrite (He prev) by (by right). rewrite He by (by left). done.
Qed.

(** The places of the threads a core names. *)
Lemma core_ok_names pl c b m t :
  core_ok pl c b m → core_names b m t →
  ∃ p, pl !! t = Some p ∧ place_core p = Some c.
Proof.
  intros Hok [->|[-> Hp]].
  - destruct m; simpl in Hok; [eauto..|]. destruct Hok as (prev & _ & H).
    case_decide; subst; naive_solver.
  - simpl in Hok. destruct Hok as (prev & Hp' & H). simplify_eq.
    case_decide; naive_solver.
Qed.

Lemma cores_ok_free cc ms pl t p' :
  cores_ok cc ms pl → (∀ p, pl !! t = Some p → place_core p = None) →
  place_core p' = None → cores_ok cc ms (<[t := p']> pl).
Proof.
  intros [Hm Hc Hn] Hp Hp'. split; [done| |].
  - intros c b m Hb Hms. specialize (Hc c b m Hb Hms).
    eapply core_ok_ext; [|done]. intros u Hu.
    destruct (core_ok_names _ _ _ _ _ Hc Hu) as (p & Hpu & Hpc).
    rewrite lookup_insert_ne; [done|]. intros ->. specialize (Hp _ Hpu). congruence.
  - intros u p c. rewrite lookup_insert. case_decide; naive_solver.
Qed.

Lemma cores_ok_delete cc ms pl t :
  cores_ok cc ms pl → (∀ p, pl !! t = Some p → place_core p = None) →
  cores_ok cc ms (delete t pl).
Proof.
  intros [Hm Hc Hn] Hp. split; [done| |].
  - intros c b m Hb Hms. specialize (Hc c b m Hb Hms).
    eapply core_ok_ext; [|done]. intros u Hu.
    destruct (core_ok_names _ _ _ _ _ Hc Hu) as (p & Hpu & Hpc).
    rewrite lookup_delete_ne; [done|]. intros ->. specialize (Hp _ Hpu). congruence.
  - intros u p c. rewrite lookup_delete. case_decide; naive_solver.
Qed.

(** A core takes its step: its block, its mode and the places of the threads it
    names change together; [pl'] agrees with [pl] on the threads of the others. *)
Lemma cores_ok_step cc ms pl pl' c b m b' m' :
  cores_ok cc ms pl → cc !! c = Some b → ms !! c = Some m →
  core_ok pl' c b' m' →
  (∀ t p d, d ≠ c → pl !! t = Some p → place_core p = Some d → pl' !! t = Some p) →
  (∀ t p, pl' !! t = Some p → place_core p = Some c → core_names b' m' t) →
  (∀ t p d, d ≠ c → pl' !! t = Some p → place_core p = Some d → pl !! t = Some p) →
  cores_ok (<[c := b']> cc) (<[c := m']> ms) pl'.
Proof.
  intros [Hm Hc Hn] Hb Hms Hok Hkeep Hown Hback. split.
  - intros d. rewrite !lookup_insert. case_decide; [by split|done].
  - intros d b0 m0. rewrite !lookup_insert. case_decide as Hd; intros; simplify_eq; [done|].
    assert (core_ok pl d b0 m0) as Hd0 by (by apply Hc).
    eapply core_ok_ext; [|done]. intros u Hu.
    destruct (core_ok_names _ _ _ _ _ Hd0 Hu) as (p & Hpu & Hpc).
    rewrite Hpu. by eapply Hkeep.
  - intros t p d Hp Hpc. rewrite !lookup_insert. case_decide as Hd; subst.
    + exists b', m'. eauto.
    + eapply Hn; [|done]. by eapply Hback.
Qed.

(** ** Timeouts *)
Lemma wake_ext tm tm' (l : list tid) :
  (∀ t, t ∈ l → wake tm' t = wake tm t) → wake tm' <$> l = wake tm <$> l.
Proof. intros H. apply list_fmap_ext. intros i t Hi. apply H. by eapply list_elem_of_lookup_2. Qed.

Lemma timeouts_ok_keep tm tl t k k' :
  timeouts_ok tm tl → tm !! t = Some k → wakeup_time k' = wakeup_time k →
  (wakeup_time k ≠ NO_TIMEOUT → tcb_state k' = STOPPED) →
  timeouts_ok (<[t := k']> tm) tl.
Proof.
  intros [He Hn Hs Hst] Hk Hw Hst'. split; [|done| |].
  - intros u. rewrite He, lookup_insert. case_decide; [|done]. subst.
    split; intros (k0 & ? & ?); simplify_eq; [exists k'|exists k]; split; congruence.
  - rewrite (wake_ext tm); [done|]. intros u _. unfold wake. rewrite lookup_insert.
    case_decide; [|done]. subst. rewrite Hk. simpl. done.
  - intros u k0. rewrite lookup_insert. case_decide; intros; simplify_eq; [|eauto].
    apply Hst'. congruence.
Qed.

Lemma timeouts_ok_new tm tl t k' :
  timeouts_ok tm tl → tm !! t = None → wakeup_time k' = NO_TIMEOUT →
  timeouts_ok (<[t := k']> tm) tl.
Proof.
  intros [He Hn Hs Hst] Hk Hw. assert (t ∉ tl) as Ht by (rewrite He; intros (? & ? & ?); congruence).
  split; [|done| |].
  - intros u. rewrite He, lookup_insert. case_decide; [|done]. subst.
    split; intros (k0 & ? & ?); simplify_eq.
  - rewrite (wake_ext tm); [done|]. intros u Hu. unfold wake. by rewrite lookup_insert_ne by congruence.
  - intros u k0. rewrite lookup_insert. case_decide; intros; simplify_eq; eauto.
Qed.

Lemma timeouts_ok_delete tm tl t k :
  timeouts_ok tm tl → tm !! t = Some k → wakeup_time k = NO_TIMEOUT →
  timeouts_ok (delete t tm) tl.
Proof.
  intros [He Hn Hs Hst] Hk Hw. assert (t ∉ tl) as Ht by (rewrite He; intros (? & ? & ?); congruence).
  split; [|done| |].
  - intros u. rewrite He, lookup_delete. case_decide; [|done]. subst.
    split; intros (k0 & ? & ?); simplify_eq.
  - rewrite (wake_ext tm); [done|]. intros u Hu. unfold wake. by rewrite lookup_delete_ne by congruence.
  - intros u k0. rewrite lookup_delete. case_decide; [done|]. eauto.
Qed.

Lemma sorted_filter {A} (f : A → Z) (P : A → Prop) `{∀ x, Decision (P x)} (l : list A) :
  StronglySorted Z.le (f <$> l) → StronglySorted Z.le (f <$> filter P l).
Proof.
  induction l as [|x l IH]; intros Hs; [done|].
  rewrite fmap_cons in Hs. apply StronglySorted_inv in Hs as [Hs Hf].
  rewrite filter_cons. case_decide; [|auto]. rewrite fmap_cons. constructor; [auto|].
  apply Forall_fmap, Forall_forall. intros y [_ Hy]%list_elem_of_filter.
  rewrite Forall_forall in Hf. apply Hf, list_elem_of_fmap. eauto.
Qed.

Lemma timeouts_ok_remove tm tl t k' :
  timeouts_ok tm tl → wakeup_time k' = NO_TIMEOUT →
  timeouts_ok (<[t := k']> tm) (remove_node t tl).
Proof.
  intros [He Hn Hs Hst] Hw. split.
  - intros u. rewrite elem_of_remove_node, He, lookup_insert. case_decide; [|naive_solver].
    subst. split; [naive_solver|]. intros (k0 & ? & ?); simplify_eq.
  - auto with tinyos.
  - rewrite (wake_ext tm).
    + by apply sorted_filter.
    + intros u [Hu _]%elem_of_remove_node. unfold wake. by rewrite lookup_insert_ne.
  - intros u k0. rewrite lookup_insert. case_decide; intros; simplify_eq; eauto.
Qed.

Lemma timeout_insert_perm tm t w l : timeout_insert tm t w l ≡ₚ t :: l.
Proof.
  induction l as [|n l IH]; simpl; [done|]. case_match; [done|]. rewrite IH. constructor.
Qed.

Lemma timeout_insert_sorted tm t (l : list tid) :
  StronglySorted Z.le (wake tm <$> l) →
  StronglySorted Z.le (wake tm <$> timeout_insert tm t (wake tm t) l).
Proof.
  induction l as [|n l IH]; intros Hs; simpl; [repeat constructor|].
  rewrite fmap_cons in Hs. apply StronglySorted_inv in Hs as [Hs Hf].
  change (default 0 (wakeup_time <$> tm !! n)) with (wake tm n).
  destruct (Z.ltb_spec (wake tm t) (wake tm n)) as [Hlt|Hge].
  - rewrite !fmap_cons. constructor; [by constructor|]. constructor; [lia|].
    eapply Forall_impl; [exact Hf|]. simpl. lia.
  - rewrite fmap_cons. constructor; [auto|]. rewrite timeout_insert_perm, fmap_cons.
    by constructor.
Qed.

Lemma timeouts_ok_add tm tl t k k' :
  timeouts_ok tm tl → tm !! t = Some k → wakeup_time k = NO_TIMEOUT →
  wakeup_time k' ≠ NO_TIMEOUT → tcb_state k' = STOPPED →
  timeouts_ok (<[t := k']> tm) (timeout_insert (<[t := k']> tm) t (wakeup_time k') tl).
Proof.
  intros [He Hn Hs Hst] Hk Hw Hw' Hst'.
  assert (t ∉ tl) as Ht by (rewrite He; intros (? & ? & ?); congruence).
  assert (wake (<[t := k']> tm) t = wakeup_time k') as Hwt
    by (unfold wake; by rewrite lookup_insert_eq).
  split.
  - intros u. rewrite timeout_insert_perm, elem_of_cons, He, lookup_insert.
    case_decide; naive_solver.
  - rewrite timeout_insert_perm. by apply NoDup_cons.
  - rewrite <-Hwt. apply timeout_insert_sorted. rewrite (wake_ext tm); [done|].
    intros u Hu. unfold wake. by rewrite lookup_insert_ne by congruence.
  - intros u k0. rewrite lookup_insert. case_decide; intros; simplify_eq; eauto.
Qed.

(** ** Running the operations *)
Lemma get_tcb_run s t k : tcbs s !! t = Some k → get_tcb t s = Ok (k, s).
Proof. intros H. unfold get_tcb. unfold_monad. by rewrite H. Qed.

Lemma upd_tcb_run s t k f :
  tcbs s !! t = Some k → upd_tcb t f s = Ok (tt, set_tcbs (<[t := f k]> (tcbs s)) s).
Proof. intros H. unfold upd_tcb. by rewrite (bind_run _ _ _ _ _ (get_tcb_run _ _ _ H)). Qed.

Lemma get_ccb_run s c b : cctx s !! c = Some b → get_ccb c s = Ok (b, s).
Proof. intros H. unfold get_ccb. unfold_monad. by rewrite H. Qed.

Lemma upd_ccb_run s c b f :
  cctx s !! c = Some b → upd_ccb c f s = Ok (tt, set_cctx (<[c := f b]> (cctx s)) s).
Proof. intros H. unfold upd_ccb. by rewrite (bind_run _ _ _ _ _ (get_ccb_run _ _ _ H)). Qed.

Lemma on_vm_run {A} (m : BM A) s a v : m (vm s) = Ok (a, v) → on_vm m s = Ok (a, set_vm v s).
Proof. intros H. unfold on_vm, zoom. by rewrite H. Qed.

Lemma queue_add_run s t k q :
  tcbs s !! t = Some k → 0 ≤ priority k → SCHED s !! Z.to_nat (priority k) = Some q →
  vm_ok (cctx s) (vm s) →
  ∃ v, sched_queue_add t s
      = Ok (tt, set_vm v (set_SCHED (<[Z.to_nat (priority k) := q ++ [t]]> (SCHED s)) s)) ∧
    vm_ok (cctx s) v ∧ system_clock v = system_clock (vm s).
Proof.
  intros Hk Hp Hq [Hok Hc].
  destruct (restart_one_run (vm s) Hok) as (v & Hr & Hok' & _ & Hlen & Hclk).
  exists v. split.
  - unfold sched_queue_add. rewrite (bind_run _ _ _ _ _ (get_tcb_run _ _ _ Hk)).
    unfold mbind at 1, M_bind at 1. unfold get. rewrite decide_True by done.
    rewrite Hq. unfold_monad. simpl. by erewrite on_vm_run.
  - split; [|done]. split; [done|]. intros d Hd. apply lookup_lt_is_Some.
    rewrite Hlen. by apply lookup_lt_is_Some, Hc.
Qed.

Lemma remove_from_queues qs pl t :
  queues_ok qs pl → (∀ p, pl !! t = Some p → not_queued p) → remove_node t <$> qs = qs.
Proof.
  intros [_ Hq] Hp. apply list_eq. intros i. rewrite list_lookup_fmap.
  destruct (qs !! i) as [q|] eqn:Hi; [|done]. simpl. f_equal.
  apply remove_node_notin. intros Ht. apply (Hq i q Hi) in Ht. by apply (Hp _ Ht i).
Qed.

(** The TCB of a thread that is made ready. *)
Definition readied (k : TCB) : TCB := set_state READY (set_wakeup_time NO_TIMEOUT k).

(** Its place: a thread whose context is saved enters its queue, and one that is
    still on its core is left to the [gain] of that core. *)
Definition readied_place (k : TCB) (p : place) : place :=
  if decide (tcb_phase k = CTX_CLEAN) then PQueued (Z.to_nat (priority k)) else p.

Lemma make_ready_head s t k pl :
  queues_ok (SCHED s) pl → (∀ p, pl !! t = Some p → not_queued p) →
  timeouts_ok (tcbs s) (TIMEOUT_LIST s) → tcbs s !! t = Some k →
  tcb_state k = STOPPED ∨ tcb_state k = INIT →
  sched_make_ready t s =
    when (bool_decide (tcb_phase k = CTX_CLEAN)) (sched_queue_add t)
      (set_tcbs (<[t := readied k]> (tcbs s))
        (set_TIMEOUT_LIST (remove_node t (TIMEOUT_LIST s)) s)).
Proof.
  intros Hq Hp Hto Hk Hst. unfold sched_make_ready.
  mrun ltac:(by apply get_tcb_run). rewrite run_assert by (by apply bool_decide_true).
  destruct (decide (wakeup_time k = NO_TIMEOUT)) as [Hw|Hw].
  - rewrite run_when_false by (by rewrite bool_decide_true).
    mrun ltac:(by apply upd_tcb_run).
    mrun ltac:(by apply get_tcb_run, lookup_insert_eq).
    assert (t ∉ TIMEOUT_LIST s) as Ht.
    { rewrite (to_elem _ _ Hto). intros (? & ? & ?); congruence. }
    unfold readied. rewrite remove_node_notin by done.
    assert (set_wakeup_time NO_TIMEOUT k = k) as ->
      by (rewrite <-Hw; by destruct k). by destruct s.
  - rewrite run_when_true by (by rewrite bool_decide_false).
    assert (t ∈ TIMEOUT_LIST s) as Ht by (apply (to_elem _ _ Hto); eauto).
    assert (tcb_state k = STOPPED) as Hk' by (by eapply to_stopped).
    mstep. rewrite run_assert
      by (rewrite !bool_decide_true; [done|done|apply elem_of_app; by left]).
    mstep. mrun ltac:(apply upd_tcb_run; exact Hk).
    mrun ltac:(by apply upd_tcb_run, lookup_insert_eq).
    mrun ltac:(by apply get_tcb_run, lookup_insert_eq).
    unfold unlink, set_tcbs, set_SCHED, set_TIMEOUT_LIST; simpl.
    rewrite insert_insert_eq. by erewrite remove_from_queues.
Qed.

(** What an operation leaves alone. *)
Record framed (s s' : sched) : Prop := Framed {
  fr_cctx : cctx s' = cctx s;
  fr_scheduled : scheduled s' = scheduled s;
  fr_next : next_tcb s' = next_tcb s;
  fr_clock : system_clock (vm s') = system_clock (vm s) }.

Lemma framed_refl s : framed s s.
Proof. by split. Qed.
Lemma framed_trans s1 s2 s3 : framed s1 s2 → framed s2 s3 → framed s1 s3.
Proof. intros [] []. split; congruence. Qed.

(** The TCB of an existing thread changes, with its place, and perhaps the queues,
    the timeouts and the machine. *)
Lemma inv_update s ms pl t k k' p p' qs tl v :
  inv s ms pl → tcbs s !! t = Some k → pl !! t = Some p →
  place_ok p' k' → tcb_type k' = tcb_type k → place_core p' = place_core p →
  priority k' = priority k →
  queues_ok qs (<[t := p']> pl) → cores_ok (cctx s) ms (<[t := p']> pl) →
  timeouts_ok (<[t := k']> (tcbs s)) tl → vm_ok (cctx s) v →
  inv (set_vm v (set_TIMEOUT_LIST tl (set_SCHED qs (set_tcbs (<[t := k']> (tcbs s)) s))))
    ms (<[t := p']> pl).
Proof.
  intros [Ht _ _ _ Hid Hac Hf _] Hk Hp Hok Hty Hpc Hpr Hq Hc Hto Hv. split; simpl; try done.
  - apply threads_ok_insert; [done..| | |].
    + rewrite Hty. by eapply t_idle.
    + intros c c' -> Hc'. rewrite Hpc in Hc'. by eapply t_idle_core.
    + rewrite Hpr. by eapply t_priority.
  - intros c Hcc. apply lookup_insert_is_Some. destruct (decide (t = Idle c)); eauto.
  - rewrite Hac. unfold live_threads. by rewrite dom_insert_lookup_L.
  - intros n Hn. rewrite lookup_insert_ne; [eauto|]. intros ->. by rewrite Hf in Hk.
Qed.

Lemma stopped_not_queued pl tm t k :
  threads_ok tm pl → tm !! t = Some k → tcb_state k ≠ READY →
  ∀ p, pl !! t = Some p → not_queued p.
Proof.
  intros Ht Hk Hst p Hp i ->. pose proof (t_place _ _ Ht _ _ _ Hk Hp) as H. simpl in H. naive_solver.
Qed.

Lemma place_of tm pl t k :
  threads_ok tm pl → tm !! t = Some k → ∃ p, pl !! t = Some p ∧ place_ok p k.
Proof.
  intros Ht Hk. destruct (proj2 (t_dom _ _ Ht t)) as [p Hp]; [by eauto|].
  exists p. split; [done|]. by eapply t_place.
Qed.

Lemma make_ready_inv s ms pl t k p :
  inv s ms pl → tcbs s !! t = Some k → pl !! t = Some p →
  tcb_state k = STOPPED ∨ tcb_state k = INIT →
  ∃ s', sched_make_ready t s = Ok (tt, s') ∧ inv s' ms (<[t := readied_place k p]> pl) ∧
    framed s s' ∧ tcbs s' = <[t := readied k]> (tcbs s) ∧
    TIMEOUT_LIST s' = remove_node t (TIMEOUT_LIST s) ∧
    SCHED s' = if decide (tcb_phase k = CTX_CLEAN)
               then <[Z.to_nat (priority k) :=
                      default [] (SCHED s !! Z.to_nat (priority k)) ++ [t]]> (SCHED s)
               else SCHED s.
Proof.
  intros Hi Hk Hp Hst. pose proof Hi as [Ht Hq Hc Hto _ _ _ Hv].
  pose proof (t_place _ _ Ht _ _ _ Hk Hp) as Hok.
  assert (tcb_state k ≠ READY) as Hnr by (destruct Hst; congruence).
  pose proof (stopped_not_queued _ _ _ _ Ht Hk Hnr) as Hnq.
  rewrite (make_ready_head s t k pl) by done. unfold readied_place.
  assert (timeouts_ok (<[t := readied k]> (tcbs s)) (remove_node t (TIMEOUT_LIST s))) as Hto'
    by (by apply timeouts_ok_remove).
  case_decide as Hph.
  - rewrite bool_decide_true by done. simpl.
    destruct (t_priority _ _ Ht t k Hk) as [Hpr0 Hpr]. unfold SCHED_MAX_LEVEL in Hpr.
    destruct (lookup_lt_is_Some_2 (SCHED s) (Z.to_nat (priority k))) as [q Hqi].
    { rewrite (proj1 Hq). lia. }
    destruct (queue_add_run (set_tcbs (<[t := readied k]> (tcbs s))
        (set_TIMEOUT_LIST (remove_node t (TIMEOUT_LIST s)) s)) t (readied k) q)
      as (v & Hrun & Hv' & Hclk); [apply lookup_insert_eq|done..|].
    eexists. split; [exact Hrun|].
    assert (tcb_type k = NORMAL_THREAD ∧ place_core p = None) as [Hty Hpc].
    { destruct p; simpl in Hok; unfold stopping in Hok; intuition congruence. }
    split; [|split; [by split|do 2 (split; [done|]); simpl; by rewrite Hqi]].
    apply (inv_update s ms pl t k (readied k) p); try done.
    + simpl. rewrite Z2Nat.id by lia. done.
    + apply queues_ok_push; done.
    + apply cores_ok_free; [done|naive_solver|done].
  - rewrite bool_decide_false by done. eexists. split; [reflexivity|].
    split; [|by split].
    assert (<[t := p]> pl = pl) as Hpl by (by apply insert_id).
    pose proof (inv_update s ms pl t k (readied k) p p (SCHED s)
      (remove_node t (TIMEOUT_LIST s)) (vm s)) as H.
    rewrite Hpl in *. destruct s. apply H; try done.
    destruct p; simpl in *; unfold stopping in *; intuition congruence.
Qed.
