(* ===== verification/SchedSteps.v ===== *)
(** * The scheduler as a transition system

    What each operation of kernel_sched.c does to a state in which the invariant
    of [SchedInv.v] holds, the step relation of the scheduler over any number of
    cores, and the theorems about its reachable states. *)
From Stdlib Require Import Sorting.Sorted.
From S2P Require Import Prelude Bios Sched SchedInv.
Local Open Scope Z_scope.

(** ** Timeouts *)

(** What [sched_wakeup_expired_timeouts] at time [now] does to a TCB. *)
Definition expire (now : Z) (k : TCB) : TCB :=
  if decide (wakeup_time k ≤ now ∧ wakeup_time k ≠ NO_TIMEOUT) then readied k else k.

Lemma expire_readied now k : expire now (readied k) = readied k.
Proof. unfold expire. by rewrite decide_False by (intros [_ H]; by apply H). Qed.

Lemma expire_none now s :
  timeouts_ok (tcbs s) (TIMEOUT_LIST s) →
  (∀ t, t ∈ TIMEOUT_LIST s → now < wake (tcbs s) t) →
  expire now <$> tcbs s = tcbs s.
Proof.
  intros Hto Hlt. apply map_eq. intros t. rewrite lookup_fmap.
  destruct (tcbs s !! t) as [k|] eqn:Hk; [|done]. simpl. f_equal.
  unfold expire. apply decide_False. intros [Hle Hne].
  assert (t ∈ TIMEOUT_LIST s) as Ht by (apply (to_elem _ _ Hto); eauto).
  specialize (Hlt t Ht). unfold wake in Hlt. rewrite Hk in Hlt. simpl in Hlt. lia.
Qed.

(** The threads on a core keep their places. *)
Definition cores_kept (pl pl' : gmap tid place) : Prop :=
  ∀ t p c, pl !! t = Some p → place_core p = Some c → pl' !! t = Some p.

Lemma wakeup_expired_run ms now fuel : ∀ s pl,
  inv s ms pl → (length (TIMEOUT_LIST s) < fuel)%nat →
  ∃ s' pl', wakeup_expired fuel now s = Ok (tt, s') ∧ inv s' ms pl' ∧ framed s s' ∧
    tcbs s' = expire now <$> tcbs s ∧ cores_kept pl pl' ∧
    ∀ t, t ∈ TIMEOUT_LIST s' → now < wake (tcbs s') t.
Proof.
  induction fuel as [|fuel IH]; intros s pl Hi Hf; [lia|]. simpl. mstep.
  pose proof (i_timeouts _ _ _ Hi) as Hto.
  assert ((∀ t, t ∈ TIMEOUT_LIST s → now < wake (tcbs s) t) →
    ∃ s' pl', (mret tt : SM unit) s = Ok (tt, s') ∧ inv s' ms pl' ∧ framed s s' ∧
      tcbs s' = expire now <$> tcbs s ∧ cores_kept pl pl' ∧
      ∀ t, t ∈ TIMEOUT_LIST s' → now < wake (tcbs s') t) as Hdone.
  { intros Hlt. exists s, pl. split; [done|]. split; [done|]. split; [apply framed_refl|].
    rewrite expire_none by done. split; [done|]. split; [|done]. by intros ???. }
  destruct (TIMEOUT_LIST s) as [|t l] eqn:Hl; [apply Hdone; set_solver|].
  destruct (proj1 (to_elem _ _ Hto t)) as (k & Hk & Hw); [left|].
  mrun ltac:(by apply get_tcb_run).
  destruct (Z.gtb_spec (wakeup_time k) now) as [Hgt|Hle].
  { apply Hdone. pose proof (to_sorted _ _ Hto) as Hs. rewrite fmap_cons in Hs.
    apply StronglySorted_inv in Hs as [_ Hs].
    assert (wake (tcbs s) t = wakeup_time k) as Hwk by (unfold wake; by rewrite Hk).
    intros u [->|Hu]%elem_of_cons; [lia|].
    rewrite Forall_fmap, Forall_forall in Hs. specialize (Hs u Hu). simpl in Hs. lia. }
  destruct (place_of _ _ _ _ (i_threads _ _ _ Hi) Hk) as (p & Hp & Hok).
  pose proof (to_stopped _ _ Hto t k Hk Hw) as Hst.
  destruct (make_ready_inv s ms pl t k p Hi Hk Hp (or_introl Hst))
    as (s1 & Hrun & Hi1 & Hfr & Htm & Htl & _).
  mrun ltac:(exact Hrun).
  destruct (IH s1 _ Hi1) as (s' & pl' & Hrun' & Hi' & Hfr' & Htm' & Hcores & Hlt).
  { pose proof (to_nodup _ _ Hto) as [Ht _]%NoDup_cons.
    rewrite Htl, Hl, remove_node_cons by done. simpl in Hf. lia. }
  exists s', pl'. do 2 (split; [done|]). split; [by eapply framed_trans|].
  split; [|split; [|done]].
  - rewrite Htm', Htm, fmap_insert, expire_readied. apply map_eq. intros u.
    rewrite lookup_insert, lookup_fmap. case_decide; [|done]. subst. rewrite Hk. simpl.
    f_equal. unfold expire. by rewrite decide_True by lia.
  - intros u q c Hu Hq. eapply Hcores; [|done]. rewrite lookup_insert.
    case_decide; [|done]. subst. simplify_eq. f_equal. unfold readied_place.
    apply decide_False. destruct p; simpl in *; intuition congruence.
Qed.

(** ** Small changes of the state *)
Lemma inv_vm s ms pl v : inv s ms pl → vm_ok (cctx s) v → inv (set_vm v s) ms pl.
Proof. intros [] Hv. by split. Qed.

Lemma inv_scheduled s ms pl n : inv s ms pl → inv (set_scheduled n s) ms pl.
Proof. intros []. by split. Qed.

Lemma vm_ok_core cc v c b :
  vm_ok cc v → cc !! c = Some b → ∃ k, CORE v !! c = Some k.
Proof. intros [_ H] Hb. destruct (H c) as [k Hk]; [by eauto|]. by exists k. Qed.

Lemma vm_ok_length cc v v' :
  vm_ok cc v → halted_ok v' → length (CORE v') = length (CORE v) → vm_ok cc v'.
Proof.
  intros [_ H] Hh Hl. split; [done|]. intros c Hc. apply lookup_lt_is_Some.
  rewrite Hl. by apply lookup_lt_is_Some, H.
Qed.

Lemma vm_ok_cctx cc c b b' v : vm_ok cc v → cc !! c = Some b → vm_ok (<[c := b']> cc) v.
Proof.
  intros [Hh H] Hb. split; [done|]. intros d Hd. apply H.
  rewrite lookup_insert in Hd. case_decide; [subst; eauto|done].
Qed.

Lemma clock_run s : on_vm bios_clock s = Ok (u64 (system_clock (vm s) * 1000), s).
Proof. destruct s. done. Qed.

Lemma set_timer_run cc s c b usec old :
  vm_ok cc (vm s) → cc !! c = Some b →
  ∃ r v, on_vm (bios_set_timer c usec old) s = Ok (r, set_vm v s) ∧
    vm_ok cc v ∧ system_clock v = system_clock (vm s).
Proof.
  intros Hv Hb. destruct (vm_ok_core _ _ _ _ Hv Hb) as [k Hk].
  destruct (bios_set_timer_ok (vm s) c k usec old (proj1 Hv) Hk) as (r & v & Hr & Hh & Hl & Hc).
  exists r, v. split; [by apply on_vm_run|]. split; [|done]. by eapply vm_ok_length.
Qed.

Definition preempted (pre : bool) (b : CCB) : CCB :=
  MkCCB (current_thread b) (previous_thread b) pre.

Lemma set_preemption_run s c b pre :
  vm_ok (cctx s) (vm s) → cctx s !! c = Some b →
  ∃ v, set_core_preemption c pre s
      = Ok (preemption b, set_vm v (set_cctx (<[c := preempted pre b]> (cctx s)) s)) ∧
    vm_ok (<[c := preempted pre b]> (cctx s)) v ∧ system_clock v = system_clock (vm s).
Proof.
  intros Hv Hb. destruct (vm_ok_core _ _ _ _ Hv Hb) as [k Hk].
  destruct (upd_core_ok (vm s) c k (set_int_disabled (negb pre)) (proj1 Hv) Hk eq_refl)
    as (v & Hr & Hh & Hl & Hc).
  exists v. split; [|split; [|done]].
  - unfold set_core_preemption. mrun ltac:(by apply get_ccb_run).
    mrun ltac:(by apply upd_ccb_run). by erewrite bind_run by (by apply on_vm_run).
  - eapply vm_ok_length; [|done..]. by eapply vm_ok_cctx.
Qed.

(** [b'] names the same threads as [b]. *)
Definition same_threads (b b' : CCB) : Prop :=
  current_thread b' = current_thread b ∧ previous_thread b' = previous_thread b.

Lemma inv_cctx s ms pl c b b' :
  inv s ms pl → cctx s !! c = Some b → same_threads b b' →
  inv (set_cctx (<[c := b']> (cctx s)) s) ms pl.
Proof.
  intros [? ? [Hm Hc Hn] ? Hid ? ? ?] Hb [Hcur Hprev]. split; simpl; try done.
  - split.
    + intros d. rewrite Hm, lookup_insert. case_decide; subst; [|done]. by rewrite Hb.
    + intros d b0 m. rewrite lookup_insert. case_decide; [|eauto]. intros; simplify_eq.
      specialize (Hc d b m Hb ltac:(done)). destruct m; simpl in *; by rewrite Hcur, ?Hprev.
    + intros t p d Hp Hpc. rewrite lookup_insert.
      destruct (Hn t p d Hp Hpc) as (b0 & m & Hb0 & Hms & Hnm).
      case_decide; [|by exists b0, m]. simplify_eq. exists b', m. do 2 (split; [done|]).
      unfold core_names in *. by rewrite Hcur, Hprev.
  - intros d. rewrite lookup_insert_is_Some'. intros [->|?]; eauto.
  - by eapply vm_ok_cctx.
Qed.

(** Changes of a TCB that the invariant does not see. *)
Record same_role (k k' : TCB) : Prop := SameRole {
  sr_state : tcb_state k' = tcb_state k;
  sr_phase : tcb_phase k' = tcb_phase k;
  sr_type : tcb_type k' = tcb_type k;
  sr_priority : priority k' = priority k;
  sr_wakeup : wakeup_time k' = wakeup_time k }.

Lemma place_ok_role p k k' : same_role k k' → place_ok p k → place_ok p k'.
Proof.
  intros [Hs Hp Ht Hpr Hw] H. destruct p; simpl in *; unfold stopping in *;
    by rewrite ?Hs, ?Hp, ?Ht, ?Hpr.
Qed.

Lemma inv_role s ms pl t k k' :
  inv s ms pl → tcbs s !! t = Some k → same_role k k' →
  inv (set_tcbs (<[t := k']> (tcbs s)) s) ms pl.
Proof.
  intros Hi Hk Hr. pose proof Hi as [Ht Hq Hc Hto _ _ _ Hv].
  destruct (place_of _ _ _ _ Ht Hk) as (p & Hp & Hok).
  assert (<[t := p]> pl = pl) as Hpl by (by apply insert_id).
  pose proof (inv_update s ms pl t k k' p p (SCHED s) (TIMEOUT_LIST s) (vm s)) as H.
  rewrite Hpl in H. destruct s. apply H; try apply Hr; try done.
  - by eapply place_ok_role.
  - eapply timeouts_ok_keep; [done..|apply Hr|]. intros ?. rewrite (sr_state _ _ Hr).
    by eapply to_stopped.
Qed.

(** ** A thread leaves its core *)

(** The current thread of core [c], in a mode in which it has one. *)
Lemma current_place s ms pl c b m :
  inv s ms pl → cctx s !! c = Some b → ms !! c = Some m → m ≠ Switching →
  ∃ k p, tcbs s !! current_thread b = Some k ∧ pl !! current_thread b = Some p ∧
    place_ok p k ∧ place_core p = Some c ∧ tcb_phase k = CTX_DIRTY ∧
    p = match m with Yielding => PStop c | _ => PRun c end.
Proof.
  intros Hi Hb Hm Hne. pose proof Hi as [Ht _ Hc _ _ _ _ _].
  pose proof (c_core _ _ _ Hc c b m Hb Hm) as Hcore.
  assert (pl !! current_thread b = Some (match m with Yielding => PStop c | _ => PRun c end))
    as Hp by (by destruct m).
  destruct (proj1 (t_dom _ _ Ht (current_thread b))) as [k Hk]; [by eauto|].
  pose proof (t_place _ _ Ht _ _ _ Hk Hp) as Hok.
  exists k, (match m with Yielding => PStop c | _ => PRun c end).
  split; [done|]. split; [done|]. split; [done|]. destruct m; simpl in *; naive_solver.
Qed.

(** Core [c] names only its current thread, unless it is switching. *)
Lemma only_current s ms pl c b m t p :
  inv s ms pl → cctx s !! c = Some b → ms !! c = Some m → m ≠ Switching →
  pl !! t = Some p → place_core p = Some c → t = current_thread b.
Proof.
  intros Hi Hb Hm Hne Hp Hpc.
  destruct (c_named _ _ _ (i_cores _ _ _ Hi) t p c Hp Hpc) as (b0 & m0 & ? & ? & Hn).
  simplify_eq. by destruct Hn as [|[]].
Qed.

(** The current thread is marked, and the core goes on to [yield]. *)
Lemma inv_leave s ms pl c b m k k' tl :
  inv s ms pl → cctx s !! c = Some b → ms !! c = Some m → m ≠ Switching →
  tcbs s !! current_thread b = Some k → stopping k' → tcb_phase k' = CTX_DIRTY →
  tcb_type k' = tcb_type k → 0 ≤ priority k' < SCHED_MAX_LEVEL →
  timeouts_ok (<[current_thread b := k']> (tcbs s)) tl →
  inv (set_TIMEOUT_LIST tl (set_tcbs (<[current_thread b := k']> (tcbs s)) s))
    (<[c := Yielding]> ms) (<[current_thread b := PStop c]> pl).
Proof.
  intros Hi Hb Hm Hne Hk Hst Hph Hty Hpr Hto.
  destruct (current_place _ _ _ _ _ _ Hi Hb Hm Hne) as (k0 & p & Hk0 & Hp & _ & Hpc & _ & _).
  simplify_eq. pose proof Hi as [Ht Hq Hc _ Hid Hac Hf Hv]. split; simpl; try done.
  - apply threads_ok_insert; try done.
    + rewrite Hty. by eapply t_idle.
    + intros d d' Hd [= <-]. rewrite Hd in Hp. by eapply t_idle_core.
  - apply queues_ok_keep; [done| |done]. intros q Hq'. simplify_eq. by destruct p.
  - assert (<[c := b]> (cctx s) = cctx s) as <- by (by apply insert_id).
    eapply cores_ok_step; try done.
    + simpl. apply lookup_insert_eq.
    + intros t q d Hd Ht' Hqd. rewrite lookup_insert_ne; [done|]. intros <-. congruence.
    + intros t q. rewrite lookup_insert. case_decide; [by left|]. intros Ht' Hqc.
      left. by eapply (only_current s ms pl c b).
    + intros t q d Hd. rewrite lookup_insert. case_decide; [|done]. intros; simplify_eq.
      simpl in *. congruence.
  - intros d Hd. apply lookup_insert_is_Some.
    destruct (decide (current_thread b = Idle d)); eauto.
  - rewrite Hac. unfold live_threads. by rewrite dom_insert_lookup_L.
  - intros n Hn. rewrite lookup_insert_ne; [eauto|]. intros Heq. rewrite Heq, Hf in Hk; done.
Qed.

(** ** The switch *)
Definition switched (b : CCB) (next : tid) : CCB :=
  MkCCB next (Some (current_thread b)) (preemption b).

Lemma inv_switch_same s ms pl c b k :
  inv s ms pl → cctx s !! c = Some b → ms !! c = Some Yielding →
  tcbs s !! current_thread b = Some k → tcb_state k = READY →
  inv (set_cctx (<[c := switched b (current_thread b)]> (cctx s)) s)
    (<[c := Switching]> ms) (<[current_thread b := PSame c]> pl).
Proof.
  intros Hi Hb Hm Hk Hst.
  destruct (current_place _ _ _ _ _ _ Hi Hb Hm ltac:(done)) as (k0 & p & ? & Hp & Hok & Hpc & Hph & ->).
  simplify_eq. pose proof Hi as [Ht Hq Hc Hto Hid Hac Hf Hv]. split; simpl; try done.
  - assert (<[current_thread b := k]> (tcbs s) = tcbs s) as <- by (by apply insert_id).
    apply threads_ok_insert; try done.
    + by eapply t_idle.
    + intros d d' Hd [= <-]. rewrite Hd in Hp. by eapply t_idle_core.
    + by eapply t_priority.
  - apply queues_ok_keep; [done| |done]. intros q Hq'. by simplify_eq.
  - eapply cores_ok_step; try done.
    + simpl. exists (current_thread b). split; [done|]. rewrite decide_True by done.
      apply lookup_insert_eq.
    + intros t q d Hd Ht' Hqd. rewrite lookup_insert_ne; [done|]. intros <-. by simplify_eq.
    + intros t q. rewrite lookup_insert. case_decide; [by left|]. intros Ht' Hqc.
      left. by eapply (only_current s ms pl c b).
    + intros t q d Hd. rewrite lookup_insert. case_decide; [|done]. intros; simplify_eq.
      simpl in *. congruence.
  - intros d. rewrite lookup_insert_is_Some'. intros [->|?]; eauto.
  - by eapply vm_ok_cctx.
Qed.

Lemma inv_switch_other s ms pl c b k next kn p qs :
  inv s ms pl → cctx s !! c = Some b → ms !! c = Some Yielding →
  tcbs s !! current_thread b = Some k → next ≠ current_thread b →
  tcbs s !! next = Some kn → pl !! next = Some p → place_core p = None →
  tcb_state kn = READY → tcb_phase kn = CTX_CLEAN → (∀ d, next = Idle d → d = c) →
  queues_ok qs (<[next := PNext c]> pl) →
  inv (set_cctx (<[c := switched b next]> (cctx s)) (set_SCHED qs s))
    (<[c := Switching]> ms) (<[current_thread b := PPrev c]> (<[next := PNext c]> pl)).
Proof.
  intros Hi Hb Hm Hk Hne Hkn Hpn Hpnc Hst Hph Hidle Hqs.
  destruct (current_place _ _ _ _ _ _ Hi Hb Hm ltac:(done)) as (k0 & p0 & ? & Hp & Hok & Hpc & Hph0 & ->).
  simplify_eq. pose proof Hi as [Ht Hq Hc Hto Hid Hac Hf Hv]. split; simpl; try done.
  - assert (<[current_thread b := k]> (<[next := kn]> (tcbs s)) = tcbs s) as <-.
    { rewrite !insert_id; try done. by rewrite lookup_insert_ne. }
    apply threads_ok_insert; [apply threads_ok_insert|..]; try done.
    + by eapply t_idle.
    + intros d d' Hd [= <-]. symmetry. by apply Hidle.
    + by eapply t_priority.
    + by eapply t_idle.
    + intros d d' Hd [= <-]. rewrite Hd in Hp. by eapply t_idle_core.
    + by eapply t_priority.
  - apply queues_ok_keep; [done| |done]. rewrite lookup_insert_ne by done.
    intros q Hq'. by simplify_eq.
  - eapply cores_ok_step; try done.
    + simpl. exists (current_thread b). split; [done|]. rewrite decide_False by done.
      rewrite lookup_insert_eq, lookup_insert_ne, lookup_insert_eq by done. done.
    + intros t q d Hd Ht' Hqd. rewrite !lookup_insert_ne; [done|..]; intros <-;
        simplify_eq; congruence.
    + intros t q. rewrite !lookup_insert. case_decide; [by right; subst|].
      case_decide; [by left|]. intros Ht' Hqc. right.
      by assert (t = current_thread b) as -> by (by eapply (only_current s ms pl c b)).
    + intros t q d Hd. rewrite !lookup_insert.
      repeat case_decide; intros; simplify_eq; simpl in *; congruence.
  - intros d. rewrite lookup_insert_is_Some'. intros [->|?]; eauto.
  - by eapply vm_ok_cctx.
Qed.

(** ** The arrival at a core *)
Lemma cores_ok_gain cc ms pl pl' c b prev :
  cores_ok cc ms pl → cc !! c = Some b → ms !! c = Some Switching →
  previous_thread b = Some prev → pl' !! current_thread b = Some (PRun c) →
  (∀ t, t ≠ current_thread b → t ≠ prev → pl' !! t = pl !! t) →
  (prev ≠ current_thread b → ∀ p, pl' !! prev = Some p → place_core p = None) →
  cores_ok cc (<[c := Running]> ms) pl'.
Proof.
  intros Hc Hb Hm Hprev Hcur Hother Hp.
  assert (<[c := b]> cc = cc) as <- by (by apply insert_id).
  pose proof (c_core _ _ _ Hc c b _ Hb Hm) as Hcore.
  assert (∀ t p, pl !! t = Some p → t = current_thread b ∨ t = prev → place_core p = Some c)
    as Hnames.
  { intros t p Ht Hor. destruct (core_ok_names pl c b Switching t Hcore) as (q & Hq & Hqc);
      [|congruence]. destruct Hor as [->| ->]; [by left|by right]. }
  assert (∀ t p, pl' !! t = Some p → t ≠ current_thread b →
    pl !! t = Some p ∨ place_core p = None) as Hback.
  { intros t p Ht Hne. destruct (decide (t = prev)) as [->|]; [by right; eapply Hp|].
    left. by rewrite <-Hother. }
  eapply cores_ok_step; [done..| | |].
  - intros t p d Hd Ht Hpd. rewrite Hother; [done|..]; intros ->;
      specialize (Hnames _ _ Ht); intuition congruence.
  - intros t p Ht Hpc. destruct (decide (t = current_thread b)) as [|Hne]; [by left|].
    destruct (Hback t p Ht Hne) as [Ht'|]; [|congruence].
    destruct (c_named _ _ _ Hc t p c Ht' Hpc) as (b0 & m0 & ? & ? & Hn). simplify_eq.
    destruct Hn as [|[_ Hn]]; [done|]. simplify_eq. specialize (Hp Hne p Ht). congruence.
  - intros t p d Hd Ht Hpd. destruct (decide (t = current_thread b)) as [->|Hne].
    + simplify_eq. simpl in Hpd. congruence.
    + destruct (Hback t p Ht Hne); [done|congruence].
Qed.

Lemma live_delete tm t :
  is_thr t → is_Some (tm !! t) → size (live_threads tm) = S (size (live_threads (delete t tm))).
Proof.
  intros Ht Hs. assert (live_threads tm = {[t]} ∪ live_threads (delete t tm)) as ->.
  { unfold live_threads. rewrite dom_delete_L. apply set_eq. intros u.
    assert (t ∈ dom tm) by (by apply elem_of_dom).
    destruct (decide (u = t)); set_solver. }
  rewrite size_union, size_singleton; [done|].
  unfold live_threads. rewrite dom_delete_L. set_solver.
Qed.

Lemma u32_pred n z : z = u32 (Z.of_nat (S n)) → u32 (z - 1) = u32 (Z.of_nat n).
Proof.
  intros ->. unfold u32. rewrite Zminus_mod_idemp_l. f_equal. lia.
Qed.

Lemma u32_succ n z : z = u32 (Z.of_nat n) → u32 (z + 1) = u32 (Z.of_nat (S n)).
Proof.
  intros ->. unfold u32. rewrite Zplus_mod_idemp_l. f_equal. lia.
Qed.

Lemma dom_kept (t : tid) (k k' : TCB) (tm : gmap tid TCB) :
  tm !! t = Some k → dom (<[t := k']> tm) = dom tm.
Proof. intros. by apply dom_insert_lookup_L. Qed.

(** The TCB of the thread that [gain] lets run. *)
Definition gained (k : TCB) : TCB := set_rts (its k) (set_phase CTX_DIRTY (set_state RUNNING k)).

Section gain.
#[local] Set Default Proof Using "Type*".
Context (s : sched) (ms : gmap nat mode) (pl : gmap tid place) (c : nat) (b : CCB).
Context (Hi : inv s ms pl) (Hb : cctx s !! c = Some b) (Hm : ms !! c = Some Switching).

Lemma gain_current k :
  tcbs s !! current_thread b = Some k → wakeup_time k = NO_TIMEOUT.
Proof.
  intros Hk. destruct (decide (wakeup_time k = NO_TIMEOUT)) as [|Hne]; [done|].
  pose proof (to_stopped _ _ (i_timeouts _ _ _ Hi) _ _ Hk Hne) as Hst.
  pose proof (c_core _ _ _ (i_cores _ _ _ Hi) c b _ Hb Hm) as (prev & _ & Hcore).
  assert (∃ p, pl !! current_thread b = Some p ∧ (p = PSame c ∨ p = PNext c)) as (p & Hp & Hor).
  { case_decide; subst; [|destruct Hcore]; eauto. }
  pose proof (t_place _ _ (i_threads _ _ _ Hi) _ _ _ Hk Hp) as Hok.
  destruct Hor as [-> | ->]; simpl in Hok; intuition congruence.
Qed.

(** The current thread runs; the places of [pl'] are those after the step. *)
Lemma gain_threads k :
  tcbs s !! current_thread b = Some k →
  threads_ok (<[current_thread b := gained k]> (tcbs s)) (<[current_thread b := PRun c]> pl) ∧
  queues_ok (SCHED s) (<[current_thread b := PRun c]> pl) ∧
  timeouts_ok (<[current_thread b := gained k]> (tcbs s)) (TIMEOUT_LIST s).
Proof.
  intros Hk. pose proof Hi as [Ht Hq Hc Hto _ _ _ _].
  destruct (place_of _ _ _ _ Ht Hk) as (p & Hp & Hok).
  assert (place_core p = Some c) as Hpc.
  { destruct (core_ok_names pl c b Switching (current_thread b)) as (q & ? & ?);
      [by eapply c_core|by left|congruence]. }
  split; [|split].
  - apply threads_ok_insert; [done|done|by eapply (t_idle _ _ Ht _ k)| |by eapply (t_priority _ _ Ht _ k)].
    intros d d' Hd [= <-]. rewrite Hd in Hp. by eapply t_idle_core.
  - apply queues_ok_keep; [done| |done]. intros q Hq'. simplify_eq. by destruct p.
  - eapply timeouts_ok_keep; [done..|]. intros Hne. by destruct (Hne (gain_current _ Hk)).
Qed.

Lemma inv_gain_same k :
  tcbs s !! current_thread b = Some k → previous_thread b = Some (current_thread b) →
  inv (set_tcbs (<[current_thread b := gained k]> (tcbs s)) s) (<[c := Running]> ms)
    (<[current_thread b := PRun c]> pl).
Proof.
  intros Hk Hprev. destruct (gain_threads k Hk) as (Ht & Hq & Hto).
  pose proof Hi as [_ _ Hc _ Hid Hac Hf Hv]. split; simpl; try done.
  - eapply cores_ok_gain; try done; [apply lookup_insert_eq|].
    intros t Ht' _. by rewrite lookup_insert_ne.
  - intros d Hd. apply elem_of_dom. rewrite (dom_kept _ k) by done. by apply elem_of_dom, Hid.
  - rewrite Hac. unfold live_threads. by rewrite (dom_kept _ k).
  - intros n Hn. rewrite lookup_insert_ne; [eauto|]. intros Heq. rewrite Heq, Hf in Hk; done.
Qed.

Context (k kp : TCB) (prev : tid).
Context (Hk : tcbs s !! current_thread b = Some k) (Hkp : tcbs s !! prev = Some kp).
Context (Hprev : previous_thread b = Some prev) (Hne : prev ≠ current_thread b).

Lemma gain_prev_place : pl !! prev = Some (PPrev c) ∧ stopping kp ∧ tcb_phase kp = CTX_DIRTY.
Proof.
  pose proof (c_core _ _ _ (i_cores _ _ _ Hi) c b _ Hb Hm) as (q & Hq & Hcore).
  simplify_eq. rewrite decide_False in Hcore by done. destruct Hcore as [_ Hp].
  split; [done|]. by apply (t_place _ _ (i_threads _ _ _ Hi) _ _ _ Hkp Hp).
Qed.

(** The thread that left stays alive. *)
Lemma inv_gain_other p' qs v :
  place_ok p' (set_phase CTX_CLEAN kp) → place_core p' = None →
  queues_ok qs (<[prev := p']> (<[current_thread b := PRun c]> pl)) → vm_ok (cctx s) v →
  inv (set_vm v (set_SCHED qs
      (set_tcbs (<[prev := set_phase CTX_CLEAN kp]> (<[current_thread b := gained k]> (tcbs s))) s)))
    (<[c := Running]> ms) (<[prev := p']> (<[current_thread b := PRun c]> pl)).
Proof.
  intros Hok Hpc Hqs Hv'. destruct (gain_threads k Hk) as (Ht & Hq & Hto).
  destruct gain_prev_place as (Hpp & Hst & _).
  pose proof Hi as [Ht0 _ Hc _ Hid Hac Hf Hv]. split; simpl; try done.
  - apply threads_ok_insert; [done|done|by eapply (t_idle _ _ Ht0 _ kp)| |by eapply (t_priority _ _ Ht0 _ kp)].
    intros d d' _ Hd. congruence.
  - eapply cores_ok_gain; try done.
    + rewrite lookup_insert_ne by done. apply lookup_insert_eq.
    + intros t H1 H2. by rewrite !lookup_insert_ne.
    + intros _ p. rewrite lookup_insert_eq. by intros [= <-].
  - eapply timeouts_ok_keep; [done|by rewrite lookup_insert_ne|done|]. simpl. intros Hw.
    by eapply (to_stopped _ _ (i_timeouts _ _ _ Hi)).
  - intros d Hd. apply elem_of_dom.
    rewrite (dom_kept _ kp) by (by rewrite lookup_insert_ne).
    rewrite (dom_kept _ k) by done. by apply elem_of_dom, Hid.
  - rewrite Hac. unfold live_threads.
    rewrite (dom_kept _ kp) by (by rewrite lookup_insert_ne). by rewrite (dom_kept _ k).
  - intros n Hn. pose proof (Hf n Hn). rewrite !lookup_insert_ne; congruence.
Qed.

(** The thread that left has exited, and its TCB is freed. *)
Lemma inv_gain_exited :
  tcb_state kp = EXITED →
  inv (set_active_threads (u32 (active_threads s - 1))
      (set_tcbs (delete prev (<[prev := set_phase CTX_CLEAN kp]>
        (<[current_thread b := gained k]> (tcbs s)))) s))
    (<[c := Running]> ms) (delete prev (<[current_thread b := PRun c]> pl)).
Proof.
  intros Hex. destruct (gain_threads k Hk) as (Ht & Hq & Hto).
  destruct gain_prev_place as (Hpp & Hst & _). rewrite delete_insert_eq.
  pose proof Hi as [Ht0 Hq0 Hc Hto0 Hid Hac Hf Hv].
  assert (tcb_type kp = NORMAL_THREAD) as Hty by (unfold stopping in Hst; intuition congruence).
  assert (∃ n, prev = Thr n) as [n Hn].
  { destruct prev as [d|n]; [|by exists n].
    assert (tcb_type kp = IDLE_THREAD) by (eapply t_idle; eauto). congruence. }
  assert (<[current_thread b := gained k]> (tcbs s) !! prev = Some kp) as Hkp'
    by (by rewrite lookup_insert_ne).
  split; simpl; try done.
  - by apply threads_ok_delete.
  - apply queues_ok_delete; [done|]. rewrite lookup_insert_ne by done. intros p Hp.
    by simplify_eq.
  - eapply cores_ok_gain; try done.
    + rewrite lookup_delete_ne by done. apply lookup_insert_eq.
    + intros t H1 H2. by rewrite lookup_delete_ne, lookup_insert_ne.
    + intros _ p. by rewrite lookup_delete_eq.
  - eapply timeouts_ok_delete; [done..|].
    destruct (decide (wakeup_time kp = NO_TIMEOUT)) as [|Hw]; [done|].
    pose proof (to_stopped _ _ Hto0 _ _ Hkp Hw). congruence.
  - intros d Hd. rewrite lookup_delete_ne by (by rewrite Hn). apply elem_of_dom.
    rewrite (dom_kept _ k) by done. by apply elem_of_dom, Hid.
  - apply u32_pred. rewrite Hac. do 2 f_equal.
    rewrite <-(live_delete (<[current_thread b := gained k]> (tcbs s))); [|by rewrite Hn|eauto].
    unfold live_threads. by rewrite (dom_kept _ k).
  - intros m Hm'. pose proof (Hf m Hm'). apply lookup_delete_None. right.
    rewrite lookup_insert_ne; congruence.
Qed.
End gain.

(** ** Selection *)

(** The first thread of the first queue that is not empty, with the level of the
    queue and what it leaves there. *)
Fixpoint highest_from (i : nat) (qs : list (list tid)) : option (nat * tid * list tid) :=
  match qs with
  | [] => None
  | [] :: qs' => highest_from (S i) qs'
  | (t :: q) :: _ => Some (i, t, q)
  end.
Definition highest : list (list tid) → option (nat * tid * list tid) := highest_from 0.

Definition after_select (s : sched) : option tid * sched :=
  match highest (SCHED s) with
  | Some (i, t, q) =>
      (Some t, (if scheduled s <=? SCHED_MAX_SCHEDULED then id else set_scheduled 0)
         (set_SCHED (<[i := q]> (SCHED s)) s))
  | None => (None, s)
  end.

Lemma select_from_run s :
  length (SCHED s) = 3%nat →
  select_from (seq 0 (Z.to_nat SCHED_MAX_LEVEL)) s = Ok (after_select s).
Proof.
  intros Hl. unfold after_select. destruct s as [tm qs tl cc ac n nx v]. simpl in *.
  destruct qs as [|q0 [|q1 [|q2 [|]]]]; try done.
  change (seq 0 (Z.to_nat SCHED_MAX_LEVEL)) with [0; 1; 2]%nat.
  unfold select_from, highest. unfold_monad.
  destruct (n <=? SCHED_MAX_SCHEDULED) eqn:E, q0, q1, q2;
    do 4 (simpl; rewrite ?E); reflexivity.
Qed.

Lemma highest_from_lookup qs i j t q :
  highest_from i qs = Some (j, t, q) →
  (i ≤ j)%nat ∧ qs !! (j - i)%nat = Some (t :: q) ∧ ∀ d, (d < j - i)%nat → qs !! d = Some [].
Proof.
  revert i. induction qs as [|[|u q0] qs IH]; intros i H; simplify_eq/=.
  - destruct (IH _ H) as (Hle & Hlk & Hlt). split; [lia|].
    replace (j - i)%nat with (S (j - S i)) by lia. split; [done|].
    intros [|d] Hd; [done|]. apply Hlt. lia.
  - split; [lia|]. rewrite Nat.sub_diag. split; [done|]. lia.
Qed.

Lemma highest_lookup qs j t q :
  highest qs = Some (j, t, q) →
  qs !! j = Some (t :: q) ∧ ∀ d, (d < j)%nat → qs !! d = Some [].
Proof. intros [_ H]%highest_from_lookup. by rewrite Nat.sub_0_r in H. Qed.

Lemma highest_none qs i : highest_from i qs = None ↔ ∀ q, q ∈ qs → q = [].
Proof.
  revert i. induction qs as [|[|u q0] qs IH]; intros i; simpl.
  - set_solver.
  - rewrite IH. set_solver.
  - split; [done|]. intros H. specialize (H (u :: q0) ltac:(left)). done.
Qed.

(** The end of [yield]: the bookkeeping after the selection. *)
Lemma commit_run s c b next :
  cctx s !! c = Some b →
  (modify (λ s, set_scheduled (i32 (scheduled s + 1)) s) ;;
   upd_ccb c (λ k, MkCCB (current_thread k) (Some (current_thread b)) (preemption k)) ;;
   when (negb (bool_decide (current_thread b = next)))
     (upd_ccb c (λ k, MkCCB next (previous_thread k) (preemption k)))) s
  = Ok (tt, set_cctx (<[c := switched b next]> (cctx s))
       (set_scheduled (i32 (scheduled s + 1)) s)).
Proof.
  intros Hb. mstep. mrun ltac:(by apply upd_ccb_run). unfold switched.
  destruct (decide (current_thread b = next)) as [<-|Hne].
  - by rewrite bool_decide_true.
  - rewrite bool_decide_false by done. unfold when. simpl.
    erewrite upd_ccb_run by apply lookup_insert_eq. simpl. by rewrite insert_insert_eq.
Qed.

Lemma role_its q k : same_role k (set_its q k).
Proof. by destruct k. Qed.

Lemma inv_commit_other s ms pl c b k next kn p qs n :
  inv s ms pl → cctx s !! c = Some b → ms !! c = Some Yielding →
  tcbs s !! current_thread b = Some k → next ≠ current_thread b →
  tcbs s !! next = Some kn → pl !! next = Some p → place_core p = None →
  tcb_state kn = READY → tcb_phase kn = CTX_CLEAN → (∀ d, next = Idle d → d = c) →
  queues_ok qs (<[next := PNext c]> pl) →
  inv (set_cctx (<[c := switched b next]> (cctx s)) (set_scheduled n
      (set_tcbs (<[next := set_its QUANTUM kn]> (tcbs s)) (set_SCHED qs s))))
    (<[c := Switching]> ms) (<[current_thread b := PPrev c]> (<[next := PNext c]> pl)).
Proof.
  intros Hi Hb Hm Hk Hne Hkn Hp Hpc Hst Hph Hd Hqs.
  apply (inv_scheduled _ _ _ n (inv_switch_other _ ms pl c b k next (set_its QUANTUM kn) p qs
    (inv_role s ms pl next kn _ Hi Hkn (role_its QUANTUM kn)) Hb Hm
    ltac:(by simpl; rewrite lookup_insert_ne) Hne ltac:(apply lookup_insert_eq)
    Hp Hpc Hst Hph Hd Hqs)).
Qed.

Lemma inv_commit_same s ms pl c b k n :
  inv s ms pl → cctx s !! c = Some b → ms !! c = Some Yielding →
  tcbs s !! current_thread b = Some k → tcb_state k = READY →
  inv (set_cctx (<[c := switched b (current_thread b)]> (cctx s)) (set_scheduled n
      (set_tcbs (<[current_thread b := set_its QUANTUM k]> (tcbs s)) s)))
    (<[c := Switching]> ms) (<[current_thread b := PSame c]> pl).
Proof.
  intros Hi Hb Hm Hk Hst.
  apply (inv_scheduled _ _ _ n (inv_switch_same _ ms pl c b (set_its QUANTUM k)
    (inv_role s ms pl _ k _ Hi Hk (role_its QUANTUM k)) Hb Hm
    ltac:(apply lookup_insert_eq) Hst)).
Qed.

(** An idle thread that is not the current thread of its core is parked. *)
Lemma idle_parked s ms pl c b :
  inv s ms pl → cctx s !! c = Some b → ms !! c = Some Yielding → current_thread b ≠ Idle c →
  ∃ k, tcbs s !! Idle c = Some k ∧ pl !! Idle c = Some PParked ∧
    tcb_state k = READY ∧ tcb_phase k = CTX_CLEAN.
Proof.
  intros Hi Hb Hm Hne. pose proof Hi as [Ht Hq Hc Hto Hid _ _ _].
  destruct (Hid c) as [k Hk]; [by eauto|].
  destruct (place_of _ _ _ _ Ht Hk) as (p & Hp & Hok).
  assert (tcb_type k = IDLE_THREAD) as Hty by (eapply t_idle; eauto).
  assert (place_core p = None) as Hpc.
  { destruct (place_core p) as [d|] eqn:Hd; [|done].
    assert (d = c) as -> by (by eapply t_idle_core).
    pose proof (only_current s ms pl c b _ _ _ Hi Hb Hm ltac:(done) Hp Hd). congruence. }
  exists k. split; [done|]. destruct p; simpl in *; intuition congruence.
Qed.

(** From the selection to the switch of contexts. *)
Lemma switch_run s ms pl c b k :
  inv s ms pl → cctx s !! c = Some b → ms !! c = Some Yielding →
  tcbs s !! current_thread b = Some k →
  ∃ s' pl' next, (next ← sched_queue_select c (current_thread b);
     modify (λ s, set_scheduled (i32 (scheduled s + 1)) s) ;;
     upd_ccb c (λ k, MkCCB (current_thread k) (Some (current_thread b)) (preemption k)) ;;
     when (negb (bool_decide (current_thread b = next)))
       (upd_ccb c (λ k, MkCCB next (previous_thread k) (preemption k)))) s = Ok (tt, s') ∧
    inv s' (<[c := Switching]> ms) pl' ∧ cctx s' = <[c := switched b next]> (cctx s) ∧
    next = match highest (SCHED s) with
           | Some (_, t, _) => t
           | None => if decide (tcb_state k = READY) then current_thread b else Idle c
           end.
Proof.
  intros Hi Hb Hm Hk. pose proof Hi as [Ht Hq Hc Hto Hid _ _ _].
  destruct (current_place _ _ _ _ _ _ Hi Hb Hm ltac:(done)) as (k0 & p & ? & Hp & Hok & Hpc & Hph & ->).
  simplify_eq. unfold sched_queue_select.
  assert (select_from (seq 0 (Z.to_nat SCHED_MAX_LEVEL)) s = Ok (after_select s)) as Hsel
    by (apply select_from_run, Hq).
  unfold after_select in Hsel.
  destruct (highest (SCHED s)) as [[[i t] q]|] eqn:Hh.
  - destruct (highest_lookup _ _ _ _ Hh) as [Hqi _].
    destruct (queues_ok_pop _ _ t i q (PNext c) Hq Hqi ltac:(done)) as [Hqs Hpt].
    destruct (proj1 (t_dom _ _ Ht t)) as [kt Hkt]; [by eauto|].
    pose proof (t_place _ _ Ht _ _ _ Hkt Hpt) as (? & ? & Hty & _).
    mstep. mrun ltac:(exact Hsel). mstep.
    mrun ltac:(by apply upd_tcb_run; destruct (_ <=? _)). rewrite run_ret.
    rewrite (commit_run _ c b t) by (by destruct (_ <=? _)).
    eexists _, _, t. split; [reflexivity|]. split; [|split; [by destruct (_ <=? _)|done]].
    assert (t ≠ current_thread b) as Hne by (intros ->; congruence).
    assert (∀ d, t = Idle d → d = c) as Hd.
    { intros d Hd. assert (tcb_type kt = IDLE_THREAD) by (eapply t_idle; eauto). congruence. }
    pose proof (λ n, inv_commit_other s ms pl c b k t kt (PQueued i) _ n Hi Hb Hm Hk Hne Hkt Hpt
      eq_refl ltac:(done) ltac:(done) Hd Hqs) as H'.
    destruct (_ <=? _); apply H'.
  - mstep. mrun ltac:(exact Hsel). mstep. mrun ltac:(by apply get_tcb_run). mstep.
    destruct (decide (tcb_state k = READY)) as [Hr|Hr].
    + mrun ltac:(by apply upd_tcb_run). rewrite run_ret.
      rewrite (commit_run _ c b (current_thread b)) by done.
      eexists _, _, _. split; [reflexivity|]. split; [|done].
      by eapply (inv_commit_same s ms pl c b k).
    + destruct (decide (current_thread b = Idle c)) as [Heq|Hne].
      { assert (tcb_type k = IDLE_THREAD) by (eapply t_idle; eauto).
        simpl in Hok. unfold stopping in Hok. intuition congruence. }
      destruct (idle_parked s ms pl c b Hi Hb Hm Hne) as (ki & Hki & Hpi & ? & ?).
      mrun ltac:(by apply upd_tcb_run). rewrite run_ret.
      rewrite (commit_run _ c b (Idle c)) by done.
      eexists _, _, _. split; [reflexivity|]. split; [|done].
      pose proof (inv_commit_other s ms pl c b k (Idle c) ki PParked (SCHED s)
        (i32 (scheduled s + 1)) Hi Hb Hm Hk) as H'.
      destruct s. apply H'; try done; [congruence|].
      apply queues_ok_keep; [done| |done]. intros. by simplify_eq.
Qed.

(** ** The operations from a state with the invariant *)
Lemma adjust_priority_range cause p :
  0 ≤ p < SCHED_MAX_LEVEL → 0 ≤ adjust_priority cause p < SCHED_MAX_LEVEL.
Proof.
  unfold adjust_priority, SCHED_MAX_LEVEL. intros ?.
  destruct cause; simpl; repeat case_match; lia.
Qed.

Lemma yield_update_ok s ms pl c b m k cause rem :
  inv s ms pl → cctx s !! c = Some b → ms !! c = Some m → m ≠ Switching →
  tcbs s !! current_thread b = Some k →
  stopping (yield_update cause rem k) ∧
  timeouts_ok (<[current_thread b := yield_update cause rem k]> (tcbs s)) (TIMEOUT_LIST s).
Proof.
  intros Hi Hb Hm Hne Hk.
  destruct (current_place _ _ _ _ _ _ Hi Hb Hm Hne) as (k0 & p & ? & Hp & Hok & _ & Hph & Hpm).
  simplify_eq. pose proof (i_timeouts _ _ _ Hi) as Hto. split.
  - unfold yield_update, stopping. destruct m; simpl in Hok; try done;
      destruct (decide (tcb_state k = RUNNING)); simpl; try by left.
    + by destruct Hok.
    + apply Hok.
  - eapply timeouts_ok_keep; [done|done| |].
    + unfold yield_update. by case_decide.
    + intros Hw. pose proof (to_stopped _ _ Hto _ _ Hk Hw) as Hst.
      unfold yield_update. rewrite decide_False by congruence. done.
Qed.

Lemma preempt_inv s ms pl c b pre :
  inv s ms pl → cctx s !! c = Some b →
  ∃ s', set_core_preemption c pre s = Ok (preemption b, s') ∧ inv s' ms pl ∧
    cctx s' = <[c := preempted pre b]> (cctx s) ∧ tcbs s' = tcbs s ∧
    TIMEOUT_LIST s' = TIMEOUT_LIST s ∧ system_clock (vm s') = system_clock (vm s).
Proof.
  intros Hi Hb. destruct (set_preemption_run s c b pre (i_vm _ _ _ Hi) Hb) as (v & Hr & Hv & Hc).
  eexists. split; [exact Hr|]. split; [|done].
  apply inv_vm; [|done]. by apply (inv_cctx s ms pl c b).
Qed.

(** The part of [yield] that marks the current thread. *)
Lemma yield_mark_run s ms pl c b m cause rem :
  inv s ms pl → cctx s !! c = Some b → ms !! c = Some m → m ≠ Switching →
  ∃ k s' pl', tcbs s !! current_thread b = Some k ∧
    upd_tcb (current_thread b) (yield_update cause rem) s = Ok (tt, s') ∧
    inv s' (<[c := Yielding]> ms) pl' ∧ cctx s' = cctx s ∧
    tcbs s' = <[current_thread b := yield_update cause rem k]> (tcbs s).
Proof.
  intros Hi Hb Hm Hne.
  destruct (current_place _ _ _ _ _ _ Hi Hb Hm Hne) as (k & p & Hk & _ & _ & _ & Hph & _).
  destruct (yield_update_ok s ms pl c b m k cause rem Hi Hb Hm Hne Hk) as [Hst Hto].
  exists k. eexists. eexists. split; [done|]. split; [by apply upd_tcb_run|].
  split; [|done]. pose proof (inv_leave s ms pl c b m k _ (TIMEOUT_LIST s) Hi Hb Hm Hne Hk Hst) as H.
  destruct s. apply H; [by unfold yield_update; case_decide..| |done].
  unfold yield_update. apply adjust_priority_range.
  case_decide; simpl; by eapply (t_priority _ _ (i_threads _ _ _ Hi)).
Qed.

Lemma yield_run s ms pl c b m cause old :
  inv s ms pl → cctx s !! c = Some b → ms !! c = Some m → m ≠ Switching →
  ∃ s' pl', yield c cause old s = Ok (tt, s') ∧ inv s' (<[c := Switching]> ms) pl'.
Proof.
  intros Hi Hb Hm Hne. unfold yield.
  destruct (set_timer_run _ s c b 0 old (i_vm _ _ _ Hi) Hb) as (r & v1 & Hr1 & Hv1 & _).
  mrun ltac:(exact Hr1). apply (inv_vm _ _ _ v1) in Hi; [|done].
  destruct (preempt_inv _ _ _ c b false Hi Hb) as (s2 & Hr2 & Hi2 & Hc2 & _).
  mrun ltac:(exact Hr2).
  assert (cctx s2 !! c = Some (preempted false b)) as Hb2 by (rewrite Hc2; apply lookup_insert_eq).
  unfold CURTHREAD. mstep. mrun ltac:(by apply get_ccb_run). mstep.
  destruct (yield_mark_run s2 ms pl c _ m cause (snd r) Hi2 Hb2 Hm Hne)
    as (k & s3 & pl3 & Hk & Hr3 & Hi3 & Hc3 & Htm3).
  mrun ltac:(exact Hr3).
  unfold sched_wakeup_expired_timeouts. mstep. mrun ltac:(apply clock_run). mstep.
  destruct (wakeup_expired_run _ (u64 (system_clock (vm s3) * 1000))
    (S (length (TIMEOUT_LIST s3))) s3 _ Hi3 ltac:(lia))
    as (s4 & pl4 & Hr4 & Hi4 & Hfr & Htm & Hcores & _).
  mrun ltac:(exact Hr4).
  assert (cctx s4 !! c = Some (preempted false b)) as Hb4
    by (by rewrite (fr_cctx _ _ Hfr), Hc3).
  assert (∃ k4, tcbs s4 !! current_thread (preempted false b) = Some k4) as [k4 Hk4].
  { rewrite Htm, lookup_fmap, Htm3, lookup_insert_eq. simpl. eauto. }
  destruct (switch_run s4 _ pl4 c _ k4 Hi4 Hb4 (lookup_insert_eq _ _ _) Hk4)
    as (s' & pl' & next & Hr5 & Hi5 & _).
  exists s', pl'. rewrite insert_insert_eq in Hi5. split; [exact Hr5|done].
Qed.

(** [sleep_releasing] is called by a thread, not by the idle loop, and the time
    at which it is to wake up is not the number that stands for none. *)
Definition sleep_guard (s : sched) (c : nat) (state : Thread_state) (timeout : Z) : Prop :=
  (state = STOPPED ∨ state = EXITED) ∧
  (∃ b, cctx s !! c = Some b ∧ is_thr (current_thread b)) ∧
  (timeout = NO_TIMEOUT ∨ u64 (u64 (system_clock (vm s) * 1000) + timeout) ≠ NO_TIMEOUT).

Lemma sleep_run s ms pl c state timeout :
  inv s ms pl → ms !! c = Some Running → sleep_guard s c state timeout →
  ∃ s' pl', sleep_mark c state timeout s = Ok (tt, s') ∧ inv s' (<[c := Yielding]> ms) pl'.
Proof.
  intros Hi Hm (Hst & (b & Hb & Hthr) & Htime). unfold sleep_mark.
  rewrite run_assert by (by apply bool_decide_true).
  unfold CURTHREAD. mstep. mrun ltac:(by apply get_ccb_run). mstep.
  destruct (preempt_inv _ _ _ c b false Hi Hb) as (s2 & Hr2 & Hi2 & Hc2 & _ & _ & Hclk).
  mrun ltac:(exact Hr2).
  assert (cctx s2 !! c = Some (preempted false b)) as Hb2 by (rewrite Hc2; apply lookup_insert_eq).
  destruct (current_place _ _ _ _ _ _ Hi2 Hb2 Hm ltac:(done)) as (k & p & Hk & Hp & Hok & _ & Hph & ->).
  simpl in Hk, Hok. mrun ltac:(by apply upd_tcb_run).
  pose proof Hi2 as [Ht2 _ _ Hto2 _ _ _ _].
  assert (wakeup_time k = NO_TIMEOUT) as Hw.
  { destruct (decide (wakeup_time k = NO_TIMEOUT)) as [|Hw]; [done|].
    pose proof (to_stopped _ _ Hto2 _ _ Hk Hw) as Hs. destruct Hok; congruence. }
  assert (tcb_type k = NORMAL_THREAD) as Hty.
  { destruct (tcb_type k) eqn:Hty; [|done]. apply (t_idle _ _ Ht2 _ _ Hk) in Hty as [d Hd].
    by rewrite Hd in Hthr. }
  pose proof (λ k' tl, inv_leave s2 ms pl c _ Running k k' tl Hi2 Hb2 Hm ltac:(done) Hk) as H.
  simpl in H.
  assert (∀ w, stopping (set_wakeup_time w (set_state state k))) as Hstop
    by (intros w; right; simpl; intuition congruence).
  destruct (decide (state = EXITED ∨ timeout = NO_TIMEOUT)) as [Hno|Hto].
  - eexists. eexists. split.
    + destruct (decide (state = EXITED)) as [->|Hne]; [reflexivity|].
      rewrite bool_decide_false by done. unfold when, sched_register_timeout. simpl.
      destruct Hno as [| ->]; [done|]. rewrite decide_True by done. reflexivity.
    + specialize (H (set_state state k) (TIMEOUT_LIST s2)). destruct s2. apply H; try done.
      * apply (Hstop 0).
      * by eapply (t_priority _ _ Ht2 _ k).
      * eapply timeouts_ok_keep; [done..|]. intros ?; congruence.
  - apply Decidable.not_or in Hto as [Hne Hnt].
    rewrite bool_decide_false by done. unfold when, sched_register_timeout. simpl.
    rewrite decide_False by done. mrun ltac:(apply clock_run).
    mrun ltac:(apply upd_tcb_run; apply lookup_insert_eq). simpl. mstep.
    rewrite insert_insert_eq. eexists. eexists. split; [reflexivity|].
    destruct Htime as [|Htime]; [done|]. rewrite <-Hclk in Htime.
    eapply H; try done.
    + by eapply (t_priority _ _ Ht2 _ k).
    + apply (timeouts_ok_add _ _ _ k (set_wakeup_time _ (set_state state k)) Hto2 Hk Hw Htime).
      simpl. by destruct Hst.
Qed.

(** The end of [gain]: preemption and the quantum of the thread. *)
Lemma gain_end_run s ms pl c b preempt old :
  inv s ms pl → cctx s !! c = Some b → is_Some (tcbs s !! current_thread b) →
  ∃ s', (when preempt (set_core_preemption c true ;; mret tt) ;;
     k ← get_tcb (current_thread b);
     on_vm (bios_set_timer c (rts k) old) ;; mret tt) s = Ok (tt, s') ∧ inv s' ms pl.
Proof.
  intros Hi Hb Hk.
  assert (∃ s1 b1, when preempt (set_core_preemption c true ;; mret tt) s = Ok (tt, s1) ∧
    inv s1 ms pl ∧ cctx s1 !! c = Some b1 ∧ tcbs s1 = tcbs s) as (s1 & b1 & Hr1 & Hi1 & Hb1 & Htm).
  { destruct preempt; [|by exists s, b]. unfold when.
    destruct (preempt_inv _ _ _ c b true Hi Hb) as (s1 & Hr & Hi1 & Hc & Htm & _).
    exists s1, (preempted true b). mrun ltac:(exact Hr). rewrite Hc.
    split; [done|]. split; [done|]. by rewrite lookup_insert_eq. }
  mrun ltac:(exact Hr1). rewrite <-Htm in Hk. destruct Hk as [k Hk].
  mrun ltac:(by apply get_tcb_run).
  destruct (set_timer_run _ s1 c b1 (rts k) old (i_vm _ _ _ Hi1) Hb1) as (r & v & Hr & Hv & _).
  mrun ltac:(exact Hr). eexists. split; [reflexivity|]. by apply inv_vm.
Qed.

(** What [gain] does with the thread that left the core. *)
Definition gain_prev (prev : tid) : SM unit :=
  upd_tcb prev (set_phase CTX_CLEAN) ;;
  k ← get_tcb prev;
  match tcb_state k with
  | READY => when (negb (bool_decide (tcb_type k = IDLE_THREAD))) (sched_queue_add prev)
  | EXITED => release_TCB prev
  | STOPPED => mret tt
  | _ => raise AssertFailed
  end.

Lemma gain_prev_run s ms pl c b k prev :
  inv s ms pl → cctx s !! c = Some b → ms !! c = Some Switching →
  tcbs s !! current_thread b = Some k → previous_thread b = Some prev →
  prev ≠ current_thread b →
  ∃ s' pl', gain_prev prev (set_tcbs (<[current_thread b := gained k]> (tcbs s)) s)
      = Ok (tt, s') ∧
    inv s' (<[c := Running]> ms) pl' ∧ cctx s' = cctx s ∧
    is_Some (tcbs s' !! current_thread b).
Proof.
  intros Hi Hb Hm Hk Hprev Hne.
  pose proof (c_core _ _ _ (i_cores _ _ _ Hi) c b _ Hb Hm) as (q & Hq & Hcore).
  simplify_eq. rewrite decide_False in Hcore by done. destruct Hcore as [_ Hpp].
  destruct (proj1 (t_dom _ _ (i_threads _ _ _ Hi) prev)) as [kp Hkp]; [by eauto|].
  destruct (gain_prev_place s ms pl c b Hi Hb Hm k kp prev Hk Hkp Hprev Hne) as (_ & Hst & Hph).
  destruct (gain_threads s ms pl c b Hi Hb Hm k Hk) as (Ht & Hqs & Hto).
  pose proof (inv_gain_other s ms pl c b Hi Hb Hm k kp prev Hk Hkp Hprev Hne) as Hgo.
  pose proof (i_vm _ _ _ Hi) as Hv.
  assert (∀ p, <[current_thread b := PRun c]> pl !! prev = Some p → not_queued p) as Hnq.
  { rewrite lookup_insert_ne by done. intros p Hp. by simplify_eq. }
  unfold gain_prev. mrun ltac:(apply upd_tcb_run; by simpl; rewrite lookup_insert_ne).
  mrun ltac:(apply get_tcb_run; apply lookup_insert_eq). simpl.
  assert (is_Some (<[prev:=set_phase CTX_CLEAN kp]>
    (<[current_thread b:=gained k]> (tcbs s)) !! current_thread b)) as Hsome
    by (rewrite lookup_insert_ne, lookup_insert_eq by done; eauto).
  destruct (tcb_state kp) eqn:Hstate; try (unfold stopping in Hst; intuition congruence).
  - destruct (decide (tcb_type kp = IDLE_THREAD)) as [Hty|Hty].
    + rewrite bool_decide_true by done. eexists _, _. split; [reflexivity|].
      split; [|done]. specialize (Hgo PParked (SCHED s) (vm s)). destruct s. apply Hgo; try done.
      by apply queues_ok_keep.
    + rewrite bool_decide_false by done. unfold when. simpl.
      pose proof (t_priority _ _ (i_threads _ _ _ Hi) _ _ Hkp) as [Hp0 Hp3].
      unfold SCHED_MAX_LEVEL in Hp3.
      destruct (lookup_lt_is_Some_2 (SCHED s) (Z.to_nat (priority kp))) as [l Hl].
      { rewrite (proj1 Hqs). lia. }
      edestruct (queue_add_run (set_tcbs (<[prev := set_phase CTX_CLEAN kp]>
        (<[current_thread b := gained k]> (tcbs s))) s) prev) as (v & Hr & Hv' & _);
        [apply lookup_insert_eq|done|done|done|].
      eexists _, _. split; [exact Hr|]. split; [|done].
      apply (Hgo (PQueued (Z.to_nat (priority kp)))); try done.
      * simpl. rewrite Z2Nat.id by done. destruct (tcb_type kp); done.
      * by apply queues_ok_push.
  - eexists _, _. split; [reflexivity|]. split; [|done].
    specialize (Hgo PBlocked (SCHED s) (vm s)).
    destruct s. apply Hgo; try done; [|by apply queues_ok_keep].
    simpl. unfold stopping in Hst. intuition congruence.
  - unfold release_TCB. mrun ltac:(apply get_tcb_run; apply lookup_insert_eq).
    eexists _, _. split; [reflexivity|]. split; [|split; [done|]].
    + by apply (inv_gain_exited s ms pl c b Hi Hb Hm k kp prev).
    + simpl. rewrite lookup_delete_ne by done. done.
Qed.

Lemma gain_run s ms pl c b preempt old :
  inv s ms pl → cctx s !! c = Some b → ms !! c = Some Switching →
  ∃ s' pl', gain c preempt old s = Ok (tt, s') ∧ inv s' (<[c := Running]> ms) pl'.
Proof.
  intros Hi Hb Hm. unfold gain. mrun ltac:(by apply get_ccb_run).
  pose proof (c_core _ _ _ (i_cores _ _ _ Hi) c b _ Hb Hm) as (q & Hq & Hcore).
  assert (is_Some (pl !! current_thread b)) as [k Hk]%(t_dom _ _ (i_threads _ _ _ Hi)).
  { case_decide; subst; [|destruct Hcore]; eauto. }
  mrun ltac:(by apply upd_tcb_run). rewrite Hq.
  rewrite (run_some _ _ q) by done.
  destruct (decide (q = current_thread b)) as [->|Hne].
  - rewrite run_when_false by (by rewrite bool_decide_true).
    pose proof (inv_gain_same s ms pl c b Hi Hb Hm k Hk Hq) as Hi1.
    destruct (gain_end_run _ _ _ c b preempt old Hi1 Hb) as (s' & Hr & Hi').
    { simpl. rewrite lookup_insert_eq. eauto. }
    by exists s', (<[current_thread b := PRun c]> pl).
  - rewrite run_when_true by (by rewrite bool_decide_false).
    destruct (gain_prev_run s ms pl c b k q Hi Hb Hm Hk Hq Hne)
      as (s1 & pl1 & Hr1 & Hi1 & Hc1 & Hk1).
    mrun ltac:(exact Hr1).
    destruct (gain_end_run _ _ _ c b preempt old Hi1) as (s' & Hr & Hi'); [by rewrite Hc1|done|].
    by exists s', pl1.
Qed.

(** A new thread has the place [PNew]. *)
Lemma live_insert tm t k :
  is_thr t → tm !! t = None → size (live_threads (<[t := k]> tm)) = S (size (live_threads tm)).
Proof.
  intros Ht Hn. rewrite (live_delete _ t); [|done|rewrite lookup_insert_eq; eauto].
  by rewrite delete_insert_id.
Qed.

Lemma spawn_run s ms pl pcb func :
  inv s ms pl →
  ∃ s', spawn_thread pcb func s = Ok (Thr (next_tcb s), s') ∧
    inv s' ms (<[Thr (next_tcb s) := PNew]> pl) ∧
    tcbs s' = <[Thr (next_tcb s) := new_TCB pcb func]> (tcbs s).
Proof.
  intros [Ht Hq Hc Hto Hid Hac Hf Hv].
  eexists. split; [unfold spawn_thread; mstep; cbv zeta; mstep; reflexivity|]. split; [|done].
  assert (tcbs s !! Thr (next_tcb s) = None) as Hnone by (by apply Hf).
  assert (pl !! Thr (next_tcb s) = None) as Hnp.
  { apply eq_None_not_Some. rewrite (t_dom _ _ Ht), Hnone. by intros []. }
  split; simpl; try done.
  - apply threads_ok_insert; try done. split; [done|]. by intros [].
  - apply queues_ok_keep; [done| |done]. intros p Hp. congruence.
  - apply cores_ok_free; [done| |done]. intros p Hp. congruence.
  - by apply timeouts_ok_new.
  - intros c Hcc. rewrite lookup_insert_ne by done. by apply Hid.
  - apply u32_succ in Hac. rewrite Hac. by rewrite live_insert.
  - intros n Hn. rewrite lookup_insert_ne; [apply Hf; lia|]. intros [= ?]. lia.
Qed.

Lemma wakeup_run s ms pl t k :
  inv s ms pl → tcbs s !! t = Some k →
  ∃ s' pl', wakeup t s = Ok (bool_decide (tcb_state k = STOPPED ∨ tcb_state k = INIT), s') ∧
    inv s' ms pl'.
Proof.
  intros Hi Hk. unfold wakeup. mrun ltac:(by apply get_tcb_run).
  destruct (place_of _ _ _ _ (i_threads _ _ _ Hi) Hk) as (p & Hp & _). case_decide as Hst.
  - destruct (make_ready_inv s ms pl t k p Hi Hk Hp Hst) as (s' & Hr & Hi' & _).
    mrun ltac:(exact Hr). rewrite bool_decide_true by done. by eexists _, _.
  - rewrite bool_decide_false by done. by exists s, pl.
Qed.

(** A core that starts runs its idle thread. *)
Definition start_guard (s : sched) (c : nat) : Prop :=
  cctx s !! c = None ∧ tcbs s !! Idle c = None ∧ is_Some (CORE (vm s) !! c).

Lemma handler_run s c k i h :
  CORE (vm s) !! c = Some k → halted_ok (vm s) →
  ∃ v, on_vm (cpu_interrupt_handler c i h) s = Ok (tt, set_vm v s) ∧ halted_ok v ∧
    length (CORE v) = length (CORE (vm s)).
Proof.
  intros Hk Hh.
  destruct (upd_core_ok (vm s) c k (λ k, set_intvec (<[int_no i := h]> (intvec k)) k)
    Hh Hk eq_refl) as (v & Hr & Hh' & Hl & _).
  exists v. split; [by apply on_vm_run|done].
Qed.

Lemma idle_cores_ok cc ms pl c b :
  cores_ok cc ms pl → cc !! c = None → pl !! Idle c = None → current_thread b = Idle c →
  (∀ t p, pl !! t = Some p → place_core p ≠ Some c) →
  cores_ok (<[c := b]> cc) (<[c := Running]> ms) (<[Idle c := PRun c]> pl).
Proof.
  intros [Hm Hc Hn] Hcc Hp Hb Hno. split.
  - intros d. rewrite !lookup_insert. case_decide; [by split|done].
  - intros d b0 m0. rewrite !lookup_insert. case_decide; intros; simplify_eq; simpl.
    + rewrite Hb. apply lookup_insert_eq.
    + assert (core_ok pl d b0 m0) as Hd0 by (by apply Hc).
      eapply core_ok_ext; [|done]. intros u Hu.
      destruct (core_ok_names _ _ _ _ _ Hd0 Hu) as (p & Hpu & _).
      rewrite lookup_insert_ne; [done|]. intros <-. congruence.
  - intros t p d. rewrite !lookup_insert. repeat case_decide; intros; simplify_eq/=.
    + exists b, Running. do 2 (split; [done|]). by left.
    + by destruct (Hno t p H1).
    + eauto.
Qed.

Lemma start_run s ms pl c :
  inv s ms pl → start_guard s c →
  ∃ s' pl', run_scheduler_begin c s = Ok (tt, s') ∧ inv s' (<[c := Running]> ms) pl'.
Proof.
  intros [Ht Hq Hc Hto Hid Hac Hf [Hh Hv]] (Hcc & Hnone & k0 & Hk0).
  assert (pl !! Idle c = None) as Hnp.
  { apply eq_None_not_Some. rewrite (t_dom _ _ Ht), Hnone. by intros []. }
  set (b := MkCCB (Idle c) None false). set (cc := <[c := b]> (cctx s)).
  set (s1 := set_tcbs (<[Idle c := idle_TCB]> (tcbs s)) (set_cctx cc s)).
  assert (inv s1 (<[c := Running]> ms) (<[Idle c := PRun c]> pl)) as Hi1.
  { split; simpl; try done.
    - apply threads_ok_insert; try done; [by split; eauto|]. intros d d' [= ->] [= ->]. done.
    - apply queues_ok_keep; [done| |done]. intros p Hp. congruence.
    - apply idle_cores_ok; try done. intros t p Hp Hpc.
      destruct (c_named _ _ _ Hc t p c Hp Hpc) as (? & ? & ? & _). congruence.
    - by apply timeouts_ok_new.
    - intros d. unfold cc. rewrite lookup_insert_is_Some', lookup_insert_is_Some.
      intros [->|?]; [by left|]. destruct (decide (Idle c = Idle d)); [by left|]. eauto.
    - rewrite Hac. do 3 f_equal. unfold live_threads. rewrite dom_insert_L. set_solver.
    - intros n Hn. rewrite lookup_insert_ne by done. by apply Hf.
    - split; [done|]. intros d. unfold cc. rewrite lookup_insert_is_Some'.
      intros [<-|?]; [by eauto|eauto]. }
  unfold run_scheduler_begin. mstep.
  destruct (handler_run s1 c k0 ALARM (Some yield_handler) Hk0 Hh) as (v2 & Hr2 & Hh2 & Hl2).
  mrun ltac:(exact Hr2).
  destruct (lookup_lt_is_Some_2 (CORE v2) c) as [k2 Hk2].
  { rewrite Hl2. by eapply lookup_lt_Some. }
  destruct (handler_run (set_vm v2 s1) c k2 ICI (Some ici_handler) Hk2 Hh2)
    as (v3 & Hr3 & Hh3 & Hl3).
  mrun ltac:(exact Hr3). apply (inv_vm _ _ _ v3) in Hi1.
  2: { eapply vm_ok_length; [apply (i_vm _ _ _ Hi1)|done|]. by rewrite Hl3. }
  destruct (preempt_inv _ _ _ c b true Hi1 (lookup_insert_eq _ _ _)) as (s4 & Hr4 & Hi4 & _).
  erewrite bind_run by exact Hr4. by exists s4, (<[Idle c := PRun c]> pl).
Qed.
