(* ===== verification/SchedProps.v ===== *)
(** * Theorems about the scheduler

    The step relation of the scheduler and what holds in all the states it
    reaches from boot, then the functional behaviour of selection, wakeup and
    timeouts.  The proofs apply the lemmas of [SchedInv.v] and [SchedSteps.v]. *)
From S2P Require Import Prelude Bios Sched SchedInv SchedSteps.
Local Open Scope Z_scope.

(** ** The transition system *)
Inductive op :=
  | OpSpawn (pcb : Pid_t) (func : thread_entry)
  | OpWakeup (t : tid)
  | OpSleep (c : nat) (state : Thread_state) (timeout : Z)
  | OpYield (c : nat) (cause : SCHED_CAUSE) (old : timespec)
  | OpGain (c : nat) (preempt : bool) (old : timespec)
  | OpStart (c : nat)
  | OpMachine (v : machine).

Definition exec (o : op) : SM unit :=
  match o with
  | OpSpawn pcb func => spawn_thread pcb func ;; mret tt
  | OpWakeup t => wakeup t ;; mret tt
  | OpSleep c state timeout => sleep_mark c state timeout
  | OpYield c cause old => yield c cause old
  | OpGain c preempt old => gain c preempt old
  | OpStart c => run_scheduler_begin c
  | OpMachine v => modify (set_vm v)
  end.

(** When the code can be at an operation.  The machine may change by itself in
    any way that keeps its list of halted cores exact and its number of cores. *)
Definition guard (o : op) (x : config) : Prop :=
  match o with
  | OpSpawn _ _ => True
  | OpWakeup t => is_Some (tcbs (st x) !! t)
  | OpSleep c state timeout => md x !! c = Some Running ∧ sleep_guard (st x) c state timeout
  | OpYield c _ _ => md x !! c = Some Running ∨ md x !! c = Some Yielding
  | OpGain c _ _ => md x !! c = Some Switching
  | OpStart c => start_guard (st x) c
  | OpMachine v => halted_ok v ∧ length (CORE v) = length (CORE (vm (st x)))
  end.

Definition next_modes (o : op) (ms : gmap nat mode) : gmap nat mode :=
  match o with
  | OpSleep c _ _ => <[c := Yielding]> ms
  | OpYield c _ _ => <[c := Switching]> ms
  | OpGain c _ _ | OpStart c => <[c := Running]> ms
  | _ => ms
  end.

Inductive step (x : config) : config → Prop :=
  | step_op o s' : guard o x → exec o (st x) = Ok (tt, s') →
      step x (Config s' (next_modes o (md x))).

Definition boot (v : machine) : config :=
  Config (MkSched ∅ [[]; []; []] [] ∅ 0 0 0 v) ∅.

Lemma boot_ok v : halted_ok v → sched_ok (boot v).
Proof.
  intros Hv. exists ∅. split; simpl; try done.
  - split; try (intros *; by rewrite lookup_empty). intros t. by rewrite !lookup_empty.
  - split; [done|]. intros i q Hi. assert (q = []) as ->.
    { apply list_elem_of_lookup_2 in Hi. set_solver. }
    split; [constructor|]. intros t. rewrite lookup_empty. set_solver.
  - split; intros *; rewrite !lookup_empty; done.
  - split; [|constructor|constructor|]; intros *; [|by rewrite lookup_empty].
    split; [set_solver|]. intros (? & H & _). by rewrite lookup_empty in H.
  - intros c. rewrite lookup_empty. by intros [].
  - split; [done|]. intros c. rewrite lookup_empty. by intros [].
Qed.

Lemma mode_block s ms pl c m :
  inv s ms pl → ms !! c = Some m → ∃ b, cctx s !! c = Some b.
Proof. intros Hi Hm. apply (c_modes _ _ _ (i_cores _ _ _ Hi)). eauto. Qed.

(** Every operation the code can be at succeeds and keeps the invariant. *)
Lemma exec_ok x o :
  sched_ok x → guard o x →
  ∃ s', exec o (st x) = Ok (tt, s') ∧ sched_ok (Config s' (next_modes o (md x))).
Proof.
  intros [pl Hi] Hg. destruct o; simpl in Hg |- *.
  - destruct (spawn_run _ _ _ pcb func Hi) as (s' & Hr & Hi' & _).
    mrun ltac:(exact Hr). eexists. split; [reflexivity|]. by eexists.
  - destruct Hg as [k Hk]. destruct (wakeup_run _ _ _ t k Hi Hk) as (s' & pl' & Hr & Hi').
    mrun ltac:(exact Hr). eexists. split; [reflexivity|]. by eexists.
  - destruct Hg as [Hm Hg].
    destruct (sleep_run _ _ _ c state timeout Hi Hm Hg) as (s' & pl' & Hr & Hi').
    exists s'. split; [done|]. by exists pl'.
  - assert (∃ m, md x !! c = Some m ∧ m ≠ Switching) as (m & Hm & Hne)
      by (destruct Hg; eauto).
    destruct (mode_block _ _ _ _ _ Hi Hm) as [b Hb].
    destruct (yield_run _ _ _ c b m cause old Hi Hb Hm Hne) as (s' & pl' & Hr & Hi').
    exists s'. split; [done|]. by exists pl'.
  - destruct (mode_block _ _ _ _ _ Hi Hg) as [b Hb].
    destruct (gain_run _ _ _ c b preempt old Hi Hb Hg) as (s' & pl' & Hr & Hi').
    exists s'. split; [done|]. by exists pl'.
  - destruct (start_run _ _ _ c Hi Hg) as (s' & pl' & Hr & Hi').
    exists s'. split; [done|]. by exists pl'.
  - destruct Hg as [Hh Hl]. eexists. split; [reflexivity|]. exists pl.
    apply inv_vm; [done|]. eapply vm_ok_length; [apply (i_vm _ _ _ Hi)|done|done].
Qed.

Lemma reach_ok v y : halted_ok v → reachable step (boot v) y → sched_ok y.
Proof.
  intros Hv. apply reachable_invariant; [by apply boot_ok|].
  intros x z Hx [o s' Hg Hr]. destruct (exec_ok x o Hx Hg) as (s & Hr' & Hok).
  rewrite Hr in Hr'. by simplify_eq.
Qed.

(** A run from boot, for the witnesses: a thread is spawned, core 0 starts, the
    thread is woken up, and the idle thread yields to it. *)
Definition after (o : op) (x : config) : config :=
  match exec o (st x) with
  | Ok (_, s') => Config s' (next_modes o (md x))
  | Fault _ => x
  end.

Lemma step_after o x :
  guard o x → match exec o (st x) with Ok _ => True | Fault _ => False end → step x (after o x).
Proof.
  intros Hg Hr. unfold after. destruct (exec o (st x)) as [[[] s']|] eqn:He; [|done].
  by apply step_op.
Qed.

Ltac back := eapply reach_step; [|apply step_after; [|vm_compute; exact I]].

Definition demo_ops : list op :=
  [OpSpawn 1 start_main_thread_entry; OpStart 0; OpWakeup (Thr 0)].
Definition demo_config : config := foldl (λ x o, after o x) (boot demo_machine) demo_ops.
Definition demo_switch : config := after (OpYield 0 SCHED_IDLE (Timespec 0 0)) demo_config.

Lemma demo_reach : reachable step (boot demo_machine) demo_config.
Proof.
  unfold demo_config, demo_ops. simpl foldl. 
  eapply reach_step; [eapply reach_step; [eapply reach_step; [apply reach_refl|]|]|];
    apply step_after; try (vm_compute; exact I).
  - split; [vm_compute; reflexivity|]. split; [vm_compute; reflexivity|].
    vm_compute. eexists. reflexivity.
  - vm_compute. eexists. reflexivity.
Qed.

Lemma demo_switch_reach : reachable step (boot demo_machine) demo_switch.
Proof.
  eapply reach_step; [apply demo_reach|]. apply step_after; [|vm_compute; exact I].
  left. vm_compute. reflexivity.
Qed.

(** C3 (safety). The scheduler never faults.  In every state reached from boot by
    any interleaving of the operations of any number of cores, each operation the
    code can be at next runs to its end: none of the assertions of
    [sched_make_ready], [sleep_releasing] and [gain] fails, no freed TCB is
    accessed and no queue index is out of range.  And two cores never name the
    same thread: neither as the running one, nor as one they switch from or to. *)
Theorem scheduler_never_faults v y :
  halted_ok v → reachable step (boot v) y →
  (∀ o, guard o y → ∃ s', exec o (st y) = Ok (tt, s')) ∧
  (∀ c d b e m n t, cctx (st y) !! c = Some b → cctx (st y) !! d = Some e →
     md y !! c = Some m → md y !! d = Some n →
     core_names b m t → core_names e n t → c = d).
Proof.
  intros Hv Hr. pose proof (reach_ok v y Hv Hr) as Hok. split.
  - intros o Hg. destruct (exec_ok y o Hok Hg) as (s' & Hs & _). by exists s'.
  - intros c d b e m n t Hb He Hm Hn Hc Hd. destruct Hok as [pl Hi].
    pose proof (i_cores _ _ _ Hi) as [_ Hcore _].
    destruct (core_ok_names pl c b m t) as (p & Hp & Hpc); [by eauto|done|].
    destruct (core_ok_names pl d e n t) as (q & Hq & Hqd); [by eauto|done|]. congruence.
Qed.

Lemma scheduler_never_faults_witness :
  (∃ s', exec (OpGain 0 true (Timespec 0 0)) (st demo_switch) = Ok (tt, s')) ∧
  cctx (st demo_switch) !! 0%nat = Some (MkCCB (Thr 0) (Some (Idle 0)) false).
Proof.
  split; [|vm_compute; reflexivity].
  apply (scheduler_never_faults demo_machine demo_switch demo_halted_ok demo_switch_reach).
  vm_compute. reflexivity.
Defined.

(** C4 (invariant). The comment of kernel_sched.h says that a thread is in the
    scheduler queue iff its state is READY and its context is clean.  In every
    reachable state this holds, made precise: a thread is in some queue iff it is
    READY, its context is CLEAN, it is not an idle thread and no core has just
    selected it; then it is in the queue of its own priority and no other. *)
Theorem queued_iff_ready_and_clean v y t k :
  halted_ok v → reachable step (boot v) y → tcbs (st y) !! t = Some k →
  ((∃ i q, SCHED (st y) !! i = Some q ∧ t ∈ q) ↔
     tcb_state k = READY ∧ tcb_phase k = CTX_CLEAN ∧ tcb_type k = NORMAL_THREAD ∧
     ∀ c b, cctx (st y) !! c = Some b → md y !! c = Some Switching → current_thread b ≠ t) ∧
  (∀ i q, SCHED (st y) !! i = Some q → t ∈ q → i = Z.to_nat (priority k)).
Proof.
  intros Hv Hr Hk. destruct (reach_ok v y Hv Hr) as [pl Hi].
  pose proof Hi as [Ht [Hl Hq] Hc _ _ _ _ _].
  destruct (place_of _ _ _ _ Ht Hk) as (p & Hp & Hok).
  assert (∀ i q, SCHED (st y) !! i = Some q → t ∈ q → p = PQueued i) as Hin.
  { intros i q Hi' Htq. apply (Hq i q Hi') in Htq. congruence. }
  split; [split|].
  - intros (i & q & Hi' & Htq). rewrite (Hin i q Hi' Htq) in *. destruct Hok as (? & ? & ? & ?).
    do 3 (split; [done|]). intros c b Hb Hm <-.
    destruct (core_ok_names pl c b Switching (current_thread b)) as (p' & ? & Hpc);
      [by eapply c_core|by left|]. simplify_eq.
  - intros (Hs & Hph & Hty & Hno). destruct p; simpl in Hok; try (intuition congruence).
    + pose proof (t_priority _ _ Ht _ _ Hk) as [Hp0 Hp3]. unfold SCHED_MAX_LEVEL in Hp3.
      destruct (lookup_lt_is_Some_2 (SCHED (st y)) i) as [q Hqi]; [lia|].
      exists i, q. split; [done|]. by apply (Hq i q Hqi).
    + destruct (c_named _ _ _ Hc t _ c Hp eq_refl) as (b & m & Hb & Hm & Hn).
      pose proof (c_core _ _ _ Hc c b m Hb Hm) as Hcore. exfalso.
      destruct m; simpl in Hcore, Hn.
      1,2: by destruct Hn as [->|[]]; simplify_eq.
      destruct Hcore as (prev & Hprev & Hcore). case_decide; simplify_eq.
      * destruct Hn as [->|[_ Hn]]; simplify_eq.
      * destruct Hn as [->|[_ Hn]]; [by eapply Hno|]. destruct Hcore. simplify_eq.
  - intros i q Hi' Htq. rewrite (Hin i q Hi' Htq) in Hok. destruct Hok as (_ & _ & _ & Hpr).
    rewrite Hpr. lia.
Qed.

Lemma queued_iff_ready_and_clean_witness :
  (∃ i q, SCHED (st demo_config) !! i = Some q ∧ Thr 0 ∈ q) ∧
  ∀ i q, SCHED (st demo_config) !! i = Some q → Thr 0 ∈ q → i = 0%nat.
Proof.
  destruct (queued_iff_ready_and_clean demo_machine demo_config (Thr 0)
    (readied (new_TCB 1 start_main_thread_entry)) demo_halted_ok demo_reach) as [H1 H2].
  - vm_compute. reflexivity.
  - split; [|exact H2]. apply H1. do 3 (split; [reflexivity|]).
    intros c b Hb Hm. exfalso. revert Hm. destruct (decide (c = 0%nat)) as [->|Hne].
    + by vm_compute.
    + intros Hm. assert (md demo_config !! c = None) as Hn; [|congruence].
      change (md demo_config) with (<[0%nat := Running]> (∅ : gmap nat mode)).
      by rewrite lookup_insert_ne.
Defined.

(** C23 (functional). Selection is by strict priority: [sched_queue_select] takes
    the head of the first queue that is not empty, whatever the counter
    [scheduled] is; when all are empty it keeps the current thread if that is
    READY and takes the idle thread of the core otherwise.  The selected thread
    gets a full quantum.  (The branch for [scheduled > SCHED_MAX_SCHEDULED], whose
    comment says that the order of the queues is reversed, visits them in the
    same order: a ready thread of a high level always goes first.) *)
Theorem select_is_strict_priority s c current k :
  length (SCHED s) = 3%nat → tcbs s !! current = Some k →
  let next := match highest (SCHED s) with
              | Some (_, t, _) => t
              | None => if decide (tcb_state k = READY) then current else Idle c
              end in
  ∀ kn, tcbs s !! next = Some kn →
  (∀ n, ∃ s', sched_queue_select c current (set_scheduled n s) = Ok (next, s') ∧
     tcbs s' = <[next := set_its QUANTUM kn]> (tcbs s) ∧
     SCHED s' = match highest (SCHED s) with
                | Some (i, _, q) => <[i := q]> (SCHED s)
                | None => SCHED s
                end) ∧
  (∀ i j t q u, highest (SCHED s) = Some (i, t, q) →
     u ∈ default [] (SCHED s !! j) → (i ≤ j)%nat).
Proof.
  intros Hl Hk next kn Hkn. split.
  - intros n. unfold sched_queue_select.
    pose proof (select_from_run (set_scheduled n s) Hl) as Hsel. unfold after_select in Hsel.
    simpl in Hsel. subst next. destruct (highest (SCHED s)) as [[[i t] q]|].
    + mrun ltac:(exact Hsel). cbn iota. mstep.
      mrun ltac:(by apply upd_tcb_run; destruct (_ <=? _)).
      eexists. split; [reflexivity|]. by destruct (_ <=? _).
    + mrun ltac:(exact Hsel). cbn iota. mstep. mrun ltac:(by apply get_tcb_run). mstep.
      mrun ltac:(by apply upd_tcb_run). by eexists.
  - intros i j t q u Hh Hu. destruct (highest_lookup _ _ _ _ Hh) as [_ Hlt].
    destruct (decide (j < i)%nat) as [Hj|]; [|lia]. rewrite Hlt in Hu by done. set_solver.
Qed.

(** Thread 1 waits at level 0 and thread 2 at level 2. *)
Definition demo_two_levels : sched :=
  let k i := set_priority i (readied (new_TCB 1 start_main_thread_entry)) in
  MkSched (<[Thr 1 := k 0]> (<[Thr 2 := k 2]> (<[Thr 3 := k 1]> ∅)))
    [[Thr 1]; []; [Thr 2]] [] ∅ 3 0 4 demo_machine.

Lemma select_is_strict_priority_witness :
  ∃ s', sched_queue_select 0 (Thr 3) (set_scheduled 100 demo_two_levels) = Ok (Thr 1, s') ∧
    SCHED s' = [[]; []; [Thr 2]].
Proof.
  destruct (select_is_strict_priority demo_two_levels 0 (Thr 3)
    (set_priority 1 (readied (new_TCB 1 start_main_thread_entry))) eq_refl eq_refl
    (readied (new_TCB 1 start_main_thread_entry)) eq_refl) as [H _].
  destruct (H 100) as (s' & Hr & _ & Hq). exists s'. split; [exact Hr|exact Hq].
Defined.

(** [wakeup] in a reachable state: it returns true iff the thread
    is STOPPED or INIT; then the thread is READY, its timeout is cancelled, and if
    its context is saved it is the last of the queue of its priority; no other
    thread changes.  Otherwise it returns false and changes nothing. *)
Theorem wakeup_readies v y t k :
  halted_ok v → reachable step (boot v) y → tcbs (st y) !! t = Some k →
  if decide (tcb_state k = STOPPED ∨ tcb_state k = INIT)
  then ∃ s', wakeup t (st y) = Ok (true, s') ∧
    tcbs s' = <[t := set_state READY (set_wakeup_time NO_TIMEOUT k)]> (tcbs (st y)) ∧
    TIMEOUT_LIST s' = remove_node t (TIMEOUT_LIST (st y)) ∧
    (tcb_phase k = CTX_CLEAN → SCHED s' =
       <[Z.to_nat (priority k) :=
           default [] (SCHED (st y) !! Z.to_nat (priority k)) ++ [t]]> (SCHED (st y))) ∧
    (tcb_phase k = CTX_DIRTY → SCHED s' = SCHED (st y))
  else wakeup t (st y) = Ok (false, st y).
Proof.
  intros Hv Hr Hk. destruct (reach_ok v y Hv Hr) as [pl Hi]. unfold wakeup.
  rewrite (bind_run _ _ _ _ _ (get_tcb_run _ _ _ Hk)).
  destruct (decide _) as [Hst|Hst]; [|done].
  destruct (place_of _ _ _ _ (i_threads _ _ _ Hi) Hk) as (p & Hp & _).
  destruct (make_ready_inv _ _ _ t k p Hi Hk Hp Hst) as (s' & Hrun & _ & _ & Htm & Htl & Hq).
  mrun ltac:(exact Hrun). exists s'. do 3 (split; [done|]).
  rewrite Hq. split; intros Hph; [by rewrite decide_True|]. rewrite decide_False; congruence.
Qed.

Lemma wakeup_readies_witness :
  let y := after (OpSpawn 2 start_thread_entry) demo_config in
  ∃ s', wakeup (Thr 1) (st y) = Ok (true, s') ∧ SCHED s' = [[Thr 0; Thr 1]; []; []].
Proof.
  intros y. assert (reachable step (boot demo_machine) y) as Hy.
  { eapply reach_step; [apply demo_reach|]. apply step_after; [exact I|vm_compute; exact I]. }
  pose proof (wakeup_readies demo_machine y (Thr 1) (new_TCB 2 start_thread_entry)
    demo_halted_ok Hy ltac:(vm_compute; reflexivity)) as H.
  rewrite decide_True in H by (right; reflexivity). destruct H as (s' & Hr & _ & _ & Hq & _).
  exists s'. split; [exact Hr|]. rewrite Hq by reflexivity. vm_compute. reflexivity.
Defined.

(** C24 (functional). Timeouts.  In a reachable state, one call of
    [sched_wakeup_expired_timeouts] makes ready exactly the threads whose wakeup
    time has come, clears their timeouts, leaves every other TCB as it is, and
    ends with a list whose entries all lie in the future. *)
Theorem expired_timeouts_wake v y :
  halted_ok v → reachable step (boot v) y →
  let now := u64 (system_clock (vm (st y)) * 1000) in
  ∃ s', sched_wakeup_expired_timeouts (st y) = Ok (tt, s') ∧
    (∀ t, tcbs s' !! t =
       (λ k, if decide (wakeup_time k ≤ now ∧ wakeup_time k ≠ NO_TIMEOUT)
             then set_state READY (set_wakeup_time NO_TIMEOUT k) else k) <$> tcbs (st y) !! t) ∧
    (∀ t, t ∈ TIMEOUT_LIST s' ↔
       ∃ k, tcbs s' !! t = Some k ∧ wakeup_time k ≠ NO_TIMEOUT ∧ now < wakeup_time k).
Proof.
  intros Hv Hr now. destruct (reach_ok v y Hv Hr) as [pl Hi].
  unfold sched_wakeup_expired_timeouts. mrun ltac:(apply clock_run). mstep. fold now.
  destruct (wakeup_expired_run _ now (S (length (TIMEOUT_LIST (st y)))) _ _ Hi ltac:(lia))
    as (s' & pl' & Hrun & Hi' & _ & Htm & _ & Hlt).
  exists s'. split; [exact Hrun|]. split.
  - intros t. rewrite Htm, lookup_fmap. done.
  - intros t. rewrite (to_elem _ _ (i_timeouts _ _ _ Hi')). split.
    + intros (k & Hk & Hw). exists k. do 2 (split; [done|]).
      specialize (Hlt t). unfold wake in Hlt. rewrite Hk in Hlt. apply Hlt.
      apply (to_elem _ _ (i_timeouts _ _ _ Hi')). by exists k.
    + intros (k & Hk & Hw & _). by exists k.
Qed.

(** Thread 0 runs on core 0 and goes to sleep for 1000 microseconds at time
    5000; then the clock moves to 7000. *)
Definition demo_asleep : config :=
  foldl (λ x o, after o x) demo_switch
    [OpGain 0 true (Timespec 0 0); OpSleep 0 STOPPED 1000;
     OpYield 0 SCHED_USER (Timespec 0 0); OpGain 0 true (Timespec 0 0);
     OpMachine (set_system_clock 7 demo_machine)].

Lemma demo_asleep_reach : reachable step (boot demo_machine) demo_asleep.
Proof.
  unfold demo_asleep. simpl foldl.
  back; [back; [back; [back; [back; [apply demo_switch_reach|]|]|]|]|].
  - vm_compute. reflexivity.
  - split; [vm_compute; reflexivity|]. split; [by left|].
    split; [|right; vm_compute; discriminate].
    eexists. split; [vm_compute; reflexivity|exact I].
  - right. vm_compute. reflexivity.
  - vm_compute. reflexivity.
  - split; [|reflexivity]. apply demo_halted_ok.
Qed.

Lemma expired_timeouts_wake_witness :
  wakeup_time <$> (tcbs (st demo_asleep) !! Thr 0) = Some 6000 ∧
  ∃ s', sched_wakeup_expired_timeouts (st demo_asleep) = Ok (tt, s') ∧
    tcb_state <$> (tcbs s' !! Thr 0) = Some READY.
Proof.
  split; [vm_compute; reflexivity|].
  destruct (expired_timeouts_wake demo_machine demo_asleep demo_halted_ok demo_asleep_reach)
    as (s' & Hr & Ht & _).
  exists s'. split; [exact Hr|]. rewrite Ht. vm_compute. reflexivity.
Defined.

(** [initialize_scheduler] writes outside of the table: its loop runs
    to [i <= SCHED_MAX_LEVEL], and [SCHED] has [SCHED_MAX_LEVEL] queues, whatever
    they hold. *)
Theorem initialize_scheduler_overflows s :
  length (SCHED s) = Z.to_nat SCHED_MAX_LEVEL →
  initialize_scheduler s = Fault OutOfBounds.
Proof.
  destruct s as [tm qs tl cc ac n nx v]. simpl. intros Hl.
  destruct qs as [|q0 [|q1 [|q2 [|]]]]; try discriminate. reflexivity.
Qed.

Lemma initialize_scheduler_overflows_witness :
  initialize_scheduler demo_two_levels = Fault OutOfBounds.
Proof. apply (initialize_scheduler_overflows demo_two_levels). reflexivity. Defined.

(** The idle loop ends exactly when all threads are gone: in a
    reachable state with fewer than 2^32 threads, [active_threads > 0] holds iff
    some thread that [spawn_thread] created has not been freed. *)
Theorem idle_runs_while_threads_live v y :
  halted_ok v → reachable step (boot v) y →
  (Z.of_nat (size (live_threads (tcbs (st y)))) < 2 ^ 32) →
  idle_continues (st y) = true ↔ ∃ n k, tcbs (st y) !! Thr n = Some k.
Proof.
  intros Hv Hr Hsz. destruct (reach_ok v y Hv Hr) as [pl Hi].
  unfold idle_continues. rewrite (i_active _ _ _ Hi), u32_small by lia. rewrite Z.ltb_lt.
  split.
  - intros Hpos. assert (live_threads (tcbs (st y)) ≠ ∅) as [t Ht]%set_choose_L.
    { intros He. rewrite He, size_empty in Hpos. lia. }
    unfold live_threads in Ht. apply elem_of_filter in Ht as [Hthr [k Hk]%elem_of_dom].
    destruct t as [c|n]; [done|]. by exists n, k.
  - intros (n & k & Hk).
    rewrite (live_delete (tcbs (st y)) (Thr n)); [lia|exact I|eauto].
Qed.

Lemma idle_runs_while_threads_live_witness :
  idle_continues (st demo_config) = true.
Proof.
  apply (idle_runs_while_threads_live demo_machine demo_config demo_halted_ok demo_reach).
  - vm_compute. reflexivity.
  - exists 0%nat. eexists. vm_compute. reflexivity.
Defined.
