(* ===== verification/CondVar.v ===== *)
(** * Mutexes and condition variables (kernel_cc.c)

    [Mutex_Lock] as the loop it is, reading a lock byte that the other cores
    write; the ring of waiters of a condition variable as the pointer program of
    [remove_from_ring] over the heap of [RList.v]; and [cv_signal],
    [Cond_Signal] and [Cond_Broadcast] against the interface of a scheduler that
    [wakeup] gives, with the scheduler of [Sched.v] as an instance. *)
From S2P Require Import Prelude RList Bios Sched SchedInv SchedSteps SchedProps.
Local Open Scope Z_scope.

(** ** Mutexes *)

(** A mutex is a byte.  [seen i] is what the [i]-th access of the loop finds in
    it: [true] when some thread holds the lock.  The result is the number of
    accesses, the last of which took the lock, and the number of calls of
    [yield(SCHED_MUTEX)]. *)
Definition Mutex := bool.
Definition MUTEX_SPINS : nat := 1000.

(** Where the code of [Mutex_Lock] is: at the test-and-set, or at the read of the
    inner loop with its counter. *)
Inductive lock_pc := TestAndSet | Spin (spin : nat).

Fixpoint Mutex_Lock (fuel : nat) (preempt : bool) (seen : nat → bool)
    (pc : lock_pc) (i yields : nat) : option (nat * nat) :=
  match fuel with
  | O => None
  | S fuel =>
      match pc with
      | TestAndSet =>
          if seen i then Mutex_Lock fuel preempt seen (Spin MUTEX_SPINS) (S i) yields
          else Some (S i, yields)
      | Spin spin =>
          if seen i then
            match spin with
            | S spin => Mutex_Lock fuel preempt seen (Spin spin) (S i) yields
            | O => Mutex_Lock fuel preempt seen (Spin MUTEX_SPINS) (S i)
                     (if preempt then S yields else yields)
            end
          else Mutex_Lock fuel preempt seen TestAndSet (S i) yields
      end
  end.

Definition Mutex_Unlock (lock : Mutex) : Mutex := false.

(** ** The ring of waiters *)

(** [waitset] of a condition variable.  The node of a waiter is its first field
    and its [obj] is the waiter, so a waiter is named by its node. *)
Abbreviation waitset := (option loc).

(** The part of [cv_wait] that adds a waiter. *)
Definition waitset_add (ws : waitset) (waiter : loc) : HM waitset :=
  rlnode_init waiter (Z.pos waiter) ;;
  match ws with
  | Some wset => rlist_push_back wset waiter ;; mret (Some wset)
  | None => mret (Some waiter)
  end.

Definition remove_from_ring (ws : waitset) (w : loc) : HM waitset :=
  ws' ← (if decide (ws = Some w) then
           n ← get_next w;
           nextw ← get_key n;
           mret (if decide (nextw = Z.pos w) then None else Some (Z.to_pos nextw))
         else mret ws);
  rlist_remove w ;;
  mret ws'.

(** ** Signals

    What the condition variables need of a scheduler: in the states [ws_ok],
    [wakeup] of a thread that exists tells whether the thread was asleep, and
    changes nothing but that it is no longer. *)
Class WaitScheduler (S : Type) := {
  ws_ok : S → Prop;
  ws_known : S → tid → Prop;
  ws_asleep : S → tid → bool;
  ws_wakeup : tid → M S bool;
  ws_wakeup_law s t : ws_ok s → ws_known s t →
    ∃ s', ws_wakeup t s = Ok (ws_asleep s t, s') ∧ ws_ok s' ∧
      (∀ u, ws_known s' u ↔ ws_known s u) ∧
      (∀ u, ws_asleep s' u = if decide (u = t) then false else ws_asleep s u) }.

(** A waiter's flags; a waiter is named by its thread. *)
Record cv_waiter := CvWaiter { signalled : bool; removed : bool }.
Record condvar (S : Type) := CondVar {
  cv_ring : list tid;
  cv_waiters : gmap tid cv_waiter;
  cv_sched : S }.
Arguments CondVar {S}.
Arguments cv_ring {S}.
Arguments cv_waiters {S}.
Arguments cv_sched {S}.

Section signal.
Context {S : Type} `{WaitScheduler S}.

Definition set_ring (l : list tid) (x : condvar S) : condvar S :=
  CondVar l (cv_waiters x) (cv_sched x).
Definition set_waiter (t : tid) (f : cv_waiter → cv_waiter) (x : condvar S) : condvar S :=
  CondVar (cv_ring x) (alter f t (cv_waiters x)) (cv_sched x).
Definition on_sched {A} : M S A → M (condvar S) A :=
  zoom cv_sched (λ v x, CondVar (cv_ring x) (cv_waiters x) v).

(** The loop of [cv_signal]; each turn removes a waiter. *)
Fixpoint cv_signal_from (fuel : nat) : M (condvar S) unit :=
  match fuel with
  | O => mret tt
  | Datatypes.S fuel =>
      x ← get;
      match cv_ring x with
      | [] => mret tt
      | t :: _ =>
          modify (λ x, set_ring (remove_node t (cv_ring x)) x) ;;
          modify (set_waiter t (λ w, CvWaiter (signalled w) true)) ;;
          woken ← on_sched (ws_wakeup t);
          if woken : bool then modify (set_waiter t (λ w, CvWaiter true (removed w)))
          else cv_signal_from fuel
      end
  end.
Definition cv_signal : M (condvar S) unit :=
  x ← get; cv_signal_from (length (cv_ring x)).

(** [Cond_Signal] and [Cond_Broadcast] inside of [waitset_lock]. *)
Definition Cond_Signal : M (condvar S) unit := cv_signal.
Fixpoint broadcast_from (fuel : nat) : M (condvar S) unit :=
  match fuel with
  | O => mret tt
  | Datatypes.S fuel =>
      x ← get;
      match cv_ring x with
      | [] => mret tt
      | _ => cv_signal ;; broadcast_from fuel
      end
  end.
Definition Cond_Broadcast : M (condvar S) unit :=
  x ← get; broadcast_from (length (cv_ring x)).

(** The part of [cv_wait] before the sleep and after it. *)
Definition cv_wait_push (t : tid) : M (condvar S) unit :=
  modify (λ x, CondVar (cv_ring x ++ [t]) (<[t := CvWaiter false false]> (cv_waiters x))
    (cv_sched x)).
Definition cv_wait_tidy (t : tid) : M (condvar S) bool :=
  x ← get;
  w ← get_some UseAfterFree (cv_waiters x !! t);
  when (negb (removed w))
    (c_assert (negb (signalled w)) ;;
     modify (λ x, set_ring (remove_node t (cv_ring x)) x)) ;;
  mret (signalled w).
End signal.

(** ** Mutexes: the loop *)
Lemma spin_run preempt seen m : ∀ spin i y,
  (∀ j, (j < m)%nat → seen (i + j)%nat = true) →
  seen (i + m)%nat = false → seen (i + m + 1)%nat = false → (spin ≤ MUTEX_SPINS)%nat →
  Mutex_Lock (m + 2) preempt seen (Spin spin) i y
  = Some ((i + m + 2)%nat,
      (y + if preempt then (m + (MUTEX_SPINS - spin)) / S MUTEX_SPINS else 0)%nat).
Proof.
  unfold MUTEX_SPINS. induction m as [|m IH]; intros spin i y Hbusy Hfree Htas Hs.
  - rewrite Nat.add_0_r in Hfree. rewrite Nat.add_0_r in Htas.
    change (0 + 2)%nat with 2%nat. cbn [Mutex_Lock]. rewrite Hfree.
    replace (S i) with (i + 1)%nat by lia. rewrite Htas. f_equal. f_equal; [lia|].
    destruct preempt; [|lia]. rewrite Nat.div_small by lia. lia.
  - change (S m + 2)%nat with (S (m + 2)). cbn [Mutex_Lock]. rewrite <-(Nat.add_0_r i) at 1. rewrite Hbusy by lia. unfold MUTEX_SPINS.
    assert (∀ spin' y', (spin' ≤ 1000)%nat →
      Mutex_Lock (m + 2) preempt seen (Spin spin') (S i) y' = Some ((i + S m + 2)%nat,
        (y' + if preempt then (m + (1000 - spin')) / 1001 else 0)%nat)) as Hrec.
    { intros spin' y' ?. rewrite IH.
      - f_equal. f_equal. lia.
      - intros j Hj. replace (S i + j)%nat with (i + S j)%nat by lia. apply Hbusy. lia.
      - rewrite <-Hfree. f_equal. lia.
      - rewrite <-Htas. f_equal. lia.
      - done. }
    destruct spin as [|spin].
    + rewrite Hrec by lia. f_equal. f_equal. destruct preempt; [|lia].
      replace (S m + (1000 - 0))%nat with (m + 1 * 1001)%nat by lia.
      rewrite Nat.div_add by lia. replace (m + (1000 - 1000))%nat with m by lia. lia.
    + rewrite Hrec by lia. f_equal. f_equal. destruct preempt; [|lia].
      do 2 f_equal. lia.
Qed.

(** [Mutex_Lock] on a lock that is held for [n] accesses and then
    free: it returns, having taken the lock with its last access.  With preemption
    off it never yields (a spinlock); with preemption on it yields once for every
    [MUTEX_SPINS + 1] reads that found the lock held. *)
Theorem Mutex_Lock_spins_or_yields n preempt seen :
  (∀ i, (i < n)%nat → seen i = true) → seen n = false → seen (n + 1)%nat = false →
  ∀ fuel, (n + 2 ≤ fuel)%nat →
  Mutex_Lock fuel preempt seen TestAndSet 0 0
  = Some (if decide (n = 0)%nat then 1%nat else (n + 2)%nat,
          if preempt then ((n - 1) / (MUTEX_SPINS + 1))%nat else 0%nat).
Proof.
  intros Hbusy Hfree Htas fuel Hfuel.
  assert (∀ k f pc i y r, Mutex_Lock f preempt seen pc i y = Some r →
    Mutex_Lock (f + k) preempt seen pc i y = Some r) as Hmono.
  { intros k f. induction f as [|f IH]; intros pc i y r; [done|]. simpl.
    destruct pc as [|spin]; destruct (seen i); auto. destruct spin; auto. }
  replace fuel with (n + 2 + (fuel - (n + 2)))%nat by lia. apply Hmono.
  destruct n as [|n]; [simpl; rewrite Hfree; by destruct preempt|].
  change (S n + 2)%nat with (S (n + 2)). cbn [Mutex_Lock]. rewrite Hbusy by lia. rewrite (spin_run preempt seen n MUTEX_SPINS 1 0).
  - rewrite decide_False by lia. f_equal. f_equal. destruct preempt; [|done].
    rewrite Nat.add_1_r, Nat.add_0_l.
    by replace (n + (MUTEX_SPINS - MUTEX_SPINS))%nat with (S n - 1)%nat by lia.
  - intros j Hj. apply Hbusy. lia.
  - exact Hfree.
  - rewrite <-Htas. f_equal.
  - done.
Qed.

Lemma Mutex_Lock_spins_or_yields_witness :
  Mutex_Lock 2500 true (λ i, bool_decide (i < 2100)%nat) TestAndSet 0 0 = Some (2102, 2)%nat.
Proof.
  rewrite (Mutex_Lock_spins_or_yields 2100 true (λ i, bool_decide (i < 2100)%nat)).
  - reflexivity.
  - intros i Hi. by apply bool_decide_true.
  - apply bool_decide_false. lia.
  - apply bool_decide_false. lia.
  - lia.
Defined.

(** ** The ring of waiters is a queue *)
Definition ring_rep (h : heap) (ws : waitset) (l : list loc) : Prop :=
  match ws with
  | None => l = []
  | Some a => ∃ xs, l = a :: xs ∧ ring h a xs
  end ∧ ∀ w, w ∈ l → key_of h w = Some (Z.pos w).

Lemma ring_rep_nodup h ws l : ring_rep h ws l → NoDup l.
Proof.
  intros [Hr _]. destruct ws as [a|]; [|subst; constructor].
  destruct Hr as (xs & -> & [Hn _]). done.
Qed.

Lemma rlnode_init_run h p k :
  key_of h p = Some k → ∃ h', rlnode_init p (Z.pos p) h = Ok (p, h') ∧
    ring h' p [] ∧ key_of h' p = Some (Z.pos p) ∧ (∀ q, q ≠ p → h' !! q = h !! q).
Proof.
  unfold key_of. destruct (h !! p) as [[k0 pr nx]|] eqn:Hp; [|done]. intros _.
  unfold rlnode_init, rlnode_new, set_next, set_prev, load, store, load. unfold_monad.
  rewrite Hp. do 3 (rewrite ?Hp, ?lookup_insert_eq; simpl). eexists. split; [reflexivity|].
  split; [|split].
  - split; [apply NoDup_singleton|]. simpl. unfold edge, next_of, prev_of.
    by rewrite !lookup_insert_eq.
  - unfold key_of. by rewrite lookup_insert_eq.
  - intros q Hq. by rewrite !lookup_insert_ne.
Qed.

Lemma ring_outside h h' p a xs :
  (∀ q, q ≠ p → h' !! q = h !! q) → p ∉ a :: xs → ring h a xs → ring h' a xs.
Proof.
  intros Hq Hp [Hn Hc]. split; [done|].
  assert (∀ u v, u ∈ a :: xs → v ∈ a :: xs → edge h u v → edge h' u v) as Hedge.
  { intros u v Hu Hv. unfold edge, next_of, prev_of. rewrite !Hq; [done|..]; congruence. }
  revert Hc. assert (∀ l, l ⊆ a :: xs → chain h l → chain h' l) as Hl.
  { induction l as [|u [|v l] IH]; intros Hs; try done. intros [He Hc]. split.
    - apply Hedge; [apply Hs; left|apply Hs; right; left|done].
    - apply IH; [set_solver|done]. }
  apply Hl. set_solver.
Qed.

Lemma waitset_add_run h ws l w k :
  ring_rep h ws l → w ∉ l → key_of h w = Some k →
  ∃ ws' h', waitset_add ws w h = Ok (ws', h') ∧ ring_rep h' ws' (l ++ [w]).
Proof.
  intros [Hr Hk] Hw Hkw. unfold waitset_add.
  destruct (rlnode_init_run h w k Hkw) as (h1 & Hr1 & Hring & Hkey & Hother).
  mrun ltac:(exact Hr1).
  assert (∀ v, v ∈ l → key_of h1 v = Some (Z.pos v)) as Hk1.
  { intros v Hv. unfold key_of. rewrite Hother by congruence. by apply Hk. }
  destruct ws as [a|].
  - destruct Hr as (xs & -> & Hxs). apply (ring_outside h h1 w) in Hxs; [|done|done].
    destruct (rlist_push_back_spec h1 a xs w Hxs Hring Hw) as (h2 & Hr2 & Hx2 & [Hs2 _]).
    mrun ltac:(exact Hr2). eexists _, _. split; [reflexivity|]. split.
    + by exists (xs ++ [w]).
    + intros v. rewrite elem_of_app, list_elem_of_singleton, Hs2. intros [Hv| ->]; auto.
  - subst. eexists _, _. split; [reflexivity|]. split.
    + by exists [].
    + intros v Hv%list_elem_of_singleton. by subst.
Qed.

Lemma remove_ring_run h a xs w :
  ring h a xs → w ∈ xs → NoDup (a :: xs) →
  ∃ h', rlist_remove w h = Ok (w, h') ∧ ring h' a (remove_node w xs) ∧ ring h' w [] ∧
    same_keys h h'.
Proof.
  intros Hr Hw Hn. apply list_elem_of_split in Hw as (l1 & l2 & ->).
  destruct (rlist_remove_spec h a l1 w l2 Hr) as (h' & Hrun & Hr' & Hw' & [Hk _]).
  exists h'. split; [done|]. split; [|done].
  apply NoDup_cons in Hn as [_ Hn]. apply NoDup_app in Hn as (_ & Hd & Hn2).
  apply NoDup_cons in Hn2 as [Hw2 _].
  rewrite remove_node_app, remove_node_cons by done. rewrite remove_node_notin; [done|].
  intros Hw1. apply (Hd w Hw1). left.
Qed.

Lemma remove_from_ring_run h ws l w :
  ring_rep h ws l → w ∈ l →
  ∃ ws' h', remove_from_ring ws w h = Ok (ws', h') ∧ ring_rep h' ws' (remove_node w l) ∧
    ring h' w [] ∧ same_keys h h'.
Proof.
  intros Hrep Hw. pose proof (ring_rep_nodup _ _ _ Hrep) as Hn.
  destruct Hrep as [Hr Hk]. destruct ws as [a|]; [|by subst; apply not_elem_of_nil in Hw].
  destruct Hr as (xs & -> & Hr). unfold remove_from_ring.
  pose proof Hn as [Hax Hxs]%NoDup_cons.
  destruct (decide (Some a = Some w)) as [[= <-]|Hne].
  - pose proof (ring_next _ _ _ Hr) as Hnx. mstep. mrun ltac:(by apply get_next_run). mstep.
    rewrite remove_node_cons by done.
    destruct xs as [|b ys].
    + simpl. mrun ltac:(apply get_key_run, Hk; left). rewrite decide_True by done. mstep.
      destruct (rlist_remove_singleton h a Hr) as (h' & Hrun & Hs & Hall).
      mrun ltac:(exact Hrun). eexists _, _. split; [reflexivity|].
      split; [split; [done|set_solver]|]. split; [by apply Hall|done].
    + simpl. mrun ltac:(apply get_key_run, Hk; right; left).
      rewrite decide_False by (intros [= ->]; set_solver). mstep.
      apply (ring_rotate h a [] b ys) in Hr. simpl in Hr.
      destruct (rlist_remove_spec h b ys a [] Hr) as (h' & Hrun & Hr' & Ha' & [Hs _]).
      mrun ltac:(exact Hrun). eexists _, _. split; [reflexivity|].
      split; [|done]. split.
      * exists ys. rewrite app_nil_r in Hr'. done.
      * intros v Hv. rewrite Hs. apply Hk. by right.
  - mstep. assert (w ∈ xs) as Hwx by (apply elem_of_cons in Hw as [->|]; done).
    destruct (remove_ring_run h a xs w Hr Hwx Hn) as (h' & Hrun & Hr' & Hw' & Hs).
    mrun ltac:(exact Hrun). eexists _, _. split; [reflexivity|]. split; [|done]. split.
    + exists (remove_node w xs). split; [|done]. unfold remove_node.
      rewrite filter_cons_True by congruence. done.
    + intros v [_ Hv]%elem_of_remove_node. rewrite Hs. by apply Hk.
Qed.

(** C30 (refinement). The ring behind [cv->waitset] is a FIFO queue: adding a waiter
    as [cv_wait] does appends it, and [remove_from_ring] removes any waiter of the
    ring, wherever it is, leaves [cv->waitset] on a waiter of the ring or null when
    there is none, and unlinks the removed node.  No pointer outside of the ring is
    followed. *)
Theorem waitset_is_queue h ws l :
  ring_rep h ws l →
  (∀ w k, w ∉ l → key_of h w = Some k →
     ∃ ws' h', waitset_add ws w h = Ok (ws', h') ∧ ring_rep h' ws' (l ++ [w])) ∧
  (∀ w, w ∈ l →
     ∃ ws' h', remove_from_ring ws w h = Ok (ws', h') ∧ ring_rep h' ws' (remove_node w l) ∧
       (ws' = None ↔ remove_node w l = []) ∧ ring h' w []).
Proof.
  intros Hrep. split.
  - intros w k Hw Hk. by eapply waitset_add_run.
  - intros w Hw. destruct (remove_from_ring_run h ws l w Hrep Hw) as (ws' & h' & Hr & Hrep' & Hw' & _).
    exists ws', h'. do 2 (split; [done|]). split; [|done].
    destruct Hrep' as [Hr' _]. destruct ws'; [|by split].
    destruct Hr' as (xs & -> & _). by split.
Qed.

(** The waiters 2, 3 and 4, of which 2 is [cv->waitset]. *)
Definition demo_waiters : heap :=
  list_to_map [(2%positive, RLNode 2 4 3); (3%positive, RLNode 3 2 4);
               (4%positive, RLNode 4 3 2)].

Lemma demo_waiters_rep : ring_rep demo_waiters (Some 2%positive) [2; 3; 4]%positive.
Proof.
  split.
  - exists [3; 4]%positive. split; [done|]. solve_ring.
  - intros w Hw. set_unfold. destruct Hw as [->|[->|[->|[]]]]; reflexivity.
Qed.

Lemma waitset_is_queue_witness :
  ∃ ws' h', remove_from_ring (Some 2%positive) 2 demo_waiters = Ok (ws', h') ∧
    ring_rep h' ws' [3; 4]%positive.
Proof.
  destruct (proj2 (waitset_is_queue demo_waiters (Some 2%positive) [2; 3; 4]%positive
    demo_waiters_rep) 2%positive ltac:(left)) as (ws' & h' & Hr & Hrep & _).
  exists ws', h'. split; [exact Hr|exact Hrep].
Defined.

(** ** Signals: what they wake up *)
Section signal_lemmas.
Context {S : Type} `{WaitScheduler S}.
Implicit Types (x : condvar S) (t : tid).

(** The ring is a queue of existing threads, each with its waiter, and the
    scheduler is in one of its good states. *)
Record cv_ok x : Prop := CvOk {
  co_sched : ws_ok (cv_sched x);
  co_nodup : NoDup (cv_ring x);
  co_known : ∀ t, t ∈ cv_ring x → ws_known (cv_sched x) t;
  co_waiter : ∀ t, t ∈ cv_ring x → cv_waiters x !! t = Some (CvWaiter false false) }.

Definition asleep_in x t : bool := ws_asleep (cv_sched x) t.

(** The waiters after those of [l] were removed and the sleeping ones signalled. *)
Definition marked x (l : list tid) (t : tid) : option cv_waiter :=
  if decide (t ∈ l) then Some (CvWaiter (asleep_in x t) true) else cv_waiters x !! t.

(** [pre] was removed from the ring, [post] is left. *)
Record served x x' (pre post : list tid) : Prop := Served {
  sv_ok : cv_ok x';
  sv_ring : cv_ring x' = post;
  sv_waiters : ∀ t, cv_waiters x' !! t = marked x pre t;
  sv_asleep : ∀ t, asleep_in x' t = if decide (t ∈ pre) then false else asleep_in x t;
  sv_known : ∀ t, ws_known (cv_sched x') t ↔ ws_known (cv_sched x) t }.

Lemma on_sched_run {A} (m : M S A) x a v :
  m (cv_sched x) = Ok (a, v) →
  on_sched m x = Ok (a, CondVar (cv_ring x) (cv_waiters x) v).
Proof. intros Hr. unfold on_sched, zoom. by rewrite Hr. Qed.

(** One waiter is removed, and signalled if it was asleep. *)
Lemma serve_one x t l :
  cv_ok x → cv_ring x = t :: l →
  ∃ x', served x x' [t] l ∧ ∀ fuel,
    cv_signal_from (Datatypes.S fuel) x
    = (if asleep_in x t then mret tt else cv_signal_from fuel) x'.
Proof.
  intros [Hok Hn Hkn Hw] Hr. pose proof Hn as Hn'. rewrite Hr in Hn'.
  apply NoDup_cons in Hn' as [Htl Hl].
  assert (t ∈ cv_ring x) as Ht by (rewrite Hr; left).
  destruct (ws_wakeup_law _ t Hok (Hkn t Ht)) as (v & Hrun & Hok' & Hkn' & Has).
  set (b := ws_asleep (cv_sched x) t).
  exists (CondVar l (<[t := CvWaiter b true]> (cv_waiters x)) v).
  assert (∀ u, u ∈ l → u ≠ t) as Hne by (intros u Hu ->; done).
  split.
  - split; simpl; try done; [split; simpl; try done| |].
    + intros u Hu. apply Hkn', Hkn. rewrite Hr. by right.
    + intros u Hu. rewrite lookup_insert_ne by (symmetry; by apply Hne).
      apply Hw. rewrite Hr. by right.
    + intros u. unfold marked. rewrite lookup_insert.
      destruct (decide (t = u)) as [<-|Hu]; [by rewrite decide_True by left|].
      rewrite decide_False; [done|]. intros <-%list_elem_of_singleton. done.
    + intros u. unfold asleep_in. simpl. rewrite Has.
      destruct (decide (u = t)) as [->|Hu]; [by rewrite decide_True by left|].
      rewrite decide_False; [done|]. intros ->%list_elem_of_singleton. done.
  - intros fuel. simpl. mstep. rewrite Hr. mstep.
    mrun ltac:(by apply on_sched_run). simpl. rewrite Hr, remove_node_cons by done.
    assert (<[t := CvWaiter false true]> (cv_waiters x)
      = alter (λ w, CvWaiter (signalled w) true) t (cv_waiters x)) as <-.
    { symmetry. apply map_eq. intros u. rewrite lookup_insert. case_decide; subst.
      - rewrite lookup_alter_eq, (Hw u Ht). done.
      - by rewrite lookup_alter_ne. }
    unfold asleep_in. fold b. destruct b; [|done].
    unfold modify, set_waiter, mret, M_ret. simpl. do 3 f_equal.
    apply map_eq. intros u. rewrite lookup_insert. case_decide; subst.
    + by rewrite lookup_alter_eq, lookup_insert_eq.
    + by rewrite lookup_alter_ne, lookup_insert_ne.
Qed.

Lemma served_trans x x1 x2 l1 l2 m post :
  l1 ## l2 → served x x1 l1 m → served x1 x2 l2 post → served x x2 (l1 ++ l2) post.
Proof.
  intros Hd [Ho1 Hr1 Hw1 Ha1 Hk1] [Ho2 Hr2 Hw2 Ha2 Hk2]. split; try done.
  - intros t. rewrite Hw2. unfold marked. rewrite Ha1, Hw1. unfold marked.
    destruct (decide (t ∈ l2)) as [H2|H2].
    + rewrite decide_False by (intros H1; by apply (Hd t)).
      rewrite decide_True by set_solver. done.
    + destruct (decide (t ∈ l1)); [rewrite decide_True by set_solver|
        rewrite decide_False by set_solver]; done.
  - intros t. rewrite Ha2, Ha1. repeat case_decide; set_solver.
  - intros t. by rewrite Hk2, Hk1.
Qed.

Lemma served_nil x l : cv_ok x → cv_ring x = l → served x x [] l.
Proof. intros Hok Hr. by split. Qed.

(** The waiters [pre] that are awake are removed; then the first that sleeps is
    signalled, if there is one. *)
Lemma signal_run pre : ∀ x rest fuel,
  cv_ok x → cv_ring x = pre ++ rest → (length (cv_ring x) ≤ fuel)%nat →
  (∀ t, t ∈ pre → asleep_in x t = false) →
  match rest with
  | [] => ∃ x', cv_signal_from fuel x = Ok (tt, x') ∧ served x x' pre []
  | t :: post => asleep_in x t = true →
      ∃ x', cv_signal_from fuel x = Ok (tt, x') ∧ served x x' (pre ++ [t]) post
  end.
Proof.
  induction pre as [|u pre IH]; intros x rest fuel Hok Hr Hf Hpre.
  - simpl in Hr. destruct rest as [|t post].
    + exists x. split; [destruct fuel; simpl; mstep; by rewrite ?Hr|].
      by apply served_nil.
    + intros Ht. destruct fuel as [|fuel]; [rewrite Hr in Hf; simpl in Hf; lia|].
      destruct (serve_one x t post Hok Hr) as (x' & Hs & Hrun). exists x'.
      rewrite Hrun, Ht. done.
  - destruct fuel as [|fuel]; [rewrite Hr in Hf; simpl in Hf; lia|].
    destruct (serve_one x u (pre ++ rest) Hok Hr) as (x1 & Hs & Hrun).
    pose proof (co_nodup _ Hok) as Hn. rewrite Hr in Hn. simpl in Hn.
    apply NoDup_cons in Hn as [Hu Hn].
    assert (asleep_in x u = false) as Hau by (apply Hpre; left).
    specialize (IH x1 rest fuel (sv_ok _ _ _ _ Hs)).
    rewrite (sv_ring _ _ _ _ Hs) in IH. rewrite Hr in Hf. simpl in Hf.
    assert (∀ t, t ∈ u :: pre ++ rest → t ≠ u → asleep_in x1 t = asleep_in x t) as Hsame.
    { intros t _ Ht. rewrite (sv_asleep _ _ _ _ Hs). rewrite decide_False; [done|].
      by intros ->%list_elem_of_singleton. }
    specialize (IH eq_refl ltac:(lia)). destruct rest as [|t post].
    + destruct IH as (x' & Hrun' & Hs').
      { intros t Ht. rewrite Hsame; [apply Hpre; by right|set_solver|].
        intros ->. apply Hu. set_solver. }
      exists x'. rewrite Hrun, Hau. split; [done|].
      eapply (served_trans _ _ _ [u]); [|done|done]. set_solver.
    + intros Ht. destruct IH as (x' & Hrun' & Hs').
      { intros v Hv. rewrite Hsame; [apply Hpre; by right|set_solver|].
        intros ->. apply Hu. set_solver. }
      { rewrite Hsame; [done|set_solver|]. intros ->. apply Hu. set_solver. }
      exists x'. rewrite Hrun, Hau. split; [done|].
      eapply (served_trans _ _ _ [u]); [|done|done]. set_solver.
Qed.

(** The ring splits at its first sleeping waiter. *)
Lemma first_asleep x l :
  (∀ t, t ∈ l → asleep_in x t = false) ∨
  ∃ pre t post, l = pre ++ t :: post ∧ asleep_in x t = true ∧
    ∀ u, u ∈ pre → asleep_in x u = false.
Proof.
  induction l as [|u l IH]; [left; set_solver|].
  destruct (asleep_in x u) eqn:Hu.
  - right. exists [], u, l. split; [done|]. split; [done|set_solver].
  - destruct IH as [Hall|(pre & t & post & -> & Ht & Hpre)].
    + left. set_solver.
    + right. exists (u :: pre), t, post. split; [done|]. split; [done|set_solver].
Qed.

Lemma broadcast_run n : ∀ x,
  cv_ok x → (length (cv_ring x) ≤ n)%nat →
  ∃ x', broadcast_from n x = Ok (tt, x') ∧ served x x' (cv_ring x) [].
Proof.
  induction n as [|n IH]; intros x Hok Hn; simpl.
  - destruct (cv_ring x) eqn:Hr; [|simpl in Hn; lia]. exists x. split; [done|].
    by apply served_nil.
  - mstep. destruct (cv_ring x) as [|u l] eqn:Hr.
    { exists x. split; [done|]. by apply served_nil. }
    rewrite <-Hr in *. unfold cv_signal. mstep.
    destruct (first_asleep x (cv_ring x)) as [Hall|(pre & t & post & Heq & Ht & Hpre)].
    + destruct (signal_run (cv_ring x) x [] (length (cv_ring x)) Hok
        ltac:(by rewrite app_nil_r) ltac:(lia) Hall) as (x1 & Hrun & Hs).
      mrun ltac:(exact Hrun).
      exists x1. split; [|done]. destruct n; simpl; mstep; by rewrite ?(sv_ring _ _ _ _ Hs).
    + destruct (signal_run pre x (t :: post) (length (cv_ring x)) Hok Heq ltac:(lia) Hpre Ht)
        as (x1 & Hrun & Hs).
      mrun ltac:(exact Hrun).
      destruct (IH x1 (sv_ok _ _ _ _ Hs)) as (x2 & Hrun2 & Hs2).
      { rewrite (sv_ring _ _ _ _ Hs). rewrite Heq, length_app in Hn. simpl in Hn. lia. }
      exists x2. split; [done|]. rewrite (sv_ring _ _ _ _ Hs) in Hs2.
      assert (cv_ring x = (pre ++ [t]) ++ post) as -> by (by rewrite <-app_assoc).
      eapply served_trans; [|done|done].
      pose proof (co_nodup _ Hok) as Hnd. rewrite Heq in Hnd.
      apply NoDup_app in Hnd as (_ & Hd & Hnd). apply NoDup_cons in Hnd as [Htp _].
      intros v [Hv|Hv%list_elem_of_singleton]%elem_of_app Hvp; [|by subst].
      eapply Hd; [done|]. by right.
Qed.
End signal_lemmas.

(** ** The scheduler of [Sched.v] as the scheduler of the waiters *)
Definition thread_asleep (s : sched) (t : tid) : bool :=
  match tcbs s !! t with
  | Some k => bool_decide (tcb_state k = STOPPED ∨ tcb_state k = INIT)
  | None => false
  end.

Lemma sched_wakeup_law s t :
  (∃ ms pl, inv s ms pl) → is_Some (tcbs s !! t) →
  ∃ s', wakeup t s = Ok (thread_asleep s t, s') ∧ (∃ ms pl, inv s' ms pl) ∧
    (∀ u, is_Some (tcbs s' !! u) ↔ is_Some (tcbs s !! u)) ∧
    (∀ u, thread_asleep s' u = if decide (u = t) then false else thread_asleep s u).
Proof.
  intros (ms & pl & Hi) [k Hk]. unfold thread_asleep at 1. rewrite Hk. unfold wakeup.
  mrun ltac:(by apply get_tcb_run).
  destruct (place_of _ _ _ _ (i_threads _ _ _ Hi) Hk) as (p & Hp & _). case_decide as Hst.
  - destruct (make_ready_inv s ms pl t k p Hi Hk Hp Hst) as (s' & Hr & Hi' & _ & Htm & _).
    mrun ltac:(exact Hr). rewrite bool_decide_true by done. eexists. split; [reflexivity|].
    split; [by eexists _, _|]. unfold thread_asleep. rewrite Htm. split; intros u.
    + rewrite lookup_insert. case_decide; subst; [by rewrite Hk; split; eauto|done].
    + rewrite lookup_insert. case_decide as Hu; subst.
      * by rewrite decide_True by done.
      * by rewrite decide_False by congruence.
  - rewrite bool_decide_false by done. exists s. split; [done|]. split; [by eexists _, _|].
    split; [done|]. intros u. unfold thread_asleep. case_decide; [subst|done].
    by rewrite Hk, bool_decide_false.
Qed.

#[export] Instance sched_wait_scheduler : WaitScheduler sched := {
  ws_ok s := ∃ ms pl, inv s ms pl;
  ws_known s t := is_Some (tcbs s !! t);
  ws_asleep := thread_asleep;
  ws_wakeup := wakeup;
  ws_wakeup_law := sched_wakeup_law }.

(** ** Properties *)

(** C25 (functional). [Cond_Signal] against any scheduler of the interface.  The ring
    is served in order: waiters that are no longer asleep (a timeout or another
    wakeup came first) are removed without being signalled and the signal is not
    lost on them; the first one that sleeps is removed, marked signalled and woken
    up; nobody after it is touched.  If nobody sleeps the ring ends up empty and no
    thread is woken. *)
Theorem Cond_Signal_wakes_first_sleeper {S} `{WaitScheduler S} (x : condvar S) pre rest :
  cv_ok x → cv_ring x = pre ++ rest → (∀ t, t ∈ pre → asleep_in x t = false) →
  match rest with
  | [] => ∃ x', Cond_Signal x = Ok (tt, x') ∧ cv_ok x' ∧ cv_ring x' = [] ∧
      (∀ t, asleep_in x' t = asleep_in x t) ∧
      (∀ t, t ∈ pre → cv_waiters x' !! t = Some (CvWaiter false true))
  | t :: post => asleep_in x t = true →
      ∃ x', Cond_Signal x = Ok (tt, x') ∧ cv_ok x' ∧ cv_ring x' = post ∧
      cv_waiters x' !! t = Some (CvWaiter true true) ∧ asleep_in x' t = false ∧
      (∀ u, u ≠ t → asleep_in x' u = asleep_in x u) ∧
      (∀ u, u ∈ pre → cv_waiters x' !! u = Some (CvWaiter false true)) ∧
      (∀ u, u ∈ post → cv_waiters x' !! u = Some (CvWaiter false false))
  end.
Proof.
  intros Hok Hr Hpre. unfold Cond_Signal, cv_signal. rewrite run_get.
  pose proof (signal_run pre x rest _ Hok Hr (le_n _) Hpre) as Hrun.
  destruct rest as [|t post].
  - destruct Hrun as (x' & Hrun & [Ho Hri Hw Ha _]). exists x'. do 3 (split; [done|]). split.
    + intros t. rewrite Ha. case_decide; [by rewrite Hpre|done].
    + intros t Ht. rewrite Hw. unfold marked. by rewrite decide_True, Hpre.
  - intros Ht. destruct (Hrun Ht) as (x' & Hrun' & [Ho Hri Hw Ha _]).
    exists x'. do 3 (split; [done|]). unfold marked in Hw.
    split; [rewrite Hw, decide_True, Ht by set_solver; done|].
    split; [rewrite Ha, decide_True by set_solver; done|]. split; [|split].
    + intros u Hu. rewrite Ha. case_decide as Hin; [|done].
      apply elem_of_app in Hin as [Hin|Hin%list_elem_of_singleton]; [by rewrite Hpre|done].
    + intros u Hu. by rewrite Hw, decide_True, Hpre by set_solver.
    + intros u Hu. apply (co_waiter _ Ho). by rewrite Hri.
Qed.

(** [Cond_Broadcast] against any scheduler of the interface: it
    terminates with an empty ring, every waiter that slept is woken up and marked
    signalled, the others are removed without a signal, and no thread outside of
    the ring is affected. *)
Theorem Cond_Broadcast_wakes_all {S} `{WaitScheduler S} (x : condvar S) :
  cv_ok x →
  ∃ x', Cond_Broadcast x = Ok (tt, x') ∧ cv_ok x' ∧ cv_ring x' = [] ∧
    (∀ t, t ∈ cv_ring x →
       cv_waiters x' !! t = Some (CvWaiter (asleep_in x t) true) ∧ asleep_in x' t = false) ∧
    (∀ t, t ∉ cv_ring x →
       cv_waiters x' !! t = cv_waiters x !! t ∧ asleep_in x' t = asleep_in x t).
Proof.
  intros Hok. unfold Cond_Broadcast. rewrite run_get.
  destruct (broadcast_run (length (cv_ring x)) x Hok (le_n _)) as (x' & Hr & [Ho Hri Hw Ha _]).
  exists x'. do 3 (split; [done|]). unfold marked in Hw.
  split; intros t Ht; rewrite Hw, Ha; [by rewrite !decide_True|by rewrite !decide_False].
Qed.

(** Thread 0 sleeps; thread 1 is ready, as one whose timeout has expired. *)
Definition demo_cv_sched : config :=
  foldl (λ x o, after o x) demo_asleep [OpSpawn 2 start_thread_entry; OpWakeup (Thr 1)].
Definition demo_cv : condvar sched :=
  CondVar [Thr 1; Thr 0]
    (<[Thr 0 := CvWaiter false false]> (<[Thr 1 := CvWaiter false false]> ∅))
    (st demo_cv_sched).

Lemma demo_cv_ok : cv_ok demo_cv.
Proof.
  assert (reachable step (boot demo_machine) demo_cv_sched) as Hr.
  { unfold demo_cv_sched. simpl foldl. back; [back; [apply demo_asleep_reach|]|].
    - exact I.
    - vm_compute. eexists. reflexivity. }
  split.
  - destruct (reach_ok _ _ demo_halted_ok Hr) as [pl Hi]. by exists (md demo_cv_sched), pl.
  - apply (bool_decide_unpack _). by vm_compute.
  - intros t [->| ->%list_elem_of_singleton]%elem_of_cons; (eexists; vm_compute; reflexivity).
  - intros t [->| ->%list_elem_of_singleton]%elem_of_cons; vm_compute; reflexivity.
Qed.

Lemma Cond_Signal_wakes_first_sleeper_witness :
  ∃ x', Cond_Signal demo_cv = Ok (tt, x') ∧ cv_ring x' = [] ∧
    cv_waiters x' !! Thr 0 = Some (CvWaiter true true) ∧
    cv_waiters x' !! Thr 1 = Some (CvWaiter false true).
Proof.
  destruct (Cond_Signal_wakes_first_sleeper demo_cv [Thr 1] [Thr 0] demo_cv_ok eq_refl)
    as (x' & Hr & _ & Hri & Hw & _ & _ & Hpre & _).
  - intros t ->%list_elem_of_singleton. by vm_compute.
  - by vm_compute.
  - exists x'. do 3 (split; [assumption|]). apply Hpre. left.
Defined.

Lemma Cond_Broadcast_wakes_all_witness :
  ∃ x', Cond_Broadcast demo_cv = Ok (tt, x') ∧ cv_ring x' = [] ∧
    thread_asleep (cv_sched x') (Thr 0) = false.
Proof.
  destruct (Cond_Broadcast_wakes_all demo_cv demo_cv_ok) as (x' & Hr & _ & Hri & Hin & _).
  exists x'. do 2 (split; [assumption|]). apply Hin. right. left.
Defined.

(** The end of [cv_wait]: a waiter that was removed from the ring by a
    signal reports whether it was signalled and leaves the ring alone; one that
    woke up by itself removes itself, wherever it is in the ring, and reports 0.
    The assertion [!waiter.signalled] does not fail. *)
Theorem cv_wait_reports_signal {S} `{WaitScheduler S} (x : condvar S) t w :
  cv_ok x → cv_waiters x !! t = Some w → (removed w = true ↔ t ∉ cv_ring x) →
  ∃ x', cv_wait_tidy t x = Ok (signalled w, x') ∧ cv_ok x' ∧ (t ∉ cv_ring x') ∧
    cv_ring x' = remove_node t (cv_ring x) ∧ (signalled w = true → removed w = true).
Proof.
  intros Hok Hw Hrem. unfold cv_wait_tidy. rewrite run_get.
  rewrite (run_some _ _ w) by done.
  destruct (decide (t ∈ cv_ring x)) as [Ht|Ht].
  - assert (removed w = false) as Hr by (destruct (removed w); naive_solver).
    pose proof (co_waiter _ Hok t Ht) as Hw'. simplify_eq. simpl in *.
    eexists. split; [reflexivity|]. simpl.
    split; [|split; [by rewrite elem_of_remove_node; intros []|done]].
    destruct Hok as [Ho Hn Hk Hwt]. split; simpl; [done|auto with tinyos| |];
      intros u [_ Hu]%elem_of_remove_node; auto.
  - rewrite (proj2 Hrem Ht). exists x. split; [done|]. split; [done|]. split; [done|].
    by rewrite remove_node_notin.
Qed.

Lemma cv_wait_reports_signal_witness :
  ∃ x', cv_wait_tidy (Thr 1) demo_cv = Ok (false, x') ∧ cv_ring x' = [Thr 0].
Proof.
  destruct (cv_wait_reports_signal demo_cv (Thr 1) (CvWaiter false false) demo_cv_ok eq_refl)
    as (x' & Hr & _ & _ & Hri & _).
  - split; [discriminate|]. intros H. exfalso. apply H. left.
  - exists x'. split; [exact Hr|]. rewrite Hri. reflexivity.
Defined.
