(* ===== verification/KernelLock.v ===== *)
(** * The kernel lock (kernel_cc.c)

    [kernel_lock], [kernel_unlock], [kernel_wait_wchan], [kernel_signal],
    [kernel_broadcast] and [kernel_sleep(EXITED)] by any number of threads, as the
    steps between their accesses to shared data: the mutex, the semaphore counter
    and its condition, and the condition variables the kernel code waits on.  A
    program counter of a thread is a line of kernel_cc.c.  A sleeping thread may be
    woken up at any time from outside (by a timeout). *)
From S2P Require Import Prelude.
Local Open Scope Z_scope.

(** ** Data *)

(** Why the kernel semaphore is released: [kernel_unlock], [kernel_wait_wchan] on
    a condition variable, or [kernel_sleep(EXITED)]. *)
Inductive release_kind := KUnlock | KWait (cv : nat) | KExit.

(** Where a [Cond_Signal] or [Cond_Broadcast] returns to. *)
Inductive signal_return := ToKernel | ToRelease (k : release_kind).

(** Condition variable 0 is [kernel_sem_cv]. *)
Inductive pc :=
  | User                       (** outside of the kernel *)
  | LockMutex                  (** [kernel_lock]: [Mutex_Lock(&kernel_mutex)] *)
  | TestSem                    (** [while(kernel_sem<=0)] *)
  | InKernel                   (** in kernel code, the kernel is locked *)
  | ReleaseMutex (k : release_kind)    (** [Mutex_Lock(&kernel_mutex)] of a release *)
  | SigLock (cv : nat) (all : bool) (r : signal_return)  (** [Mutex_Lock(&waitset_lock)] *)
  | SigLoop (cv : nat) (all : bool) (r : signal_return)  (** the loop of [cv_signal] *)
  | Released (k : release_kind)        (** after the [Cond_Signal] of a release *)
  | WaitLock (cv : nat)        (** [cv_wait]: [Mutex_Lock(&waitset_lock)] *)
  | WaitUnlock (cv : nat)      (** [cv_wait]: [Mutex_Unlock(mutex)] *)
  | WaitSleep (cv : nat)       (** [cv_wait]: [sleep_releasing] *)
  | Waiting (cv : nat)         (** asleep, or woken up and about to lock *)
  | WaitTidy (cv : nat)        (** [cv_wait]: [if(!waiter.removed)] *)
  | WaitMutex                  (** [cv_wait]: [Mutex_Lock(mutex)] *)
  | Exited.

(** The thread's choice, in user or kernel code. *)
Inductive request := Enter | Leave | WaitOn (cv : nat) | SignalOn (cv : nat) (all : bool) | Exit.

Definition upd {A} (i : nat) (v : A) (f : nat → A) : nat → A :=
  λ j, if decide (j = i) then v else f j.

Record kstate := KState {
  kernel_mutex : bool;
  kernel_sem : Z;
  waitset_lock : nat → bool;
  ring : nat → list nat;
  asleep : nat → bool;
  signalled : nat → bool;
  removed : nat → bool;
  at_pc : nat → pc }.

Definition set_mutex v s := KState v (kernel_sem s) (waitset_lock s) (ring s) (asleep s)
  (signalled s) (removed s) (at_pc s).
Definition set_sem v s := KState (kernel_mutex s) v (waitset_lock s) (ring s) (asleep s)
  (signalled s) (removed s) (at_pc s).
Definition set_lock cv v s := KState (kernel_mutex s) (kernel_sem s)
  (upd cv v (waitset_lock s)) (ring s) (asleep s) (signalled s) (removed s) (at_pc s).
Definition set_ring cv v s := KState (kernel_mutex s) (kernel_sem s) (waitset_lock s)
  (upd cv v (ring s)) (asleep s) (signalled s) (removed s) (at_pc s).
Definition set_asleep t v s := KState (kernel_mutex s) (kernel_sem s) (waitset_lock s)
  (ring s) (upd t v (asleep s)) (signalled s) (removed s) (at_pc s).
Definition set_signalled t v s := KState (kernel_mutex s) (kernel_sem s) (waitset_lock s)
  (ring s) (asleep s) (upd t v (signalled s)) (removed s) (at_pc s).
Definition set_removed t v s := KState (kernel_mutex s) (kernel_sem s) (waitset_lock s)
  (ring s) (asleep s) (signalled s) (upd t v (removed s)) (at_pc s).
Definition goto t v s := KState (kernel_mutex s) (kernel_sem s) (waitset_lock s)
  (ring s) (asleep s) (signalled s) (removed s) (upd t v (at_pc s)).

(** A waiter of [cv] is on the stack of its thread from here to here. *)
Definition waits_on (cv : nat) (p : pc) : bool :=
  match p with
  | WaitUnlock c | WaitSleep c | Waiting c | WaitTidy c => bool_decide (c = cv)
  | _ => false
  end.

Definition after_signal (r : signal_return) : pc :=
  match r with ToKernel => InKernel | ToRelease k => Released k end.

(** ** The steps

    [None]: the thread cannot go on (it spins on a lock, sleeps, or does not make
    this request). *)
Definition go (s : kstate) : option (outcome kstate) := Some (Ok s).

(** One turn of the loop of [cv_signal] (or of [Cond_Broadcast], when [all]). *)
Definition signal_turn (t cv : nat) (all : bool) (r : signal_return) (s : kstate)
  : option (outcome kstate) :=
  match ring s cv with
  | [] => go (goto t (after_signal r) (set_lock cv false s))
  | u :: l =>
      if waits_on cv (at_pc s u) then
        let s1 := set_removed u true (set_ring cv l s) in
        if asleep s u then
          let s2 := set_signalled u true (set_asleep u false s1) in
          go (if all then s2 else goto t (after_signal r) (set_lock cv false s2))
        else go s1
      else Some (Fault UseAfterFree)
  end.

Definition kernel_step (t : nat) (a : request) (s : kstate) : option (outcome kstate) :=
  match at_pc s t with
  | User => match a with Enter => go (goto t LockMutex s) | _ => None end
  | LockMutex =>
      if kernel_mutex s then None else go (goto t TestSem (set_mutex true s))
  | TestSem =>
      if kernel_sem s <=? 0 then go (goto t (WaitLock 0) s)
      else go (goto t InKernel (set_mutex false (set_sem (kernel_sem s - 1) s)))
  | InKernel =>
      match a with
      | Leave => go (goto t (ReleaseMutex KUnlock) s)
      | WaitOn (S n) => go (goto t (ReleaseMutex (KWait (S n))) s)
      | SignalOn (S n) all => go (goto t (SigLock (S n) all ToKernel) s)
      | Exit => go (goto t (ReleaseMutex KExit) s)
      | _ => None
      end
  | ReleaseMutex k =>
      if kernel_mutex s then None
      else go (goto t (SigLock 0 false (ToRelease k))
                (set_mutex true (set_sem (kernel_sem s + 1) s)))
  | SigLock cv all r =>
      if waitset_lock s cv then None else go (goto t (SigLoop cv all r) (set_lock cv true s))
  | SigLoop cv all r => signal_turn t cv all r s
  | Released k =>
      match k with
      | KUnlock => go (goto t User (set_mutex false s))
      | KWait cv => go (goto t (WaitLock cv) s)
      | KExit => go (goto t Exited (set_mutex false s))
      end
  | WaitLock cv =>
      if waitset_lock s cv then None
      else go (goto t (WaitUnlock cv) (set_signalled t false (set_removed t false
                (set_ring cv (ring s cv ++ [t]) (set_lock cv true s)))))
  | WaitUnlock cv => go (goto t (WaitSleep cv) (set_mutex false s))
  | WaitSleep cv => go (goto t (Waiting cv) (set_asleep t true (set_lock cv false s)))
  | Waiting cv =>
      if asleep s t || waitset_lock s cv then None
      else go (goto t (WaitTidy cv) (set_lock cv true s))
  | WaitTidy cv =>
      if removed s t then go (goto t WaitMutex (set_lock cv false s))
      else if signalled s t then Some (Fault AssertFailed)
      else go (goto t WaitMutex (set_lock cv false (set_ring cv (remove_node t (ring s cv)) s)))
  | WaitMutex =>
      if kernel_mutex s then None else go (goto t TestSem (set_mutex true s))
  | Exited => None
  end.

Inductive kstep (s : kstate) : kstate → Prop :=
  | step_thread t a s' : kernel_step t a s = Some (Ok s') → kstep s s'
  | step_timeout t : asleep s t = true → kstep s (set_asleep t false s).

(** [MUTEX_INIT], [kernel_sem = 1], [COND_INIT]; all threads are in user code. *)
Definition kernel_init : kstate :=
  KState false 1 (λ _, false) (λ _, []) (λ _, false) (λ _, false) (λ _, false) (λ _, User).

(** ** Who holds what *)
Definition holds_mutex (p : pc) : bool :=
  match p with
  | TestSem | SigLock _ _ (ToRelease _) | SigLoop _ _ (ToRelease _) | Released _
  | WaitLock _ | WaitUnlock _ => true
  | _ => false
  end.
Definition holds_lock (cv : nat) (p : pc) : bool :=
  match p with
  | SigLoop c _ _ | WaitUnlock c | WaitSleep c | WaitTidy c => bool_decide (c = cv)
  | _ => false
  end.
Definition holds_kernel (p : pc) : bool :=
  match p with
  | InKernel | ReleaseMutex _ | SigLock _ _ ToKernel | SigLoop _ _ ToKernel => true
  | _ => false
  end.

(** [f] tells whether some thread is at a [h]-place, and at most one is. *)
Record held (f : bool) (h : pc → bool) (p : nat → pc) : Prop := Held {
  h_one : ∀ t u, h (p t) = true → h (p u) = true → t = u;
  h_some : f = true ↔ ∃ t, h (p t) = true }.

Section held.
Implicit Types (h : pc → bool) (p : nat → pc).

Lemma upd_eq {A} i (v : A) f : upd i v f i = v.
Proof. unfold upd. by rewrite decide_True. Qed.
Lemma upd_ne {A} i j (v : A) f : j ≠ i → upd i v f j = f j.
Proof. intros. unfold upd. by rewrite decide_False. Qed.
Lemma upd_cases {A} i j (v : A) f : (j = i ∧ upd i v f j = v) ∨ (j ≠ i ∧ upd i v f j = f j).
Proof. unfold upd. case_decide; auto. Qed.

Lemma held_keep f h p t q : held f h p → h q = h (p t) → held f h (upd t q p).
Proof.
  intros [H1 H2] Hq.
  assert (∀ u, h (upd t q p u) = h (p u)) as He
    by (intros u; destruct (upd_cases t u q p) as [[-> ->]|[_ ->]]; done).
  split; [intros u v; rewrite !He; apply H1|]. rewrite H2. by setoid_rewrite He.
Qed.

Lemma held_take h p t q : held false h p → h q = true → held true h (upd t q p).
Proof.
  intros [_ H2] Hq.
  assert (∀ u, h (p u) = false) as Hnone.
  { intros u. destruct (h (p u)) eqn:Hu; [|done]. assert (false = true); [|done]. apply H2. eauto. }
  split.
  - intros u v. destruct (upd_cases t u q p) as [[-> _]|[_ ->]]; [|by rewrite Hnone].
    destruct (upd_cases t v q p) as [[-> _]|[_ ->]]; [done|by rewrite Hnone].
  - split; [|done]. intros _. exists t. by rewrite upd_eq.
Qed.

Lemma held_drop f h p t q : held f h p → h (p t) = true → h q = false → held false h (upd t q p).
Proof.
  intros [H1 _] Ht Hq.
  assert (∀ u, h (upd t q p u) = false) as Hnone.
  { intros u. destruct (upd_cases t u q p) as [[-> ->]|[Hne ->]]; [done|].
    destruct (h (p u)) eqn:Hu; [|done]. by destruct Hne; apply H1. }
  split; [intros u v; by rewrite Hnone|]. split; [done|]. intros [u Hu]. by rewrite Hnone in Hu.
Qed.
End held.

(** ** The locks exclude *)

(** The cases of a step that happened. *)
Ltac step_cases H :=
  unfold kernel_step, signal_turn, go in H; repeat case_match; simplify_eq/=;
  repeat match goal with
    | H : _ || _ = false |- _ => apply orb_false_iff in H as [? ?]
    | H : (_ <=? _) = true |- _ => apply Z.leb_le in H
    | H : (_ <=? _) = false |- _ => apply Z.leb_gt in H
    end.

(** A step of a thread keeps, takes or drops a lock. *)
Ltac solve_held :=
  first [ assumption
        | eapply held_keep; [eassumption|]
        | eapply held_take; [eassumption|]
        | eapply held_drop; [eassumption| |] ];
  repeat match goal with
    | H : at_pc ?s ?t = _ |- context [at_pc ?s ?t] => rewrite H
    | r : signal_return |- _ => destruct r
    end; simpl; try done.

Lemma step_mutex s t a s' :
  held (kernel_mutex s) holds_mutex (at_pc s) → kernel_step t a s = Some (Ok s') →
  held (kernel_mutex s') holds_mutex (at_pc s').
Proof.
  intros Hh H. step_cases H; simpl;
    repeat match goal with H : kernel_mutex ?s = _ |- _ => rewrite H in * end;
    solve_held.
Qed.

Lemma step_lock s t a s' cv :
  (∀ c, held (waitset_lock s c) (holds_lock c) (at_pc s)) →
  kernel_step t a s = Some (Ok s') →
  held (waitset_lock s' cv) (holds_lock cv) (at_pc s').
Proof.
  intros Hh H. specialize (Hh cv). step_cases H; simpl;
    repeat match goal with
      | |- context [upd ?c ?v (waitset_lock s) cv] =>
          destruct (upd_cases c cv v (waitset_lock s)) as [[? ->]|[? ->]]; subst
      end;
    repeat match goal with H : waitset_lock ?s _ = _ |- _ => rewrite H in * end;
    by solve_held; rewrite ?bool_decide_true, ?bool_decide_false by congruence.
Qed.

(** ** The semaphore *)
Definition sem_ok (s : kstate) : Prop :=
  0 ≤ kernel_sem s ≤ 1 ∧ held (kernel_sem s =? 0) holds_kernel (at_pc s).

Lemma sem_zero s t : sem_ok s → holds_kernel (at_pc s t) = true → kernel_sem s = 0.
Proof. intros [_ [_ H]] Ht. apply Z.eqb_eq, H. eauto. Qed.

Lemma step_sem s t a s' : sem_ok s → kernel_step t a s = Some (Ok s') → sem_ok s'.
Proof.
  intros Hok H. pose proof (sem_zero s t Hok) as Hz. destruct Hok as [Hr Hh].
  step_cases H; split; simpl; try done;
    try match goal with H : at_pc s t = _ |- _ => rewrite H in Hz; simpl in Hz end;
    try specialize (Hz eq_refl); try lia.
  all: match goal with
       | |- held (kernel_sem ?s - 1 =? 0) _ _ =>
           assert (kernel_sem s = 1) as Hs by lia; rewrite Hs in *; simpl in *
       | |- held (kernel_sem ?s + 1 =? 0) _ _ => rewrite Hz in *; simpl in *
       | _ => idtac
       end; solve_held.
Qed.

(** ** The rings *)

(** The case analysis on updates of functions. *)
Ltac upd_case := unfold upd in *; repeat case_decide; subst; try congruence.

(** A ring holds the threads that wait there and are not removed, sleeping threads
    are in a ring, and only a removed waiter is signalled. *)
Record rings_ok (rg : nat → list nat) (asl sig rem : nat → bool) (p : nat → pc) : Prop := {
  r_nodup : ∀ cv, NoDup (rg cv);
  r_mem : ∀ cv t, t ∈ rg cv ↔ waits_on cv (p t) = true ∧ rem t = false;
  r_asleep : ∀ t, asl t = true → (∃ cv, p t = Waiting cv) ∧ rem t = false;
  r_signalled : ∀ t, sig t = true → rem t = true;
  r_fresh : ∀ t cv, p t = WaitUnlock cv ∨ p t = WaitSleep cv → rem t = false }.

Definition quiet (p : pc) : Prop := ∀ cv, waits_on cv p = false.

Lemma rings_goto rg asl sig rem p t q :
  rings_ok rg asl sig rem p → (∀ cv, waits_on cv q = waits_on cv (p t)) → asl t = false →
  (∀ cv, q = WaitUnlock cv ∨ q = WaitSleep cv → rem t = false) →
  rings_ok rg asl sig rem (upd t q p).
Proof.
  intros [Hn Hm Ha Hs Hf] Hq Hat Hfr. split; try done.
  - intros cv u. rewrite Hm. upd_case; [by rewrite Hq|done].
  - intros u Hu. upd_case; auto.
  - intros u cv Hu. upd_case; eauto.
Qed.

Lemma rings_push rg asl sig rem p t cv :
  rings_ok rg asl sig rem p → quiet (p t) → asl t = false →
  rings_ok (upd cv (rg cv ++ [t]) rg) asl (upd t false sig) (upd t false rem)
    (upd t (WaitUnlock cv) p).
Proof.
  intros [Hn Hm Ha Hs Hf] Hq Hat.
  assert (∀ c, t ∉ rg c) as Hnot by (intros c Hc%Hm; rewrite Hq in Hc; by destruct Hc).
  split.
  - intros c. upd_case; [|done]. apply NoDup_app. split; [done|].
    split; [|apply NoDup_singleton]. intros u Hu ->%list_elem_of_singleton. by eapply Hnot.
  - intros c u. upd_case; simpl; rewrite ?elem_of_app, ?list_elem_of_singleton, ?Hm.
    + rewrite bool_decide_true by done. naive_solver.
    + naive_solver.
    + rewrite bool_decide_false by done. rewrite Hq. naive_solver.
    + done.
  - intros u Hu. upd_case; auto.
  - intros u. upd_case; auto.
  - intros u c Hu. upd_case; eauto.
Qed.

(** [cv_signal] takes the first waiter [u] of the ring. *)
Lemma rings_pop rg asl sig rem p cv u l (b : bool) :
  rings_ok rg asl sig rem p → rg cv = u :: l →
  (∀ c, p u ≠ WaitUnlock c ∧ p u ≠ WaitSleep c) →
  rings_ok (upd cv l rg) (upd u false asl) (if b then upd u true sig else sig)
    (upd u true rem) p.
Proof.
  intros [Hn Hm Ha Hs Hf] Hr Hpu.
  pose proof (Hn cv) as Hn'. rewrite Hr in Hn'. apply NoDup_cons in Hn' as [Hul Hl].
  assert (∀ c, u ∈ rg c → c = cv) as Hone.
  { intros c [Hc _]%Hm. assert (u ∈ rg cv) as [Hcv _]%Hm by (rewrite Hr; left).
    destruct (p u); simpl in *; try done; apply bool_decide_eq_true in Hc, Hcv; congruence. }
  split.
  - intros c. upd_case; auto.
  - intros c t. specialize (Hm c t). upd_case.
    + split; [done|]. by intros [].
    + rewrite Hr, elem_of_cons in Hm. clear -Hm H0. naive_solver.
    + split; [|by intros []]. intros Hu. by rewrite (Hone c Hu) in *.
  - intros t Ht. upd_case; auto.
  - intros t Ht. destruct b; upd_case; auto.
  - intros t c Ht. upd_case; [|eauto]. destruct (Hpu c). naive_solver.
Qed.

Lemma rings_tidy rg asl sig rem p t cv :
  rings_ok rg asl sig rem p → p t = WaitTidy cv → asl t = false →
  rings_ok (upd cv (remove_node t (rg cv)) rg) asl sig rem (upd t WaitMutex p).
Proof.
  intros [Hn Hm Ha Hs Hf] Hp Hat. split; try done.
  - intros c. upd_case; auto with tinyos.
  - intros c u. specialize (Hm c u). upd_case; rewrite ?elem_of_remove_node, ?Hm.
    + simpl. split; [by intros []|by intros []].
    + split; [by intros []|done].
    + rewrite Hp. simpl. rewrite bool_decide_false by done. done.
  - intros u Hu. upd_case; auto.
  - intros u c Hu. upd_case; eauto; by destruct Hu.
Qed.

Lemma rings_leave rg asl sig rem p t cv :
  rings_ok rg asl sig rem p → p t = WaitTidy cv → asl t = false → rem t = true →
  rings_ok rg asl sig rem (upd t WaitMutex p).
Proof.
  intros [Hn Hm Ha Hs Hf] Hp Hat Hr. split; try done.
  - intros c u. rewrite Hm. upd_case; [|done]. simpl. rewrite Hr. naive_solver.
  - intros u Hu. upd_case; auto.
  - intros u c Hu. upd_case; eauto; by destruct Hu.
Qed.

Lemma rings_sleep rg asl sig rem p t cv :
  rings_ok rg asl sig rem p → p t = WaitSleep cv →
  rings_ok rg (upd t true asl) sig rem (upd t (Waiting cv) p).
Proof.
  intros [Hn Hm Ha Hs Hf] Hp. split; try done.
  - intros c u. rewrite Hm. upd_case; [|done]. by rewrite Hp.
  - intros u. upd_case; [|auto]. intros _. split; [eauto|]. eapply Hf. by right.
  - intros u c Hu. upd_case; eauto; by destruct Hu.
Qed.

Definition kinv_rings (s : kstate) : Prop :=
  rings_ok (ring s) (asleep s) (signalled s) (removed s) (at_pc s).
Definition kinv_locks (s : kstate) : Prop :=
  ∀ cv, held (waitset_lock s cv) (holds_lock cv) (at_pc s).

Lemma asleep_waiting s t : kinv_rings s → (∀ cv, at_pc s t ≠ Waiting cv) → asleep s t = false.
Proof.
  intros Hr Hp. destruct (asleep s t) eqn:Ha; [|done].
  apply (r_asleep _ _ _ _ _ Hr) in Ha as [[cv Hcv] _]. by destruct (Hp cv).
Qed.

(** The signaller holds the lock of the ring, so the waiter it takes is past
    [sleep_releasing]. *)
Lemma popped_sleeps s t cv all r u :
  kinv_locks s → at_pc s t = SigLoop cv all r → waits_on cv (at_pc s u) = true →
  ∀ c, at_pc s u ≠ WaitUnlock c ∧ at_pc s u ≠ WaitSleep c.
Proof.
  intros Hl Ht Hu c. assert (holds_lock cv (at_pc s t) = true) as Hht.
  { rewrite Ht. simpl. by apply bool_decide_true. }
  split; intros Hc; rewrite Hc in Hu;
    (assert (u = t) as ->; [|congruence]);
    (apply (h_one _ _ _ (Hl cv)); [by rewrite Hc|done]).
Qed.

Lemma quiet_goto s t q :
  kinv_rings s → quiet (at_pc s t) → quiet q → kinv_rings (goto t q s).
Proof.
  intros Hr Hp Hq. apply rings_goto; [done|by intros cv; rewrite Hp, Hq| |].
  - apply (asleep_waiting s); [done|]. intros cv Hw. specialize (Hp cv). rewrite Hw in Hp.
    simpl in Hp. by rewrite bool_decide_true in Hp.
  - intros cv [-> | ->]; specialize (Hq cv); simpl in Hq; by rewrite bool_decide_true in Hq.
Qed.

(** A turn of the signal loop. *)
Lemma turn_rings s t cv all r a s' :
  kinv_locks s → kinv_rings s → at_pc s t = SigLoop cv all r →
  kernel_step t a s = Some (Ok s') → kinv_rings s'.
Proof.
  intros Hl Hr Ht H. unfold kernel_step in H. rewrite Ht in H. unfold signal_turn, go in H.
  assert (∀ x, kinv_rings x → at_pc x t = SigLoop cv all r → kinv_rings (goto t (after_signal r) x)) as Hgo.
  { intros x Hx Hxt. apply quiet_goto; [done|by rewrite Hxt|]. by destruct r. }
  destruct (ring s cv) as [|u l] eqn:Hring; [simplify_eq; by apply (Hgo (set_lock cv false s))|].
  destruct (waits_on cv (at_pc s u)) eqn:Hu; [|done].
  pose proof (popped_sleeps s t cv all r u Hl Ht Hu) as Hpu.
  destruct (asleep s u) eqn:Hau.
  - assert (kinv_rings (set_signalled u true (set_asleep u false
      (set_removed u true (set_ring cv l s))))) as Hpop by (by apply (rings_pop _ _ _ _ _ _ _ _ true)).
    destruct all; simplify_eq; [done|]. by apply (Hgo (set_lock cv false _)).
  - simplify_eq. pose proof (rings_pop _ _ _ _ _ cv u l false Hr Hring Hpu) as [H1 H2 H3 H4 H5].
    split; try done. intros v Hv. simpl in Hv. apply H3. unfold upd. by case_decide; subst; [congruence|].
Qed.

Lemma step_rings s t a s' :
  kinv_locks s → kinv_rings s → kernel_step t a s = Some (Ok s') → kinv_rings s'.
Proof.
  intros Hl Hr H. pose proof (turn_rings s t) as Hturn.
  specialize (λ cv all r, Hturn cv all r a s' Hl Hr).
  pose proof H as H'. unfold kernel_step in H. destruct (at_pc s t) eqn:Hp.
  all: try discriminate.
  all: try (by eapply Hturn).
  all: clear Hturn H'; step_cases H;
    try match goal with
      | Hr : kinv_rings ?s, Hp : at_pc ?s ?t = _ |- kinv_rings (goto ?t ?q ?x) =>
          apply (quiet_goto x t q); [exact Hr|by simpl; rewrite Hp|done]
      end.
  - apply rings_push; [exact Hr|by simpl; rewrite Hp|]. apply (asleep_waiting s); [done|congruence].
  - apply rings_goto; [exact Hr|by simpl; rewrite Hp|apply (asleep_waiting s); [done|congruence]|].
    intros c _. eapply r_fresh; [done|]. by left.
  - by apply rings_sleep.
  - apply rings_goto; [exact Hr|by simpl; rewrite Hp|done|]. by intros c [].
  - eapply rings_leave; [done|done|apply (asleep_waiting s); [done|congruence]|done].
  - eapply rings_tidy; [done|done|apply (asleep_waiting s); [done|congruence]].
Qed.

(** ** No wakeup is lost *)

(** A thread that is on its way to test the semaphore, or to signal it. *)
Definition responsible (s : kstate) (t : nat) : Prop :=
  match at_pc s t with
  | TestSem | WaitMutex | WaitTidy _
  | SigLock _ _ (ToRelease _) | SigLoop _ _ (ToRelease _) => True
  | Waiting _ => asleep s t = false
  | _ => False
  end.

(** A thread that sleeps on the semaphore, or is about to. *)
Definition dormant (s : kstate) (t : nat) : Prop :=
  match at_pc s t with
  | WaitSleep 0 => True
  | Waiting 0 => asleep s t = true
  | _ => False
  end.

(** Between its test of the semaphore and its release of the mutex, a thread that
    goes to sleep on it has seen it taken; other waits are on other conditions. *)
Definition pc_test (sem : Z) (p : pc) : Prop :=
  match p with
  | WaitLock 0 | WaitUnlock 0 => sem ≤ 0
  | ReleaseMutex (KWait cv) | Released (KWait cv) => cv ≠ 0%nat
  | SigLock cv _ (ToRelease k) | SigLoop cv _ (ToRelease k) => cv = 0%nat ∧ k ≠ KWait 0
  | SigLock cv _ ToKernel | SigLoop cv _ ToKernel => cv ≠ 0%nat
  | _ => True
  end.
Definition test_ok (s : kstate) : Prop := ∀ t, pc_test (kernel_sem s) (at_pc s t).

Definition live_ok (s : kstate) : Prop :=
  0 < kernel_sem s → (∃ t, dormant s t) → ∃ u, responsible s u.

Record kinv (s : kstate) : Prop := KInv {
  ki_mutex : held (kernel_mutex s) holds_mutex (at_pc s);
  ki_locks : kinv_locks s;
  ki_sem : sem_ok s;
  ki_rings : kinv_rings s;
  ki_test : test_ok s;
  ki_live : live_ok s }.

Lemma step_other s t a s' u :
  kernel_step t a s = Some (Ok s') → u ≠ t → at_pc s' u = at_pc s u.
Proof. intros H Hne. step_cases H; unfold upd; by rewrite ?decide_False by done. Qed.

Lemma step_sem_free s t a s' :
  kernel_step t a s = Some (Ok s') → kernel_sem s' ≤ kernel_sem s ∨ kernel_mutex s = false.
Proof. intros H. step_cases H; (by right) || (left; lia). Qed.

Lemma pc_test_sem sem sem' p :
  pc_test sem p → sem' ≤ sem ∨ holds_mutex p = false → pc_test sem' p.
Proof.
  intros Hp Hor. destruct p; simpl in *; try done;
    (destruct cv; [|done]); (destruct Hor; [lia|done]).
Qed.

Lemma step_test_self s t a s' :
  pc_test (kernel_sem s) (at_pc s t) → kernel_step t a s = Some (Ok s') →
  pc_test (kernel_sem s') (at_pc s' t).
Proof.
  intros Ht H. unfold kernel_step, signal_turn, go in H. destruct (at_pc s t) eqn:Hp; simpl in Ht;
    step_cases H; rewrite ?upd_eq, ?Hp; simpl; try done; try lia.
  - split; [done|congruence].
  - destruct Ht as [_ Hk]. destruct k; try done. by intros ->.
  - destruct Ht as [_ Hk]. destruct k; try done. by intros ->.
  - by destruct cv.
Qed.

Lemma step_test s t a s' : kinv s → kernel_step t a s = Some (Ok s') → test_ok s'.
Proof.
  intros [Hm _ _ _ Ht _] H u. destruct (decide (u = t)) as [->|Hne].
  - by eapply step_test_self.
  - rewrite (step_other _ _ _ _ _ H Hne). eapply pc_test_sem; [apply Ht|].
    destruct (step_sem_free _ _ _ _ H) as [Hle|Hfree]; [by left|right].
    destruct (holds_mutex (at_pc s u)) eqn:Hu; [|done].
    assert (kernel_mutex s = true) by (apply (h_some _ _ _ Hm); eauto). congruence.
Qed.

Lemma live_responsible s t : responsible s t → live_ok s.
Proof. intros H _ _. by exists t. Qed.

Lemma live_keep s s' :
  live_ok s → kernel_sem s' ≤ kernel_sem s →
  (∀ d, dormant s' d → ∃ d', dormant s d') → (∀ u, responsible s u → responsible s' u) →
  live_ok s'.
Proof.
  intros Hl Hs Hd Hr Hpos [d Hdd]. destruct (Hd d Hdd) as [d' Hd'].
  destruct (Hl ltac:(lia)) as [u Hu]; eauto.
Qed.

(** [t], which was not responsible, goes on to [q]. *)
Lemma live_goto s s' t q :
  live_ok s → kernel_sem s' ≤ kernel_sem s → at_pc s' = upd t q (at_pc s) →
  (∀ u, u ≠ t → asleep s' u = asleep s u) → ¬ responsible s t →
  (dormant s' t → ∃ d, dormant s d) → live_ok s'.
Proof.
  intros Hl Hs Hp Ha Hrt Hd. eapply live_keep; [done|done| |].
  - intros d Hdd. destruct (decide (d = t)) as [->|Hne]; [auto|]. exists d.
    revert Hdd. unfold dormant. rewrite Hp, Ha by done. unfold upd. by rewrite decide_False.
  - intros u Hu. destruct (decide (u = t)) as [->|Hne]; [done|].
    revert Hu. unfold responsible. rewrite Hp, Ha by done. unfold upd. by rewrite decide_False.
Qed.

(** A thread leaves the signal loop of the semaphore. *)
Lemma live_loop_end s t all r s' :
  kinv s → at_pc s t = SigLoop 0 all r → ring s 0%nat = [] →
  at_pc s' = upd t (after_signal r) (at_pc s) → asleep s' = asleep s → live_ok s'.
Proof.
  intros [Hm Hl Hs Hr _ _] Ht Hring Hp Ha _ [d Hd]. exfalso. unfold dormant in Hd.
  rewrite Hp, Ha in Hd. unfold upd in Hd. case_decide; [by destruct r|].
  destruct (at_pc s d) eqn:Hpd; try done; destruct cv; try done.
  - assert (d = t); [|done]. apply (h_one _ _ _ (Hl 0%nat)); [by rewrite Hpd|by rewrite Ht].
  - assert (d ∈ ring s 0%nat) as Hin; [|rewrite Hring in Hin; by apply not_elem_of_nil in Hin].
    apply (r_mem _ _ _ _ _ Hr). rewrite Hpd. split; [done|].
    by apply (r_asleep _ _ _ _ _ Hr).
Qed.

(** The loop wakes up a sleeping waiter, which becomes responsible. *)
Lemma live_woken s t u cv all r s' :
  kinv s → at_pc s t = SigLoop cv all r → asleep s u = true →
  (∀ v, v ≠ t → at_pc s' v = at_pc s v) → asleep s' = upd u false (asleep s) → live_ok s'.
Proof.
  intros [_ _ _ Hr _ _] Ht Hu Hp Ha. apply (live_responsible s' u).
  destruct (r_asleep _ _ _ _ _ Hr u Hu) as [[c Hc] _].
  unfold responsible. rewrite Hp by congruence. by rewrite Hc, Ha, upd_eq.
Qed.

Lemma step_live s t a s' : kinv s → kernel_step t a s = Some (Ok s') → live_ok s'.
Proof.
  intros Hi H. pose proof Hi as [Hm Hl [Hs _] Hr Ht Hlv].
  pose proof (Ht t) as Htt. unfold kernel_step, signal_turn, go in H.
  destruct (at_pc s t) eqn:Hp; simpl in Htt; step_cases H;
    try (apply (live_responsible _ t); unfold responsible; simpl; rewrite ?upd_eq, ?Hp;
         simpl; by rewrite ?upd_eq);
    try (intros Hpos; simpl in *; lia);
    try (eapply live_goto; [exact Hlv|simpl; lia|reflexivity|done
           |unfold responsible; rewrite Hp; by intros []
           |unfold dormant; simpl; rewrite upd_eq; by intros []]);
    try (eapply live_woken; [exact Hi|exact Hp|eassumption| |reflexivity];
         intros v Hv; unfold upd; simpl; by rewrite ?upd_ne by done).
  - exact Hlv.
  - destruct Htt as [-> _]. eapply (live_loop_end s t _ (ToRelease k)); [done|exact Hp|done|done|done].
  - eapply live_goto; [exact Hlv|simpl; lia|reflexivity| | |].
    + intros u Hu. simpl. by rewrite upd_ne.
    + unfold responsible. rewrite Hp. by intros [].
    + unfold dormant at 1. simpl. rewrite upd_eq. intros Hd. exists t. unfold dormant.
      rewrite Hp. by destruct cv.
Qed.

Lemma step_kinv s t a s' : kinv s → kernel_step t a s = Some (Ok s') → kinv s'.
Proof.
  intros Hi H. pose proof Hi as [Hm Hl Hs Hr Ht Hlv]. split.
  - by eapply step_mutex.
  - intros cv. by eapply step_lock.
  - by eapply step_sem.
  - by eapply step_rings.
  - by eapply step_test.
  - by eapply step_live.
Qed.

Lemma timeout_kinv s t : kinv s → kinv (set_asleep t false s).
Proof.
  intros [Hm Hl Hs Hr Ht Hlv]. split; try done.
  - destruct Hr as [H1 H2 H3 H4 H5]. split; try done. simpl. intros u Hu. apply H3.
    unfold upd in Hu. by case_decide.
  - eapply live_keep; [exact Hlv|simpl; lia| |].
    + intros d Hd. exists d. revert Hd. unfold dormant. simpl.
      destruct (at_pc s d); try done. destruct cv; try done. unfold upd. by case_decide.
    + intros u. unfold responsible. simpl. destruct (at_pc s u); try done.
      unfold upd. by case_decide.
Qed.

Lemma init_kinv : kinv kernel_init.
Proof.
  split.
  - split; [done|]. split; [done|]. by intros [].
  - intros cv. split; [done|]. split; [done|]. by intros [].
  - split; [simpl; lia|]. split; [done|]. split; [done|]. by intros [].
  - split; simpl; try done; [intros _; apply NoDup_nil_2|].
    intros cv t. split; [by intros ?%not_elem_of_nil|by intros []].
  - by intros t.
  - intros _ [t Ht]. done.
Qed.

Lemma reachable_kinv s : reachable kstep kernel_init s → kinv s.
Proof.
  apply reachable_invariant; [apply init_kinv|].
  intros x y Hx [t a s' H|t _]; [by eapply step_kinv|by apply timeout_kinv].
Qed.

Lemma step_no_fault s t a f : kinv s → kernel_step t a s ≠ Some (Fault f).
Proof.
  intros [_ _ _ Hr _ _] H. unfold kernel_step, signal_turn, go in H.
  destruct (at_pc s t) eqn:Hp; repeat case_match; simplify_eq/=.
  - match goal with H : ring s cv = ?u :: _, Hw : waits_on cv _ = false |- _ =>
      assert (u ∈ ring s cv) as Hin by (rewrite H; left) end.
    apply (r_mem _ _ _ _ _ Hr) in Hin as [Hin _]. congruence.
  - match goal with H : signalled s t = true |- _ => apply (r_signalled _ _ _ _ _ Hr) in H end.
    congruence.
Qed.

(** ** Properties *)

(** C5 (safety). The kernel lock.  In every state that any number of threads reach
    from the initial one, by any interleaving of their steps and of timeouts, at
    most one thread is inside the kernel (between the end of [kernel_lock] and the
    release of the semaphore in [kernel_unlock], [kernel_wait_wchan] or
    [kernel_sleep]); the semaphore is 0 when there is one and 1 when there is none;
    no waiter is accessed after its thread left [cv_wait], and the assertion of
    [cv_wait] does not fail. *)
Theorem kernel_lock_excludes s :
  reachable kstep kernel_init s →
  (∀ t u, holds_kernel (at_pc s t) = true → holds_kernel (at_pc s u) = true → t = u) ∧
  (kernel_sem s = 0 ∨ kernel_sem s = 1) ∧
  (kernel_sem s = 0 ↔ ∃ t, holds_kernel (at_pc s t) = true) ∧
  (∀ t a f, kernel_step t a s ≠ Some (Fault f)).
Proof.
  intros Hr%reachable_kinv. pose proof (ki_sem _ Hr) as [Hs [H1 H2]].
  split; [done|]. split; [lia|]. split; [by rewrite <-H2, Z.eqb_eq|].
  intros t a f. by apply step_no_fault.
Qed.

(** C9 (liveness). No wakeup of the kernel lock is lost.  In every reachable state, if
    the semaphore is free while some thread sleeps on it (or is about to sleep),
    then some other thread is awake on its way to test the semaphore, or on its way
    to signal it.  And every sleeping thread is in the ring of the condition it
    waits on, not yet marked as removed: the next signals can reach it. *)
Theorem kernel_wakeup_not_lost s :
  reachable kstep kernel_init s →
  (0 < kernel_sem s → (∃ t, dormant s t) → ∃ u, responsible s u) ∧
  (∀ t, asleep s t = true →
     ∃ cv, at_pc s t = Waiting cv ∧ t ∈ ring s cv ∧ removed s t = false ∧ signalled s t = false).
Proof.
  intros Hr%reachable_kinv. split; [apply (ki_live _ Hr)|].
  intros t Ht. pose proof (ki_rings _ Hr) as Hrg.
  destruct (r_asleep _ _ _ _ _ Hrg t Ht) as [[cv Hcv] Hrem]. exists cv.
  split; [done|]. split; [|split; [done|]].
  - apply (r_mem _ _ _ _ _ Hrg). rewrite Hcv. simpl. by rewrite bool_decide_true.
  - destruct (signalled s t) eqn:Hs; [|done].
    apply (r_signalled _ _ _ _ _ Hrg) in Hs. congruence.
Qed.

(** ** Progress *)
Definition can_step (s : kstate) : Prop :=
  ∃ u a s', at_pc s u ≠ User ∧ kernel_step u a s = Some (Ok s').

(** A step that is not blocked happens. *)
Lemma can_step_intro s t a :
  kinv s → at_pc s t ≠ User → kernel_step t a s ≠ None → can_step s.
Proof.
  intros Hi Hu Hn. destruct (kernel_step t a s) as [[s'|f]|] eqn:H; [|by apply step_no_fault in H|done].
  by exists t, a, s'.
Qed.

(** The holder of a ring's lock never waits. *)
Lemma lock_holder_steps s cv : kinv s → waitset_lock s cv = true → can_step s.
Proof.
  intros Hi Hl. apply (h_some _ _ _ (ki_locks _ Hi cv)) in Hl as [u Hu].
  apply (can_step_intro s u Leave Hi); [by intros He; rewrite He in Hu|].
  unfold kernel_step, signal_turn, go. destruct (at_pc s u); try done; repeat case_match; done.
Qed.

(** The holder of the kernel mutex waits only for the lock of a ring. *)
Lemma mutex_holder_steps s : kinv s → kernel_mutex s = true → can_step s.
Proof.
  intros Hi Hm. apply (h_some _ _ _ (ki_mutex _ Hi)) in Hm as [u Hu].
  destruct (kernel_step u Leave s) as [o|] eqn:Ho.
  { apply (can_step_intro s u Leave Hi); [by intros He; rewrite He in Hu|by rewrite Ho]. }
  unfold kernel_step, signal_turn, go in Ho.
  destruct (at_pc s u) eqn:Hp; try done; repeat case_match; try done;
    by eapply lock_holder_steps.
Qed.

(** A thread inside the protocol that does not sleep. *)
Lemma awake_steps s t :
  kinv s → at_pc s t ≠ User → at_pc s t ≠ Exited → asleep s t = false → can_step s.
Proof.
  intros Hi Hu He Ha. destruct (kernel_step t Leave s) as [o|] eqn:Ho.
  { apply (can_step_intro s t Leave Hi); [done|by rewrite Ho]. }
  unfold kernel_step, signal_turn, go in Ho. rewrite Ha in Ho.
  destruct (at_pc s t) eqn:Hp; try done; repeat case_match; try done;
    first [by eapply mutex_holder_steps | by eapply lock_holder_steps].
Qed.

(** C10 (liveness). The kernel lock has no deadlock.  In every reachable state in which
    some thread is inside of a kernel call, and does not merely sleep on a
    condition of the kernel code, some thread inside of a kernel call can take its
    next step: all threads cannot be blocked on the mutexes and the semaphore. *)
Theorem kernel_lock_no_deadlock s t :
  reachable kstep kernel_init s →
  at_pc s t ≠ User → at_pc s t ≠ Exited →
  (∀ n, at_pc s t = Waiting (S n) → asleep s t = false) →
  can_step s.
Proof.
  intros Hi%reachable_kinv Hu He Hn.
  destruct (asleep s t) eqn:Ha; [|by eapply awake_steps].
  destruct (r_asleep _ _ _ _ _ (ki_rings _ Hi) t Ha) as [[[|n] Hcv] _];
    [|by specialize (Hn n Hcv)].
  assert (∃ u, at_pc s u ≠ User ∧ at_pc s u ≠ Exited ∧ asleep s u = false) as (u & ? & ? & ?);
    [|by eapply (awake_steps s u)].
  pose proof (ki_sem _ Hi) as [Hr Hh]. destruct (decide (kernel_sem s = 0)) as [Hz|Hz].
  - assert (∃ u, holds_kernel (at_pc s u) = true) as [u Hku]
      by (apply (h_some _ _ _ Hh), Z.eqb_eq, Hz).
    exists u. split; [by intros E; rewrite E in Hku|]. split; [by intros E; rewrite E in Hku|].
    apply (asleep_waiting s); [apply Hi|]. intros cv E. by rewrite E in Hku.
  - destruct (ki_live _ Hi ltac:(lia)) as [u Hru]; [exists t; unfold dormant; by rewrite Hcv|].
    unfold responsible in Hru. exists u. destruct (at_pc s u) eqn:Hpu; try done;
      (split; [done|]); (split; [done|]); try done;
      (apply (asleep_waiting s); [apply Hi|congruence]).
Qed.

(** ** A run: thread 0 enters the kernel, thread 1 goes to sleep on the semaphore,
    and thread 0 is about to signal it. *)
Fixpoint run_steps (l : list (nat * request)) (s : kstate) : kstate :=
  match l with
  | [] => s
  | (t, a) :: l =>
      match kernel_step t a s with Some (Ok s') => run_steps l s' | _ => s end
  end.

Lemma run_reach l : ∀ s, reachable kstep kernel_init s → reachable kstep kernel_init (run_steps l s).
Proof.
  induction l as [|[t a] l IH]; intros s Hr; [done|]. simpl.
  destruct (kernel_step t a s) as [[s'|]|] eqn:H; [|done..].
  apply IH. eapply reach_step; [done|]. by eapply step_thread.
Qed.

Definition demo_asleep : kstate :=
  run_steps ([(0, Enter); (0, Enter); (0, Enter)] ++ replicate 6 (1, Enter))%nat kernel_init.
Definition demo_release : kstate := run_steps [(0, Leave); (0, Leave)]%nat demo_asleep.

Lemma demo_sleeper_reach : reachable kstep kernel_init demo_asleep.
Proof. apply run_reach, reach_refl. Qed.
Lemma demo_release_reach : reachable kstep kernel_init demo_release.
Proof. apply run_reach, demo_sleeper_reach. Qed.

Lemma kernel_lock_excludes_witness :
  at_pc demo_asleep 0 = InKernel ∧ at_pc demo_asleep 1 = Waiting 0 ∧ kernel_sem demo_asleep = 0.
Proof.
  split; [reflexivity|]. split; [reflexivity|].
  apply (kernel_lock_excludes demo_asleep demo_sleeper_reach). exists 0%nat. reflexivity.
Defined.

Lemma kernel_wakeup_not_lost_witness :
  0 < kernel_sem demo_release ∧ ∃ u, responsible demo_release u.
Proof.
  assert (0 < kernel_sem demo_release) as H by reflexivity. split; [exact H|].
  apply (kernel_wakeup_not_lost demo_release demo_release_reach); [exact H|].
  exists 1%nat. reflexivity.
Defined.

Lemma kernel_lock_no_deadlock_witness :
  at_pc demo_asleep 1 = Waiting 0 ∧ can_step demo_asleep.
Proof.
  split; [reflexivity|].
  apply (kernel_lock_no_deadlock demo_asleep 1 demo_sleeper_reach); [discriminate..|].
  intros n H. discriminate H.
Defined.
