(* ===== verification/Kernel.v ===== *)
(** * The state of the kernel

    Process control blocks (kernel_proc.h), process-thread control blocks
    (kernel_sched.h), file control blocks (kernel_streams.h), the device table
    (kernel_dev.c), and the monad in which the system calls of [Streams.v],
    [Devices.v], [Proc.v] and [Threads.v] run.  A system call runs with the kernel
    lock held ([KernelLock.v]), so up to the point where it waits it is one step.

    The intrusive lists are Rocq lists of the objects whose nodes they link, which
    [RList.v] justifies. *)
From S2P Require Import Prelude Bios Sched.
Local Open Scope Z_scope.

(** ** Data *)
Definition NOPROC : Z := -1.
Definition NOFILE : Z := -1.
Definition MAX_PROC : Z := 65536.
Definition MAX_FILEID : nat := 16.

Inductive pid_state := FREE | ALIVE | ZOMBIE.
#[export] Instance pid_state_eq_dec : EqDecision pid_state.
Proof. solve_decision. Defined.

(** [PCB*] is an index of the process table, [FCB*] one of the file table. *)
Abbreviation pcb_ptr := nat (only parsing).
Abbreviation fcb_ptr := nat (only parsing).

(** A [Task] is a function of the user's program; [None] is the null pointer. *)
Definition Task := option nat.

(** [pargs] is a buffer of the kernel's heap. *)
Record PCB := MkPCB {
  pstate : pid_state;
  parent : option nat;
  exitval : Z;
  thread_list : list ptcb_ptr;
  thread_count : Z;
  main_task : Task;
  pargl : Z;
  pargs : option nat;
  children_list : list nat;
  exited_list : list nat;
  FIDT : list (option nat) }.

Definition set_pstate v p := MkPCB v (parent p) (exitval p) (thread_list p) (thread_count p)
  (main_task p) (pargl p) (pargs p) (children_list p) (exited_list p) (FIDT p).
Definition set_parent v p := MkPCB (pstate p) v (exitval p) (thread_list p) (thread_count p)
  (main_task p) (pargl p) (pargs p) (children_list p) (exited_list p) (FIDT p).
Definition set_exitval v p := MkPCB (pstate p) (parent p) v (thread_list p) (thread_count p)
  (main_task p) (pargl p) (pargs p) (children_list p) (exited_list p) (FIDT p).
Definition set_thread_list v p := MkPCB (pstate p) (parent p) (exitval p) v (thread_count p)
  (main_task p) (pargl p) (pargs p) (children_list p) (exited_list p) (FIDT p).
Definition set_thread_count v p := MkPCB (pstate p) (parent p) (exitval p) (thread_list p) v
  (main_task p) (pargl p) (pargs p) (children_list p) (exited_list p) (FIDT p).
Definition set_main v l a p := MkPCB (pstate p) (parent p) (exitval p) (thread_list p)
  (thread_count p) v l a (children_list p) (exited_list p) (FIDT p).
Definition set_children_list v p := MkPCB (pstate p) (parent p) (exitval p) (thread_list p)
  (thread_count p) (main_task p) (pargl p) (pargs p) v (exited_list p) (FIDT p).
Definition set_exited_list v p := MkPCB (pstate p) (parent p) (exitval p) (thread_list p)
  (thread_count p) (main_task p) (pargl p) (pargs p) (children_list p) v (FIDT p).
Definition set_FIDT v p := MkPCB (pstate p) (parent p) (exitval p) (thread_list p)
  (thread_count p) (main_task p) (pargl p) (pargs p) (children_list p) (exited_list p) v.

(** [exitval] is not initialised when the block is allocated; [pt_args] is a
    pointer of the caller that the kernel only hands on. *)
Record PTCB := MkPTCB {
  pt_tcb : tid;
  detached : bool;
  exited : bool;
  ref_count : Z;
  pt_exitval : option Z;
  pt_task : Task;
  pt_argl : Z;
  pt_args : Z }.

Definition set_detached v p := MkPTCB (pt_tcb p) v (exited p) (ref_count p) (pt_exitval p)
  (pt_task p) (pt_argl p) (pt_args p).
Definition set_ref_count v p := MkPTCB (pt_tcb p) (detached p) (exited p) v (pt_exitval p)
  (pt_task p) (pt_argl p) (pt_args p).
(** What [sys_ThreadExit] writes. *)
Definition set_exited v p := MkPTCB (pt_tcb p) (detached p) true (ref_count p) (Some v)
  (pt_task p) (pt_argl p) 0.

Inductive Device_type := DEV_NULL | DEV_SERIAL.
#[export] Instance Device_type_eq_dec : EqDecision Device_type.
Proof. solve_decision. Defined.

(** The tables of stream functions: of the two devices, and of console.c. *)
Inductive file_ops := nulldev_fops | serial_fops | stdio_ops.
#[export] Instance file_ops_eq_dec : EqDecision file_ops.
Proof. solve_decision. Defined.

(** [streamobj]: a terminal's block for a serial device, null otherwise. *)
Record FCB := MkFCB {
  refcount : Z;
  streamobj : option nat;
  streamfunc : option file_ops }.
Definition set_refcount v f := MkFCB v (streamobj f) (streamfunc f).

(** The condition variables that system calls wait on: [child_exit] of a process,
    [exit_cv] of a thread, [rx_ready] of a terminal. *)
Inductive channel := ChildExit (p : nat) | ExitCv (p : ptcb_ptr) | RxReady (term : nat).
#[export] Instance channel_eq_dec : EqDecision channel.
Proof. solve_decision. Defined.

(** [kbufs] are the live blocks that [malloc] returned for argument buffers;
    [devnum] are the numbers of devices in [devtable], by device type. *)
Record kernel := MkKernel {
  ksched : sched;
  PT : list PCB;
  pcb_freelist : option nat;
  process_count : Z;
  ptcbs : gmap ptcb_ptr PTCB;
  next_ptcb : ptcb_ptr;
  kbufs : gmap nat (list Z);
  next_buf : nat;
  FT : list FCB;
  FCB_freelist : list nat;
  devnum : list nat;
  waiting : list (channel * tid) }.

Definition set_ksched v s := MkKernel v (PT s) (pcb_freelist s) (process_count s) (ptcbs s)
  (next_ptcb s) (kbufs s) (next_buf s) (FT s) (FCB_freelist s) (devnum s) (waiting s).
Definition set_PT v s := MkKernel (ksched s) v (pcb_freelist s) (process_count s) (ptcbs s)
  (next_ptcb s) (kbufs s) (next_buf s) (FT s) (FCB_freelist s) (devnum s) (waiting s).
Definition set_pcb_freelist v s := MkKernel (ksched s) (PT s) v (process_count s) (ptcbs s)
  (next_ptcb s) (kbufs s) (next_buf s) (FT s) (FCB_freelist s) (devnum s) (waiting s).
Definition set_process_count v s := MkKernel (ksched s) (PT s) (pcb_freelist s) v (ptcbs s)
  (next_ptcb s) (kbufs s) (next_buf s) (FT s) (FCB_freelist s) (devnum s) (waiting s).
Definition set_ptcbs v s := MkKernel (ksched s) (PT s) (pcb_freelist s) (process_count s) v
  (next_ptcb s) (kbufs s) (next_buf s) (FT s) (FCB_freelist s) (devnum s) (waiting s).
Definition set_next_ptcb v s := MkKernel (ksched s) (PT s) (pcb_freelist s) (process_count s)
  (ptcbs s) v (kbufs s) (next_buf s) (FT s) (FCB_freelist s) (devnum s) (waiting s).
Definition set_kbufs v n s := MkKernel (ksched s) (PT s) (pcb_freelist s) (process_count s)
  (ptcbs s) (next_ptcb s) v n (FT s) (FCB_freelist s) (devnum s) (waiting s).
Definition set_FT v s := MkKernel (ksched s) (PT s) (pcb_freelist s) (process_count s)
  (ptcbs s) (next_ptcb s) (kbufs s) (next_buf s) v (FCB_freelist s) (devnum s) (waiting s).
Definition set_FCB_freelist v s := MkKernel (ksched s) (PT s) (pcb_freelist s) (process_count s)
  (ptcbs s) (next_ptcb s) (kbufs s) (next_buf s) (FT s) v (devnum s) (waiting s).
Definition set_devnum v s := MkKernel (ksched s) (PT s) (pcb_freelist s) (process_count s)
  (ptcbs s) (next_ptcb s) (kbufs s) (next_buf s) (FT s) (FCB_freelist s) v (waiting s).
Definition set_waiting v s := MkKernel (ksched s) (PT s) (pcb_freelist s) (process_count s)
  (ptcbs s) (next_ptcb s) (kbufs s) (next_buf s) (FT s) (FCB_freelist s) (devnum s) v.

Abbreviation KM := (M kernel).

(** ** Access to the blocks *)
Definition get_PCB (p : nat) : KM PCB := s ← get; get_some OutOfBounds (PT s !! p).
Definition upd_PCB (p : nat) (f : PCB → PCB) : KM unit :=
  b ← get_PCB p; modify (λ s, set_PT (<[p := f b]> (PT s)) s).
Definition get_FCB (f : nat) : KM FCB := s ← get; get_some OutOfBounds (FT s !! f).
Definition upd_FCB (f : nat) (g : FCB → FCB) : KM unit :=
  b ← get_FCB f; modify (λ s, set_FT (<[f := g b]> (FT s)) s).
Definition get_PTCB (p : ptcb_ptr) : KM PTCB :=
  s ← get; get_some UseAfterFree (ptcbs s !! p).
Definition upd_PTCB (p : ptcb_ptr) (g : PTCB → PTCB) : KM unit :=
  b ← get_PTCB p; modify (λ s, set_ptcbs (<[p := g b]> (ptcbs s)) s).
Definition free_PTCB (p : ptcb_ptr) : KM unit :=
  get_PTCB p ;; modify (λ s, set_ptcbs (delete p (ptcbs s)) s).

Definition on_ksched {A} : SM A → KM A := zoom ksched set_ksched.

(** [CURPROC] on core [c]. *)
Definition CURPROC (c : nat) : KM nat :=
  self ← on_ksched (CURTHREAD c);
  k ← on_ksched (get_tcb self);
  if decide (0 ≤ owner_pcb k) then mret (Z.to_nat (owner_pcb k)) else raise NullDeref.

(** [malloc(n)] and [memcpy(_, src, n)] from a block that holds [src]. *)
Definition malloc_copy (n : Z) (src : list Z) : KM nat :=
  s ← get;
  (if decide (0 ≤ n ≤ Z.of_nat (length src)) then mret tt else raise OutOfBounds) ;;
  modify (set_kbufs (<[next_buf s := take (Z.to_nat n) src]> (kbufs s)) (S (next_buf s))) ;;
  mret (next_buf s).
Definition free_buf (b : nat) : KM unit :=
  s ← get;
  get_some UseAfterFree (kbufs s !! b) ;;
  modify (set_kbufs (delete b (kbufs s)) (next_buf s)).

(** ** Waiting *)

(** [kernel_wait(cv, cause)] on core [c], up to the sleep of the current thread:
    it is in the ring of [ch] and marked as stopped. *)
Definition kernel_wait (ch : channel) (c : nat) : KM unit :=
  self ← on_ksched (CURTHREAD c);
  modify (λ s, set_waiting (waiting s ++ [(ch, self)]) s) ;;
  on_ksched (sleep_mark c STOPPED NO_TIMEOUT).

(** [kernel_sleep(newstate, cause)] on core [c], up to the call of [yield]. *)
Definition kernel_sleep (c : nat) (newstate : Thread_state) : KM unit :=
  on_ksched (sleep_mark c newstate NO_TIMEOUT).

(** [kernel_broadcast(cv)] wakes up the threads of the ring, in order. *)
Definition on_channel (c : channel) (l : list (channel * tid)) : list tid :=
  (filter (λ w, w.1 = c) l).*2.
Definition kernel_broadcast (c : channel) : KM unit :=
  s ← get;
  modify (set_waiting (filter (λ w, w.1 ≠ c) (waiting s))) ;;
  for_each (on_channel c (waiting s)) (λ t, on_ksched (wakeup t) ;; mret tt).

(** ** Lemmas on the accessors *)
Lemma get_PCB_run s p b : PT s !! p = Some b → get_PCB p s = Ok (b, s).
Proof. intros H. unfold get_PCB. unfold_monad. by rewrite H. Qed.
Lemma upd_PCB_run s p b f :
  PT s !! p = Some b → upd_PCB p f s = Ok (tt, set_PT (<[p := f b]> (PT s)) s).
Proof. intros H. unfold upd_PCB. by rewrite (bind_run _ _ _ _ _ (get_PCB_run _ _ _ H)). Qed.
Lemma get_FCB_run s f b : FT s !! f = Some b → get_FCB f s = Ok (b, s).
Proof. intros H. unfold get_FCB. unfold_monad. by rewrite H. Qed.
Lemma upd_FCB_run s f b g :
  FT s !! f = Some b → upd_FCB f g s = Ok (tt, set_FT (<[f := g b]> (FT s)) s).
Proof. intros H. unfold upd_FCB. by rewrite (bind_run _ _ _ _ _ (get_FCB_run _ _ _ H)). Qed.
Lemma get_PTCB_run s p b : ptcbs s !! p = Some b → get_PTCB p s = Ok (b, s).
Proof. intros H. unfold get_PTCB. unfold_monad. by rewrite H. Qed.
Lemma get_PTCB_freed s p : ptcbs s !! p = None → get_PTCB p s = Fault UseAfterFree.
Proof. intros H. unfold get_PTCB. unfold_monad. by rewrite H. Qed.
Lemma upd_PTCB_run s p b g :
  ptcbs s !! p = Some b → upd_PTCB p g s = Ok (tt, set_ptcbs (<[p := g b]> (ptcbs s)) s).
Proof. intros H. unfold upd_PTCB. by rewrite (bind_run _ _ _ _ _ (get_PTCB_run _ _ _ H)). Qed.
Lemma free_PTCB_run s p b :
  ptcbs s !! p = Some b → free_PTCB p s = Ok (tt, set_ptcbs (delete p (ptcbs s)) s).
Proof. intros H. unfold free_PTCB. by rewrite (bind_run _ _ _ _ _ (get_PTCB_run _ _ _ H)). Qed.

Lemma on_ksched_run {A} (m : SM A) s a v :
  m (ksched s) = Ok (a, v) → on_ksched m s = Ok (a, set_ksched v s).
Proof. intros H. unfold on_ksched, zoom. by rewrite H. Qed.

(** Core [c] runs thread [self] of process [p]. *)
Definition runs_in (s : kernel) (c : nat) (self : tid) (p : nat) : Prop :=
  ∃ b k, cctx (ksched s) !! c = Some b ∧ current_thread b = self ∧
    Sched.tcbs (ksched s) !! self = Some k ∧ owner_pcb k = Z.of_nat p.

Lemma set_ksched_id s : set_ksched (ksched s) s = s.
Proof. by destruct s. Qed.

Lemma CURTHREAD_run s c self p :
  runs_in s c self p → on_ksched (CURTHREAD c) s = Ok (self, s).
Proof.
  intros (b & k & Hb & <- & _). unfold on_ksched, zoom, CURTHREAD, get_ccb. unfold_monad.
  rewrite Hb. by rewrite set_ksched_id.
Qed.

Lemma CURPROC_run s c self p : runs_in s c self p → CURPROC c s = Ok (p, s).
Proof.
  intros Hr. unfold CURPROC. mrun ltac:(by eapply CURTHREAD_run).
  destruct Hr as (b & k & _ & _ & Hk & Ho).
  assert (get_tcb self (ksched s) = Ok (k, ksched s)) as Hg
    by (unfold get_tcb; unfold_monad; by rewrite Hk).
  mrun ltac:(by apply on_ksched_run). rewrite set_ksched_id, Ho.
  rewrite decide_True by lia. by rewrite Nat2Z.id.
Qed.
