(* ===== verification/Devices.v ===== *)
(** * Devices (kernel_dev.c)

    The null device, the serial driver and the device table.  What the host
    delivers to a serial port, and whether it takes a byte, are arguments of the
    operations, as in [Bios.v]. *)
From S2P Require Import Prelude Bios Sched Kernel.
Local Open Scope Z_scope.

Definition on_machine {A} (m : BM A) : KM A := on_ksched (on_vm m).

(** ** The null device *)
Definition nulldev_read (size : Z) : Z * list Z := (i32 size, replicate (Z.to_nat size) 0).
Definition nulldev_write (buf : list Z) (size : Z) : Z := i32 size.
Definition nulldev_close : Z := 0.
Definition nulldev_open (minor : nat) : option nat := None.

(** ** The serial device *)

(** What a driver's read or write comes to: a count (and the bytes of a read), or
    the thread has to wait: for [rx_ready], or, polling, for its next time slice. *)
Inductive transfer := Moved (count : Z) (bytes : list Z) | MustWait.

(** The loop of [serial_read]; [avail] are the bytes that the host has ready, [n]
    the room that is left in the buffer and [got] what was read before. *)
Fixpoint serial_read_loop (term n : nat) (got avail : list Z) : KM transfer :=
  match n with
  | O => mret (Moved (i32 (Z.of_nat (length got))) got)
  | S n =>
      valid ← on_machine (bios_read_serial term (head avail));
      match valid with
      | Some b => serial_read_loop term n (got ++ [b]) (tail avail)
      | None =>
          if decide (got = []) then mret MustWait
          else mret (Moved (i32 (Z.of_nat (length got))) got)
      end
  end.
(** [serial_read] on core [c]: preemption is off from the start to the end, over a
    wait as well. *)
Definition serial_read (c term : nat) (size : Z) (avail : list Z) : KM transfer :=
  on_ksched (set_core_preemption c false) ;;
  t ← serial_read_loop term (Z.to_nat size) [] avail;
  match t with
  | Moved _ _ => on_ksched (set_core_preemption c true) ;; mret t
  | MustWait => mret t
  end.

(** The loop of [serial_write]; [room] is how many bytes the host takes. *)
Fixpoint serial_write_loop (term : nat) (buf : list Z) (count room : nat) : KM transfer :=
  match buf with
  | [] => mret (Moved (i32 (Z.of_nat count)) [])
  | b :: buf =>
      sent ← on_machine (bios_write_serial term b (bool_decide (0 < room)%nat));
      if sent : bool then serial_write_loop term buf (S count) (pred room)
      else if decide (count = 0%nat) then mret MustWait
      else mret (Moved (i32 (Z.of_nat count)) [])
  end.
(** A full port makes the C code yield with the kernel lock held; here other threads may
    make calls meanwhile. *)
Definition serial_write (term : nat) (buf : list Z) (size : Z) (room : nat) : KM transfer :=
  serial_write_loop term (take (Z.to_nat size) buf) 0 room.

Definition serial_close : Z := 0.
Definition serial_open (term : nat) : KM (option nat) :=
  n ← on_machine bios_serial_ports;
  c_assert (bool_decide (term < n)%nat) ;;
  mret (Some term).

(** [serial_rx_handler] on core [c]: the waiting readers of all ports. *)
Definition serial_rx_handler (c : nat) : KM unit :=
  pre ← on_ksched (set_core_preemption c false);
  n ← on_machine bios_serial_ports;
  for_each (seq 0 n) (λ i, kernel_broadcast (RxReady i)) ;;
  when pre (on_ksched (set_core_preemption c true) ;; mret tt).
Definition serial_tx_handler : KM unit := mret tt.

(** ** The streams of console.c

    [turns]: what each call of [fread] stores, and whether it leaves the error
    indicator set; a call that does not return ends them.  [room]: how many bytes
    [fwrite] takes. *)
Fixpoint stdio_read (size : Z) (turns : list (list Z * bool)) : option (Z * list Z) :=
  match turns with
  | [] => None
  | (avail, err) :: turns =>
      let got := take (Z.to_nat size) avail in
      if err : bool then stdio_read size turns else Some (i32 (Z.of_nat (length got)), got)
  end.
Definition stdio_write (buf : list Z) (size : Z) (room : nat) : Z :=
  i32 (Z.of_nat (Nat.min room (length (take (Z.to_nat size) buf)))).
Definition stdio_close : Z := 0.

(** ** The device table *)
Definition major_no (d : Device_type) : nat :=
  match d with DEV_NULL => 0 | DEV_SERIAL => 1 end%nat.

(** [initialize_devices] on core [c]. *)
Definition initialize_devices (c : nat) : KM unit :=
  n ← on_machine bios_serial_ports;
  modify (set_devnum [1%nat; n]) ;;
  for_each (seq 0 n) (λ i, modify (λ s,
    set_waiting (filter (λ w, w.1 ≠ RxReady i) (waiting s)) s)) ;;
  on_machine (cpu_interrupt_handler c SERIAL_RX_READY (Some Bios.serial_rx_handler)) ;;
  on_machine (cpu_interrupt_handler c SERIAL_TX_READY (Some Bios.serial_tx_handler)).

Definition device_no (major : Device_type) : KM nat :=
  s ← get; get_some OutOfBounds (devnum s !! major_no major).

Definition dev_fops (major : Device_type) : file_ops :=
  match major with DEV_NULL => nulldev_fops | DEV_SERIAL => serial_fops end.

(** [Open] of a device, and [Read], [Write] and [Close] of a table of functions. *)
Definition dev_open (major : Device_type) (minor : nat) : KM (option nat) :=
  match major with DEV_NULL => mret (nulldev_open minor) | DEV_SERIAL => serial_open minor end.
Definition dev_read (c : nat) (ops : file_ops) (obj : option nat) (size : Z)
    (avail : list Z) : KM transfer :=
  match ops with
  | nulldev_fops => mret (Moved (nulldev_read size).1 (nulldev_read size).2)
  | serial_fops => term ← get_some NullDeref obj; serial_read c term size avail
  | stdio_ops =>
      r ← get_some OutOfFuel (stdio_read size [(avail, false)]); mret (Moved r.1 r.2)
  end.
Definition dev_write (ops : file_ops) (obj : option nat) (buf : list Z) (size : Z)
    (room : nat) : KM transfer :=
  match ops with
  | nulldev_fops => mret (Moved (nulldev_write buf size) [])
  | serial_fops => term ← get_some NullDeref obj; serial_write term buf size room
  | stdio_ops => mret (Moved (stdio_write buf size room) [])
  end.
Definition dev_close (ops : file_ops) : Z :=
  match ops with
  | nulldev_fops => nulldev_close
  | serial_fops => serial_close
  | stdio_ops => stdio_close
  end.

(** [device_open(major, minor, &obj, &ops)]: [None] stands for -1. *)
Definition device_open (major : Device_type) (minor : Z)
  : KM (option (option nat * file_ops)) :=
  n ← device_no major;
  if decide (Z.of_nat n ≤ minor) then mret None
  else obj ← dev_open major (Z.to_nat minor); mret (Some (obj, dev_fops major)).
