(* ===== verification/Streams.v ===== *)
(** * Streams (kernel_streams.c)

    The file table, its free list, the file ids of the processes, and the system
    calls on streams.  [c] is the core that executes the call. *)
From S2P Require Import Prelude Bios Sched Kernel Devices.
Local Open Scope Z_scope.

Definition MAX_FILES : Z := MAX_PROC.

(** ** The file table *)

(** [initialize_files] over a table of [n] control blocks. *)
Definition clear_FCB (f : nat) : KM unit :=
  upd_FCB f (set_refcount 0) ;; modify (λ s, set_FCB_freelist (FCB_freelist s ++ [f]) s).
Definition initialize_files (n : nat) : KM unit :=
  modify (set_FCB_freelist []) ;; for_each (seq 0 n) clear_FCB.

Definition acquire_FCB : KM (option nat) :=
  s ← get;
  match FCB_freelist s with
  | [] => mret None
  | f :: l =>
      modify (set_FCB_freelist l) ;;
      upd_FCB f (set_refcount 0) ;;
      mret (Some f)
  end.

Definition release_FCB (f : nat) : KM unit :=
  modify (λ s, set_FCB_freelist (FCB_freelist s ++ [f]) s).

Definition FCB_incref (f : nat) : KM unit :=
  upd_FCB f (λ b, set_refcount (u32 (refcount b + 1)) b).

Definition FCB_decref (f : nat) : KM Z :=
  upd_FCB f (λ b, set_refcount (u32 (refcount b - 1)) b) ;;
  b ← get_FCB f;
  if decide (refcount b = 0) then
    d ← get_some NullDeref (streamfunc b);
    release_FCB f ;;
    mret (dev_close d)
  else mret 0.

(** ** Reservation *)

(** The inner loop of [FCB_reserve] skips the ids that are in use, the outer one
    takes [num] of them; [fidt] is the table from id [f] on. *)
Fixpoint find_fids (num f : nat) (fidt : list (option nat)) : option (list nat) :=
  match num, fidt with
  | O, _ => Some []
  | S _, [] => None
  | S _, Some _ :: fidt => find_fids num (S f) fidt
  | S num, None :: fidt => (f ::.) <$> find_fids num (S f) fidt
  end.

Fixpoint acquire_FCBs (num : nat) : KM (list nat) :=
  match num with
  | O => mret []
  | S num =>
      o ← acquire_FCB;
      match o with
      | None => mret []
      | Some f => l ← acquire_FCBs num; mret (f :: l)
      end
  end.

Definition connect (p : nat) (x : nat * nat) : KM unit :=
  upd_PCB p (λ b, set_FIDT (<[x.1 := Some x.2]> (FIDT b)) b) ;; FCB_incref x.2.

Definition FCB_reserve (c : nat) (num : nat) : KM (option (list nat * list nat)) :=
  p ← CURPROC c;
  b ← get_PCB p;
  match find_fids num 0 (FIDT b) with
  | None => mret None
  | Some fids =>
      fcbs ← acquire_FCBs num;
      if decide (length fcbs < num)%nat then
        for_each (rev fcbs) release_FCB ;; mret None
      else
        for_each (zip fids fcbs) (connect p) ;; mret (Some (fids, fcbs))
  end.

Definition disconnect (p : nat) (x : nat * nat) : KM unit :=
  b ← get_PCB p;
  c_assert (bool_decide (FIDT b !! x.1 = Some (Some x.2))) ;;
  upd_PCB p (λ b, set_FIDT (<[x.1 := None]> (FIDT b)) b) ;;
  release_FCB x.2.
Definition FCB_unreserve (c : nat) (fids fcbs : list nat) : KM unit :=
  p ← CURPROC c; for_each (zip fids fcbs) (disconnect p).

(** ** System calls *)
Definition valid_fid (fd : Z) : bool := (0 <=? fd) && (fd <? Z.of_nat MAX_FILEID).

Definition get_fcb (c : nat) (fd : Z) : KM (option nat) :=
  if valid_fid fd then
    p ← CURPROC c;
    b ← get_PCB p;
    get_some OutOfBounds (FIDT b !! Z.to_nat fd)
  else mret None.

(** What a call of [Read] or [Write] comes to: it returns, or the thread waits for
    the device inside of it, holding a reference to the stream. *)
Inductive io_result := IoDone (ret : Z) (bytes : list Z) | IoBlocked (f : nat).

(** After the device's function; a wait for the serial port is in its ring. *)
Definition io_end (c f : nat) (obj : option nat) (reading : bool) (t : transfer) : KM io_result :=
  match t with
  | Moved n bytes => FCB_decref f ;; mret (IoDone n bytes)
  | MustWait =>
      term ← get_some NullDeref obj;
      when reading (kernel_wait (RxReady term) c) ;;
      mret (IoBlocked f)
  end.

(** [devread(sobj, buf, size)] on the stream [f], from the start or after a wait.
    The code keeps [sobj] and the function in variables; those of the stream are the
    same as long as the call holds its reference. *)
Definition read_device (c f : nat) (size : Z) (avail : list Z) : KM io_result :=
  b ← get_FCB f;
  d ← get_some NullDeref (streamfunc b);
  t ← dev_read c d (streamobj b) size avail;
  io_end c f (streamobj b) true t.
Definition write_device (c f : nat) (buf : list Z) (size : Z) (room : nat) : KM io_result :=
  b ← get_FCB f;
  d ← get_some NullDeref (streamfunc b);
  t ← dev_write d (streamobj b) buf size room;
  io_end c f (streamobj b) false t.

Definition sys_Read (c : nat) (fd size : Z) (avail : list Z) : KM io_result :=
  o ← get_fcb c fd;
  match o with
  | None => mret (IoDone (-1) [])
  | Some f => FCB_incref f ;; read_device c f size avail
  end.

Definition sys_Write (c : nat) (fd : Z) (buf : list Z) (size : Z) (room : nat) : KM io_result :=
  o ← get_fcb c fd;
  match o with
  | None => mret (IoDone (-1) [])
  | Some f => FCB_incref f ;; write_device c f buf size room
  end.

Definition sys_Close (c : nat) (fd : Z) : KM Z :=
  let retcode := if valid_fid fd then 0 else -1 in
  o ← get_fcb c fd;
  match o with
  | None => mret retcode
  | Some f =>
      p ← CURPROC c;
      upd_PCB p (λ b, set_FIDT (<[Z.to_nat fd := None]> (FIDT b)) b) ;;
      FCB_decref f
  end.

Definition sys_Dup2 (c : nat) (oldfd newfd : Z) : KM Z :=
  if negb (valid_fid oldfd && valid_fid newfd) then mret (-1)
  else
    old ← get_fcb c oldfd;
    new ← get_fcb c newfd;
    match old with
    | None => mret (-1)
    | Some f =>
        (if decide (old = new) then mret tt
         else
           (match new with Some g => FCB_decref g ;; mret tt | None => mret tt end) ;;
           FCB_incref f ;;
           p ← CURPROC c;
           upd_PCB p (λ b, set_FIDT (<[Z.to_nat newfd := old]> (FIDT b)) b)) ;;
        mret 0
    end.

Definition sys_GetTerminalDevices : KM Z := n ← device_no DEV_SERIAL; mret (Z.of_nat n).

Definition open_stream (c : nat) (major : Device_type) (minor : Z) : KM Z :=
  r ← FCB_reserve c 1;
  match r with
  | Some ([fid], [f]) =>
      o ← device_open major minor;
      match o with
      | Some (obj, ops) =>
          upd_FCB f (λ b, MkFCB (refcount b) obj (Some ops)) ;; mret (Z.of_nat fid)
      | None => FCB_unreserve c [fid] [f] ;; mret NOFILE
      end
  | _ => mret NOFILE
  end.
Definition sys_OpenNull (c : nat) : KM Z := open_stream c DEV_NULL 0.
Definition sys_OpenTerminal (c : nat) (termno : Z) : KM Z := open_stream c DEV_SERIAL termno.

(** kernel_pipe.c and kernel_socket.c *)
Definition sys_Pipe : Z := -1.
Definition sys_Socket (port : Z) : Z := NOFILE.
Definition sys_Listen (sock : Z) : Z := -1.
Definition sys_Accept (lsock : Z) : Z := NOFILE.
Definition sys_Connect (sock port timeout : Z) : Z := -1.
Definition sys_ShutDown (sock how : Z) : Z := -1.
