(* ===== verification/StreamInv.v ===== *)
(** * The reference counts of streams

    The invariant of the file table: the reference count of a stream is the number
    of file ids that name it, in all processes, plus the number of references that
    calls in progress hold; a stream is in the free list iff there are none.  The
    operations move single references: [FCB_incref] makes one, storing it in a
    table of file ids gives it away, [FCB_decref] drops it. *)
From S2P Require Import Prelude Bios Sched Kernel Devices Streams.
Local Open Scope Z_scope.

(** ** Counting references *)
Definition cnt (f : nat) (l : list (option nat)) : nat := length (filter (λ o, o = Some f) l).
Definition fidt_refs (pt : list PCB) (f : nat) : nat := cnt f (concat (FIDT <$> pt)).
Definition one (f : nat) (o : option nat) : nat := if decide (o = Some f) then 1%nat else 0%nat.

Lemma cnt_app f l1 l2 : cnt f (l1 ++ l2) = (cnt f l1 + cnt f l2)%nat.
Proof. unfold cnt. by rewrite filter_app, length_app. Qed.

Lemma cnt_cons f o l : cnt f (o :: l) = (one f o + cnt f l)%nat.
Proof. unfold cnt, one. rewrite filter_cons. by case_decide. Qed.

Lemma cnt_insert f l i o o' :
  l !! i = Some o → (cnt f (<[i := o']> l) + one f o = cnt f l + one f o')%nat.
Proof.
  revert i. induction l as [|x l IH]; intros [|i] Hi; simplify_eq/=; rewrite !cnt_cons; [lia|].
  specialize (IH i Hi). lia.
Qed.

Lemma cnt_pos f l i : l !! i = Some (Some f) → (0 < cnt f l)%nat.
Proof.
  revert i. induction l as [|x l IH]; intros [|i] Hi; simplify_eq/=; rewrite cnt_cons.
  - unfold one. rewrite decide_True by done. lia.
  - specialize (IH i Hi). lia.
Qed.

Lemma fidt_refs_update pt p b b' f :
  pt !! p = Some b →
  (fidt_refs (<[p := b']> pt) f + cnt f (FIDT b) = fidt_refs pt f + cnt f (FIDT b'))%nat.
Proof.
  unfold fidt_refs. revert p. induction pt as [|x pt IH]; intros [|p] Hp; simplify_eq/=;
    rewrite !cnt_app; [lia|]. specialize (IH p Hp). lia.
Qed.

(** Changing one file id. *)
Lemma fidt_refs_set pt p b fd o o' f :
  pt !! p = Some b → FIDT b !! fd = Some o →
  (fidt_refs (<[p := set_FIDT (<[fd := o']> (FIDT b)) b]> pt) f + one f o
   = fidt_refs pt f + one f o')%nat.
Proof.
  intros Hp Hfd. pose proof (fidt_refs_update pt p b (set_FIDT (<[fd := o']> (FIDT b)) b) f Hp) as H1.
  pose proof (cnt_insert f (FIDT b) fd o o' Hfd) as H2. simpl in H1. lia.
Qed.

Lemma fidt_refs_pos pt p b fd f :
  pt !! p = Some b → FIDT b !! fd = Some (Some f) → (0 < fidt_refs pt f)%nat.
Proof.
  intros Hp Hfd. pose proof (fidt_refs_set pt p b fd (Some f) None f Hp Hfd) as H.
  unfold one in H. rewrite decide_True in H by done. rewrite decide_False in H by done. lia.
Qed.

Lemma cnt_le f l : (cnt f l ≤ length l)%nat.
Proof. apply length_filter. Qed.

Lemma fidt_refs_le pt f :
  (∀ p b, pt !! p = Some b → length (FIDT b) = MAX_FILEID) →
  (fidt_refs pt f ≤ MAX_FILEID * length pt)%nat.
Proof.
  intros Hl. unfold fidt_refs. etrans; [apply cnt_le|].
  induction pt as [|b pt IH]; [simpl; lia|].
  rewrite fmap_cons. cbn [concat length]. rewrite length_app, (Hl 0%nat b) by done.
  assert (length (concat (FIDT <$> pt)) ≤ MAX_FILEID * length pt)%nat; [|unfold MAX_FILEID in *; lia].
  apply IH. intros p b'. apply (Hl (S p)).
Qed.

(** ** The invariant

    [infl f]: the references that calls in progress hold; [acq]: the streams taken
    from the free list that nobody refers to yet. *)
Definition add_ref (f : nat) (infl : nat → nat) : nat → nat :=
  λ g, if decide (g = f) then S (infl g) else infl g.

Lemma add_ref_one f infl g : (add_ref f infl g + one g None = infl g + one g (Some f))%nat.
Proof.
  unfold add_ref, one. rewrite (decide_False (P := None = Some g)) by done.
  destruct (decide (g = f)) as [->|Hg].
  - rewrite decide_True by done. lia.
  - rewrite decide_False by congruence. lia.
Qed.

Record counts_ok (infl : nat → nat) (acq : list nat) (s : kernel) : Prop := CountsOk {
  fo_length : ∀ p b, PT s !! p = Some b → length (FIDT b) = MAX_FILEID;
  fo_procs : Z.of_nat (length (PT s)) ≤ MAX_PROC;
  fo_infl : ∀ f, Z.of_nat (infl f) < 2 ^ 31;
  fo_nodup : NoDup (FCB_freelist s ++ acq);
  fo_free_valid : ∀ f, f ∈ FCB_freelist s ++ acq → is_Some (FT s !! f);
  fo_free : ∀ f, f ∈ FCB_freelist s ++ acq → (fidt_refs (PT s) f + infl f = 0)%nat;
  fo_acq : ∀ f b, FT s !! f = Some b → f ∈ acq → refcount b = 0;
  fo_used : ∀ f b, FT s !! f = Some b → f ∉ FCB_freelist s ++ acq →
    refcount b = Z.of_nat (fidt_refs (PT s) f + infl f) ∧ (0 < fidt_refs (PT s) f + infl f)%nat;
  fo_valid : ∀ f, (0 < fidt_refs (PT s) f + infl f)%nat → is_Some (FT s !! f) }.

(** A stream in use has its device. *)
Definition device_ok (s : kernel) (b : FCB) : Prop :=
  match streamfunc b with
  | Some nulldev_fops | Some stdio_ops => True
  | Some serial_fops => ∃ t n, streamobj b = Some t ∧ devnum s !! 1%nat = Some n ∧ (t < n)%nat
  | None => False
  end.
Definition devices_ok (acq : list nat) (s : kernel) : Prop :=
  ∀ f b, FT s !! f = Some b → f ∉ FCB_freelist s ++ acq → device_ok s b.

Definition files_ok (infl : nat → nat) (s : kernel) : Prop :=
  counts_ok infl [] s ∧ devices_ok [] s.

Lemma counts_ok_ext infl infl' acq s :
  (∀ f, infl' f = infl f) → counts_ok infl acq s → counts_ok infl' acq s.
Proof.
  intros He [H1 H2 H3 H4 H5 H6 H7 H8 H9].
  split; try done; intros f; rewrite ?He; auto.
Qed.

(** The invariant looks at the process table through its file ids only. *)
Lemma counts_ok_frame infl acq s s' :
  PT s' = PT s → FT s' = FT s → FCB_freelist s' = FCB_freelist s →
  counts_ok infl acq s → counts_ok infl acq s'.
Proof. intros HP HF HL [H1 H2 H3 H4 H5 H6 H7 H8 H9]. split; rewrite ?HP, ?HF, ?HL; done. Qed.

Lemma devices_ok_frame acq s s' :
  FT s' = FT s → FCB_freelist s' = FCB_freelist s → devnum s' = devnum s →
  devices_ok acq s → devices_ok acq s'.
Proof. intros HF HL HD H f b. rewrite HF, HL. unfold device_ok. rewrite HD. apply H. Qed.

(** ** Single references *)
Section refs.
Context (infl : nat → nat) (acq : list nat) (s : kernel).
#[local] Set Default Proof Using "Type*".
Context (Hok : counts_ok infl acq s).

Lemma used_not_free f :
  (0 < fidt_refs (PT s) f + infl f)%nat → f ∉ FCB_freelist s ++ acq.
Proof. intros Hpos Hin. apply (fo_free _ _ _ Hok) in Hin. lia. Qed.

Lemma used_block f :
  (0 < fidt_refs (PT s) f + infl f)%nat →
  ∃ b, FT s !! f = Some b ∧ refcount b = Z.of_nat (fidt_refs (PT s) f + infl f).
Proof.
  intros Hpos. destruct (fo_valid _ _ _ Hok f Hpos) as [b Hb]. exists b. split; [done|].
  by apply (fo_used _ _ _ Hok f b Hb), used_not_free.
Qed.

Lemma refs_bound f : Z.of_nat (fidt_refs (PT s) f + infl f) + 1 < 2 ^ 32.
Proof.
  pose proof (fidt_refs_le (PT s) f (fo_length _ _ _ Hok)) as H1.
  pose proof (fo_infl _ _ _ Hok f) as H2. pose proof (fo_procs _ _ _ Hok) as H3.
  unfold MAX_PROC, MAX_FILEID in *. lia.
Qed.

(** [FCB_incref] on a stream in use, or on one that was just acquired. *)
Lemma incref_run f b :
  FT s !! f = Some b → Z.of_nat (infl f) + 1 < 2 ^ 31 →
  f ∉ FCB_freelist s ++ acq →
  FCB_incref f s = Ok (tt, set_FT (<[f := set_refcount (refcount b + 1) b]> (FT s)) s) ∧
  counts_ok (add_ref f infl) acq (set_FT (<[f := set_refcount (refcount b + 1) b]> (FT s)) s).
Proof.
  intros Hb Hsm Hf. pose proof (refs_bound f) as Hbd.
  destruct (fo_used _ _ _ Hok f b Hb Hf) as [Hrc Hpos]. split.
  - unfold FCB_incref. erewrite upd_FCB_run by done. rewrite u32_small by lia. done.
  - destruct Hok as [H1 H2 H3 H4 H5 H6 H7 H8 H9]. unfold add_ref. split; simpl; try done.
    + intros g. case_decide; [subst; lia|done].
    + intros g Hg. rewrite list_lookup_insert_is_Some. by apply H5.
    + intros g Hg. rewrite decide_False by (by intros ->). by apply H6.
    + intros g b' Hb' Hg. rewrite (table_update _ _ _ _ _ Hb) in Hb'. case_decide; simplify_eq.
      * by destruct Hf; apply elem_of_app; right.
      * by eapply H7.
    + intros g b' Hb' Hg. rewrite (table_update _ _ _ _ _ Hb) in Hb'. case_decide; simplify_eq/=.
      * rewrite decide_True by done. lia.
      * rewrite decide_False by done. by apply H8.
    + intros g Hg. rewrite list_lookup_insert_is_Some. apply H9. revert Hg.
      case_decide; [subst; lia|done].
Qed.

(** Storing a reference: the one that was there is in the caller's hands. *)
Lemma store_ref p b fd o o' infl' :
  PT s !! p = Some b → FIDT b !! fd = Some o →
  (∀ f, infl' f + one f o' = infl f + one f o)%nat →
  (∀ f, Z.of_nat (infl' f) < 2 ^ 31) →
  counts_ok infl' acq (set_PT (<[p := set_FIDT (<[fd := o']> (FIDT b)) b]> (PT s)) s).
Proof.
  intros Hb Hfd Hinfl Hsm.
  assert (∀ f, fidt_refs (<[p := set_FIDT (<[fd := o']> (FIDT b)) b]> (PT s)) f + infl' f
    = fidt_refs (PT s) f + infl f)%nat as Htot.
  { intros f. pose proof (fidt_refs_set (PT s) p b fd o o' f Hb Hfd). specialize (Hinfl f). lia. }
  destruct Hok as [H1 H2 H3 H4 H5 H6 H7 H8 H9]. split; simpl; try done.
  - intros q b'. rewrite (table_update _ _ _ _ _ Hb). case_decide; intros; simplify_eq/=.
    + rewrite length_insert. by eapply H1.
    + by eapply H1.
  - by rewrite length_insert.
  - intros f Hf. rewrite Htot. by apply H6.
  - intros f b' Hb' Hf. rewrite Htot. by apply H8.
  - intros f. rewrite Htot. apply H9.
Qed.
End refs.

(** [FCB_decref] drops a reference that the caller holds. *)
Lemma decref_state infl acq s f b :
  counts_ok (add_ref f infl) acq s → FT s !! f = Some b →
  refcount b = Z.of_nat (fidt_refs (PT s) f + infl f) + 1 ∧
  counts_ok infl acq
    (if decide (fidt_refs (PT s) f + infl f = 0)%nat
     then set_FCB_freelist (FCB_freelist s ++ [f])
            (set_FT (<[f := set_refcount 0 b]> (FT s)) s)
     else set_FT (<[f := set_refcount (refcount b - 1) b]> (FT s)) s).
Proof.
  intros Hok Hb.
  assert (add_ref f infl f = S (infl f)) as Hadd by (unfold add_ref; by rewrite decide_True).
  assert (f ∉ FCB_freelist s ++ acq) as Hf
    by (apply (used_not_free _ _ _ Hok); rewrite Hadd; lia).
  destruct (fo_used _ _ _ Hok f b Hb Hf) as [Hrc _]. rewrite Hadd in Hrc.
  split; [lia|].
  assert (∀ g, g ≠ f → add_ref f infl g = infl g) as Hother
    by (intros g Hg; unfold add_ref; by rewrite decide_False).
  assert (∀ g, (infl g ≤ add_ref f infl g)%nat) as Hle
    by (intros g; unfold add_ref; case_decide; lia).
  destruct Hok as [H1 H2 H3 H4 H5 H6 H7 H8 H9].
  assert (∀ g, Z.of_nat (infl g) < 2 ^ 31) as Hsm
    by (intros g; specialize (H3 g); specialize (Hle g); lia).
  case_decide as Hz; split; simpl; try done.
  - rewrite <-app_assoc. simpl. apply NoDup_app in H4 as (Hn1 & Hd & Hn2).
    apply NoDup_app. split; [done|]. split.
    + intros g Hg Hin%elem_of_cons. destruct Hin as [->|Hin]; [|by eapply Hd].
      apply Hf, elem_of_app. by left.
    + apply NoDup_cons. split; [|done]. intros Hin. apply Hf, elem_of_app. by right.
  - intros g Hg. rewrite list_lookup_insert_is_Some.
    rewrite <-app_assoc in Hg. apply elem_of_app in Hg as [Hg|[->|Hg]%elem_of_cons];
      [apply H5, elem_of_app; by left|by eauto|apply H5, elem_of_app; by right].
  - intros g Hg. rewrite <-app_assoc in Hg.
    apply elem_of_app in Hg as [Hg|[->|Hg]%elem_of_cons]; [|done|];
      (specialize (H6 g); specialize (Hle g); rewrite elem_of_app in H6; intuition lia).
  - intros g b' Hb' Hg. rewrite (table_update _ _ _ _ _ Hb) in Hb'. case_decide; simplify_eq; [done|].
    by eapply H7.
  - intros g b' Hb' Hg. rewrite (table_update _ _ _ _ _ Hb) in Hb'.
    case_decide as Hgf; simplify_eq; [destruct Hg; set_solver|].
    rewrite <-(Hother g) by done. apply H8; [done|]. set_solver.
  - intros g Hg. rewrite list_lookup_insert_is_Some. apply H9. specialize (Hle g). lia.
  - intros g Hg. rewrite list_lookup_insert_is_Some. by apply H5.
  - intros g Hg. rewrite <-Hother by (by intros ->). by apply H6.
  - intros g b' Hb' Hg. rewrite (table_update _ _ _ _ _ Hb) in Hb'. case_decide; simplify_eq.
    + destruct Hf. apply elem_of_app. by right.
    + by eapply H7.
  - intros g b' Hb' Hg. rewrite (table_update _ _ _ _ _ Hb) in Hb'.
    case_decide as Hgf; simplify_eq/=; [lia|].
    rewrite <-(Hother g) by done. by apply H8.
  - intros g Hg. rewrite list_lookup_insert_is_Some. apply H9. specialize (Hle g). lia.
Qed.

(** ** The operations on the file table *)

(** What the operations of kernel_streams.c leave alone, the tables apart. *)
Record same_rest (s s' : kernel) : Prop := SameRest {
  sr_sched : ksched s' = ksched s;
  sr_devnum : devnum s' = devnum s;
  sr_rest : pcb_freelist s' = pcb_freelist s ∧ process_count s' = process_count s ∧
            ptcbs s' = ptcbs s ∧ kbufs s' = kbufs s ∧ waiting s' = waiting s ∧
            next_buf s' = next_buf s ∧ next_ptcb s' = next_ptcb s }.

Lemma same_rest_refl s : same_rest s s.
Proof. by split. Qed.
Lemma same_rest_trans s1 s2 s3 : same_rest s1 s2 → same_rest s2 s3 → same_rest s1 s3.
Proof.
  intros [? ? (?&?&?&?&?&?&?)] [? ? (?&?&?&?&?&?&?)]. split; [congruence..|]. split_and!; congruence.
Qed.

Lemma runs_in_rest s s' c self p : same_rest s s' → runs_in s c self p → runs_in s' c self p.
Proof. intros [H _ _]. unfold runs_in. by rewrite H. Qed.

Lemma devices_ok_set acq s f b b' l :
  devices_ok acq s → FT s !! f = Some b → streamobj b' = streamobj b →
  streamfunc b' = streamfunc b → (∀ g, g ∈ FCB_freelist s → g ∈ l) →
  devices_ok acq (set_FCB_freelist l (set_FT (<[f := b']> (FT s)) s)).
Proof.
  intros Hd Hb Ho Hf Hl g b0 Hg Hn. simpl in *.
  assert (g ∉ FCB_freelist s ++ acq) as Hg'.
  { intros [Hin|Hin]%elem_of_app; apply Hn, elem_of_app; [left; auto|by right]. }
  rewrite (table_update _ _ _ _ _ Hb) in Hg. case_decide; simplify_eq.
  - specialize (Hd _ _ Hb Hg'). unfold device_ok in *. rewrite Hf, Ho. done.
  - by apply (Hd g).
Qed.

Lemma decref_run infl acq s f :
  counts_ok (add_ref f infl) acq s → devices_ok acq s →
  ∃ s', FCB_decref f s = Ok (0, s') ∧ counts_ok infl acq s' ∧ devices_ok acq s' ∧
    same_rest s s' ∧ PT s' = PT s ∧
    FCB_freelist s' = if decide (fidt_refs (PT s) f + infl f = 0)%nat
                      then FCB_freelist s ++ [f] else FCB_freelist s.
Proof.
  intros Hok Hdev.
  assert (0 < fidt_refs (PT s) f + add_ref f infl f)%nat as Hpos
    by (unfold add_ref; rewrite decide_True by done; lia).
  destruct (used_block _ _ _ Hok f Hpos) as (b & Hb & _).
  pose proof (used_not_free _ _ _ Hok f Hpos) as Hf.
  destruct (decref_state infl acq s f b Hok Hb) as [Hrc Hst].
  pose proof (refs_bound _ _ _ Hok f) as Hbd. unfold add_ref in Hbd. rewrite decide_True in Hbd by done.
  unfold FCB_decref. mrun ltac:(by apply upd_FCB_run). cbn beta.
  assert (u32 (refcount b - 1) = refcount b - 1) as -> by (apply u32_small; lia).
  mrun ltac:(by apply get_FCB_run, list_lookup_insert_eq; eapply lookup_lt_Some).
  simpl. pose proof (Hdev f b Hb Hf) as Hd.
  assert (∃ d, streamfunc b = Some d) as [d Hsf]
    by (unfold device_ok in Hd; destruct (streamfunc b); eauto; done).
  destruct (decide (fidt_refs (PT s) f + infl f = 0)%nat) as [Hz|Hz].
  - rewrite decide_True by lia. rewrite (run_some _ _ d) by done.
    replace (refcount b - 1) with 0 by lia.
    eexists. split; [unfold release_FCB; mstep; by destruct d|].
    split; [exact Hst|]. split; [|done].
    apply (devices_ok_set _ _ _ b); [done..|]. intros g Hg. apply elem_of_app. by left.
  - rewrite decide_False by lia. eexists. split; [reflexivity|]. split; [exact Hst|].
    split; [|done].
    pose proof (devices_ok_set acq s f b (set_refcount (refcount b - 1) b) (FCB_freelist s)
      Hdev Hb eq_refl eq_refl ltac:(done)) as H. by destruct s.
Qed.

(** [acquire_FCB] takes the head of the free list. *)
Lemma acquire_run infl acq s f l :
  counts_ok infl acq s → devices_ok acq s → FCB_freelist s = f :: l →
  ∃ s', acquire_FCB s = Ok (Some f, s') ∧ counts_ok infl (f :: acq) s' ∧
    devices_ok (f :: acq) s' ∧ same_rest s s' ∧ PT s' = PT s ∧ FCB_freelist s' = l.
Proof.
  intros Hok Hdev Hl. unfold acquire_FCB. mstep. rewrite Hl. mstep.
  destruct (fo_free_valid _ _ _ Hok f) as [b Hb]; [rewrite Hl; left|].
  mrun ltac:(by apply upd_FCB_run). eexists. split; [reflexivity|]. simpl.
  assert (∀ g, g ∈ l ++ f :: acq ↔ g ∈ FCB_freelist s ++ acq) as Hel
    by (intros g; rewrite Hl; set_solver).
  split; [|split; [|done]].
  - destruct Hok as [H1 H2 H3 H4 H5 H6 H7 H8 H9]. split; simpl; try done.
    + rewrite Hl in H4. by rewrite <-Permutation_middle.
    + intros g Hg%Hel. rewrite list_lookup_insert_is_Some. by apply H5.
    + intros g Hg%Hel. by apply H6.
    + intros g b' Hb' Hg. rewrite (table_update _ _ _ _ _ Hb) in Hb'.
      case_decide; simplify_eq; [done|]. eapply H7; [done|]. set_solver.
    + intros g b' Hb' Hg. rewrite Hel in Hg. rewrite (table_update _ _ _ _ _ Hb) in Hb'.
      case_decide; simplify_eq; [|by apply H8]. destruct Hg. rewrite Hl. left.
    + intros g Hg. rewrite list_lookup_insert_is_Some. by apply H9.
  - intros g b' Hb' Hg. simpl in *. rewrite Hel in Hg.
    rewrite (table_update _ _ _ _ _ Hb) in Hb'. case_decide; simplify_eq.
    + destruct Hg. rewrite Hl. left.
    + by apply (Hdev g).
Qed.

(** [release_FCB] gives back a stream that nobody refers to. *)
Lemma release_run infl f acq s :
  counts_ok infl (f :: acq) s → devices_ok (f :: acq) s →
  ∃ s', release_FCB f s = Ok (tt, s') ∧ counts_ok infl acq s' ∧ devices_ok acq s' ∧
    same_rest s s' ∧ PT s' = PT s ∧ FCB_freelist s' = FCB_freelist s ++ [f].
Proof.
  intros Hok Hdev. eexists. split; [reflexivity|]. simpl.
  assert (∀ g, g ∈ (FCB_freelist s ++ [f]) ++ acq ↔ g ∈ FCB_freelist s ++ f :: acq) as Hel
    by (intros g; set_solver).
  split; [|split; [|done]].
  - destruct Hok as [H1 H2 H3 H4 H5 H6 H7 H8 H9]. split; simpl; try done.
    + by rewrite <-app_assoc.
    + intros g Hg%Hel. by apply H5.
    + intros g Hg%Hel. by apply H6.
    + intros g b Hb Hg. eapply H7; [done|]. by right.
    + intros g b Hb Hg. rewrite Hel in Hg. by apply H8.
  - intros g b Hb Hg. simpl in *. rewrite Hel in Hg. by apply (Hdev g).
Qed.

(** The first reference to an acquired stream. *)
Lemma incref_acquired infl f acq s b :
  counts_ok infl (f :: acq) s → FT s !! f = Some b →
  FCB_incref f s = Ok (tt, set_FT (<[f := set_refcount 1 b]> (FT s)) s) ∧
  counts_ok (add_ref f infl) acq (set_FT (<[f := set_refcount 1 b]> (FT s)) s).
Proof.
  intros Hok Hb.
  assert (refcount b = 0) as Hrc by (eapply fo_acq; [done..|left]).
  assert (fidt_refs (PT s) f + infl f = 0)%nat as Hz
    by (apply (fo_free _ _ _ Hok), elem_of_app; right; left).
  split; [unfold FCB_incref; erewrite upd_FCB_run by done; by rewrite Hrc|].
  assert (∀ g, g ∈ FCB_freelist s ++ f :: acq ↔ g = f ∨ g ∈ FCB_freelist s ++ acq) as Hel
    by (intros g; set_solver).
  destruct Hok as [H1 H2 H3 H4 H5 H6 H7 H8 H9].
  assert (f ∉ FCB_freelist s ++ acq) as Hf.
  { rewrite <-Permutation_middle in H4. by apply NoDup_cons in H4 as [? _]. }
  unfold add_ref. split; simpl; try done.
  - intros g. case_decide; [subst; lia|done].
  - rewrite <-Permutation_middle in H4. by apply NoDup_cons in H4 as [_ ?].
  - intros g Hg. rewrite list_lookup_insert_is_Some. apply H5, Hel. by right.
  - intros g Hg. rewrite decide_False by (by intros ->). apply H6, Hel. by right.
  - intros g b' Hb' Hg. rewrite (table_update _ _ _ _ _ Hb) in Hb'. case_decide; simplify_eq.
    + destruct Hf. apply elem_of_app. by right.
    + eapply H7; [done|]. by right.
  - intros g b' Hb' Hg. rewrite (table_update _ _ _ _ _ Hb) in Hb'. case_decide; simplify_eq/=.
    + rewrite decide_True by done. lia.
    + rewrite decide_False by done. apply H8; [done|]. rewrite Hel. by intros [].
  - intros g Hg. rewrite list_lookup_insert_is_Some. destruct (decide (g = f)) as [->|]; [eauto|].
    by apply H9.
Qed.

(** ** Reserving and giving back *)
Lemma counts_ok_perm infl acq acq' s : acq ≡ₚ acq' → counts_ok infl acq s → counts_ok infl acq' s.
Proof.
  intros Hp [H1 H2 H3 H4 H5 H6 H7 H8 H9].
  assert (∀ g, g ∈ FCB_freelist s ++ acq' ↔ g ∈ FCB_freelist s ++ acq) as Hel
    by (intros g; by rewrite !elem_of_app, Hp).
  split; try done.
  - by rewrite <-Hp.
  - intros g. rewrite Hel. apply H5.
  - intros g. rewrite Hel. apply H6.
  - intros g b Hb. rewrite <-Hp. by apply H7.
  - intros g b Hb. rewrite Hel. by apply H8.
Qed.

Lemma devices_ok_mono acq acq' s :
  (∀ g, g ∈ acq → g ∈ acq') → devices_ok acq s → devices_ok acq' s.
Proof. intros Hm Hd g b Hb Hg. apply (Hd g b Hb). set_solver. Qed.

(** The ids that the search finds are free, different, and the first ones. *)
Lemma find_fids_spec num : ∀ f l fids,
  find_fids num f l = Some fids →
  length fids = num ∧ NoDup fids ∧
  (∀ x, x ∈ fids → (f ≤ x)%nat ∧ l !! (x - f)%nat = Some None) ∧
  (∀ x j, x ∈ fids → (f ≤ j < x)%nat → l !! (j - f)%nat = Some None → j ∈ fids).
Proof.
  intros f l. revert num f. induction l as [|[g|] l IH]; intros [|num] f fids Hf; simplify_eq/=.
  - split_and!; [done|constructor|set_solver|set_solver].
  - split_and!; [done|constructor|set_solver|set_solver].
  - destruct (IH _ _ _ Hf) as (Hlen & Hnd & Hin & Hlow).
    split_and!; [done|done| |].
    + intros x Hx. destruct (Hin x Hx) as [Hle Hlk]. split; [lia|].
      replace (x - f)%nat with (S (x - S f)) by lia. done.
    + intros x j Hx Hj Hlk. destruct (decide (j = f)) as [->|Hne].
      * rewrite Nat.sub_diag in Hlk. done.
      * apply (Hlow x j Hx); [lia|]. by replace (j - f)%nat with (S (j - S f)) in Hlk by lia.
  - split_and!; [done|constructor|set_solver|set_solver].
  - apply fmap_Some in Hf as (fids' & Hf & ->).
    destruct (IH _ _ _ Hf) as (Hlen & Hnd & Hin & Hlow). split_and!.
    + simpl. lia.
    + apply NoDup_cons. split; [|done]. intros Hx%Hin. lia.
    + intros x [->|Hx]%elem_of_cons; [by rewrite Nat.sub_diag|].
      destruct (Hin x Hx) as [Hle Hlk]. split; [lia|].
      by replace (x - f)%nat with (S (x - S f)) by lia.
    + intros x j Hx Hj Hlk. destruct (decide (j = f)) as [->|Hne]; [left|]. right.
      apply elem_of_cons in Hx as [->|Hx]; [lia|].
      apply (Hlow x j Hx); [lia|]. by replace (j - f)%nat with (S (j - S f)) in Hlk by lia.
Qed.

Definition free_slots (l : list (option nat)) : nat := length (filter (λ o, o = None) l).

Lemma find_fids_none num : ∀ f l, find_fids num f l = None ↔ (free_slots l < num)%nat.
Proof.
  intros f l. revert num f. unfold free_slots.
  induction l as [|[g|] l IH]; intros [|num] f; simpl.
  - split; [done|lia].
  - split; [lia|done].
  - split; [done|]. intros; lia.
  - by rewrite IH.
  - split; [done|]. intros; lia.
  - rewrite fmap_None, IH. unfold filter. simpl. lia.
Qed.

Lemma acquire_list_run infl num : ∀ acq s,
  counts_ok infl acq s → devices_ok acq s →
  ∃ s', acquire_FCBs num s = Ok (take num (FCB_freelist s), s') ∧
    counts_ok infl (rev (take num (FCB_freelist s)) ++ acq) s' ∧
    devices_ok (rev (take num (FCB_freelist s)) ++ acq) s' ∧ same_rest s s' ∧
    PT s' = PT s ∧ FCB_freelist s' = drop num (FCB_freelist s).
Proof.
  induction num as [|num IH]; intros acq s Hok Hdev.
  - exists s. by split_and!.
  - simpl. destruct (FCB_freelist s) as [|f l] eqn:Hl.
    + exists s. unfold acquire_FCB. mstep. rewrite Hl. mstep.
      by split_and!.
    + destruct (acquire_run infl acq s f l Hok Hdev Hl)
        as (s1 & Hr1 & Hok1 & Hd1 & Hs1 & HP1 & HL1).
      mrun ltac:(exact Hr1).
      destruct (IH _ _ Hok1 Hd1) as (s2 & Hr2 & Hok2 & Hd2 & Hs2 & HP2 & HL2).
      rewrite HL1 in *. mrun ltac:(exact Hr2). exists s2. simpl. rewrite <-app_assoc.
      split_and!; try done; [by eapply same_rest_trans|congruence].
Qed.

Lemma release_list_run infl l : ∀ acq s,
  counts_ok infl (l ++ acq) s → devices_ok (l ++ acq) s →
  ∃ s', for_each l release_FCB s = Ok (tt, s') ∧ counts_ok infl acq s' ∧ devices_ok acq s' ∧
    same_rest s s' ∧ PT s' = PT s ∧ FCB_freelist s' = FCB_freelist s ++ l.
Proof.
  induction l as [|f l IH]; intros acq s Hok Hdev; simpl.
  - exists s. rewrite app_nil_r. by split_and!.
  - destruct (release_run _ _ _ _ Hok Hdev) as (s1 & Hr1 & Hok1 & Hd1 & Hs1 & HP1 & HL1).
    mrun ltac:(exact Hr1).
    destruct (IH _ _ Hok1 Hd1) as (s2 & Hr2 & Hok2 & Hd2 & Hs2 & HP2 & HL2).
    exists s2. rewrite HL2, HL1, <-app_assoc.
    split_and!; try done; [by eapply same_rest_trans|congruence].
Qed.

(** The table of process [p] with the ids [xs] connected. *)
Definition connected (xs : list (nat * nat)) (l : list (option nat)) : list (option nat) :=
  foldl (λ l x, <[x.1 := Some x.2]> l) l xs.

Lemma connect_run infl f acq s p b fd :
  counts_ok infl (f :: acq) s → PT s !! p = Some b → FIDT b !! fd = Some None →
  ∃ s', connect p (fd, f) s = Ok (tt, s') ∧ counts_ok infl acq s' ∧ same_rest s s' ∧
    PT s' = <[p := set_FIDT (<[fd := Some f]> (FIDT b)) b]> (PT s) ∧
    FCB_freelist s' = FCB_freelist s ∧
    (∃ bf, FT s !! f = Some bf ∧ FT s' = <[f := set_refcount 1 bf]> (FT s)).
Proof.
  intros Hok Hb Hfd.
  destruct (fo_free_valid _ _ _ Hok f) as [bf Hbf]; [apply elem_of_app; right; left|].
  destruct (incref_acquired infl f acq s bf Hok Hbf) as [Hr Hok1].
  assert (fidt_refs (PT s) f + infl f = 0)%nat as Hz
    by (apply (fo_free _ _ _ Hok), elem_of_app; right; left).
  pose proof (store_ref _ _ _ Hok1 p b fd None (Some f) infl Hb Hfd) as Hok2.
  eexists. unfold connect. mrun ltac:(by apply upd_PCB_run). simpl.
  unfold FCB_incref. erewrite upd_FCB_run by exact Hbf.
  assert (refcount bf = 0) as Hrc by (eapply (fo_acq _ _ _ Hok); [done|left]).
  split; [reflexivity|]. rewrite Hrc. simpl. split_and!; [|by split|done|done|by exists bf].
  apply Hok2.
  - intros g. by rewrite add_ref_one.
  - intros g. apply (fo_infl _ _ _ Hok).
Qed.

Lemma connect_list_run infl p fids : ∀ fcbs acq s b,
  counts_ok infl (fcbs ++ acq) s → PT s !! p = Some b → length fids = length fcbs →
  NoDup fids → (∀ x, x ∈ fids → FIDT b !! x = Some None) →
  ∃ s', for_each (zip fids fcbs) (connect p) s = Ok (tt, s') ∧ counts_ok infl acq s' ∧
    same_rest s s' ∧
    PT s' = <[p := set_FIDT (connected (zip fids fcbs) (FIDT b)) b]> (PT s) ∧
    FCB_freelist s' = FCB_freelist s ∧
    (∀ g, ∃ n, FT s' !! g = set_refcount n <$> FT s !! g).
Proof.
  induction fids as [|fd fids IH]; intros [|f fcbs] acq s b Hok Hb Hlen Hnd Hin; try done.
  - exists s. split_and!; try done.
    + change (connected (zip [] []) (FIDT b)) with (FIDT b).
      assert (set_FIDT (FIDT b) b = b) as -> by (by destruct b). by rewrite list_insert_id.
    + intros g. destruct (FT s !! g) as [bg|]; [exists (refcount bg); by destruct bg|by exists 0].
  - simpl in Hlen. apply NoDup_cons in Hnd as [Hfd Hnd].
    destruct (connect_run infl f (fcbs ++ acq) s p b fd Hok Hb) as
      (s1 & Hr1 & Hok1 & Hs1 & HP1 & HL1 & bf & Hbf & HF1); [apply Hin; left|].
    cbn [zip zip_with for_each]. mrun ltac:(exact Hr1).
    destruct (IH fcbs acq s1 (set_FIDT (<[fd:=Some f]> (FIDT b)) b))
      as (s2 & Hr2 & Hok2 & Hs2 & HP2 & HL2 & HF2); try done.
    + rewrite HP1. apply list_lookup_insert_eq. by eapply lookup_lt_Some.
    + lia.
    + intros x Hx. simpl. rewrite list_lookup_insert_ne by (intros ->; done).
      apply Hin. by right.
    + exists s2. split_and!; try done.
      * by eapply same_rest_trans.
      * rewrite HP2, HP1, list_insert_insert_eq. done.
      * congruence.
      * intros g. destruct (HF2 g) as [n Hn]. rewrite HF1 in Hn.
        destruct (decide (g = f)) as [->|Hgf]; exists n; rewrite Hn.
        -- rewrite Hbf, list_lookup_insert_eq by (by eapply lookup_lt_Some). done.
        -- by rewrite list_lookup_insert_ne.
Qed.

(** [FCB_unreserve] of a stream with this one reference. *)
Lemma disconnect_run infl f acq s p b fd :
  counts_ok infl acq s → PT s !! p = Some b → FIDT b !! fd = Some (Some f) →
  (fidt_refs (PT s) f + infl f = 1)%nat →
  ∃ s', disconnect p (fd, f) s = Ok (tt, s') ∧ counts_ok infl acq s' ∧ same_rest s s' ∧
    PT s' = <[p := set_FIDT (<[fd := None]> (FIDT b)) b]> (PT s) ∧
    FCB_freelist s' = FCB_freelist s ++ [f] ∧ FT s' = FT s.
Proof.
  intros Hok Hb Hfd Hone. eexists. unfold disconnect.
  mrun ltac:(by apply get_PCB_run). simpl. rewrite run_assert by (by apply bool_decide_true).
  mrun ltac:(by apply upd_PCB_run). split; [reflexivity|]. simpl.
  split_and!; [|by split|done..].
  pose proof (fidt_refs_set (PT s) p b fd (Some f) None) as Hrefs.
  set (pt' := <[p:=set_FIDT (<[fd:=None]> (FIDT b)) b]> (PT s)) in *.
  assert (fidt_refs pt' f + infl f = 0)%nat as Hz.
  { specialize (Hrefs f Hb Hfd). unfold one in Hrefs. rewrite decide_True in Hrefs by done.
    rewrite decide_False in Hrefs by done. lia. }
  assert (∀ g, g ≠ f → fidt_refs pt' g = fidt_refs (PT s) g) as Hother.
  { intros g Hg. specialize (Hrefs g Hb Hfd). unfold one in Hrefs.
    rewrite !decide_False in Hrefs by congruence. lia. }
  assert (f ∉ FCB_freelist s ++ acq) as Hf by (apply (used_not_free _ _ _ Hok); lia).
  assert (∀ g, g ∈ (FCB_freelist s ++ [f]) ++ acq ↔ g = f ∨ g ∈ FCB_freelist s ++ acq) as Hel
    by (intros g; set_solver).
  destruct Hok as [H1 H2 H3 H4 H5 H6 H7 H8 H9]. split; simpl; try done.
  - intros q b'. unfold pt'. rewrite (table_update _ _ _ _ _ Hb).
    case_decide; intros; simplify_eq/=; [rewrite length_insert|]; by eapply H1.
  - unfold pt'. by rewrite length_insert.
  - rewrite <-app_assoc. simpl. rewrite <-Permutation_middle. by apply NoDup_cons.
  - intros g [->|Hg]%Hel; [apply H9; lia|by apply H5].
  - intros g [->|Hg]%Hel; [done|]. rewrite Hother by (by intros ->). by apply H6.
  - intros g b' Hb' Hg. rewrite Hel in Hg.
    rewrite Hother by (intros ->; tauto). apply H8; [done|tauto].
  - intros g Hg. destruct (decide (g = f)) as [->|]; [lia|]. apply H9.
    by rewrite <-Hother.
Qed.

(** ** The system calls *)

(** The calling thread: it runs on core [c], in the kernel, and can sleep. *)
Definition caller (s : kernel) (c : nat) (self : tid) (p : nat) : Prop :=
  runs_in s c self p ∧ is_Some (PT s !! p).

Lemma get_fcb_run s c self p b fd :
  runs_in s c self p → PT s !! p = Some b → length (FIDT b) = MAX_FILEID →
  get_fcb c fd s = Ok (if valid_fid fd then default None (FIDT b !! Z.to_nat fd) else None, s).
Proof.
  intros Hr Hb Hl. unfold get_fcb. destruct (valid_fid fd) eqn:Hv; [|done].
  mrun ltac:(by eapply CURPROC_run). mrun ltac:(by apply get_PCB_run).
  unfold valid_fid in Hv. apply andb_true_iff in Hv as [H0 H1].
  apply Z.leb_le in H0. apply Z.ltb_lt in H1.
  destruct (lookup_lt_is_Some_2 (FIDT b) (Z.to_nat fd)) as [o Ho]; [lia|].
  by rewrite Ho.
Qed.

(** The table of the calling process. *)
Definition fids_of (s : kernel) (p : nat) : list (option nat) :=
  default [] (FIDT <$> PT s !! p).
Definition fid_of (s : kernel) (p : nat) (fd : Z) : option nat :=
  if valid_fid fd then default None (fids_of s p !! Z.to_nat fd) else None.

Lemma fid_of_lookup s p b fd :
  PT s !! p = Some b →
  fid_of s p fd = if valid_fid fd then default None (FIDT b !! Z.to_nat fd) else None.
Proof. intros Hb. unfold fid_of, fids_of. by rewrite Hb. Qed.

Lemma fid_of_some s p b fd f :
  PT s !! p = Some b → fid_of s p fd = Some f →
  valid_fid fd = true ∧ FIDT b !! Z.to_nat fd = Some (Some f).
Proof.
  intros Hb. rewrite (fid_of_lookup _ _ _ _ Hb). destruct (valid_fid fd); [|done].
  destruct (FIDT b !! Z.to_nat fd) as [o|]; simpl; [intros ->; done|done].
Qed.

Lemma valid_fid_lookup s infl acq p b fd :
  counts_ok infl acq s → PT s !! p = Some b → valid_fid fd = true →
  ∃ o, FIDT b !! Z.to_nat fd = Some o ∧ fid_of s p fd = o.
Proof.
  intros Hok Hb Hv. pose proof (fo_length _ _ _ Hok p b Hb) as Hl.
  rewrite (fid_of_lookup _ _ _ _ Hb), Hv. unfold valid_fid in Hv.
  apply andb_true_iff in Hv as [H0%Z.leb_le H1%Z.ltb_lt].
  destruct (lookup_lt_is_Some_2 (FIDT b) (Z.to_nat fd)) as [o Ho]; [lia|].
  exists o. by rewrite Ho.
Qed.

Lemma fid_used s infl acq p b fd f :
  counts_ok infl acq s → PT s !! p = Some b → fid_of s p fd = Some f →
  (0 < fidt_refs (PT s) f)%nat ∧ ∃ bf, FT s !! f = Some bf ∧ f ∉ FCB_freelist s ++ acq.
Proof.
  intros Hok Hb Hf. destruct (fid_of_some _ _ _ _ _ Hb Hf) as [_ Hfd].
  pose proof (fidt_refs_pos _ _ _ _ _ Hb Hfd) as Hpos. split; [done|].
  destruct (used_block _ _ _ Hok f) as (bf & Hbf & _); [lia|]. exists bf. split; [done|].
  apply (used_not_free _ _ _ Hok). lia.
Qed.

(** [Close] of an id that names a stream. *)
Lemma close_run infl s c self p b fd f :
  files_ok infl s → runs_in s c self p → PT s !! p = Some b → fid_of s p fd = Some f →
  Z.of_nat (infl f) + 1 < 2 ^ 31 →
  ∃ s', sys_Close c fd s = Ok (0, s') ∧ files_ok infl s' ∧ same_rest s s' ∧
    PT s' = <[p := set_FIDT (<[Z.to_nat fd := None]> (FIDT b)) b]> (PT s) ∧
    FCB_freelist s' = if decide (fidt_refs (PT s) f + infl f = 1)%nat
                      then FCB_freelist s ++ [f] else FCB_freelist s.
Proof.
  intros [Hok Hdev] Hr Hb Hf Hsm. pose proof (fo_length _ _ _ Hok p b Hb) as Hl.
  pose proof (fid_of_lookup s p b fd Hb) as Hlk.
  destruct (fid_of_some _ _ _ _ _ Hb Hf) as [Hv Hfd].
  unfold sys_Close. mrun ltac:(by eapply get_fcb_run). rewrite <-Hlk, Hf.
  mrun ltac:(by eapply CURPROC_run). mrun ltac:(by apply upd_PCB_run).
  set (s1 := set_PT _ s).
  assert (counts_ok (add_ref f infl) [] s1) as Hok1.
  { eapply (store_ref infl [] s Hok p b _ (Some f) None); [done|done| |].
    - intros g. apply add_ref_one.
    - intros g. unfold add_ref. case_decide; [subst; lia|apply (fo_infl _ _ _ Hok)]. }
  destruct (decref_run infl [] s1 f Hok1 Hdev) as (s2 & Hr2 & Hok2 & Hd2 & Hs2 & HP2 & HL2).
  exists s2. split; [exact Hr2|]. split; [done|]. split; [|split; [done|]].
  - eapply same_rest_trans; [|exact Hs2]. by split.
  - rewrite HL2. pose proof (fidt_refs_set (PT s) p b _ (Some f) None f Hb Hfd) as Hrefs.
    unfold one in Hrefs. rewrite decide_True in Hrefs by done.
    rewrite decide_False in Hrefs by done. simpl.
    destruct (decide (fidt_refs (PT s) f + infl f = 1)%nat).
    + rewrite decide_True by lia. done.
    + rewrite decide_False by lia. done.
Qed.
