(* ===== verification/StreamCalls.v ===== *)
(** * The system calls on streams

    From a state with exact reference counts ([StreamInv.v]), what each call of
    kernel_streams.c returns and which state it leaves. *)
From S2P Require Import Prelude Bios Sched SchedInv SchedSteps Kernel Devices Streams StreamInv.
Local Open Scope Z_scope.

(** ** Reservation *)
Lemma reserve_run infl s c self p b num :
  files_ok infl s → runs_in s c self p → PT s !! p = Some b →
  ∃ r s', FCB_reserve c num s = Ok (r, s') ∧ counts_ok infl [] s' ∧ same_rest s s' ∧
    match r with
    | Some (fids, fcbs) =>
        find_fids num 0 (FIDT b) = Some fids ∧ fcbs = take num (FCB_freelist s) ∧
        length fcbs = num ∧ devices_ok fcbs s' ∧ FCB_freelist s' = drop num (FCB_freelist s) ∧
        PT s' = <[p := set_FIDT (connected (zip fids fcbs) (FIDT b)) b]> (PT s)
    | None =>
        (free_slots (FIDT b) < num ∨ length (FCB_freelist s) < num)%nat ∧
        devices_ok [] s' ∧ PT s' = PT s ∧
        FCB_freelist s' = (if decide (free_slots (FIDT b) < num)%nat then FCB_freelist s else rev (FCB_freelist s))
    end.
Proof.
  intros [Hok Hdev] Hr Hb. unfold FCB_reserve.
  mrun ltac:(by eapply CURPROC_run). mrun ltac:(by apply get_PCB_run).
  destruct (find_fids num 0 (FIDT b)) as [fids|] eqn:Hff.
  - destruct (acquire_list_run infl num [] s Hok Hdev) as (s1 & Hr1 & Hok1 & Hd1 & Hs1 & HP1 & HL1).
    mrun ltac:(exact Hr1). rewrite app_nil_r in *.
    set (fcbs := take num (FCB_freelist s)) in *.
    destruct (decide (length fcbs < num)%nat) as [Hlt|Hge].
    + destruct (release_list_run infl (rev fcbs) [] s1) as
        (s2 & Hr2 & Hok2 & Hd2 & Hs2 & HP2 & HL2); [by rewrite app_nil_r..|].
      mrun ltac:(exact Hr2). eexists _, s2. split; [reflexivity|].
      unfold fcbs in *. rewrite length_take in Hlt.
      split_and!; try done; [by eapply same_rest_trans|right; lia|congruence|].
      rewrite decide_False by (by rewrite <-(find_fids_none num 0), Hff).
      rewrite HL2, HL1, take_ge, drop_ge by lia. done.
    + destruct (find_fids_spec _ _ _ _ Hff) as (Hlen & Hnd & Hin & _).
      assert (length fcbs = num) as Hfl by (unfold fcbs in *; rewrite length_take in *; lia).
      destruct (connect_list_run infl p fids fcbs [] s1 b) as
        (s2 & Hr2 & Hok2 & Hs2 & HP2 & HL2 & HF2).
      * rewrite app_nil_r. eapply counts_ok_perm; [|exact Hok1]. by rewrite <-Permutation_rev.
      * by rewrite HP1.
      * lia.
      * done.
      * intros x Hx. destruct (Hin x Hx) as [_ Hl]. by rewrite Nat.sub_0_r in Hl.
      * mrun ltac:(exact Hr2). eexists _, s2. split; [reflexivity|].
        split_and!; try done; [by eapply same_rest_trans| |congruence|congruence].
        intros g bg Hg Hn. rewrite HL2 in Hn.
        destruct (HF2 g) as [n Hn']. rewrite Hg in Hn'. symmetry in Hn'.
        apply fmap_Some in Hn' as (bg0 & Hg0 & ->).
        assert (device_ok s1 bg0) as Hdo.
        { apply (Hd1 g); [done|]. intros Hx. apply Hn. rewrite elem_of_app in *.
          by rewrite <-Permutation_rev in Hx. }
        unfold device_ok in *. simpl. by rewrite (sr_devnum _ _ Hs2).
  - eexists _, s. split; [reflexivity|]. apply find_fids_none in Hff as Hno.
    rewrite decide_True by done. split_and!; try done. by left.
Qed.

(** ** Giving a reservation back *)
Definition disconnected (xs : list (nat * nat)) (l : list (option nat)) : list (option nat) :=
  foldl (λ l x, <[x.1 := None]> l) l xs.

Lemma disconnected_out xs : ∀ l i, i ∉ xs.*1 → disconnected xs l !! i = l !! i.
Proof.
  induction xs as [|[fd f] xs IH]; intros l i Hi; [done|]. simpl in *.
  apply not_elem_of_cons in Hi as [Hne Hi].
  change (disconnected ((fd, f) :: xs) l) with (disconnected xs (<[fd := None]> l)).
  rewrite IH by done. by rewrite list_lookup_insert_ne.
Qed.

Lemma disconnected_in xs : ∀ l i o, i ∈ xs.*1 → l !! i = Some o → disconnected xs l !! i = Some None.
Proof.
  induction xs as [|[fd f] xs IH]; intros l i o Hi Hl; [by apply not_elem_of_nil in Hi|].
  simpl in Hi.
  change (disconnected ((fd, f) :: xs) l) with (disconnected xs (<[fd := None]> l)).
  destruct (decide (i ∈ xs.*1)) as [Hin|Hout].
  - destruct (decide (i = fd)) as [->|Hne].
    + eapply IH; [done|]. apply list_lookup_insert_eq. by eapply lookup_lt_Some.
    + eapply IH; [done|]. by rewrite list_lookup_insert_ne.
  - apply elem_of_cons in Hi as [->|Hi]; [|done].
    rewrite (disconnected_out xs) by done. apply list_lookup_insert_eq. by eapply lookup_lt_Some.
Qed.

Lemma connected_out xs : ∀ l i, i ∉ xs.*1 → connected xs l !! i = l !! i.
Proof.
  induction xs as [|[fd f] xs IH]; intros l i Hi; [done|]. simpl in *.
  apply not_elem_of_cons in Hi as [Hne Hi].
  change (connected ((fd, f) :: xs) l) with (connected xs (<[fd := Some f]> l)).
  rewrite IH by done. by rewrite list_lookup_insert_ne.
Qed.

Lemma connected_in xs : ∀ l fd f,
  NoDup xs.*1 → (fd, f) ∈ xs → (fd < length l)%nat → connected xs l !! fd = Some (Some f).
Proof.
  induction xs as [|[fd' f'] xs IH]; intros l fd f Hnd Hin Hl; [by apply not_elem_of_nil in Hin|].
  simpl in Hnd. apply NoDup_cons in Hnd as [Hn Hnd].
  change (connected ((fd', f') :: xs) l) with (connected xs (<[fd' := Some f']> l)).
  apply elem_of_cons in Hin as [[= -> ->]|Hin].
  - rewrite (connected_out xs) by done. by apply list_lookup_insert_eq.
  - apply IH; [done|done|by rewrite length_insert].
Qed.

(** The two undo one another. *)
Lemma connected_roundtrip xs l :
  (∀ x, x ∈ xs.*1 → l !! x = Some None) → disconnected xs (connected xs l) = l.
Proof.
  intros Hin. apply list_eq. intros i. destruct (decide (i ∈ xs.*1)) as [Hi|Hi].
  - rewrite (Hin i Hi). pose proof (Hin i Hi) as Hlt%lookup_lt_Some.
    destruct (lookup_lt_is_Some_2 (connected xs l) i) as [o Ho].
    { clear -Hlt. unfold connected. revert l Hlt. induction xs as [|x xs IH]; intros l Hlt; [done|].
      simpl. apply IH. by rewrite length_insert. }
    by eapply disconnected_in.
  - by rewrite disconnected_out, connected_out.
Qed.

(** Connecting ids that were free adds one reference to each stream. *)
Lemma connected_cnt g fids : ∀ fcbs l,
  length fids = length fcbs → NoDup fids → (∀ x, x ∈ fids → l !! x = Some None) →
  cnt g (connected (zip fids fcbs) l) = (cnt g l + length (filter (λ f, f = g) fcbs))%nat.
Proof.
  induction fids as [|fd fids IH]; intros [|f fcbs] l Hlen Hnd Hin; simplify_eq/=.
  - change (connected [] l) with l. lia.
  - apply NoDup_cons in Hnd as [Hn Hnd].
    change (connected ((fd, f) :: zip fids fcbs) l)
      with (connected (zip fids fcbs) (<[fd := Some f]> l)).
    rewrite IH; [|lia|done|].
    + pose proof (cnt_insert g l fd None (Some f) (Hin fd ltac:(left))) as H.
      unfold one in H. rewrite (decide_False (P := None = Some g)) in H by done.
      destruct (decide (f = g)) as [->|Hfg].
      * rewrite filter_cons_True by done. rewrite decide_True in H by done. simpl. lia.
      * rewrite filter_cons_False by done. rewrite decide_False in H by congruence. lia.
    + intros x Hx. rewrite list_lookup_insert_ne by (intros ->; done). apply Hin. by right.
Qed.

Lemma count_nodup (g : nat) l : NoDup l → g ∈ l → length (filter (λ f, f = g) l) = 1%nat.
Proof.
  induction l as [|x l IH]; intros Hnd Hin; [by apply not_elem_of_nil in Hin|].
  apply NoDup_cons in Hnd as [Hn Hnd]. rewrite filter_cons. case_decide as Hx.
  - subst. simpl. f_equal. clear -Hn. induction l as [|y l IH]; [done|].
    apply not_elem_of_cons in Hn as [Hne Hn]. rewrite filter_cons_False by done. auto.
  - apply IH; [done|]. apply elem_of_cons in Hin as [->|]; done.
Qed.

Lemma disconnect_list_run infl p fids : ∀ fcbs acq s b,
  counts_ok infl acq s → PT s !! p = Some b → length fids = length fcbs →
  NoDup fids → NoDup fcbs →
  (∀ x, x ∈ zip fids fcbs → FIDT b !! x.1 = Some (Some x.2) ∧
     fidt_refs (PT s) x.2 + infl x.2 = 1)%nat →
  ∃ s', for_each (zip fids fcbs) (disconnect p) s = Ok (tt, s') ∧ counts_ok infl acq s' ∧
    same_rest s s' ∧
    PT s' = <[p := set_FIDT (disconnected (zip fids fcbs) (FIDT b)) b]> (PT s) ∧
    FCB_freelist s' = FCB_freelist s ++ fcbs ∧ FT s' = FT s.
Proof.
  induction fids as [|fd fids IH]; intros [|f fcbs] acq s b Hok Hb Hlen Hnd Hnf Hin; try done.
  - exists s. rewrite app_nil_r. split_and!; try done.
    change (disconnected (zip [] []) (FIDT b)) with (FIDT b).
    assert (set_FIDT (FIDT b) b = b) as -> by (by destruct b). by rewrite list_insert_id.
  - simpl in Hlen. apply NoDup_cons in Hnd as [Hfd Hnd]. apply NoDup_cons in Hnf as [Hf Hnf].
    destruct (Hin (fd, f) ltac:(left)) as [Hlk Hone]. simpl in Hlk, Hone.
    destruct (disconnect_run infl f acq s p b fd Hok Hb Hlk Hone)
      as (s1 & Hr1 & Hok1 & Hs1 & HP1 & HL1 & HF1).
    cbn [zip zip_with for_each]. mrun ltac:(exact Hr1).
    destruct (IH fcbs acq s1 (set_FIDT (<[fd:=None]> (FIDT b)) b))
      as (s2 & Hr2 & Hok2 & Hs2 & HP2 & HL2 & HF2); try done.
    + rewrite HP1. apply list_lookup_insert_eq. by eapply lookup_lt_Some.
    + lia.
    + intros [fd' f'] Hx. destruct (Hin (fd', f') ltac:(by right)) as [Hlk' Hone'].
      simpl in *. pose proof (elem_of_zip_l _ _ _ _ Hx). pose proof (elem_of_zip_r _ _ _ _ Hx).
      split; [by rewrite list_lookup_insert_ne by (intros ->; done)|].
      pose proof (fidt_refs_set (PT s) p b fd (Some f) None f' Hb Hlk) as Hrefs.
      unfold one in Hrefs. rewrite decide_False in Hrefs by (intros [= ->]; done).
      rewrite decide_False in Hrefs by done. rewrite HP1. lia.
    + exists s2. split_and!; try done.
      * by eapply same_rest_trans.
      * rewrite HP2, HP1, list_insert_insert_eq. done.
      * by rewrite HL2, HL1, <-app_assoc.
      * congruence.
Qed.

Lemma take_nodup infl s n : counts_ok infl [] s → NoDup (take n (FCB_freelist s)).
Proof.
  intros Hok. pose proof (fo_nodup _ _ _ Hok) as Hn. rewrite app_nil_r in Hn.
  eapply sublist_NoDup; [exact Hn|apply sublist_take].
Qed.

(** A reservation gives each stream its only reference. *)
Lemma reserved_refs infl s p b num fids f :
  files_ok infl s → PT s !! p = Some b → find_fids num 0 (FIDT b) = Some fids →
  length (take num (FCB_freelist s)) = num → f ∈ take num (FCB_freelist s) →
  (fidt_refs (<[p := set_FIDT (connected (zip fids (take num (FCB_freelist s))) (FIDT b)) b]> (PT s)) f
   + infl f = 1)%nat.
Proof.
  intros [Hok _] Hb Hff Hlen Hf. destruct (find_fids_spec _ _ _ _ Hff) as (Hl & Hnd & Hin & _).
  assert (f ∈ FCB_freelist s) as Hfl by (by eapply subseteq_take).
  pose proof (fo_free _ _ _ Hok f ltac:(apply elem_of_app; by left)) as Hz.
  set (fcbs := take num (FCB_freelist s)) in *.
  pose proof (fidt_refs_update (PT s) p b
    (set_FIDT (connected (zip fids fcbs) (FIDT b)) b) f Hb) as H. simpl in H.
  rewrite connected_cnt, count_nodup in H; try done; [lia| |lia|].
  - by eapply take_nodup.
  - intros x Hx. destruct (Hin x Hx) as [_ Hlk]. by rewrite Nat.sub_0_r in Hlk.
Qed.

(** [FCB_unreserve] undoes a successful [FCB_reserve]; the streams go to the end
    of the free list. *)
Lemma unreserve_run infl s s1 c self p b num fids fcbs :
  files_ok infl s → runs_in s c self p → PT s !! p = Some b →
  FCB_reserve c num s = Ok (Some (fids, fcbs), s1) →
  ∀ s2, same_rest s1 s2 → PT s2 = PT s1 → FCB_freelist s2 = FCB_freelist s1 →
  counts_ok infl [] s2 → devices_ok fcbs s2 →
  ∃ s', FCB_unreserve c fids fcbs s2 = Ok (tt, s') ∧ files_ok infl s' ∧ same_rest s s' ∧
    PT s' = PT s ∧ FCB_freelist s' = drop num (FCB_freelist s) ++ take num (FCB_freelist s).
Proof.
  intros Hfo Hr Hb Hrun s2 Hs12 HP12 HL12 Hok2 Hd2.
  destruct (reserve_run infl s c self p b num Hfo Hr Hb) as (r & s1' & Hr1 & Hok1 & Hs1 & Hres).
  rewrite Hrun in Hr1. injection Hr1 as <- <-.
  destruct Hres as (Hff & Hfc & Hlen & Hd1 & HL1 & HP1).
  destruct (find_fids_spec _ _ _ _ Hff) as (Hl & Hnd & Hin & _).
  assert (∀ x, x ∈ fids → FIDT b !! x = Some None) as Hfree
    by (intros x Hx; destruct (Hin x Hx) as [_ Hlk]; by rewrite Nat.sub_0_r in Hlk).
  assert ((zip fids fcbs).*1 = fids) as Hfst by (apply fst_zip; lia).
  unfold FCB_unreserve. mrun ltac:(eapply CURPROC_run, runs_in_rest, runs_in_rest, Hr; done).
  destruct (disconnect_list_run infl p fids fcbs [] s2
      (set_FIDT (connected (zip fids fcbs) (FIDT b)) b))
    as (s3 & Hr3 & Hok3 & Hs3 & HP3 & HL3 & HF3); try done.
  - rewrite HP12, HP1. apply list_lookup_insert_eq. by eapply lookup_lt_Some.
  - lia.
  - rewrite Hfc. eapply take_nodup, (proj1 Hfo).
  - intros [fd f] Hx. simpl. split.
    + apply connected_in; [by rewrite Hfst|done|]. eapply lookup_lt_Some, Hfree.
      by eapply elem_of_zip_l.
    + rewrite HP12, HP1, Hfc. eapply reserved_refs; try done; [by rewrite <-Hfc|].
      rewrite <-Hfc. by eapply elem_of_zip_r.
  - exists s3. split; [done|]. split_and!.
    + split; [done|]. intros g bg Hg Hn. rewrite HF3 in Hg.
      assert (device_ok s2 bg) as H.
      { apply (Hd2 g); [done|]. by rewrite HL3, app_nil_r in Hn. }
      unfold device_ok in *. by rewrite (sr_devnum _ _ Hs3).
    + eapply same_rest_trans; [|done]. by eapply same_rest_trans.
    + rewrite HP3, HP12, HP1, list_insert_insert_eq.
      change (FIDT (set_FIDT ?l b)) with l.
      rewrite connected_roundtrip by (by rewrite Hfst).
      change (set_FIDT (FIDT b) (set_FIDT ?l b)) with (set_FIDT (FIDT b) b).
      assert (set_FIDT (FIDT b) b = b) as -> by (by destruct b). by rewrite list_insert_id.
    + by rewrite HL3, HL12, HL1, Hfc.
Qed.

(** ** Opening a device *)

(** What the device layer needs: the device table has the machine's terminals,
    and each of them has its two ends. *)
Definition terms_ok (s : kernel) : Prop :=
  devnum s = [1%nat; nterm (vm (ksched s))] ∧
  ∀ t, (t < nterm (vm (ksched s)))%nat → ∃ tm, TERM (vm (ksched s)) !! t = Some tm ∧
    iodir (kbd tm) = IODIR_RX ∧ iodir (con tm) = IODIR_TX.

Definition devices (s : kernel) (major : Device_type) : Z :=
  match major with DEV_NULL => 1 | DEV_SERIAL => Z.of_nat (nterm (vm (ksched s))) end.
Definition device_obj (major : Device_type) (minor : Z) : option nat :=
  match major with DEV_NULL => None | DEV_SERIAL => Some (Z.to_nat minor) end.

Lemma device_open_run s major minor :
  terms_ok s → 0 ≤ minor →
  device_open major minor s
    = Ok (if decide (devices s major ≤ minor) then None else Some (device_obj major minor, dev_fops major), s).
Proof.
  intros [Hd _] Hm. unfold device_open.
  assert (device_no major s = Ok (Z.to_nat (devices s major), s)) as Hn.
  { unfold device_no. mstep. rewrite Hd. destruct major; unfold devices; simpl; [done|].
    by rewrite Nat2Z.id. }
  mrun ltac:(exact Hn).
  assert (Z.of_nat (Z.to_nat (devices s major)) = devices s major) as -> by (destruct major; simpl; lia).
  destruct (decide (devices s major ≤ minor)); [done|]. destruct major; [done|].
  simpl. unfold serial_open. unfold devices in *.
  assert (on_machine bios_serial_ports s = Ok (nterm (vm (ksched s)), s)) as Hp
    by (unfold on_machine, on_ksched, on_vm, zoom, bios_serial_ports, gets; by destruct s as [[]]).
  mstep. mrun ltac:(exact Hp). mstep. rewrite run_assert; [done|].
  apply bool_decide_true. lia.
Qed.

Lemma find_fids_one l fids : find_fids 1 0 l = Some fids → ∃ fid, fids = [fid].
Proof. intros H. destruct (find_fids_spec _ _ _ _ H) as [Hl _]. destruct fids as [|? []]; simplify_eq/=. eauto. Qed.

(** Setting the object and the functions of a stream. *)
Lemma set_device_ok infl f acq acq' s b b' :
  counts_ok infl acq s → devices_ok (f :: acq') s → FT s !! f = Some b →
  refcount b' = refcount b → device_ok s b' →
  counts_ok infl acq (set_FT (<[f := b']> (FT s)) s) ∧
  devices_ok acq' (set_FT (<[f := b']> (FT s)) s).
Proof.
  intros [H1 H2 H3 H4 H5 H6 H7 H8 H9] Hdev Hb Hrc Hd. split; [split; simpl; try done|].
  - intros g Hg. rewrite list_lookup_insert_is_Some. by apply H5.
  - intros g bg Hg Hin. rewrite (table_update _ _ _ _ _ Hb) in Hg.
    case_decide; simplify_eq; [rewrite Hrc|]; by eapply H7.
  - intros g bg Hg Hin. rewrite (table_update _ _ _ _ _ Hb) in Hg.
    case_decide; simplify_eq; [rewrite Hrc|]; by apply H8.
  - intros g Hg. rewrite list_lookup_insert_is_Some. by apply H9.
  - intros g bg Hg Hin. simpl in *. rewrite (table_update _ _ _ _ _ Hb) in Hg.
    case_decide; simplify_eq; [done|]. apply (Hdev g bg Hg).
    rewrite elem_of_app, elem_of_cons in *. intros [|[->|]]; [tauto|done|tauto].
Qed.

Lemma terms_ok_rest s s' : same_rest s s' → terms_ok s → terms_ok s'.
Proof. intros Hs [Hd Ht]. split; rewrite ?(sr_sched _ _ Hs), ?(sr_devnum _ _ Hs); done. Qed.

Lemma open_run infl s c self p b major minor :
  files_ok infl s → runs_in s c self p → PT s !! p = Some b → terms_ok s → 0 ≤ minor →
  ∃ r s', open_stream c major minor s = Ok (r, s') ∧ files_ok infl s' ∧ same_rest s s' ∧
    if decide (free_slots (FIDT b) = 0%nat ∨ FCB_freelist s = [] ∨ devices s major ≤ minor) then
      r = NOFILE ∧ PT s' = PT s ∧ FCB_freelist s' ≡ₚ FCB_freelist s
    else ∃ fid f l, r = Z.of_nat fid ∧ find_fids 1 0 (FIDT b) = Some [fid] ∧
      FCB_freelist s = f :: l ∧ FCB_freelist s' = l ∧
      PT s' = <[p := set_FIDT (<[fid := Some f]> (FIDT b)) b]> (PT s) ∧
      (∃ n, FT s' !! f = Some (MkFCB n (device_obj major minor) (Some (dev_fops major)))).
Proof.
  intros Hfo Hr Hb Ht Hm. unfold open_stream.
  destruct (reserve_run infl s c self p b 1 Hfo Hr Hb) as (r & s1 & Hr1 & Hok1 & Hs1 & Hres).
  mrun ltac:(exact Hr1). destruct r as [[fids fcbs]|].
  - destruct Hres as (Hff & Hfc & Hlen & Hd1 & HL1 & HP1).
    destruct (find_fids_one _ _ Hff) as [fid ->].
    destruct (FCB_freelist s) as [|f l] eqn:Hfl; [by rewrite Hfc in Hlen|]. change (take 1 (f :: l)) with [f] in Hfc. subst fcbs.
    assert (free_slots (FIDT b) ≠ 0)%nat as Hfree.
    { intros Hz. assert (find_fids 1 0 (FIDT b) = None) as Hn by (apply find_fids_none; lia). congruence. }
    cbv beta iota. mrun ltac:(apply device_open_run; [by eapply terms_ok_rest|done]).
    assert (devices s1 major = devices s major) as ->
      by (unfold devices; by rewrite (sr_sched _ _ Hs1)).
    destruct (decide (devices s major ≤ minor)) as [Hmin|Hmin].
    + destruct (unreserve_run infl s s1 c self p b 1 [fid] [f] Hfo Hr Hb Hr1 s1)
        as (s2 & Hr2 & Hfo2 & Hs2 & HP2 & HL2); try done.
      mrun ltac:(exact Hr2). eexists _, s2. split; [reflexivity|]. split_and!; try done.
      rewrite decide_True by tauto. split_and!; try done. rewrite HL2, Hfl. simpl.
      apply Permutation_app_comm.
    + assert (f ∉ FCB_freelist s1) as Hf1.
      { rewrite HL1. pose proof (fo_nodup _ _ _ (proj1 Hfo)) as Hn.
        rewrite Hfl, app_nil_r in Hn. apply NoDup_cons in Hn as [Hn _]. done. }
      destruct (fo_valid _ _ _ Hok1 f) as [bf Hbf].
      { assert (0 < fidt_refs (PT s1) f)%nat; [|lia]. rewrite HP1.
        assert (fid < length (FIDT b))%nat as Hlt.
        { destruct (find_fids_spec _ _ _ _ Hff) as (_ & _ & Hin & _).
          destruct (Hin fid ltac:(left)) as [_ Hlk%lookup_lt_Some]. lia. }
        eapply (fidt_refs_pos _ p _ fid);
          [apply list_lookup_insert_eq; by eapply lookup_lt_Some|].
        by apply list_lookup_insert_eq. }
      mrun ltac:(by apply upd_FCB_run).
      destruct (set_device_ok infl f [] [] s1 bf
        (MkFCB (refcount bf) (device_obj major minor) (Some (dev_fops major))) Hok1 Hd1 Hbf)
        as [Hok2 Hd2]; [done| |].
      { unfold device_ok. simpl. destruct major; [done|]. eexists _, _. split; [reflexivity|].
        unfold devices in Hmin. destruct Ht as [Hdn _]. rewrite (sr_devnum _ _ Hs1), Hdn.
        split; [reflexivity|]. lia. }
      eexists _, _. split; [reflexivity|]. split; [done|].
      split; [eapply same_rest_trans; [exact Hs1|by split]|].
      rewrite decide_False by (intros [?|[?|?]]; done).
      exists fid, f, l. split_and!; try done.
      exists (refcount bf). simpl. apply list_lookup_insert_eq. by eapply lookup_lt_Some.
  - destruct Hres as (Hno & Hd1 & HP1 & HL1).
    eexists _, s1. split; [reflexivity|]. split; [done|]. split; [done|].
    rewrite decide_True.
    { split_and!; [done..|]. rewrite HL1. case_decide; [done|]. by rewrite <-Permutation_rev. }
    destruct Hno as [?|?]; [left; lia|right; left].
    destruct (FCB_freelist s); [done|simpl in *; lia].
Qed.

(** ** Dup2

    The code drops the stream of [newfd] before it overwrites the id, and the
    lemmas of [StreamInv.v] take the id away first; the file table does not see
    the difference. *)
Lemma decref_PT pt s f :
  FCB_decref f (set_PT pt s) =
  match FCB_decref f s with Ok (r, s') => Ok (r, set_PT pt s') | Fault e => Fault e end.
Proof.
  unfold FCB_decref, upd_FCB, get_FCB, release_FCB. unfold_monad. simpl.
  destruct (FT s !! f) as [b|]; [|done]. simpl.
  destruct (<[f:=set_refcount (u32 (refcount b - 1)) b]> (FT s) !! f) as [b'|]; [|done].
  case_decide; [|done]. by destruct (streamfunc b').
Qed.

Definition after_drop (infl : nat → nat) (s : kernel) (o : option nat) : list nat :=
  match o with
  | Some g => if decide (fidt_refs (PT s) g + infl g = 1)%nat then FCB_freelist s ++ [g]
              else FCB_freelist s
  | None => FCB_freelist s
  end.

Lemma drop_fid_run infl s p b fd o :
  files_ok infl s → PT s !! p = Some b → FIDT b !! fd = Some o →
  (∀ f, Z.of_nat (infl f) + 1 < 2 ^ 31) →
  ∃ s2, (match o with Some g => FCB_decref g ;; mret tt | None => mret tt end) s
      = Ok (tt, set_PT (PT s) s2) ∧ files_ok infl s2 ∧ same_rest s s2 ∧
    PT s2 = <[p := set_FIDT (<[fd := None]> (FIDT b)) b]> (PT s) ∧
    FCB_freelist s2 = after_drop infl s o.
Proof.
  intros [Hok Hdev] Hb Hfd Hsm. set (pt1 := <[p := set_FIDT (<[fd := None]> (FIDT b)) b]> (PT s)).
  destruct o as [g|].
  - assert (counts_ok (add_ref g infl) [] (set_PT pt1 s)) as Hok1.
    { eapply (store_ref infl [] s Hok p b _ (Some g) None); [done|done| |].
      - intros f. apply add_ref_one.
      - intros f. specialize (Hsm f). unfold add_ref. case_decide; lia. }
    destruct (decref_run infl [] (set_PT pt1 s) g Hok1 Hdev)
      as (s2 & Hr2 & Hok2 & Hd2 & Hs2 & HP2 & HL2).
    exists s2. split_and!; try done.
    + erewrite bind_run; [reflexivity|].
      assert (s = set_PT (PT s) (set_PT pt1 s)) as Hs by (by destruct s).
      rewrite Hs at 1. by rewrite decref_PT, Hr2.
    + eapply same_rest_trans; [|exact Hs2]. by split.
    + rewrite HL2. simpl.
      pose proof (fidt_refs_set (PT s) p b _ (Some g) None g Hb Hfd) as Hrefs. fold pt1 in Hrefs.
      unfold one in Hrefs. rewrite decide_True in Hrefs by done.
      rewrite decide_False in Hrefs by done.
      destruct (decide (fidt_refs (PT s) g + infl g = 1)%nat).
      * by rewrite decide_True by lia.
      * by rewrite decide_False by lia.
  - exists (set_PT pt1 s). split_and!; try done.
    + by destruct s.
    + split; [|done]. eapply (store_ref infl [] s Hok p b _ None None); [done|done|done|].
      intros f. specialize (Hsm f). lia.
Qed.

Lemma dup2_run infl s c self p b oldfd newfd f o :
  files_ok infl s → runs_in s c self p → PT s !! p = Some b →
  fid_of s p oldfd = Some f → valid_fid newfd = true → fid_of s p newfd = o →
  (∀ g, Z.of_nat (infl g) + 1 < 2 ^ 31) →
  ∃ s', sys_Dup2 c oldfd newfd s = Ok (0, s') ∧ files_ok infl s' ∧ same_rest s s' ∧
    PT s' = <[p := set_FIDT (<[Z.to_nat newfd := Some f]> (FIDT b)) b]> (PT s) ∧
    FCB_freelist s' = if decide (o = Some f) then FCB_freelist s else after_drop infl s o.
Proof.
  intros Hfo Hr Hb Hf Hv Ho Hsm. pose proof Hfo as [Hok Hdev].
  pose proof (fo_length _ _ _ Hok p b Hb) as Hl.
  destruct (fid_of_some _ _ _ _ _ Hb Hf) as [Hvo Hold].
  destruct (valid_fid_lookup _ _ _ _ _ newfd Hok Hb Hv) as (o' & Hnew & Ho').
  assert (o' = o) as -> by congruence. clear Ho'.
  pose proof (fid_of_lookup s p b oldfd Hb) as Hlo. pose proof (fid_of_lookup s p b newfd Hb) as Hln.
  unfold sys_Dup2. rewrite Hvo, Hv. change (negb (true && true)) with false. cbv iota.
  mrun ltac:(by eapply get_fcb_run). mrun ltac:(by eapply get_fcb_run).
  rewrite <-Hlo, <-Hln, Hf, Ho.
  destruct (decide (Some f = o)) as [<-|Hne].
  - mstep. eexists. split; [reflexivity|]. rewrite decide_True by done.
    split_and!; try done. rewrite (list_insert_id (FIDT b)) by done.
    assert (set_FIDT (FIDT b) b = b) as -> by (by destruct b). by rewrite list_insert_id.
  - rewrite decide_False by done. mstep.
    destruct (drop_fid_run infl s p b _ o Hfo Hb Hnew Hsm) as (s2 & Hr2 & [Hok2 Hd2] & Hs2 & HP2 & HL2).
    mrun ltac:(exact Hr2).
    set (b2 := set_FIDT (<[Z.to_nat newfd := None]> (FIDT b)) b) in *.
    assert (PT s2 !! p = Some b2) as Hb2
      by (rewrite HP2; apply list_lookup_insert_eq; by eapply lookup_lt_Some).
    assert (Z.to_nat oldfd ≠ Z.to_nat newfd) as Hfds by (intros He; congruence).
    assert (0 < fidt_refs (PT s2) f)%nat as Hpos.
    { apply (fidt_refs_pos _ p b2 (Z.to_nat oldfd)); [done|]. simpl.
      by rewrite list_lookup_insert_ne. }
    destruct (used_block _ _ _ Hok2 f ltac:(lia)) as (bf & Hbf & Hrc).
    pose proof (used_not_free _ _ _ Hok2 f ltac:(lia)) as Hnf.
    destruct (incref_run _ _ _ Hok2 f bf Hbf ltac:(specialize (Hsm f); lia) Hnf) as [_ Hok3].
    pose proof (refs_bound _ _ _ Hok2 f) as Hbd.
    unfold FCB_incref. mstep. mrun ltac:(by apply upd_FCB_run). cbn beta. mstep.
    rewrite u32_small by lia.
    mrun ltac:(eapply CURPROC_run, runs_in_rest, runs_in_rest, Hr; [|exact Hs2]; by split).
    mrun ltac:(by apply upd_PCB_run). mstep.
    pose proof (store_ref _ _ _ Hok3 p b2 (Z.to_nat newfd) None (Some f) infl Hb2) as Hok4.
    eexists. split; [reflexivity|]. rewrite ?(decide_False (P := o = Some f)) by congruence. split; [split|split_and!].
    + eapply counts_ok_frame; [| | |apply Hok4]; try done.
      * simpl. rewrite HP2, list_insert_insert_eq. f_equal.
        unfold b2. unfold set_FIDT at 2. cbn [FIDT]. by rewrite list_insert_insert_eq.
      * unfold b2. cbn [FIDT set_FIDT]. apply list_lookup_insert_eq. by eapply lookup_lt_Some.
      * intros g. by rewrite add_ref_one.
      * intros g. specialize (Hsm g). lia.
    + pose proof (devices_ok_set [] s2 f bf (set_refcount (refcount bf + 1) bf) (FCB_freelist s2)
        Hd2 Hbf eq_refl eq_refl ltac:(done)) as H.
      eapply devices_ok_frame; [| | |exact H]; done.
    + eapply same_rest_trans; [exact Hs2|by split].
    + done.
    + simpl. done.
Qed.
