(* ===== verification/StreamFrame.v ===== *)
(** * What reserving and opening leaves of the other streams

    [FCB_reserve], [FCB_unreserve] and [Open] take free streams only: a stream that is
    in use stays as it is, in what a function [pr] sees of it. *)
From S2P Require Import Prelude Hoare Bios Sched SchedInv Kernel Devices Streams StreamInv StreamCalls.
Local Open Scope Z_scope.

Section used_stream.
#[local] Set Default Proof Using "Type".
Context {X : Type} (pr : FCB → X) (f0 : nat) (d : option X).
Definition used_as (s : kernel) : Prop := (f0 ∉ FCB_freelist s) ∧ pr <$> FT s !! f0 = d.

Lemma ua_upd_PCB p f : keeps used_as (upd_PCB p f) (λ _, True).
Proof. unfold upd_PCB, get_PCB. by keeps_go. Qed.
Lemma ua_upd_FCB f g : f ≠ f0 ∨ (∀ b, pr (g b) = pr b) → keeps used_as (upd_FCB f g) (λ _, True).
Proof.
  intros Hg s [] s' [Hn Hd] (b & s1 & Hr & [= <-])%bind_Ok. revert Hr. unfold get_FCB. unfold_monad.
  destruct (FT s !! f) as [b'|] eqn:Hb; [|by intros [=]]. intros [= -> ->]. split; [|done]. split; [done|].
  cbn. rewrite <-Hd. destruct (decide (f = f0)) as [->|Hne]; [|by rewrite list_lookup_insert_ne].
  rewrite list_lookup_insert_eq by (by eapply lookup_lt_Some). rewrite Hb. cbn. f_equal. destruct Hg; naive_solver.
Qed.
Lemma ua_incref f : f ≠ f0 → keeps used_as (FCB_incref f) (λ _, True).
Proof. intros Hf. apply ua_upd_FCB. by left. Qed.
Lemma ua_release f : f ≠ f0 → keeps used_as (release_FCB f) (λ _, True).
Proof.
  intros Hf. unfold release_FCB. apply keeps_modify; [|done]. intros s [Hn Hd]. split; [|done]. cbn.
  rewrite elem_of_app, list_elem_of_singleton. intros [?|?]; congruence.
Qed.
Hint Resolve ua_upd_PCB : keeps.
Lemma ua_CURPROC c : keeps used_as (CURPROC c) (λ _, True).
Proof.
  assert (∀ {A} (m : SM A), keeps used_as (on_ksched m) (λ _, True)) as Hk.
  { intros A m. by apply (keeps_zoom _ (λ _, True)). }
  unfold CURPROC. by keeps_go.
Qed.
Lemma ua_get_PCB p : keeps used_as (get_PCB p) (λ _, True).
Proof. unfold get_PCB. by keeps_go. Qed.
Hint Resolve ua_CURPROC ua_get_PCB : keeps.

Lemma ua_acquire : keeps used_as acquire_FCB (λ o, o ≠ Some f0).
Proof.
  unfold acquire_FCB. intros s o s' [Hn Hd]. unfold mbind at 1, M_bind at 1. cbn [get].
  destruct (FCB_freelist s) as [|f l] eqn:Hl; [intros [= <- <-]; split; [by split; rewrite ?Hl|done]|].
  apply not_elem_of_cons in Hn as [Hf Hn]. intros Hr.
  assert (keeps used_as (upd_FCB f (set_refcount 0) ;; mret (Some f) : KM (option nat)) (λ o, o ≠ Some f0)) as Hk.
  { eapply keeps_seq; [apply ua_upd_FCB; by left|]. intros _. apply keeps_ret. congruence. }
  unfold mbind at 1, M_bind at 1 in Hr. cbn [modify] in Hr. by apply (Hk (set_FCB_freelist l s) o s').
Qed.
Lemma ua_acquires n : keeps used_as (acquire_FCBs n) (Forall (.≠ f0)).
Proof.
  induction n as [|n IH]; cbn [acquire_FCBs]; [by apply keeps_ret|].
  eapply keeps_bind; [apply ua_acquire|]. intros [f|] Hf; [|by apply keeps_ret].
  eapply keeps_bind; [apply IH|]. intros l Hl. apply keeps_ret. constructor; [congruence|done].
Qed.
Lemma ua_reserve c n : keeps used_as (FCB_reserve c n) (λ r, ∀ x, r = Some x → Forall (.≠ f0) x.2).
Proof.
  unfold FCB_reserve. eapply keeps_bind; [apply ua_CURPROC|]. intros p _. eapply keeps_bind; [apply ua_get_PCB|].
  intros b _. destruct (find_fids n 0 (FIDT b)) as [fids|]; [|by apply keeps_ret].
  eapply keeps_bind; [apply ua_acquires|]. intros l Hl. case_decide.
  - eapply keeps_seq; [|intros _; by apply keeps_ret]. apply keeps_for_each. intros f Hf%list_elem_of_In%in_rev%list_elem_of_In.
    apply ua_release. by apply (proj1 (Forall_forall _ _) Hl).
  - eapply keeps_seq; [|intros _; apply keeps_ret; by intros ? [= <-]]. apply keeps_for_each.
    intros [fd f] Hx%elem_of_zip_r. unfold connect. eapply keeps_seq; [apply ua_upd_PCB|]. intros _. apply ua_incref.
    by apply (proj1 (Forall_forall _ _) Hl).
Qed.
Lemma ua_unreserve c fids fcbs : Forall (.≠ f0) fcbs → keeps used_as (FCB_unreserve c fids fcbs) (λ _, True).
Proof.
  intros Hl. unfold FCB_unreserve. eapply keeps_bind; [apply ua_CURPROC|]. intros p _. apply keeps_for_each.
  intros [fd f] Hx%elem_of_zip_r. unfold disconnect. eapply keeps_seq; [apply ua_get_PCB|]. intros b.
  eapply keeps_seq; [eapply keeps_True, keeps_assert|]. intros _. eapply keeps_seq; [apply ua_upd_PCB|]. intros _.
  apply ua_release. by apply (proj1 (Forall_forall _ _) Hl).
Qed.
Lemma ua_open c major minor : keeps used_as (open_stream c major minor) (λ _, True).
Proof.
  unfold open_stream. eapply keeps_bind; [apply ua_reserve|]. intros r Hr. cbv beta in Hr.
  assert (keeps used_as (device_open major minor) (λ _, True)) as Hd.
  { assert (∀ {A} (m : SM A), keeps used_as (on_ksched m) (λ _, True)) as Hk
      by (intros A m; by apply (keeps_zoom _ (λ _, True))).
    unfold device_open, device_no, dev_open, serial_open, on_machine, on_vm. by keeps_go. }
  destruct r as [[[|fid [|]] [|f [|]]]|]; try by apply keeps_ret.
  specialize (Hr _ eq_refl). cbn in Hr. apply Forall_cons in Hr as [Hf _].
  eapply keeps_bind; [exact Hd|]. intros [[obj ops]|] _.
  - eapply keeps_seq; [apply ua_upd_FCB; by left|intros _; by apply keeps_ret].
  - eapply keeps_seq; [apply ua_unreserve; by constructor|intros _; by apply keeps_ret].
Qed.
End used_stream.

