(* ===== verification/StreamIO.v ===== *)
(** * Reading and writing streams

    [Read] and [Write] take a reference to the stream, call the device, and drop
    the reference when the transfer is over; a thread that waits for the device
    holds it, so that no other call can close the stream under it. *)
From S2P Require Import Prelude Bios Sched SchedInv SchedSteps Kernel Devices Streams StreamInv StreamCalls.
Local Open Scope Z_scope.

(** ** The terminals *)

(** Thread [self] of process [p] runs on core [c], in the kernel. *)
Record can_call (s : kernel) (c : nat) (self : tid) (p : nat) : Prop := CanCall {
  cc_runs : runs_in s c self p;
  cc_pcb : is_Some (PT s !! p);
  cc_thread : is_thr self;
  cc_sched : ∃ ms pl, inv (ksched s) ms pl ∧ ms !! c = Some Running }.

(** A transfer changes the state of terminals and of the core's preemption only. *)
Record io_frame (s s' : kernel) : Prop := IoFrame {
  io_sched : ∃ k, s' = set_ksched k s;
  io_tcbs : Sched.tcbs (ksched s') = Sched.tcbs (ksched s);
  io_inv : ∀ ms pl, inv (ksched s) ms pl → inv (ksched s') ms pl;
  io_nterm : nterm (vm (ksched s')) = nterm (vm (ksched s));
  io_terms : terms_ok s → terms_ok s';
  io_call : ∀ c self p, can_call s c self p → can_call s' c self p }.

Lemma io_frame_refl s : io_frame s s.
Proof. split; try done. exists (ksched s). by rewrite set_ksched_id. Qed.
Lemma io_frame_trans s1 s2 s3 : io_frame s1 s2 → io_frame s2 s3 → io_frame s1 s3.
Proof.
  intros [[v ->] ? ? ? ? ?] [[v' ->] ? ? ? ? ?].
  split; simpl in *; [by eexists|congruence|auto|congruence|auto|auto].
Qed.

(** A change of the machine that leaves its cores alone. *)
Lemma vm_frame s v :
  CORE v = CORE (vm (ksched s)) → halted_list v = halted_list (vm (ksched s)) →
  nterm v = nterm (vm (ksched s)) →
  (terms_ok s → terms_ok (set_ksched (set_vm v (ksched s)) s)) →
  io_frame s (set_ksched (set_vm v (ksched s)) s).
Proof.
  intros HC HH Hn Ht.
  assert (∀ ms pl, inv (ksched s) ms pl → inv (set_vm v (ksched s)) ms pl) as Hinv.
  { intros ms pl Hi. apply inv_vm; [done|]. destruct (i_vm _ _ _ Hi) as [H1 H2].
    split; [|by rewrite HC]. unfold halted_ok in *. by rewrite HC, HH. }
  split; [by eexists|done|done|done|done|].
  intros c self p [Hr Hp Hthr (ms & pl & Hi & Hm)]. split; try done. exists ms, pl. auto.
Qed.

(** [preempt_off] and [preempt_on]. *)
Lemma preempt_frame s c self p pre :
  can_call s c self p →
  ∃ b s', on_ksched (set_core_preemption c pre) s = Ok (b, s') ∧ io_frame s s'.
Proof.
  intros [(b & k & Hb & Hcur & Hk & Ho) Hp Hthr (ms & pl & Hi & Hm)].
  destruct (preempt_inv _ _ _ c b pre Hi Hb) as (s1 & Hr & Hi1 & Hc1 & Ht1 & _).
  assert (TERM (vm s1) = TERM (vm (ksched s)) ∧ nterm (vm s1) = nterm (vm (ksched s))) as [HT Hn].
  { clear -Hr. revert Hr. unfold set_core_preemption, get_ccb, upd_ccb, get_ccb, on_vm, upd_core,
      get_core. unfold_monad. repeat (case_match; simplify_eq/=; try done); by intros [= _ <-]. }
  assert (∀ ms' pl', inv (ksched s) ms' pl' → inv s1 ms' pl') as Hinv.
  { intros ms' pl' Hi'. destruct (preempt_inv _ _ _ c b pre Hi' Hb) as (s2 & Hr2 & Hi2 & _).
    rewrite Hr in Hr2. by injection Hr2 as <-. }
  eexists _, _. split; [by apply on_ksched_run|]. split; [by eexists|done|done|done| |].
  - intros [Hd Hall]. split; simpl; by rewrite ?HT, ?Hn.
  - intros d self' q [(b' & k' & Hb' & Hcur' & Hk' & Ho') Hp' Hthr' (ms' & pl' & Hi' & Hm')].
    split; try done; simpl.
    + destruct (decide (d = c)) as [->|Hdc].
      * assert (b' = b) as -> by congruence. exists (preempted pre b), k'. simpl.
        rewrite Hc1, Ht1, lookup_insert_eq. done.
      * exists b', k'. simpl. by rewrite Hc1, Ht1, lookup_insert_ne.
    + exists ms', pl'. auto.
Qed.

(** What the calls keep of the rest of the kernel: the scheduler stays in order, no
    thread disappears, and only live threads go into a ring. *)
Record kept (s s' : kernel) : Prop := Kept {
  kp_rest : pcb_freelist s' = pcb_freelist s ∧ process_count s' = process_count s ∧
            ptcbs s' = ptcbs s ∧ kbufs s' = kbufs s ∧ next_buf s' = next_buf s;
  kp_inv : (∃ ms pl, inv (ksched s) ms pl) → ∃ ms pl, inv (ksched s') ms pl;
  kp_tcbs : ∀ u, is_Some (Sched.tcbs (ksched s) !! u) → is_Some (Sched.tcbs (ksched s') !! u);
  kp_wait : ∀ ch t, (ch, t) ∈ waiting s' →
    (ch, t) ∈ waiting s ∨ is_Some (Sched.tcbs (ksched s') !! t) }.

Lemma kept_refl s : kept s s.
Proof. split; auto; done. Qed.
Lemma kept_trans s1 s2 s3 : kept s1 s2 → kept s2 s3 → kept s1 s3.
Proof.
  intros [(?&?&?&?&?) Hi Ht Hw] [(?&?&?&?&?) Hi' Ht' Hw']. split; auto.
  - split_and!; congruence.
  - intros ch t H'. destruct (Hw' _ _ H') as [H''|]; [|by right].
    destruct (Hw _ _ H''); auto.
Qed.
Lemma kept_rest s s' : same_rest s s' → kept s s'.
Proof. intros [H1 H2 (?&?&?&?&Hw&?&?)]. split; rewrite ?H1, ?Hw; auto; done. Qed.
Lemma kept_io s s' : io_frame s s' → kept s s'.
Proof.
  intros [[v ->] Ht Hi _ _ _]. split; simpl in *; rewrite ?Ht; try done; auto.
  intros (ms & pl & H). eauto.
Qed.

Definition term_at (s : kernel) (t : nat) : Prop := (t < nterm (vm (ksched s)))%nat.

(** Replacing a device of terminal [t] by one of the same direction. *)
Lemma put_term_frame s t tm tm' kicks :
  TERM (vm (ksched s)) !! t = Some tm → iodir (kbd tm') = iodir (kbd tm) →
  iodir (con tm') = iodir (con tm) →
  io_frame s (set_ksched (set_vm (set_PIC_usr1_queued kicks
    (set_TERM (<[t := tm']> (TERM (vm (ksched s)))) (vm (ksched s)))) (ksched s)) s).
Proof.
  intros Ht Hk Hc. apply vm_frame; try done. intros [Hd Hall]. split; [done|]. simpl.
  intros u Hu. destruct (Hall u Hu) as (tu & Htu & Hrx & Htx).
  destruct (decide (t = u)) as [->|Hne].
  - exists tm'. simplify_eq. rewrite Hk, Hc. split; [|done].
    apply list_lookup_insert_eq. by eapply lookup_lt_Some.
  - exists tu. by rewrite list_lookup_insert_ne.
Qed.

Lemma read_serial_run s t input :
  terms_ok s → term_at s t →
  ∃ s', on_machine (bios_read_serial t input) s = Ok (input, s') ∧ io_frame s s'.
Proof.
  intros [Hd Hall] Ht. destruct (Hall t Ht) as (tm & Htm & Hrx & Htx).
  unfold on_machine, on_ksched, on_vm, bios_read_serial, get_term, io_device_read, io_failed,
    put_kbd, upd_term, get_term, interrupt_pic_thread. unfold_monad.
  rewrite Htm, bool_decide_true by done.
  destruct input as [x|].
  - eexists. split; [reflexivity|]. destruct s as [[]]; simpl. apply io_frame_refl.
  - destruct (ready (kbd tm)).
    + rewrite Htm. eexists. split; [reflexivity|]. by apply (put_term_frame s t tm).
    + eexists. split; [reflexivity|]. destruct s as [[]]; simpl. apply io_frame_refl.
Qed.

Lemma write_serial_run s t x sent :
  terms_ok s → term_at s t →
  ∃ s', on_machine (bios_write_serial t x sent) s = Ok (sent, s') ∧ io_frame s s'.
Proof.
  intros [Hd Hall] Ht. destruct (Hall t Ht) as (tm & Htm & Hrx & Htx).
  unfold on_machine, on_ksched, on_vm, bios_write_serial, get_term, io_device_write, io_failed,
    put_con, upd_term, get_term, interrupt_pic_thread. unfold_monad.
  rewrite Htm, bool_decide_true by done.
  destruct sent.
  - eexists. split; [reflexivity|]. destruct s as [[]]; simpl. apply io_frame_refl.
  - destruct (ready (con tm)).
    + rewrite Htm. eexists. split; [reflexivity|]. by apply (put_term_frame s t tm).
    + eexists. split; [reflexivity|]. destruct s as [[]]; simpl. apply io_frame_refl.
Qed.

Lemma term_at_frame s s' t : io_frame s s' → term_at s t → term_at s' t.
Proof. intros Hf. unfold term_at. by rewrite (io_nterm _ _ Hf). Qed.

(** [serial_read]: a prefix of what the host has, as long as there is room; it
    waits iff there is nothing and there is room. *)
Lemma serial_read_loop_run t n : ∀ got avail s,
  terms_ok s → term_at s t →
  ∃ s', serial_read_loop t n got avail s =
      Ok (if decide (n ≠ 0%nat ∧ got = [] ∧ avail = []) then MustWait
          else Moved (i32 (Z.of_nat (length (got ++ take n avail)))) (got ++ take n avail), s') ∧
    io_frame s s'.
Proof.
  induction n as [|n IH]; intros got avail s Ht Hat.
  - exists s. split; [|apply io_frame_refl]. rewrite decide_False by tauto.
    change (take 0 avail) with (@nil Z). by rewrite app_nil_r.
  - cbn [serial_read_loop].
    destruct (read_serial_run s t (head avail) Ht Hat) as (s1 & Hr1 & Hf1).
    mrun ltac:(exact Hr1). destruct avail as [|x avail].
    + simpl. exists s1. split; [|done].
      destruct (decide (got = [])) as [->|Hg].
      * by rewrite decide_True.
      * rewrite decide_False by tauto. by rewrite app_nil_r.
    + simpl. destruct (IH (got ++ [x]) avail s1) as (s2 & Hr2 & Hf2);
        [by apply (io_terms _ _ Hf1)|by eapply term_at_frame|].
      exists s2. rewrite Hr2, <-app_assoc. simpl. split; [|by eapply io_frame_trans].
      rewrite !decide_False; [done|naive_solver|]. intros (_ & H & _). by destruct got.
Qed.

Lemma serial_write_loop_run t buf : ∀ count room s,
  terms_ok s → term_at s t →
  ∃ s', serial_write_loop t buf count room s =
      Ok (if decide (buf ≠ [] ∧ count = 0%nat ∧ room = 0%nat) then MustWait
          else Moved (i32 (Z.of_nat (count + Nat.min room (length buf)))) [], s') ∧
    io_frame s s'.
Proof.
  induction buf as [|x buf IH]; intros count room s Ht Hat.
  - exists s. split; [|apply io_frame_refl]. rewrite decide_False by tauto.
    simpl. rewrite Nat.min_0_r, Nat.add_0_r. done.
  - cbn [serial_write_loop].
    destruct (write_serial_run s t x (bool_decide (0 < room)%nat) Ht Hat) as (s1 & Hr1 & Hf1).
    mrun ltac:(exact Hr1). destruct room as [|room].
    + rewrite bool_decide_false by lia. exists s1. split; [|done].
      destruct (decide (count = 0)%nat) as [->|Hc].
      * by rewrite decide_True.
      * rewrite decide_False by tauto. by rewrite Nat.add_0_r.
    + rewrite bool_decide_true by lia. simpl.
      destruct (IH (S count) room s1) as (s2 & Hr2 & Hf2);
        [by apply (io_terms _ _ Hf1)|by eapply term_at_frame|].
      exists s2. rewrite Hr2. split; [|by eapply io_frame_trans].
      rewrite !decide_False by lia. by rewrite Nat.add_succ_r.
Qed.

(** The transfer of a device: [MustWait] or a number of bytes. *)
Definition read_transfer (d : file_ops) (size : Z) (avail : list Z) : transfer :=
  match d with
  | stdio_ops => Moved (i32 (Z.of_nat (length (take (Z.to_nat size) avail)))) (take (Z.to_nat size) avail)
  | nulldev_fops => Moved (i32 size) (replicate (Z.to_nat size) 0)
  | serial_fops =>
      if decide (Z.to_nat size ≠ 0%nat ∧ avail = []) then MustWait
      else Moved (i32 (Z.of_nat (length (take (Z.to_nat size) avail)))) (take (Z.to_nat size) avail)
  end.
Definition write_transfer (d : file_ops) (buf : list Z) (size : Z) (room : nat) : transfer :=
  match d with
  | stdio_ops => Moved (i32 (Z.of_nat (Nat.min room (length (take (Z.to_nat size) buf))))) []
  | nulldev_fops => Moved (i32 size) []
  | serial_fops =>
      let bytes := take (Z.to_nat size) buf in
      if decide (bytes ≠ [] ∧ room = 0%nat) then MustWait
      else Moved (i32 (Z.of_nat (Nat.min room (length bytes)))) []
  end.

Lemma dev_read_run s c self p b d size avail :
  terms_ok s → can_call s c self p → device_ok s b → streamfunc b = Some d →
  ∃ s', dev_read c d (streamobj b) size avail s = Ok (read_transfer d size avail, s') ∧ io_frame s s'.
Proof.
  intros Ht Hc Hd Hf. unfold device_ok in Hd. rewrite Hf in Hd. destruct d; simpl.
  - exists s. split; [done|apply io_frame_refl].
  - destruct Hd as (t & n & Ho & Hn & Hlt). rewrite Ho. mstep. rewrite (run_some _ _ t) by done.
    pose proof Ht as [Hdn _]. rewrite Hdn in Hn. simplify_eq/=.
    unfold serial_read. destruct (preempt_frame s c self p false Hc) as (b1 & s1 & Hr1 & Hf1).
    mrun ltac:(exact Hr1).
    destruct (serial_read_loop_run t (Z.to_nat size) [] avail s1) as (s2 & Hr2 & Hf2);
      [by apply (io_terms _ _ Hf1)|by eapply term_at_frame|].
    mrun ltac:(exact Hr2).
    destruct (preempt_frame s2 c self p true) as (b3 & s3 & Hr3 & Hf3);
      [by apply (io_call _ _ Hf2), (io_call _ _ Hf1)|].
    assert (io_frame s s2) as Hs2 by (by eapply io_frame_trans).
    destruct (decide (Z.to_nat size ≠ 0%nat ∧ avail = [])) as [Hw|Hw].
    + rewrite decide_True by tauto. by exists s2.
    + rewrite decide_False by tauto. mrun ltac:(exact Hr3). exists s3. split; [done|].
      by eapply io_frame_trans.
  - exists s. split; [done|apply io_frame_refl].
Qed.

Lemma dev_write_run s b d buf size room :
  terms_ok s → device_ok s b → streamfunc b = Some d →
  ∃ s', dev_write d (streamobj b) buf size room s = Ok (write_transfer d buf size room, s') ∧
    io_frame s s'.
Proof.
  intros Ht Hd Hf. unfold device_ok in Hd. rewrite Hf in Hd. destruct d; simpl.
  - exists s. split; [done|apply io_frame_refl].
  - destruct Hd as (t & n & Ho & Hn & Hlt). rewrite Ho. mstep. rewrite (run_some _ _ t) by done.
    destruct Ht as [Hdn Hall]. rewrite Hdn in Hn. simplify_eq/=.
    destruct (serial_write_loop_run t (take (Z.to_nat size) buf) 0 room s) as (s' & Hr & Hfr);
      [done|done|].
    exists s'. split; [|done]. unfold serial_write. rewrite Hr. simpl.
    repeat case_decide; try done; tauto.
  - exists s. split; [done|apply io_frame_refl].
Qed.

(** ** Calls in progress

    [held] are the references that waiting calls of [Read] and [Write] hold. *)
Definition holds (held : list nat) (f : nat) : nat := length (filter (λ g, g = f) held).

Lemma holds_cons g held f : holds (g :: held) f = add_ref g (holds held) f.
Proof.
  unfold holds, add_ref. rewrite filter_cons. case_decide as Hg.
  - subst. by rewrite decide_True.
  - by rewrite decide_False by congruence.
Qed.

Lemma holds_le held f : (holds held f ≤ length held)%nat.
Proof. apply length_filter. Qed.

Fixpoint remove_one (f : nat) (held : list nat) : list nat :=
  match held with
  | [] => []
  | g :: held => if decide (g = f) then held else g :: remove_one f held
  end.

Lemma remove_one_perm f held : f ∈ held → held ≡ₚ f :: remove_one f held.
Proof.
  induction held as [|g held IH]; intros Hf; [by apply not_elem_of_nil in Hf|]. simpl.
  destruct (decide (g = f)) as [->|Hne]; [done|].
  apply elem_of_cons in Hf as [->|Hf]; [done|]. rewrite (IH Hf) at 1. apply Permutation_swap.
Qed.

Lemma holds_remove f held g : f ∈ held → holds held g = add_ref f (holds (remove_one f held)) g.
Proof.
  intros Hf. rewrite <-holds_cons. unfold holds. apply Permutation_length.
  by rewrite <-remove_one_perm.
Qed.

Inductive stream_call :=
  | OpenStream (major : Device_type) (minor : Z)
  | Close (fd : Z)
  | Dup2 (oldfd newfd : Z)
  | Read (fd size : Z) (avail : list Z)
  | Write (fd : Z) (buf : list Z) (size : Z) (room : nat)
  | ReadOn (f : nat) (size : Z) (avail : list Z)              (** after a wait *)
  | WriteOn (f : nat) (buf : list Z) (size : Z) (room : nat).

Definition exec_call (c : nat) (call : stream_call) : KM io_result :=
  match call with
  | OpenStream major minor => r ← open_stream c major minor; mret (IoDone r [])
  | Close fd => r ← sys_Close c fd; mret (IoDone r [])
  | Dup2 oldfd newfd => r ← sys_Dup2 c oldfd newfd; mret (IoDone r [])
  | Read fd size avail => sys_Read c fd size avail
  | Write fd buf size room => sys_Write c fd buf size room
  | ReadOn f size avail => read_device c f size avail
  | WriteOn f buf size room => write_device c f buf size room
  end.

Definition call_ok (held : list nat) (call : stream_call) : Prop :=
  match call with
  | OpenStream _ minor => 0 ≤ minor
  | ReadOn f _ _ | WriteOn f _ _ _ => f ∈ held
  | _ => True
  end.

Definition next_held (call : stream_call) (r : io_result) (held : list nat) : list nat :=
  match call, r with
  | (Read _ _ _ | Write _ _ _ _), IoBlocked f => f :: held
  | (ReadOn f _ _ | WriteOn f _ _ _), IoDone _ _ => remove_one f held
  | _, _ => held
  end.

Lemma sleep_mark_vm c state s s' :
  sleep_mark c state NO_TIMEOUT s = Ok (tt, s') →
  TERM (vm s') = TERM (vm s) ∧ nterm (vm s') = nterm (vm s) ∧
  ∀ u, is_Some (Sched.tcbs s !! u) → is_Some (Sched.tcbs s' !! u).
Proof.
  unfold sleep_mark, CURTHREAD, set_core_preemption, get_ccb, upd_ccb, upd_tcb, get_tcb, get_ccb,
    sched_register_timeout, on_vm, upd_core, get_core. unfold_monad.
  repeat (case_match; simplify_eq/=; try done); intros [= <-]; simpl; split_and!; try done;
    intros u Hu; rewrite lookup_insert_is_Some'; auto.
Qed.

Lemma kernel_wait_run s c self p ch :
  can_call s c self p →
  ∃ k, kernel_wait ch c s = Ok (tt, set_ksched k (set_waiting (waiting s ++ [(ch, self)]) s)) ∧
    TERM (vm k) = TERM (vm (ksched s)) ∧ nterm (vm k) = nterm (vm (ksched s)) ∧
    kept s (set_ksched k (set_waiting (waiting s ++ [(ch, self)]) s)).
Proof.
  intros [Hr Hp Ht (ms & pl & Hi & Hm)]. unfold kernel_wait.
  mrun ltac:(by eapply CURTHREAD_run). mstep.
  destruct Hr as (b & k0 & Hb & Hcur & Hk0 & _).
  destruct (sleep_run (ksched s) ms pl c STOPPED NO_TIMEOUT Hi Hm) as (k & pl' & Hrun & Hi').
  { split; [by left|]. split; [|by left]. exists b. by rewrite Hcur. }
  exists k. split; [by apply on_ksched_run|].
  destruct (sleep_mark_vm _ _ _ _ Hrun) as (HT & Hn & Hdom). split_and!; [done|done|].
  split; simpl; [done|by eexists _, _|done|].
  intros ch' t Hin. apply elem_of_app in Hin as [?|Hin]; [by left|right].
  apply list_elem_of_singleton in Hin as [= -> ->]. apply Hdom. by eexists.
Qed.

(** ** The calls *)
Section io_end.
Context (infl : nat → nat) (s : kernel) (c : nat) (self : tid) (p f : nat) (b : FCB).
#[local] Set Default Proof Using "Type*".
Context (Hok : counts_ok (add_ref f infl) [] s) (Hdev : devices_ok [] s) (Ht : terms_ok s)
  (Hc : can_call s c self p) (Hb : FT s !! f = Some b).

(** What a transfer leaves: the reference is dropped, or the thread holds it. *)
Definition io_post (t : transfer) (r : io_result) (s' : kernel) : Prop :=
  terms_ok s' ∧ PT s' = PT s ∧ kept s s' ∧
  match t with
  | Moved n bytes => r = IoDone n bytes ∧ files_ok infl s'
  | MustWait => r = IoBlocked f ∧ files_ok (add_ref f infl) s' ∧ FCB_freelist s' = FCB_freelist s
  end.

Lemma io_end_run (reading : bool) t :
  (t = MustWait → is_Some (streamobj b)) →
  ∃ r s', io_end c f (streamobj b) reading t s = Ok (r, s') ∧ io_post t r s' ∧
    (t = MustWait → reading = true → ∀ o, streamobj b = Some o →
       waiting s' = waiting s ++ [(RxReady o, self)]).
Proof.
  intros Hobj. destruct t as [n bytes|]; simpl.
  - destruct (decref_run infl [] s f Hok Hdev) as (s' & Hr & Hok' & Hd' & Hs' & HP' & _).
    mrun ltac:(exact Hr). eexists _, s'. split; [reflexivity|]. split; [|done].
    split; [by eapply terms_ok_rest|]. split; [done|]. split; [by apply kept_rest|done].
  - destruct Hobj as [o Ho]; [done|]. rewrite Ho. rewrite (run_some _ _ o) by done.
    destruct reading; simpl.
    + destruct (kernel_wait_run s c self p (RxReady o) Hc) as (k & Hr & HT & Hn & Hk).
      mrun ltac:(exact Hr). eexists _, _. split; [reflexivity|]. split.
      * split; [|split; [done|split; [done|]]].
        -- destruct Ht as [H1 H2]. split; simpl; rewrite ?HT, ?Hn; done.
        -- split; [done|]. split; [|done]. split.
           ++ by eapply counts_ok_frame; [..|exact Hok].
           ++ by eapply devices_ok_frame; [..|exact Hdev].
      * by intros _ _ o' [= <-].
    + mstep. eexists _, s. split; [reflexivity|]. split; [|done].
      split_and!; try done. apply kept_refl.
Qed.
End io_end.

Lemma files_frame_io infl acq s s' :
  io_frame s s' → counts_ok infl acq s → devices_ok acq s →
  counts_ok infl acq s' ∧ devices_ok acq s' ∧ PT s' = PT s ∧ FT s' = FT s ∧
  FCB_freelist s' = FCB_freelist s ∧ waiting s' = waiting s.
Proof. intros [[v ->] _ _ _ _ _] Hok Hd. split_and!; try done. by eapply counts_ok_frame; [..|exact Hok]. Qed.

Lemma io_post_back infl s s1 f t r s' :
  kept s s1 → PT s1 = PT s → FCB_freelist s1 = FCB_freelist s →
  io_post infl s1 f t r s' → io_post infl s f t r s'.
Proof.
  intros Hk HP HL (Ht & HP' & Hk' & H). unfold io_post. rewrite HP in HP'. rewrite HL in H.
  split_and!; [done|done|by eapply kept_trans|done].
Qed.

(** The part after the reference was taken; it is also the end of a wait. *)
Lemma read_device_run infl s c self p f b d size avail :
  counts_ok (add_ref f infl) [] s → devices_ok [] s → terms_ok s → can_call s c self p →
  FT s !! f = Some b → streamfunc b = Some d →
  ∃ r s', read_device c f size avail s = Ok (r, s') ∧
    io_post infl s f (read_transfer d size avail) r s' ∧
    (read_transfer d size avail = MustWait → ∀ o, streamobj b = Some o →
       waiting s' = waiting s ++ [(RxReady o, self)]).
Proof.
  intros Hok Hdev Ht Hc Hb Hd.
  assert (f ∉ FCB_freelist s ++ []) as Hf
    by (apply (used_not_free _ _ _ Hok); unfold add_ref; rewrite decide_True by done; lia).
  pose proof (Hdev f b Hb Hf) as Hdo.
  unfold read_device. mrun ltac:(by apply get_FCB_run). rewrite (run_some _ _ d) by done.
  destruct (dev_read_run s c self p b d size avail Ht Hc Hdo Hd) as (s1 & Hr1 & Hf1).
  mrun ltac:(exact Hr1).
  destruct (files_frame_io _ _ _ _ Hf1 Hok Hdev) as (Hok1 & Hdev1 & HP1 & HF1 & HL1 & HW1).
  destruct (io_end_run infl s1 c self p f b Hok1 Hdev1) with (reading := true)
    (t := read_transfer d size avail) as (r & s' & Hr & Hpost & Hw).
  - by apply (io_terms _ _ Hf1).
  - by apply (io_call _ _ Hf1).
  - by rewrite HF1.
  - intros Hm. unfold device_ok in Hdo. rewrite Hd in Hdo.
    destruct d; [done| |done]. destruct Hdo as (t & n & Ho & _). eauto.
  - exists r, s'. split; [exact Hr|].
    split; [by eapply io_post_back, Hpost; [apply kept_io| |]|]. intros Hm o Ho. by rewrite (Hw Hm eq_refl o Ho), HW1.
Qed.

Lemma write_device_run infl s c self p f b d buf size room :
  counts_ok (add_ref f infl) [] s → devices_ok [] s → terms_ok s → can_call s c self p →
  FT s !! f = Some b → streamfunc b = Some d →
  ∃ r s', write_device c f buf size room s = Ok (r, s') ∧
    io_post infl s f (write_transfer d buf size room) r s'.
Proof.
  intros Hok Hdev Ht Hc Hb Hd.
  assert (f ∉ FCB_freelist s ++ []) as Hf
    by (apply (used_not_free _ _ _ Hok); unfold add_ref; rewrite decide_True by done; lia).
  pose proof (Hdev f b Hb Hf) as Hdo.
  unfold write_device. mrun ltac:(by apply get_FCB_run). rewrite (run_some _ _ d) by done.
  destruct (dev_write_run s b d buf size room Ht Hdo Hd) as (s1 & Hr1 & Hf1).
  mrun ltac:(exact Hr1).
  destruct (files_frame_io _ _ _ _ Hf1 Hok Hdev) as (Hok1 & Hdev1 & HP1 & HF1 & HL1 & HW1).
  destruct (io_end_run infl s1 c self p f b Hok1 Hdev1) with (reading := false)
    (t := write_transfer d buf size room) as (r & s' & Hr & Hpost & _).
  - by apply (io_terms _ _ Hf1).
  - by apply (io_call _ _ Hf1).
  - by rewrite HF1.
  - intros Hm. unfold device_ok in Hdo. rewrite Hd in Hdo.
    destruct d; [done| |done]. destruct Hdo as (t & n & Ho & _). eauto.
  - exists r, s'. split; [exact Hr|].
    by eapply io_post_back, Hpost; [apply kept_io| |].
Qed.

(** [Read] and [Write] from the start. *)
Section from_start.
Context (infl : nat → nat) (s : kernel) (c : nat) (self : tid) (p f : nat) (fd : Z).
#[local] Set Default Proof Using "Type*".
Context (Hfo : files_ok infl s) (Ht : terms_ok s) (Hc : can_call s c self p)
  (Hf : fid_of s p fd = Some f) (Hsm : Z.of_nat (infl f) + 1 < 2 ^ 31).

Lemma take_reference (b : FCB) :
  FT s !! f = Some b →
  ∃ s1, FCB_incref f s = Ok (tt, s1) ∧ counts_ok (add_ref f infl) [] s1 ∧ devices_ok [] s1 ∧
    terms_ok s1 ∧ can_call s1 c self p ∧ PT s1 = PT s ∧ FCB_freelist s1 = FCB_freelist s ∧
    kept s s1 ∧ waiting s1 = waiting s ∧ FT s1 !! f = Some (set_refcount (refcount b + 1) b).
Proof.
  intros Hb. destruct Hfo as [Hok Hdev]. destruct (cc_pcb _ _ _ _ Hc) as [pb Hpb].
  destruct (fid_used _ _ _ _ _ _ _ Hok Hpb Hf) as (Hpos & bf & Hbf & Hnf).
  assert (bf = b) as -> by congruence. clear Hbf.
  destruct (incref_run _ _ _ Hok f b Hb Hsm Hnf) as [Hr Hok1].
  eexists. split; [exact Hr|]. split; [exact Hok1|]. split.
  - pose proof (devices_ok_set [] s f b (set_refcount (refcount b + 1) b) (FCB_freelist s)
      Hdev Hb eq_refl eq_refl ltac:(done)) as H. by destruct s.
  - split_and!; try done; [by destruct Hc|by apply kept_rest|]. simpl. apply list_lookup_insert_eq.
    by eapply lookup_lt_Some.
Qed.

Lemma start_stream :
  ∃ b d, FT s !! f = Some b ∧ streamfunc b = Some d ∧ get_fcb c fd s = Ok (Some f, s).
Proof.
  destruct Hfo as [Hok Hdev]. destruct (cc_pcb _ _ _ _ Hc) as [pb Hpb].
  destruct (fid_used _ _ _ _ _ _ _ Hok Hpb Hf) as (Hpos & b & Hb & Hnf).
  pose proof (Hdev f b Hb Hnf) as Hd. unfold device_ok in Hd.
  destruct (streamfunc b) as [d|] eqn:Hsf; [|done]. exists b, d. split_and!; [done..|].
  rewrite <-Hf, (fid_of_lookup _ _ _ _ Hpb). eapply get_fcb_run; [apply Hc|done|].
  by eapply (fo_length _ _ _ Hok).
Qed.

Lemma read_run size avail :
  ∃ d r s', (streamfunc <$> FT s !! f) = Some (Some d) ∧ sys_Read c fd size avail s = Ok (r, s') ∧
    io_post infl s f (read_transfer d size avail) r s' ∧
    (read_transfer d size avail = MustWait → ∀ o, streamobj <$> FT s !! f = Some (Some o) →
       waiting s' = waiting s ++ [(RxReady o, self)]).
Proof.
  destruct start_stream as (b & d & Hb & Hd & Hg).
  destruct (take_reference b Hb) as (s1 & Hr1 & Hok1 & Hd1 & Ht1 & Hc1 & HP1 & HL1 & HK1 & HW1 & Hb1).
  destruct (read_device_run infl s1 c self p f _ d size avail Hok1 Hd1 Ht1 Hc1 Hb1 Hd)
    as (r & s' & Hr & Hpost & Hw).
  exists d, r, s'. rewrite Hb. simpl. split; [by rewrite Hd|]. split_and!.
  - unfold sys_Read. mrun ltac:(exact Hg). cbv beta iota. mrun ltac:(exact Hr1). exact Hr.
  - by eapply io_post_back, Hpost.
  - intros Hm o [= Ho]. rewrite (Hw Hm o Ho). by rewrite HW1.
Qed.

Lemma write_run buf size room :
  ∃ d r s', (streamfunc <$> FT s !! f) = Some (Some d) ∧
    sys_Write c fd buf size room s = Ok (r, s') ∧
    io_post infl s f (write_transfer d buf size room) r s'.
Proof.
  destruct start_stream as (b & d & Hb & Hd & Hg).
  destruct (take_reference b Hb) as (s1 & Hr1 & Hok1 & Hd1 & Ht1 & Hc1 & HP1 & HL1 & HK1 & HW1 & Hb1).
  destruct (write_device_run infl s1 c self p f _ d buf size room Hok1 Hd1 Ht1 Hc1 Hb1 Hd)
    as (r & s' & Hr & Hpost).
  exists d, r, s'. rewrite Hb. simpl. split; [by rewrite Hd|]. split.
  - unfold sys_Write. mrun ltac:(exact Hg). cbv beta iota. mrun ltac:(exact Hr1). exact Hr.
  - by eapply io_post_back, Hpost.
Qed.
End from_start.
