(* ===== verification/StreamProps.v ===== *)
(** * Properties of streams

    The calls of kernel_streams.c as the steps of a transition system, and what
    each of them does. *)
From S2P Require Import Prelude Bios Sched SchedInv SchedSteps SchedProps Kernel Devices Streams StreamInv StreamCalls StreamFrame StreamIO.
Local Open Scope Z_scope.

(** ** The transition system *)
Record conf := Conf { kern : kernel; held : list nat }.

(** The rest of the kernel runs between calls: anything that leaves the file table
    and the file ids alone and keeps the terminals.  A thread holds one reference
    while it waits, and there are fewer than 2^31 threads. *)
Inductive stream_step (x : conf) : conf → Prop :=
  | do_call c self p call r s' :
      can_call (kern x) c self p → call_ok (held x) call →
      Z.of_nat (length (held x)) + 1 < 2 ^ 31 →
      exec_call c call (kern x) = Ok (r, s') →
      stream_step x (Conf s' (next_held call r (held x)))
  | do_other s' :
      FIDT <$> PT s' = FIDT <$> PT (kern x) → FT s' = FT (kern x) →
      FCB_freelist s' = FCB_freelist (kern x) → devnum s' = devnum (kern x) → terms_ok s' →
      stream_step x (Conf s' (held x)).

Definition conf_ok (x : conf) : Prop := files_ok (holds (held x)) (kern x) ∧ terms_ok (kern x).

Lemma files_ok_ext infl infl' s : (∀ f, infl' f = infl f) → files_ok infl s → files_ok infl' s.
Proof. intros He [H1 H2]. split; [by eapply counts_ok_ext|done]. Qed.

Lemma counts_ok_fids infl acq s s' :
  FIDT <$> PT s' = FIDT <$> PT s → FT s' = FT s → FCB_freelist s' = FCB_freelist s →
  counts_ok infl acq s → counts_ok infl acq s'.
Proof.
  intros HP HF HL [H1 H2 H3 H4 H5 H6 H7 H8 H9].
  assert (∀ f, fidt_refs (PT s') f = fidt_refs (PT s) f) as Hr by (intros f; unfold fidt_refs; by rewrite HP).
  split; rewrite ?HF, ?HL; try done.
  - intros p b Hb. assert ((FIDT <$> PT s) !! p = Some (FIDT b)) as Hp
      by (by rewrite <-HP, list_lookup_fmap, Hb).
    rewrite list_lookup_fmap in Hp. apply fmap_Some in Hp as (b0 & Hb0 & ->). by eapply H1.
  - rewrite <-(length_fmap FIDT), HP, length_fmap. done.
  - intros f. rewrite Hr. apply H6.
  - intros f. rewrite Hr. apply H8.
  - intros f. rewrite Hr. apply H9.
Qed.

(** A call on an id that names no stream. *)
Lemma no_stream_run s infl c self p fd {A} (k : option nat → KM A) :
  files_ok infl s → can_call s c self p → fid_of s p fd = None →
  (get_fcb c fd ≫= k) s = (k None) s.
Proof.
  intros [Hok _] Hc Hf. destruct (cc_pcb _ _ _ _ Hc) as [b Hb].
  mrun ltac:(eapply get_fcb_run; [apply Hc|exact Hb|by eapply (fo_length _ _ _ Hok)]).
  by rewrite <-(fid_of_lookup _ _ _ _ Hb), Hf.
Qed.

Lemma dup2_invalid infl s c self p oldfd newfd :
  files_ok infl s → can_call s c self p →
  fid_of s p oldfd = None ∨ valid_fid newfd = false →
  sys_Dup2 c oldfd newfd s = Ok (-1, s).
Proof.
  intros Hfo Hc Hbad. unfold sys_Dup2.
  destruct (valid_fid oldfd && valid_fid newfd) eqn:Hv; [|done].
  apply andb_true_iff in Hv as [Hvo Hvn]. destruct Hbad as [Hf|?]; [|congruence].
  cbn [negb]. rewrite (no_stream_run s infl c self p oldfd) by done.
  destruct (cc_pcb _ _ _ _ Hc) as [b Hb].
  mrun ltac:(eapply get_fcb_run; [apply Hc|exact Hb|by eapply (fo_length _ _ _ (proj1 Hfo))]). done.
Qed.

(** The stream that a waiting call holds. *)
Lemma held_stream hd s f :
  files_ok (holds hd) s → f ∈ hd →
  counts_ok (add_ref f (holds (remove_one f hd))) [] s ∧ (f ∉ FCB_freelist s) ∧
  ∃ b d, FT s !! f = Some b ∧ streamfunc b = Some d.
Proof.
  intros [Hok Hdev] Hf.
  assert (counts_ok (add_ref f (holds (remove_one f hd))) [] s) as Hok'
    by (eapply counts_ok_ext; [|exact Hok]; intros g; symmetry; by apply holds_remove).
  assert (0 < fidt_refs (PT s) f + add_ref f (holds (remove_one f hd)) f)%nat as Hpos
    by (unfold add_ref; rewrite decide_True by done; lia).
  destruct (used_block _ _ _ Hok' f Hpos) as (b & Hb & _).
  pose proof (used_not_free _ _ _ Hok' f Hpos) as Hn. rewrite app_nil_r in Hn.
  split; [done|]. split; [done|]. exists b.
  pose proof (Hdev f b Hb ltac:(by rewrite app_nil_r)) as Hd. unfold device_ok in Hd.
  destruct (streamfunc b) as [d|]; [by exists d|done].
Qed.

Lemma held_again hd s f :
  f ∈ hd → files_ok (add_ref f (holds (remove_one f hd))) s → files_ok (holds hd) s.
Proof. intros Hf. apply files_ok_ext. intros g. by apply holds_remove. Qed.

(** A call of a thread of process [p] changes file ids of [p] only, among the blocks
    of processes. *)
Definition call_effect (s : kernel) (p : nat) (s' : kernel) : Prop :=
  kept s s' ∧ ∃ b l, PT s !! p = Some b ∧ PT s' = <[p := set_FIDT l b]> (PT s).

Lemma effect_same s p b s' : PT s !! p = Some b → kept s s' → PT s' = PT s → call_effect s p s'.
Proof.
  intros Hb Hk HP. split; [done|]. exists b, (FIDT b). split; [done|].
  assert (set_FIDT (FIDT b) b = b) as -> by (by destruct b). by rewrite list_insert_id.
Qed.

Section exec_call.
Context (hd : list nat) (s : kernel) (p : nat) (b : PCB).
#[local] Set Default Proof Using "Type*".
Context (Hb : PT s !! p = Some b).

Definition call_post (hd' : list nat) (s' : kernel) : Prop :=
  files_ok (holds hd') s' ∧ terms_ok s' ∧ call_effect s p s'.

Lemma post_same : files_ok (holds hd) s → terms_ok s → call_post hd s.
Proof. intros Hfo Ht. split_and!; [done|done|]. eapply effect_same; [done|apply kept_refl|done]. Qed.

Lemma post_fids s' : files_ok (holds hd) s' → terms_ok s → same_rest s s' →
  PT s' = PT s ∨ (∃ l, PT s' = <[p := set_FIDT l b]> (PT s)) → call_post hd s'.
Proof.
  intros Hfo Ht Hs HP. split_and!; [done|by eapply terms_ok_rest|].
  destruct HP as [HP|[l HP]]; [by eapply effect_same; [done|apply kept_rest|]|].
  split; [by apply kept_rest|]. by exists b, l.
Qed.

Lemma post_started f t r s' :
  io_post (holds hd) s f t r s' →
  call_post (match r with IoBlocked g => g :: hd | IoDone _ _ => hd end) s'.
Proof.
  intros (Ht & HP & Hk & Hp). pose proof (effect_same _ _ _ _ Hb Hk HP) as He.
  destruct t; [destruct Hp as [-> Hfo]|destruct Hp as (-> & Hfo & _)]; split_and!; try done.
  eapply files_ok_ext; [|exact Hfo]. intros g. apply holds_cons.
Qed.

Lemma post_resumed f t r s' :
  f ∈ hd → io_post (holds (remove_one f hd)) s f t r s' →
  call_post (match r with IoBlocked _ => hd | IoDone _ _ => remove_one f hd end) s'.
Proof.
  intros Hf (Ht & HP & Hk & Hp). pose proof (effect_same _ _ _ _ Hb Hk HP) as He.
  destruct t; [destruct Hp as [-> Hfo]|destruct Hp as (-> & Hfo & _)]; split_and!; try done.
  by eapply held_again.
Qed.
End exec_call.

(** Every call succeeds and keeps the counts. *)
Lemma exec_call_ok x c self p call :
  conf_ok x → can_call (kern x) c self p → call_ok (held x) call →
  Z.of_nat (length (held x)) + 1 < 2 ^ 31 →
  ∃ r s', exec_call c call (kern x) = Ok (r, s') ∧
    call_post (kern x) p (next_held call r (held x)) s'.
Proof.
  destruct x as [s hd]. unfold conf_ok. cbn [kern held]. intros [Hfo Ht] Hc Hcall Hlen.
  pose proof (cc_pcb _ _ _ _ Hc) as [b Hb]. pose proof (cc_runs _ _ _ _ Hc) as Hr.
  assert (∀ f, Z.of_nat (holds hd f) + 1 < 2 ^ 31) as Hsm
    by (intros f; pose proof (holds_le hd f); lia).
  pose proof (post_same hd s p b Hb Hfo Ht) as Hsame.
  destruct call; cbn [exec_call call_ok next_held] in *.
  - destruct (open_run _ s c self p b major minor Hfo Hr Hb Ht Hcall) as (r & s' & Hrun & Hfo' & Hs' & Hres).
    mrun ltac:(exact Hrun). eexists _, s'. split; [reflexivity|]. eapply post_fids; try done.
    destruct (decide _); [left; apply Hres|right].
    destruct Hres as (fid & f & l & _ & _ & _ & _ & HP & _). eauto.
  - destruct (fid_of s p fd) as [f|] eqn:Hf.
    + destruct (close_run _ s c self p b fd f Hfo Hr Hb Hf (Hsm f)) as (s' & Hrun & Hfo' & Hs' & HP & _).
      mrun ltac:(exact Hrun). eexists _, s'. split; [reflexivity|]. eapply post_fids; eauto.
    + unfold sys_Close. rewrite run_assoc, (no_stream_run s _ c self p fd) by done. by eexists _, s.
  - destruct (fid_of s p oldfd) as [f|] eqn:Hf; [destruct (valid_fid newfd) eqn:Hv|].
    + destruct (dup2_run _ s c self p b oldfd newfd f _ Hfo Hr Hb Hf Hv eq_refl Hsm)
        as (s' & Hrun & Hfo' & Hs' & HP & _).
      mrun ltac:(exact Hrun). eexists _, s'. split; [reflexivity|]. eapply post_fids; eauto.
    + mrun ltac:(eapply dup2_invalid; [done..|by right]). by eexists _, s.
    + mrun ltac:(eapply dup2_invalid; [done..|by left]). by eexists _, s.
  - destruct (fid_of s p fd) as [f|] eqn:Hf.
    + destruct (read_run _ s c self p f fd Hfo Ht Hc Hf (Hsm f) size avail)
        as (d & r & s' & _ & Hrun & Hpost & _).
      exists r, s'. split; [done|]. by eapply post_started.
    + unfold sys_Read. rewrite (no_stream_run s _ c self p fd) by done. by eexists _, s.
  - destruct (fid_of s p fd) as [f|] eqn:Hf.
    + destruct (write_run _ s c self p f fd Hfo Ht Hc Hf (Hsm f) buf size room)
        as (d & r & s' & _ & Hrun & Hpost).
      exists r, s'. split; [done|]. by eapply post_started.
    + unfold sys_Write. rewrite (no_stream_run s _ c self p fd) by done. by eexists _, s.
  - destruct (held_stream _ _ _ Hfo Hcall) as (Hok & _ & bf & d & Hbf & Hd).
    destruct (read_device_run _ s c self p f bf d size avail Hok (proj2 Hfo) Ht Hc Hbf Hd)
      as (r & s' & Hrun & Hpost & _).
    exists r, s'. split; [done|]. by eapply post_resumed.
  - destruct (held_stream _ _ _ Hfo Hcall) as (Hok & _ & bf & d & Hbf & Hd).
    destruct (write_device_run _ s c self p f bf d buf size room Hok (proj2 Hfo) Ht Hc Hbf Hd)
      as (r & s' & Hrun & Hpost).
    exists r, s'. split; [done|]. by eapply post_resumed.
Qed.

Lemma stream_reach_ok x y : conf_ok x → reachable stream_step x y → conf_ok y.
Proof.
  intros Hx. apply reachable_invariant; [done|]. clear. intros x y Hx [c self p call r s' Hc Hcall Hl Hr|s' HP HF HL HD Ht].
  - destruct (exec_call_ok x c self p call Hx Hc Hcall Hl) as (r' & s'' & Hr' & Hok & Hok' & _).
    rewrite Hr in Hr'. by simplify_eq.
  - destruct Hx as [[Hok Hdev] _]. split; [split|done]; cbn [kern held].
    + by eapply counts_ok_fids.
    + by eapply devices_ok_frame; [..|exact Hdev].
Qed.

(** ** The first state *)
Lemma clear_list_run k : ∀ i s,
  (i + k ≤ length (FT s))%nat →
  ∃ s', for_each (seq i k) clear_FCB s = Ok (tt, s') ∧ same_rest s s' ∧ PT s' = PT s ∧
    length (FT s') = length (FT s) ∧ FCB_freelist s' = FCB_freelist s ++ seq i k.
Proof.
  induction k as [|k IH]; intros i s Hk.
  - exists s. rewrite app_nil_r. by split_and!.
  - simpl. destruct (lookup_lt_is_Some_2 (FT s) i) as [b Hb]; [lia|].
    assert (clear_FCB i s = Ok (tt, set_FCB_freelist (FCB_freelist s ++ [i])
      (set_FT (<[i := set_refcount 0 b]> (FT s)) s))) as Hc
      by (unfold clear_FCB; by mrun ltac:(by apply upd_FCB_run)).
    mrun ltac:(exact Hc).
    edestruct (IH (S i)) as (s' & Hr & Hs & HP & HF & HL);
      [|eexists; split; [exact Hr|]; split_and!].
    + simpl. rewrite length_insert. lia.
    + eapply same_rest_trans; [|exact Hs]. by split.
    + by rewrite HP.
    + rewrite HF. simpl. by rewrite length_insert.
    + rewrite HL. simpl. by rewrite <-app_assoc.
Qed.

(** After [initialize_files], when no process has a stream, the counts are exact. *)
Definition no_streams (s : kernel) : Prop :=
  ∀ p b, PT s !! p = Some b → FIDT b = replicate MAX_FILEID None.

Lemma no_streams_refs pt f :
  (∀ p b, pt !! p = Some b → FIDT b = replicate MAX_FILEID None) → fidt_refs pt f = 0%nat.
Proof.
  unfold fidt_refs. induction pt as [|b pt IH]; intros Hn; [done|].
  rewrite fmap_cons. cbn [concat]. rewrite cnt_app, IH, (Hn 0%nat b eq_refl).
  - reflexivity.
  - intros p. apply (Hn (S p)).
Qed.

Lemma initialize_files_ok n s :
  length (FT s) = n → no_streams s → Z.of_nat (length (PT s)) ≤ MAX_PROC →
  ∃ s', initialize_files n s = Ok (tt, s') ∧ files_ok (holds []) s' ∧ same_rest s s' ∧
    PT s' = PT s ∧ FCB_freelist s' = seq 0 n.
Proof.
  intros Hn Hno Hlen. unfold initialize_files. mstep.
  destruct (clear_list_run n 0 (set_FCB_freelist [] s)) as (s' & Hr & Hs & HP & HF & HL); [simpl; lia|].
  exists s'. split; [done|]. simpl in *.
  assert (∀ f, fidt_refs (PT s') f = 0%nat) as Hz by (intros f; rewrite HP; by apply no_streams_refs).
  assert (∀ f b, FT s' !! f = Some b → f ∈ FCB_freelist s' ++ []) as Hall.
  { intros f b Hb%lookup_lt_Some. rewrite app_nil_r, HL. apply elem_of_seq. lia. }
  split; [split|].
  - split; try done.
    + intros p b. rewrite HP. intros Hb. by rewrite (Hno _ _ Hb).
    + by rewrite HP.
    + rewrite app_nil_r, HL. apply NoDup_seq.
    + intros f. rewrite app_nil_r, HL, elem_of_seq. intros Hf. apply lookup_lt_is_Some. lia.
    + intros f _. by rewrite Hz.
    + intros f b _ Hin. by apply not_elem_of_nil in Hin.
    + intros f b Hb Hf. by apply Hall in Hb.
    + intros f. rewrite Hz. unfold holds. simpl. lia.
  - intros f b Hb Hf. by apply Hall in Hb.
  - split; [|done]. destruct Hs as [H1 H2 H3]. by split.
Qed.

(** ** A small machine, for the witnesses

    Core 0 runs thread 0 of process 1; there is one terminal and three streams. *)
Definition demo_tty : machine :=
  let v := vm (st (after (OpGain 0 true (Timespec 0 0)) demo_switch)) in
  Machine (CORE v) (ncores v) (halted_list v) (system_clock v)
    [Terminal (IoDevice 4 IODIR_TX 0 true 0) (IoDevice 3 IODIR_RX 0 true 0)] 1 (PIC_active v)
    (PIC_usr1_queued v).
Definition demo_running : config :=
  after (OpMachine demo_tty) (after (OpGain 0 true (Timespec 0 0)) demo_switch).

Lemma after_machine_ok x v :
  sched_ok x → CORE v = CORE (vm (st x)) → halted_list v = halted_list (vm (st x)) →
  sched_ok (after (OpMachine v) x).
Proof.
  intros [pl Hi] HC HH. exists pl. apply (inv_vm (st x) (md x) pl v); [done|].
  destruct (i_vm _ _ _ Hi) as [H1 H2]. split; [|by rewrite HC]. unfold halted_ok in *. by rewrite HC, HH.
Qed.

Lemma demo_running_ok : sched_ok demo_running.
Proof.
  assert (sched_ok (after (OpGain 0 true (Timespec 0 0)) demo_switch)) as Hok.
  { apply (reach_ok demo_machine); [apply demo_halted_ok|]. back; [apply demo_switch_reach|].
    vm_compute. reflexivity. }
  by apply after_machine_ok.
Qed.

Definition demo_pcb (parent : option nat) (fidt : list (option nat)) : PCB :=
  MkPCB ALIVE parent 0 [] 1 None 0 None [] [] fidt.
Definition demo_kernel (fidt : list (option nat)) (ft : list FCB) (free : list nat) : kernel :=
  MkKernel (st demo_running)
    [demo_pcb None (replicate MAX_FILEID None); demo_pcb (Some 0%nat) fidt]
    None 2 ∅ 0%nat ∅ 0%nat ft free [1%nat; 1%nat] [].

Lemma demo_thread : ∃ b k, cctx (st demo_running) !! 0%nat = Some b ∧ current_thread b = Thr 0 ∧
  Sched.tcbs (st demo_running) !! Thr 0 = Some k ∧ owner_pcb k = 1 ∧
  md demo_running !! 0%nat = Some Running.
Proof. vm_compute. eexists _, _. split_and!; reflexivity. Qed.

Lemma demo_can_call fidt ft free : can_call (demo_kernel fidt ft free) 0 (Thr 0) 1.
Proof.
  destruct demo_thread as (b & k & Hb & Hcur & Hk & Hown & Hm). split; [|by eexists|done|].
  - exists b, k. exact (conj Hb (conj Hcur (conj Hk Hown))).
  - destruct demo_running_ok as [pl Hi]. exists (md demo_running), pl. exact (conj Hi Hm).
Qed.

Lemma demo_terms fidt ft free : terms_ok (demo_kernel fidt ft free).
Proof.
  split; [vm_compute; reflexivity|]. intros [|t] Ht; [|vm_compute in Ht; lia].
  eexists. split; [vm_compute; reflexivity|]. done.
Qed.

Definition no_fids : list (option nat) := replicate MAX_FILEID None.

(** ** Reference counts *)

(** C11 (invariant). Reference counts are exact, whatever the processes do.  After
    [initialize_files], in every state that any sequence of stream calls by any
    threads reaches, calls of [Read] and [Write] that wait included: a stream is
    in the free list iff no file id of any process names it and no waiting call
    holds it; otherwise its [refcount] is the number of those ids and calls.  And
    every call that a thread makes next runs to its end (or to its wait), without
    an invalid access. *)
Theorem stream_counts_exact s0 s y n :
  length (FT s0) = n → no_streams s0 → Z.of_nat (length (PT s0)) ≤ MAX_PROC → terms_ok s0 →
  initialize_files n s0 = Ok (tt, s) → reachable stream_step (Conf s []) y →
  (∀ f b, FT (kern y) !! f = Some b →
     let refs := (fidt_refs (PT (kern y)) f + holds (held y) f)%nat in
     (f ∈ FCB_freelist (kern y) ↔ refs = 0%nat) ∧
     (f ∉ FCB_freelist (kern y) → refcount b = Z.of_nat refs)) ∧
  (∀ c self p call, can_call (kern y) c self p → call_ok (held y) call →
     Z.of_nat (length (held y)) + 1 < 2 ^ 31 →
     ∃ r s', exec_call c call (kern y) = Ok (r, s')).
Proof.
  intros Hn Hno Hlen Ht Hi Hreach.
  destruct (initialize_files_ok n s0 Hn Hno Hlen) as (s' & Hr & Hfo & Hs & _).
  rewrite Hi in Hr. injection Hr as <-.
  destruct (stream_reach_ok (Conf s []) y) as [[Hok Hdev] Hty]; [|done|].
  { split; [done|by eapply terms_ok_rest]. }
  split.
  - intros f b Hb refs. pose proof (fo_free _ _ _ Hok f) as Hfree.
    pose proof (fo_used _ _ _ Hok f b Hb) as Hused. rewrite app_nil_r in Hfree, Hused.
    split; [split; [done|]|by intros H; apply Hused in H as [H _]].
    intros Hz. destruct (decide (f ∈ FCB_freelist (kern y))) as [|H]; [done|].
    apply Hused in H as [_ H]. lia.
  - intros c self p call Hc Hcall Hl.
    destruct (exec_call_ok y c self p call) as (r & s' & Hr & _); [by split|done..|]. by exists r, s'.
Qed.

Definition demo_streams : kernel :=
  demo_kernel no_fids [MkFCB 0 None None; MkFCB 0 None None; MkFCB 0 None None] [0; 1; 2]%nat.

Lemma demo_no_streams : no_streams demo_streams.
Proof. intros [|[|p]] b Hb; simpl in Hb; by simplify_eq. Qed.

Lemma demo_initialized :
  initialize_files 3 (demo_kernel no_fids (replicate 3 (MkFCB 7 None None)) []) = Ok (tt, demo_streams).
Proof. reflexivity. Qed.

Lemma stream_counts_exact_witness :
  0%nat ∈ FCB_freelist demo_streams ∧
  ∃ r s', exec_call 0 (OpenStream DEV_SERIAL 0) demo_streams = Ok (r, s').
Proof.
  pose proof (stream_counts_exact (demo_kernel no_fids (replicate 3 (MkFCB 7 None None)) [])
    demo_streams (Conf demo_streams []) 3 eq_refl demo_no_streams ltac:(vm_compute; done)
    (demo_terms _ _ _) demo_initialized (reach_refl _ _)) as [Hcount Hrun].
  split.
  - apply (proj2 (proj1 (Hcount 0%nat (MkFCB 0 None None) eq_refl))). reflexivity.
  - apply (Hrun 0%nat (Thr 0) 1%nat (OpenStream DEV_SERIAL 0)); [apply demo_can_call|done|done].
Defined.

(** ** Reservation *)

(** A call changes no stream that is in use. *)
Definition used_kept (s s' : kernel) : Prop := ∀ f, f ∉ FCB_freelist s → FT s' !! f = FT s !! f.

Lemma reserve_used c num s r s' : FCB_reserve c num s = Ok (r, s') → used_kept s s'.
Proof.
  intros Hr f Hf. destruct (ua_reserve id f (FT s !! f) c num s r s') as [[_ Hd] _]; [|exact Hr|].
  - split; [done|]. apply option_fmap_id.
  - by rewrite option_fmap_id in Hd.
Qed.
Lemma unreserve_used c fids fcbs s s' :
  FCB_unreserve c fids fcbs s = Ok (tt, s') → ∀ f, f ∉ FCB_freelist s → f ∉ fcbs → FT s' !! f = FT s !! f.
Proof.
  intros Hr f Hf Hn. destruct (ua_unreserve id f (FT s !! f) c fids fcbs) with (s := s) (a := tt) (s' := s') as [[_ Hd] _];
    [|split; [done|apply option_fmap_id]|exact Hr|by rewrite option_fmap_id in Hd].
  apply Forall_forall. by intros x Hx ->.
Qed.

(** C31 (roundtrip). [FCB_reserve] takes all that it is asked for or nothing, and
    [FCB_unreserve] gives it back.  When the process has [num] free ids and the
    system [num] free streams, the lowest free ids get the first free streams, in
    order, and the other ids, processes and streams stay as they are; giving them back
    restores every file id of every process, and puts the streams at the end of the
    free list.  Otherwise the call fails, and changes no file id, no stream that is in
    use, and nothing else outside of the file table; but where it is streams that are
    short, and not ids, all of the free list is turned around. *)
Theorem FCB_reserve_all_or_nothing infl s c self p b num :
  files_ok infl s → runs_in s c self p → PT s !! p = Some b →
  ∃ r s1, FCB_reserve c num s = Ok (r, s1) ∧ used_kept s s1 ∧ same_rest s s1 ∧
    match r with
    | Some (fids, fcbs) =>
        length fids = num ∧ fcbs = take num (FCB_freelist s) ∧ length fcbs = num ∧
        FCB_freelist s1 = drop num (FCB_freelist s) ∧
        (∀ fd, fd ∈ fids → FIDT b !! fd = Some None) ∧
        (∀ fd j, fd ∈ fids → (j < fd)%nat → FIDT b !! j = Some None → j ∈ fids) ∧
        (∃ l, PT s1 = <[p := set_FIDT l b]> (PT s) ∧
           (∀ fd f, (fd, f) ∈ zip fids fcbs → l !! fd = Some (Some f)) ∧
           (∀ fd, fd ∉ fids → l !! fd = FIDT b !! fd)) ∧
        ∃ s2, FCB_unreserve c fids fcbs s1 = Ok (tt, s2) ∧ files_ok infl s2 ∧ used_kept s s2 ∧ same_rest s s2 ∧
          PT s2 = PT s ∧ FCB_freelist s2 = drop num (FCB_freelist s) ++ take num (FCB_freelist s)
    | None => files_ok infl s1 ∧ PT s1 = PT s ∧
        ((free_slots (FIDT b) < num)%nat ∧ FCB_freelist s1 = FCB_freelist s ∨
         (num ≤ free_slots (FIDT b))%nat ∧ (length (FCB_freelist s) < num)%nat ∧
         FCB_freelist s1 = rev (FCB_freelist s))
    end.
Proof.
  intros Hfo Hr Hb. destruct (reserve_run infl s c self p b num Hfo Hr Hb)
    as (r & s1 & Hr1 & Hok1 & Hs1 & Hres).
  pose proof (reserve_used _ _ _ _ _ Hr1) as Hu1.
  exists r, s1. split; [done|]. split; [done|]. split; [done|].
  destruct r as [[fids fcbs]|]; [|destruct Hres as (? & ? & ? & HL); case_decide; split_and!; try done;
    [by left|right; split_and!; [lia| |done]; by destruct H]].
  destruct Hres as (Hff & Hfc & Hlen & Hd1 & HL1 & HP1).
  destruct (find_fids_spec _ _ _ _ Hff) as (Hl & Hnd & Hin & Hlow).
  assert (∀ fd, fd ∈ fids → FIDT b !! fd = Some None) as Hfree
    by (intros x Hx; destruct (Hin x Hx) as [_ Hlk]; by rewrite Nat.sub_0_r in Hlk).
  destruct (unreserve_run infl s s1 c self p b num fids fcbs Hfo Hr Hb Hr1 s1)
    as (s2 & Hr2 & Hfo2 & Hs2 & HP2 & HL2); try done.
  split_and!; try done.
  - intros fd j Hfd Hj Hlk. apply (Hlow fd j Hfd); [lia|by rewrite Nat.sub_0_r].
  - eexists. split; [exact HP1|]. split.
    + intros fd f Hx. apply connected_in; [rewrite fst_zip; [done|lia]|done|].
      eapply lookup_lt_Some, Hfree. by eapply elem_of_zip_l.
    + intros fd Hfd. apply connected_out. rewrite fst_zip; [done|lia].
  - exists s2. split_and!; try done. intros f Hf. rewrite <-(Hu1 f Hf).
    apply (unreserve_used _ _ _ _ _ Hr2); [rewrite HL1|rewrite Hfc]; intros Hx; apply Hf.
    + by eapply subseteq_drop.
    + by eapply subseteq_take.
Qed.

Lemma demo_files_ok : files_ok (holds []) demo_streams.
Proof.
  destruct (initialize_files_ok 3 (demo_kernel no_fids (replicate 3 (MkFCB 7 None None)) []))
    as (s' & Hr & Hfo & _); [done|apply demo_no_streams|vm_compute; done|].
  rewrite demo_initialized in Hr. by injection Hr as <-.
Qed.

Lemma FCB_reserve_all_or_nothing_witness :
  ∃ s1, FCB_reserve 0 2 demo_streams = Ok (Some ([0; 1]%nat, [0; 1]%nat), s1) ∧
    ∃ s2, FCB_unreserve 0 [0; 1]%nat [0; 1]%nat s1 = Ok (tt, s2) ∧ PT s2 = PT demo_streams.
Proof.
  destruct (FCB_reserve_all_or_nothing (holds []) demo_streams 0 (Thr 0) 1
    (demo_pcb (Some 0%nat) no_fids) 2 demo_files_ok (cc_runs _ _ _ _ (demo_can_call _ _ _)) eq_refl)
    as (r & s1 & Hr & H).
  assert (fst <$> (match FCB_reserve 0 2 demo_streams with Ok x => Some x | Fault _ => None end)
    = Some (Some ([0; 1]%nat, [0; 1]%nat))) as Hc by (vm_compute; reflexivity).
  rewrite Hr in Hc. injection Hc as ->. exists s1. split; [exact Hr|].
  destruct H as (_ & _ & _ & _ & _ & _ & _ & _ & _ & s2 & Hr2 & _ & _ & _ & HP & _). exists s2. exact (conj Hr2 HP).
Defined.

(** ** The calls one by one *)

(** [Close] releases a stream with its last reference.  It
    clears the id; the stream goes back to the free list, at its end, iff no other
    id of any process and no waiting call refers to it.  An id that names no
    stream is left alone: 0 if it is in range, -1 if it is not. *)
Theorem Close_releases_last infl s c self p b fd :
  files_ok infl s → runs_in s c self p → PT s !! p = Some b →
  (∀ f, Z.of_nat (infl f) + 1 < 2 ^ 31) →
  match fid_of s p fd with
  | None => sys_Close c fd s = Ok (if valid_fid fd then 0 else -1, s)
  | Some f =>
      ∃ s', sys_Close c fd s = Ok (0, s') ∧ files_ok infl s' ∧ fid_of s' p fd = None ∧
        (∀ q j, q ≠ p ∨ j ≠ fd → fid_of s' q j = fid_of s q j) ∧
        FCB_freelist s' = if decide (fidt_refs (PT s) f + infl f = 1)%nat
                          then FCB_freelist s ++ [f] else FCB_freelist s
  end.
Proof.
  intros Hfo Hr Hb Hsm. destruct (fid_of s p fd) as [f|] eqn:Hf.
  - destruct (close_run _ s c self p b fd f Hfo Hr Hb Hf (Hsm f)) as (s' & Hrun & Hfo' & _ & HP & HL).
    destruct (fid_of_some _ _ _ _ _ Hb Hf) as [Hv Hfd].
    assert (PT s' !! p = Some (set_FIDT (<[Z.to_nat fd:=None]> (FIDT b)) b)) as Hb'
      by (rewrite HP; apply list_lookup_insert_eq; by eapply lookup_lt_Some).
    exists s'. split_and!; try done.
    + rewrite (fid_of_lookup _ _ _ _ Hb'), Hv. simpl.
      by rewrite list_lookup_insert_eq by (by eapply lookup_lt_Some).
    + intros q j Hne. destruct (decide (q = p)) as [->|Hq].
      * rewrite (fid_of_lookup _ _ _ _ Hb'), (fid_of_lookup _ _ _ _ Hb).
        destruct (valid_fid j) eqn:Hvj; [|done]. simpl. rewrite list_lookup_insert_ne; [done|].
        unfold valid_fid in *. apply andb_true_iff in Hv, Hvj. destruct Hne; lia.
      * unfold fid_of, fids_of. by rewrite HP, list_lookup_insert_ne by done.
  - unfold sys_Close.
    mrun ltac:(eapply get_fcb_run; [exact Hr|exact Hb|by eapply (fo_length _ _ _ (proj1 Hfo))]).
    by rewrite <-(fid_of_lookup _ _ _ _ Hb), Hf.
Qed.

(** Process 1 has stream 0 as ids 0 and 1. *)
Definition demo_open : kernel :=
  demo_kernel (Some 0%nat :: Some 0%nat :: replicate 14 None)
    [MkFCB 2 (Some 0%nat) (Some serial_fops); MkFCB 0 None None; MkFCB 0 None None] [1; 2]%nat.

Lemma demo_open_ok : files_ok (holds []) demo_open.
Proof.
  assert (∀ f, fidt_refs (PT demo_open) f = if decide (f = 0)%nat then 2%nat else 0%nat) as Hr.
  { intros f. unfold fidt_refs, cnt. cbn [PT demo_open demo_kernel fmap list_fmap FIDT demo_pcb concat].
    destruct f as [|f]; [vm_compute; reflexivity|]. rewrite decide_False by done.
    by vm_compute. }
  assert (∀ f b, FT demo_open !! f = Some b → f = 0%nat ∨ f = 1%nat ∨ f = 2%nat) as Hd
    by (intros [|[|[|f]]] b Hb; [tauto..|done]).
  split; [split|].
  - intros [|[|p]] b Hb; simpl in Hb; by simplify_eq.
  - vm_compute. done.
  - intros f. unfold holds. simpl. lia.
  - apply (bool_decide_unpack _). by vm_compute.
  - intros f Hf. simpl in Hf. rewrite !elem_of_cons in Hf.
    destruct Hf as [->|[->|Hf]]; [by eexists|by eexists|by apply not_elem_of_nil in Hf].
  - intros f Hf. simpl in Hf. rewrite !elem_of_cons in Hf. rewrite Hr.
    destruct Hf as [->|[->|Hf]]; [done|done|by apply not_elem_of_nil in Hf].
  - intros f b _ Hf. by apply not_elem_of_nil in Hf.
  - intros f b Hb Hf. destruct (Hd f b Hb) as [->|[->| ->]].
    + simpl in Hb. simplify_eq. rewrite Hr. unfold holds. simpl. split; [done|lia].
    + destruct Hf. left.
    + destruct Hf. right. left.
  - intros f. rewrite Hr. unfold holds. simpl. case_decide; [subst; by eexists|lia].
  - intros f b Hb Hf. destruct (Hd f b Hb) as [->|[->| ->]].
    + simpl in Hb. simplify_eq. exists 0%nat, 1%nat. split_and!; [done|done|lia].
    + destruct Hf. left.
    + destruct Hf. right. left.
Qed.

Lemma demo_small (f : nat) : Z.of_nat (holds [] f) + 1 < 2 ^ 31.
Proof. unfold holds. simpl. lia. Qed.

Lemma Close_releases_last_witness :
  ∃ s', sys_Close 0 1 demo_open = Ok (0, s') ∧ FCB_freelist s' = [1; 2]%nat ∧ fid_of s' 1 0 = Some 0%nat.
Proof.
  destruct (Close_releases_last (holds []) demo_open 0 (Thr 0) 1 _ 1 demo_open_ok
    (cc_runs _ _ _ _ (demo_can_call _ _ _)) eq_refl demo_small) as (s' & Hr & _ & _ & Hother & HL).
  exists s'. split_and!; [exact Hr|exact HL|].
  apply (Hother 1%nat 0). by right.
Defined.

(** [Dup2] makes [newfd] a copy of [oldfd], and does nothing
    else: the stream that [newfd] named before loses one reference (and is
    released if it was the last), no other id changes, and when the two ids name
    the same stream already nothing happens at all.  The call fails without
    effect iff [oldfd] names no stream or [newfd] is out of range. *)
Theorem Dup2_copies infl s c self p b oldfd newfd :
  files_ok infl s → can_call s c self p → PT s !! p = Some b →
  (∀ f, Z.of_nat (infl f) + 1 < 2 ^ 31) →
  match fid_of s p oldfd, valid_fid newfd with
  | Some f, true =>
      ∃ s', sys_Dup2 c oldfd newfd s = Ok (0, s') ∧ files_ok infl s' ∧
        PT s' = <[p := set_FIDT (<[Z.to_nat newfd := Some f]> (FIDT b)) b]> (PT s) ∧
        FCB_freelist s' =
          match fid_of s p newfd with
          | Some g => if decide (g ≠ f ∧ fidt_refs (PT s) g + infl g = 1)%nat
                      then FCB_freelist s ++ [g] else FCB_freelist s
          | None => FCB_freelist s
          end
  | _, _ => sys_Dup2 c oldfd newfd s = Ok (-1, s)
  end.
Proof.
  intros Hfo Hc Hb Hsm. destruct (fid_of s p oldfd) as [f|] eqn:Hf; [destruct (valid_fid newfd) eqn:Hv|].
  - destruct (dup2_run infl s c self p b oldfd newfd f _ Hfo (cc_runs _ _ _ _ Hc) Hb Hf Hv eq_refl Hsm)
      as (s' & Hrun & Hfo' & _ & HP & HL).
    exists s'. split_and!; try done. rewrite HL. unfold after_drop.
    destruct (fid_of s p newfd) as [g|]; [|by case_decide].
    destruct (decide (Some g = Some f)) as [[= ->]|Hne].
    + rewrite decide_False by tauto. done.
    + destruct (decide (fidt_refs (PT s) g + infl g = 1)%nat).
      * rewrite decide_True by (split; congruence). done.
      * rewrite decide_False by tauto. done.
  - eapply dup2_invalid; [done|done|by right].
  - eapply dup2_invalid; [done|done|by left].
Qed.

Lemma Dup2_copies_witness :
  ∃ s', sys_Dup2 0 0 5 demo_open = Ok (0, s') ∧ fid_of s' 1 5 = Some 0%nat ∧
    FCB_freelist s' = [1; 2]%nat.
Proof.
  destruct (Dup2_copies (holds []) demo_open 0 (Thr 0) 1 _ 0 5 demo_open_ok (demo_can_call _ _ _)
    eq_refl demo_small) as (s' & Hr & _ & HP & HL).
  exists s'. split_and!; [exact Hr| |exact HL]. unfold fid_of, fids_of. by rewrite HP.
Defined.

(** [OpenNull] and [OpenTerminal] give the lowest free id to the
    first free stream, connected to the device; they fail with [NOFILE], every id
    as it was and no stream lost, iff the process has no free id, the system no
    free stream, or there is no such terminal. *)
Theorem open_gives_lowest_id infl s c self p b major minor :
  files_ok infl s → runs_in s c self p → PT s !! p = Some b → terms_ok s → 0 ≤ minor →
  ∃ r s', open_stream c major minor s = Ok (r, s') ∧ files_ok infl s' ∧
    if decide (free_slots (FIDT b) = 0%nat ∨ FCB_freelist s = [] ∨ devices s major ≤ minor) then
      r = NOFILE ∧ PT s' = PT s ∧ FCB_freelist s' ≡ₚ FCB_freelist s
    else ∃ fid f n, r = Z.of_nat fid ∧ FIDT b !! fid = Some None ∧
      (∀ j, (j < fid)%nat → FIDT b !! j ≠ Some None) ∧
      FCB_freelist s = f :: FCB_freelist s' ∧
      PT s' = <[p := set_FIDT (<[fid := Some f]> (FIDT b)) b]> (PT s) ∧
      FT s' !! f = Some (MkFCB n (device_obj major minor) (Some (dev_fops major))).
Proof.
  intros Hfo Hr Hb Ht Hm.
  destruct (open_run infl s c self p b major minor Hfo Hr Hb Ht Hm) as (r & s' & Hrun & Hfo' & _ & Hres).
  exists r, s'. split; [done|]. split; [done|].
  destruct (decide _) as [|Hno]; [done|]. destruct Hres as (fid & f & l & -> & Hff & HL & HL' & HP & n & HF).
  destruct (find_fids_spec _ _ _ _ Hff) as (_ & _ & Hin & Hlow).
  exists fid, f, n. rewrite HL'. split_and!; try done.
  - destruct (Hin fid ltac:(left)) as [_ H]. by rewrite Nat.sub_0_r in H.
  - intros j Hj Hfree. assert (j ∈ [fid]) as Hjf.
    { apply (Hlow fid j ltac:(left)); [lia|by rewrite Nat.sub_0_r]. }
    apply list_elem_of_singleton in Hjf. lia.
Qed.

Lemma open_gives_lowest_id_witness :
  ∃ s', open_stream 0 DEV_SERIAL 0 demo_open = Ok (2, s') ∧ FCB_freelist s' = [2]%nat.
Proof.
  destruct (open_gives_lowest_id (holds []) demo_open 0 (Thr 0) 1 _ DEV_SERIAL 0 demo_open_ok
    (cc_runs _ _ _ _ (demo_can_call _ _ _)) eq_refl (demo_terms _ _ _) ltac:(done))
    as (r & s' & Hr & _ & H).
  assert ((match open_stream 0 DEV_SERIAL 0 demo_open with
           | Ok (r, s') => Some (r, FCB_freelist s') | Fault _ => None end) = Some (2, [2]%nat)) as Hc
    by (vm_compute; reflexivity).
  rewrite Hr in Hc. injection Hc as -> HL. exists s'. exact (conj Hr HL).
Defined.

(** C34 (functional). What [Read] does.  -1 when the id names no stream; zeros, as
    many as asked for, from the null device; what the host delivers, up to the size of
    the buffer, from the pseudo console; from a terminal the bytes that it has,
    up to the size of the buffer; when it has none the thread goes to the end of
    the ring of the terminal's readers, and the stream cannot be released as long
    as it waits, whoever closes the id meanwhile. *)
Theorem Read_result infl s c self p fd size avail :
  files_ok infl s → terms_ok s → can_call s c self p →
  (∀ f, Z.of_nat (infl f) + 1 < 2 ^ 31) →
  match fid_of s p fd with
  | None => sys_Read c fd size avail s = Ok (IoDone (-1) [], s)
  | Some f =>
      ∃ b r s', FT s !! f = Some b ∧ sys_Read c fd size avail s = Ok (r, s') ∧ PT s' = PT s ∧
        match streamfunc b, streamobj b with
        | Some stdio_ops, _ => r = IoDone (i32 (Z.of_nat (length (take (Z.to_nat size) avail)))) (take (Z.to_nat size) avail) ∧ files_ok infl s'
        | Some nulldev_fops, _ => r = IoDone (i32 size) (replicate (Z.to_nat size) 0) ∧ files_ok infl s'
        | Some serial_fops, Some t =>
            if decide (0 < size ∧ avail = []) then
              r = IoBlocked f ∧ files_ok (add_ref f infl) s' ∧ (f ∉ FCB_freelist s') ∧
              waiting s' = waiting s ++ [(RxReady t, self)]
            else
              let bytes := take (Z.to_nat size) avail in
              r = IoDone (i32 (Z.of_nat (length bytes))) bytes ∧ files_ok infl s'
        | _, _ => False
        end
  end.
Proof.
  intros Hfo Ht Hc Hsm. destruct (fid_of s p fd) as [f|] eqn:Hf.
  - destruct (read_run infl s c self p f fd Hfo Ht Hc Hf (Hsm f) size avail)
      as (d & r & s' & Hd & Hrun & (Ht' & HP & _ & Hpost) & Hw).
    destruct (cc_pcb _ _ _ _ Hc) as [pb Hpb].
    destruct (fid_used _ _ _ _ _ _ _ (proj1 Hfo) Hpb Hf) as (_ & b & Hb & Hnf).
    pose proof (proj2 Hfo f b Hb Hnf) as Hdev. rewrite Hb in Hd, Hw. injection Hd as Hd.
    exists b, r, s'. split_and!; try done. unfold device_ok in Hdev. rewrite Hd in *.
    destruct d; [done| |done]. destruct Hdev as (t & n & Ho & _). rewrite Ho. simpl in Hpost, Hw.
    destruct (decide (0 < size ∧ avail = [])) as [[Hs Ha]|Hmove].
    + rewrite decide_True in Hpost, Hw by (split; [lia|done]). destruct Hpost as (-> & Hfo' & HL).
      split_and!; try done; [|apply Hw; [done|by rewrite <-Ho]].
      rewrite HL. by rewrite app_nil_r in Hnf.
    + rewrite decide_False in Hpost; [done|]. intros [Hs Ha]. apply Hmove. split; [lia|done].
  - unfold sys_Read. by rewrite (no_stream_run s infl c self p fd).
Qed.

Lemma Read_result_witness :
  ∃ s', sys_Read 0 0 4 [104; 105] demo_open = Ok (IoDone 2 [104; 105], s').
Proof.
  destruct (Read_result (holds []) demo_open 0 (Thr 0) 1 0 4 [104; 105] demo_open_ok (demo_terms _ _ _)
    (demo_can_call _ _ _) demo_small) as (b & r & s' & Hb & Hr & _ & H).
  simpl in Hb. injection Hb as <-. destruct H as [-> _]. exists s'. exact Hr.
Defined.
