(* ===== verification/Proc.v ===== *)
(** * Processes (kernel_proc.c)

    The process table, its free list, [Exec], [WaitChild], [GetPid] and [GetPPid].
    A call that waits returns the place at which it goes on: [wait_resume] runs the
    code from there, on the core that the thread runs on by then.  [c] is the core
    that executes the call. *)
From S2P Require Import Prelude Bios Sched Kernel Devices Streams.
Local Open Scope Z_scope.

(** ** The process table *)
Definition get_pcb (pid : nat) : KM (option nat) :=
  b ← get_PCB pid; mret (if decide (pstate b = FREE) then None else Some pid).

Definition get_pid (pcb : option nat) : Z :=
  match pcb with None => NOPROC | Some p => Z.of_nat p end.

(** [initialize_PCB]: [parent], [exitval] and [main_task] keep their values; the
    ring of [child_exit] is emptied. *)
Definition cleared_PCB (b : PCB) : PCB :=
  MkPCB FREE (parent b) (exitval b) [] 0 (main_task b) 0 None [] [] (replicate MAX_FILEID None).
Definition initialize_PCB (p : nat) : KM unit :=
  upd_PCB p cleared_PCB ;;
  modify (λ s, set_waiting (filter (λ w, w.1 ≠ ChildExit p) (waiting s)) s).

(** The loop that builds the free list goes from the end of the table down. *)
Definition link_free (p : nat) : KM unit :=
  s ← get;
  upd_PCB p (set_parent (pcb_freelist s)) ;;
  modify (set_pcb_freelist (Some p)).

Definition acquire_PCB : KM (option nat) :=
  s ← get;
  match pcb_freelist s with
  | None => mret None
  | Some p =>
      upd_PCB p (set_pstate ALIVE) ;;
      upd_PCB p (set_thread_count 0) ;;
      b ← get_PCB p;
      modify (set_pcb_freelist (parent b)) ;;
      modify (λ s, set_process_count (u32 (process_count s + 1)) s) ;;
      mret (Some p)
  end.

Definition release_PCB (p : nat) : KM unit :=
  upd_PCB p (set_pstate FREE) ;;
  s ← get;
  upd_PCB p (set_parent (pcb_freelist s)) ;;
  modify (set_pcb_freelist (Some p)) ;;
  modify (λ s, set_process_count (u32 (process_count s - 1)) s).

(** ** Exec *)

(** Copying file id [i] of process [p] to process [q]. *)
Definition inherit_fid (p q i : nat) : KM unit :=
  b ← get_PCB p;
  o ← get_some OutOfBounds (FIDT b !! i);
  upd_PCB q (λ b, set_FIDT (<[i := o]> (FIDT b)) b) ;;
  match o with Some f => FCB_incref f | None => mret tt end.

Definition inherit (c q : nat) : KM unit :=
  p ← CURPROC c;
  upd_PCB q (set_parent (Some p)) ;;
  upd_PCB p (λ b, set_children_list (q :: children_list b) b) ;;
  for_each (seq 0 MAX_FILEID) (inherit_fid p q).

(** A new PTCB in the thread list of process [q], with its thread.  [pt_args] is
    the caller's pointer. *)
Definition new_thread (q : nat) (func : thread_entry) (call : Task) (argl args : Z)
  : KM ptcb_ptr :=
  s ← get;
  let n := next_ptcb s in
  modify (set_next_ptcb (S n)) ;;
  upd_PCB q (λ b, set_thread_list (thread_list b ++ [n]) b) ;;
  upd_PCB q (λ b, set_thread_count (u32 (thread_count b + 1)) b) ;;
  t ← on_ksched (spawn_thread (Z.of_nat q) func);
  modify (λ s, set_ptcbs (<[n := MkPTCB t false false 0 None call argl args]> (ptcbs s)) s) ;;
  on_ksched (upd_tcb t (set_tcb_ptcb (Some n))) ;;
  on_ksched (wakeup t) ;;
  mret n.

(** The caller's arguments: where they are, and the bytes there; [None] is the null
    pointer. *)
Definition user_args := option (Z * list Z).
Definition args_ptr (args : user_args) : Z := match args with Some (p, _) => p | None => 0 end.

Definition copy_args (argl : Z) (args : user_args) : KM (option nat) :=
  match args with
  | Some (_, bytes) => buf ← malloc_copy argl bytes; mret (Some buf)
  | None => mret None
  end.

Definition sys_Exec (c : nat) (call : Task) (argl : Z) (args : user_args) : KM Z :=
  newproc ← acquire_PCB;
  match newproc with
  | None => mret (get_pid None)
  | Some q =>
      (if decide (get_pid (Some q) ≤ 1) then upd_PCB q (set_parent None) else inherit c q) ;;
      buf ← copy_args argl args;
      upd_PCB q (set_main call argl buf) ;;
      (match call with
       | None => mret tt
       | Some _ => new_thread q start_main_thread_entry call argl (args_ptr args) ;; mret tt
       end) ;;
      mret (get_pid (Some q))
  end.

(** [initialize_processes] over a table of [n] blocks; [Exec] is [sys_Exec] with the
    kernel locked. *)
Definition initialize_processes (c n : nat) : KM unit :=
  for_each (seq 0 n) initialize_PCB ;;
  modify (set_pcb_freelist None) ;;
  for_each (rev (seq 0 n)) link_free ;;
  modify (set_process_count 0) ;;
  pid ← sys_Exec c None 0 None;
  if decide (pid ≠ 0) then raise Fatal else mret tt.

(** What [start_main_thread] calls, on core [c]: the task, with its arguments. *)
Definition start_main_thread (c : nat) : KM (Task * Z * option nat) :=
  p ← CURPROC c; b ← get_PCB p; mret (main_task b, pargl b, pargs b).

Definition sys_GetPid (c : nat) : KM Z := p ← CURPROC c; mret (get_pid (Some p)).
Definition sys_GetPPid (c : nat) : KM Z :=
  p ← CURPROC c; b ← get_PCB p; mret (get_pid (parent b)).

(** ** WaitChild *)

(** [rlist_remove] of the nodes of process [p], from the lists that they are in. *)
Definition unlink_child (p : nat) : KM unit :=
  modify (λ s, set_PT ((λ b, set_children_list (remove_node p (children_list b)) b) <$> PT s) s).
Definition unlink_exited (p : nat) : KM unit :=
  modify (λ s, set_PT ((λ b, set_exited_list (remove_node p (exited_list b)) b) <$> PT s) s).

(** The result is what [*status] is set to, if the pointer is not null. *)
Definition cleanup_zombie (p : nat) : KM Z :=
  b ← get_PCB p;
  unlink_child p ;;
  unlink_exited p ;;
  release_PCB p ;;
  mret (exitval b).

(** Where a waiting call goes on. *)
Inductive wait_point := ForChild (parent child : nat) | ForAny (parent : nat).
Inductive wait_result := Reaped (pid : Z) (status : option Z) | Waiting (w : wait_point).

Definition wait_specific_loop (c parent child : nat) : KM wait_result :=
  b ← get_PCB child;
  if decide (pstate b = ALIVE) then
    kernel_wait (ChildExit parent) c ;; mret (Waiting (ForChild parent child))
  else
    status ← cleanup_zombie child;
    mret (Reaped (get_pid (Some child)) (Some status)).

Definition wait_any_loop (c parent : nat) : KM wait_result :=
  b ← get_PCB parent;
  match exited_list b with
  | [] => kernel_wait (ChildExit parent) c ;; mret (Waiting (ForAny parent))
  | child :: _ =>
      k ← get_PCB child;
      c_assert (bool_decide (pstate k = ZOMBIE)) ;;
      status ← cleanup_zombie child;
      mret (Reaped (get_pid (Some child)) (Some status))
  end.

Definition wait_for_specific_child (c : nat) (cpid : Z) : KM wait_result :=
  if decide (cpid < 0 ∨ MAX_PROC ≤ cpid) then mret (Reaped NOPROC None)
  else
    parent ← CURPROC c;
    child ← get_pcb (Z.to_nat cpid);
    match child with
    | None => mret (Reaped NOPROC None)
    | Some q =>
        b ← get_PCB q;
        if decide (Kernel.parent b ≠ Some parent) then mret (Reaped NOPROC None)
        else wait_specific_loop c parent q
    end.

Definition wait_for_any_child (c : nat) : KM wait_result :=
  parent ← CURPROC c;
  b ← get_PCB parent;
  match children_list b with
  | [] => mret (Reaped NOPROC None)
  | _ :: _ => wait_any_loop c parent
  end.

Definition sys_WaitChild (c : nat) (cpid : Z) : KM wait_result :=
  if decide (cpid ≠ NOPROC) then wait_for_specific_child c cpid else wait_for_any_child c.

(** After [kernel_wait] returns. *)
Definition wait_resume (c : nat) (w : wait_point) : KM wait_result :=
  match w with
  | ForChild parent child => wait_specific_loop c parent child
  | ForAny parent => wait_any_loop c parent
  end.

Definition sys_OpenInfo : Z := NOFILE.
