(* ===== verification/Threads.v ===== *)
(** * Threads of a process (kernel_threads.c), and the end of a process

    [CreateThread], [ThreadSelf], [ThreadJoin], [ThreadDetach], [ThreadExit], and
    [Exit] of kernel_proc.c.  [c] is the core that executes the call. *)
From S2P Require Import Prelude Bios Sched Kernel Devices Streams Proc.
Local Open Scope Z_scope.

(** [Tid_t] is an address: of a PTCB, as [CreateThread] returns it, or of a TCB, as
    [ThreadSelf] does. *)
Inductive Tid_t := OfPTCB (p : ptcb_ptr) | OfTCB (t : tid).

(** What [start_thread] calls, on core [c]. *)
Definition CURPTCB (c : nat) : KM ptcb_ptr :=
  self ← on_ksched (CURTHREAD c);
  k ← on_ksched (get_tcb self);
  get_some NullDeref (tcb_ptcb k).
Definition start_thread (c : nat) : KM (Task * Z * Z) :=
  p ← CURPTCB c; b ← get_PTCB p; mret (pt_task b, pt_argl b, pt_args b).

Definition sys_CreateThread (c : nat) (task : Task) (argl args : Z) : KM Tid_t :=
  p ← CURPROC c;
  n ← new_thread p start_thread_entry task argl args;
  mret (OfPTCB n).

Definition sys_ThreadSelf (c : nat) : KM Tid_t :=
  self ← on_ksched (CURTHREAD c); mret (OfTCB self).

(** [rlist_remove(&ptcb->thread_list_node)]. *)
Definition unlink_thread (p : ptcb_ptr) : KM unit :=
  modify (λ s, set_PT ((λ b, set_thread_list (remove_node p (thread_list b)) b) <$> PT s) s).

(** The keys that [rlist_find] compares: the nodes of a thread list have the
    addresses of their PTCBs as keys, and no PTCB is at the address of a node. *)
Inductive key := KPTCB (p : ptcb_ptr) | KNode (p : ptcb_ptr).
#[export] Instance key_eq_dec : EqDecision key.
Proof. solve_decision. Defined.
Definition thread_find (l : list ptcb_ptr) (k : key) : option ptcb_ptr :=
  snd <$> list_find (λ p, KPTCB p = k) l.

(** ** ThreadJoin *)
Inductive join_result := Joined (ret : Z) | JoinWaits (p : ptcb_ptr).

Definition join_end (c : nat) (p : ptcb_ptr) : KM join_result :=
  b ← get_PTCB p;
  when (bool_decide (0 < ref_count b)) (upd_PTCB p (set_ref_count (ref_count b - 1))) ;;
  b ← get_PTCB p;
  cur ← CURPROC c;
  k ← get_PCB cur;
  when (bool_decide
      ((ref_count b = 0 ∧ thread_find (thread_list k) (KNode p) = Some p ∧ detached b = false)
       ∨ detached b = true))
    (unlink_thread p ;;
     free_PTCB p ;;
     cur ← CURPROC c;
     upd_PCB cur (λ b, set_thread_count (u32 (thread_count b - 1)) b)) ;;
  mret (Joined 0).

(** The loop that waits, from its condition on. *)
Definition join_loop (c : nat) (p : ptcb_ptr) : KM join_result :=
  b ← get_PTCB p;
  if decide (exited b = false ∧ detached b = false) then
    kernel_wait (ExitCv p) c ;; mret (JoinWaits p)
  else join_end c p.

(** [exitval] is what the caller's variable holds, if the pointer is not null. *)
Definition sys_ThreadJoin (c : nat) (p : ptcb_ptr) (exitval : option Z) : KM join_result :=
  b ← get_PTCB p;
  self ← on_ksched (CURTHREAD c);
  cur ← CURPROC c;
  k ← get_PCB cur;
  if decide (detached b = true ∨ pt_tcb b = self ∨ thread_find (thread_list k) (KPTCB p) ≠ Some p)
  then mret (Joined (-1))
  else if exited b then v ← get_some NullDeref exitval; mret (Joined v)
  else
    upd_PTCB p (set_ref_count (u32 (ref_count b + 1))) ;;
    join_loop c p.

Definition sys_ThreadDetach (p : ptcb_ptr) : KM Z :=
  b ← get_PTCB p;
  if detached b then mret (-1)
  else upd_PTCB p (set_detached true) ;; kernel_broadcast (ExitCv p) ;; mret 0.

(** ** ThreadExit *)

(** The PTCB of the thread that ends: two conditions, each of which frees it. *)
Definition exit_ptcb (p : ptcb_ptr) (v : Z) : KM unit :=
  upd_PTCB p (set_exited v) ;;
  kernel_broadcast (ExitCv p) ;;
  b ← get_PTCB p;
  when (detached b) (unlink_thread p ;; free_PTCB p) ;;
  b ← get_PTCB p;
  when (bool_decide (ref_count b = 0 ∧ detached b = false)) (unlink_thread p ;; free_PTCB p).

Definition free_args (p : nat) : KM unit :=
  b ← get_PCB p;
  match pargs b with
  | Some buf => free_buf buf ;; upd_PCB p (λ b, set_main (main_task b) (pargl b) None b)
  | None => mret tt
  end.

Definition close_fid (p i : nat) : KM unit :=
  b ← get_PCB p;
  o ← get_some OutOfBounds (FIDT b !! i);
  match o with
  | Some f => FCB_decref f ;; upd_PCB p (λ b, set_FIDT (<[i := None]> (FIDT b)) b)
  | None => mret tt
  end.

(** The loop that gives the children of [p] to init, [fuel] turns of it. *)
Fixpoint reparent (fuel : nat) (p : nat) (initpcb : option nat) : KM unit :=
  match fuel with
  | O => raise OutOfFuel
  | S fuel =>
      b ← get_PCB p;
      match children_list b with
      | [] => mret tt
      | child :: l =>
          upd_PCB p (set_children_list l) ;;
          upd_PCB child (set_parent initpcb) ;;
          i ← get_some NullDeref initpcb;
          upd_PCB i (λ b, set_children_list (child :: children_list b) b) ;;
          reparent fuel p initpcb
      end
  end.

(** The exited children go to the end of init's list. *)
Definition append_exited (p : nat) (initpcb : option nat) : KM unit :=
  b ← get_PCB p;
  match exited_list b with
  | [] => mret tt
  | l =>
      i ← get_some NullDeref initpcb;
      upd_PCB i (λ b, set_exited_list (exited_list b ++ l) b) ;;
      upd_PCB p (set_exited_list []) ;;
      kernel_broadcast (ChildExit i)
  end.

Definition tell_parent (p : nat) : KM unit :=
  b ← get_PCB p;
  match parent b with
  | Some q =>
      upd_PCB q (λ b, set_exited_list (p :: exited_list b) b) ;;
      kernel_broadcast (ChildExit q)
  | None => mret tt
  end.

(** What the last thread of process [p] does. *)
Definition exit_process (p : nat) (v : Z) : KM unit :=
  upd_PCB p (set_exitval v) ;;
  free_args p ;;
  for_each (seq 0 MAX_FILEID) (close_fid p) ;;
  initpcb ← get_pcb 1;
  b ← get_PCB p;
  reparent (S (length (children_list b))) p initpcb ;;
  append_exited p initpcb ;;
  tell_parent p ;;
  upd_PCB p (set_pstate ZOMBIE).

Definition sys_ThreadExit (c : nat) (v : Z) : KM unit :=
  t ← CURPTCB c;
  p ← CURPROC c;
  exit_ptcb t v ;;
  upd_PCB p (λ b, set_thread_count (u32 (thread_count b - 1)) b) ;;
  b ← get_PCB p;
  when (bool_decide (thread_count b = 0)) (exit_process p v) ;;
  kernel_sleep c EXITED.

(** ** Exit *)

(** What [Exit] comes to: the thread has ended (it is marked, and yields next; the
    rest of [sys_Exit] never runs), or init waits for a child. *)
Inductive exit_result := Ended | ExitWaits (w : wait_point).

Definition after_wait (c : nat) (loop : KM exit_result) (v : Z) (r : wait_result)
  : KM exit_result :=
  match r with
  | Waiting w => mret (ExitWaits w)
  | Reaped pid _ => if decide (pid ≠ NOPROC) then loop else sys_ThreadExit c v ;; mret Ended
  end.

(** Init's loop over [WaitChild]; each turn that ends reaps a child. *)
Fixpoint exit_loop (fuel : nat) (c : nat) (v : Z) : KM exit_result :=
  match fuel with
  | O => raise OutOfFuel
  | S fuel => r ← sys_WaitChild c NOPROC; after_wait c (exit_loop fuel c v) v r
  end.

(** There are at most as many turns as children, and one more. *)
Definition exit_turns (c : nat) : KM nat :=
  p ← CURPROC c; b ← get_PCB p; mret (S (length (children_list b))).

Definition sys_Exit (c : nat) (v : Z) : KM exit_result :=
  pid ← sys_GetPid c;
  if decide (pid = 1) then fuel ← exit_turns c; exit_loop fuel c v
  else sys_ThreadExit c v ;; mret Ended.

(** The wait of init's [Exit], resumed. *)
Definition exit_resume (c : nat) (w : wait_point) (v : Z) : KM exit_result :=
  fuel ← exit_turns c;
  r ← wait_resume c w;
  after_wait c (exit_loop fuel c v) v r.
