(* ===== verification/Syscalls.v ===== *)
(** * The system calls (kernel_sys.h, kernel_sys.c)

    The list [SYSCALLS]: the calls with their arguments, and the function that each
    of them runs with the kernel locked.  What the host does for a [Read] or a
    [Write] is an argument.  A call that waits releases the kernel; [sys_resume] is
    the rest of it, from its wait on. *)
From S2P Require Import Prelude Bios Sched Kernel Devices Streams Proc Threads.
Local Open Scope Z_scope.

(** ** Calls *)

(** A [Tid_t] of the user may be null; [exitval] is what the variable holds that it
    points to. *)
Inductive syscall :=
  | SYS_Exec (task : Task) (argl : Z) (args : user_args)
  | SYS_Exit (exitval : Z)
  | SYS_GetPid
  | SYS_GetPPid
  | SYS_WaitChild (proc : Z)
  | SYS_CreateThread (task : Task) (argl args : Z)
  | SYS_ThreadSelf
  | SYS_ThreadJoin (tid : option Tid_t) (exitval : option Z)
  | SYS_ThreadDetach (tid : option Tid_t)
  | SYS_ThreadExit (exitval : Z)
  | SYS_GetTerminalDevices
  | SYS_OpenTerminal (termno : Z)
  | SYS_OpenNull
  | SYS_Read (fd size : Z)
  | SYS_Write (fd : Z) (buf : list Z) (size : Z)
  | SYS_Close (fd : Z)
  | SYS_Dup2 (oldfd newfd : Z)
  | SYS_Pipe
  | SYS_Socket (port : Z)
  | SYS_Listen (sock : Z)
  | SYS_Accept (lsock : Z)
  | SYS_Connect (sock port timeout : Z)
  | SYS_ShutDown (sock how : Z)
  | SYS_OpenInfo.

(** Where a thread waits inside of a call, with what the rest of the call needs. *)
Inductive wait :=
  | WaitsChild (w : wait_point)
  | WaitsExit (w : wait_point) (exitval : Z)
  | WaitsJoin (p : ptcb_ptr)
  | WaitsRead (f : nat) (size : Z)
  | WaitsWrite (f : nat) (buf : list Z) (size : Z).

(** What a call comes to.  [ThreadExit] does not return: the thread is marked, and
    yields next. *)
Inductive sysret :=
  | Returns (v : Z)
  | ReturnsTid (t : Tid_t)
  | ReturnsChild (pid : Z) (status : option Z)
  | ReturnsBytes (n : Z) (bytes : list Z)
  | Waits (w : wait)
  | NoReturn.

(** The bytes that the host has ready, and how many it takes. *)
Record host := Host { avail : list Z; room : nat }.

(** ** From the results of the functions *)
Definition child_ret (r : wait_result) : sysret :=
  match r with Reaped pid status => ReturnsChild pid status | Waiting w => Waits (WaitsChild w) end.
Definition exit_ret (v : Z) (r : exit_result) : sysret :=
  match r with Ended => NoReturn | ExitWaits w => Waits (WaitsExit w v) end.
Definition join_ret (r : join_result) : sysret :=
  match r with Joined v => Returns v | JoinWaits p => Waits (WaitsJoin p) end.
Definition read_ret (size : Z) (r : io_result) : sysret :=
  match r with IoDone n bytes => ReturnsBytes n bytes | IoBlocked f => Waits (WaitsRead f size) end.
Definition write_ret (buf : list Z) (size : Z) (r : io_result) : sysret :=
  match r with IoDone n _ => Returns n | IoBlocked f => Waits (WaitsWrite f buf size) end.

(** [(PTCB* )tid]: the id that [ThreadSelf] returns is that of a TCB. *)
Definition ptcb_of (null : fault) (tid : option Tid_t) : KM ptcb_ptr :=
  match tid with
  | Some (OfPTCB p) => mret p
  | Some (OfTCB _) => raise WrongType
  | None => raise null
  end.

(** ** [SYSCALL(NAME, RET, SIG, ARGS)], on core [c] *)
Definition sys_call (c : nat) (h : host) (call : syscall) : KM sysret :=
  match call with
  | SYS_Exec task argl args => Returns <$> sys_Exec c task argl args
  | SYS_Exit v => exit_ret v <$> sys_Exit c v
  | SYS_GetPid => Returns <$> sys_GetPid c
  | SYS_GetPPid => Returns <$> sys_GetPPid c
  | SYS_WaitChild proc => child_ret <$> sys_WaitChild c proc
  | SYS_CreateThread task argl args => ReturnsTid <$> sys_CreateThread c task argl args
  | SYS_ThreadSelf => ReturnsTid <$> sys_ThreadSelf c
  | SYS_ThreadJoin tid v => p ← ptcb_of AssertFailed tid; join_ret <$> sys_ThreadJoin c p v
  | SYS_ThreadDetach tid => p ← ptcb_of NullDeref tid; Returns <$> sys_ThreadDetach p
  | SYS_ThreadExit v => sys_ThreadExit c v ;; mret NoReturn
  | SYS_GetTerminalDevices => Returns <$> sys_GetTerminalDevices
  | SYS_OpenTerminal n => Returns <$> sys_OpenTerminal c n
  | SYS_OpenNull => Returns <$> sys_OpenNull c
  | SYS_Read fd size => read_ret size <$> sys_Read c fd size (avail h)
  | SYS_Write fd buf size => write_ret buf size <$> sys_Write c fd buf size (room h)
  | SYS_Close fd => Returns <$> sys_Close c fd
  | SYS_Dup2 oldfd newfd => Returns <$> sys_Dup2 c oldfd newfd
  | SYS_Pipe => mret (Returns sys_Pipe)
  | SYS_Socket port => mret (Returns (sys_Socket port))
  | SYS_Listen sock => mret (Returns (sys_Listen sock))
  | SYS_Accept lsock => mret (Returns (sys_Accept lsock))
  | SYS_Connect sock port timeout => mret (Returns (sys_Connect sock port timeout))
  | SYS_ShutDown sock how => mret (Returns (sys_ShutDown sock how))
  | SYS_OpenInfo => mret (Returns sys_OpenInfo)
  end.

(** The rest of a call, after its wait. *)
Definition sys_resume (c : nat) (h : host) (w : wait) : KM sysret :=
  match w with
  | WaitsChild w => child_ret <$> wait_resume c w
  | WaitsExit w v => exit_ret v <$> exit_resume c w v
  | WaitsJoin p => join_ret <$> join_loop c p
  | WaitsRead f size => read_ret size <$> read_device c f size (avail h)
  | WaitsWrite f buf size => write_ret buf size <$> write_device c f buf size (room h)
  end.
