(* ===== verification/Typed.v ===== *)
(** * The types of the kernel's data

    C does not check that a [void*] points to what it is used as, that an integer
    fits the field that it is stored in, or that an index is inside of its table.
    Here is what the declarations of the headers mean for the state of the kernel,
    and that every system call keeps it, in every state that is typed, whatever its
    arguments are and however it is used. *)
From S2P Require Import Prelude Hoare Bios Sched Kernel Devices Streams Proc Threads Syscalls.
Local Open Scope Z_scope.

(** ** Types *)
Definition c_int (z : Z) : Prop := - 2 ^ 31 ≤ z < 2 ^ 31.
Definition c_uint (z : Z) : Prop := 0 ≤ z < 2 ^ 32.
Definition c_u64 (z : Z) : Prop := 0 ≤ z < 2 ^ 64.
Definition c_byte (z : Z) : Prop := 0 ≤ z < 256.

Lemma c_int_i32 z : c_int (i32 z).
Proof. unfold c_int, i32. pose proof (Z.mod_pos_bound (z + 2 ^ 31) (2 ^ 32)). lia. Qed.
Lemma c_uint_u32 z : c_uint (u32 z).
Proof. apply u32_range. Qed.
Lemma c_u64_u64 z : c_u64 (u64 z).
Proof. apply u64_range. Qed.

(** A pointer into a table of [n] blocks, which may be null. *)
Definition pointer (n : nat) (o : option nat) : Prop := ∀ p, o = Some p → (p < n)%nat.

Lemma pointer_None n : pointer n None.
Proof. by intros p. Qed.
Lemma pointer_Some n p : (p < n)%nat → pointer n (Some p).
Proof. by intros Hp q [= <-]. Qed.

#[export] Hint Resolve c_int_i32 c_uint_u32 c_u64_u64 pointer_None pointer_Some : keeps.

(** The sizes of the tables: processes, streams, terminals, cores. *)
Record sizes := Sizes { n_proc : nat; n_file : nat; n_term : nat; n_core : nat }.

Section typed.
Context (z : sizes).

(** The scheduler and the machine.  [SCHED] has a queue for every priority that a
    thread can have. *)
Record TCB_typed (k : TCB) : Prop := TCBTyped {
  ty_owner : 0 ≤ owner_pcb k < Z.of_nat (n_proc z);
  ty_priority : 0 ≤ priority k < SCHED_MAX_LEVEL;
  ty_wakeup : c_u64 (wakeup_time k);
  ty_its : c_u64 (its k) ∧ c_u64 (rts k) }.
Record Core_typed (k : Core) : Prop := CoreTyped {
  ty_tables : length (intvec k) = maximum_interrupt_no ∧ length (intpending k) = maximum_interrupt_no;
  ty_irq : c_int (irq_count k) }.
Record machine_typed (m : machine) : Prop := MachineTyped {
  ty_cores : length (CORE m) = n_core z ∧ ∀ c k, CORE m !! c = Some k → Core_typed k;
  ty_halted : ∀ c, c ∈ halted_list m → (c < n_core z)%nat;
  ty_terms : nterm m = n_term z }.
Record sched_typed (s : sched) : Prop := SchedTyped {
  ty_tcbs : ∀ t k, tcbs s !! t = Some k → TCB_typed k;
  ty_queues : length (SCHED s) = Z.to_nat SCHED_MAX_LEVEL;
  ty_active : c_uint (active_threads s);
  ty_scheduled : c_int (scheduled s);
  ty_vm : machine_typed (vm s) }.

Record PCB_typed (b : PCB) : Prop := PCBTyped {
  ty_parent : pointer (n_proc z) (parent b);
  ty_exitval : c_int (exitval b);
  ty_count : c_uint (thread_count b);
  ty_argl : c_int (pargl b);
  ty_children : Forall (λ p, (p < n_proc z)%nat) (children_list b);
  ty_exited : Forall (λ p, (p < n_proc z)%nat) (exited_list b);
  ty_FIDT : length (FIDT b) = MAX_FILEID ∧ Forall (pointer (n_file z)) (FIDT b) }.
Record PTCB_typed (b : PTCB) : Prop := PTCBTyped {
  ty_refs : c_uint (ref_count b);
  ty_pt_exitval : ∀ v, pt_exitval b = Some v → c_int v;
  ty_pt_argl : c_int (pt_argl b) }.

(** [streamobj] is what the functions of [streamfunc] take it for. *)
Definition stream_typed (obj : option nat) (func : option file_ops) : Prop :=
  match func with
  | Some serial_fops => ∃ t, obj = Some t ∧ (t < n_term z)%nat
  | Some nulldev_fops | Some stdio_ops => obj = None
  | None => True
  end.
Record FCB_typed (b : FCB) : Prop := FCBTyped {
  ty_refcount : c_uint (refcount b);
  ty_stream : stream_typed (streamobj b) (streamfunc b) }.

Definition channel_typed (c : channel) : Prop :=
  match c with
  | ChildExit p => (p < n_proc z)%nat
  | ExitCv _ => True
  | RxReady t => (t < n_term z)%nat
  end.

Record kernel_typed (s : kernel) : Prop := KernelTyped {
  ty_sched : sched_typed (ksched s);
  ty_PT : length (PT s) = n_proc z ∧ ∀ p b, PT s !! p = Some b → PCB_typed b;
  ty_free : pointer (n_proc z) (pcb_freelist s);
  ty_process_count : c_uint (process_count s);
  ty_ptcbs : ∀ p b, ptcbs s !! p = Some b → PTCB_typed b;
  ty_kbufs : ∀ k l, kbufs s !! k = Some l → Forall c_byte l;
  ty_FT : length (FT s) = n_file z ∧ ∀ f b, FT s !! f = Some b → FCB_typed b;
  ty_FCB_free : Forall (λ f, (f < n_file z)%nat) (FCB_freelist s);
  ty_devnum : devnum s = [1%nat; n_term z];
  ty_waiting : Forall (λ w, channel_typed w.1) (waiting s) }.

(** ** Typed calls and results *)
Definition user_args_typed (args : user_args) : Prop :=
  match args with Some (_, bytes) => Forall c_byte bytes | None => True end.
Definition host_typed (h : host) : Prop := Forall c_byte (avail h).
Definition call_typed (call : syscall) : Prop :=
  match call with
  | SYS_Exec _ argl args => c_int argl ∧ user_args_typed args
  | SYS_Exit v | SYS_ThreadExit v => c_int v
  | SYS_WaitChild proc => c_int proc
  | SYS_CreateThread _ argl _ => c_int argl
  | SYS_ThreadJoin _ (Some v) => c_int v
  | SYS_OpenTerminal n => c_uint n
  | SYS_Read fd size => c_int fd ∧ c_uint size
  | SYS_Write fd buf size => c_int fd ∧ Forall c_byte buf ∧ c_uint size
  | SYS_Close fd => c_int fd
  | SYS_Dup2 oldfd newfd => c_int oldfd ∧ c_int newfd
  | _ => True
  end.

Definition point_typed (w : wait_point) : Prop :=
  match w with
  | ForChild p q => (p < n_proc z)%nat ∧ (q < n_proc z)%nat
  | ForAny p => (p < n_proc z)%nat
  end.
Definition wait_typed (w : wait) : Prop :=
  match w with
  | WaitsChild w => point_typed w
  | WaitsExit w v => point_typed w ∧ c_int v
  | WaitsJoin _ => True
  | WaitsRead f size => (f < n_file z)%nat ∧ c_uint size
  | WaitsWrite f buf size => (f < n_file z)%nat ∧ Forall c_byte buf ∧ c_uint size
  end.
(** [int], but for [GetTerminalDevices], which returns an [unsigned int]. *)
Definition ret_typed (r : sysret) : Prop :=
  match r with
  | Returns v => c_int v
  | ReturnsTid _ | NoReturn => True
  | ReturnsChild pid status => c_int pid ∧ ∀ v, status = Some v → c_int v
  | ReturnsBytes n bytes => c_int n ∧ Forall c_byte bytes
  | Waits w => wait_typed w
  end.
End typed.

(** ** The machine and the scheduler *)
Lemma c_uint_0 : c_uint 0.
Proof. unfold c_uint. lia. Qed.
Lemma c_int_const v : -65536 ≤ v ≤ 65536 → c_int v.
Proof. unfold c_int. lia. Qed.
Lemma small_int n : Z.of_nat n ≤ MAX_PROC → c_int (Z.of_nat n).
Proof. unfold MAX_PROC. intros. apply c_int_const. lia. Qed.
Lemma NOPROC_int : c_int NOPROC.
Proof. apply c_int_const. unfold NOPROC. lia. Qed.
Definition join_typed (r : join_result) : Prop := match r with Joined v => c_int v | JoinWaits _ => True end.
Lemma joined_typed v : -1 ≤ v ≤ 0 → join_typed (Joined v).
Proof. intros. apply c_int_const. lia. Qed.
Lemma typed_unref b b' : PTCB_typed b → 0 < ref_count b → PTCB_typed b' → PTCB_typed (set_ref_count (ref_count b - 1) b').
Proof. intros [H1 _ _] Hp []. split; try done. cbn. unfold c_uint in *. lia. Qed.
Lemma Forall_zeros n : Forall c_byte (replicate n 0).
Proof. apply Forall_replicate. unfold c_byte. lia. Qed.
Lemma Forall_in {A} (P : A → Prop) l x : Forall P l → x ∈ l → P x.
Proof. rewrite Forall_forall. auto. Qed.
Lemma find_fids_range num : ∀ f l fids, find_fids num f l = Some fids →
  Forall (λ i, (f ≤ i < f + length l)%nat) fids ∧ length fids = num.
Proof.
  intros f l. revert num f. induction l as [|[g|] l IH]; intros [|num] f fids; cbn [find_fids]; intros H; simplify_eq.
  - split; constructor.
  - split; constructor.
  - apply IH in H as [HF Hlen]. split; [|done]. eapply Forall_impl; [exact HF|]. simpl. intros i. lia.
  - split; constructor.
  - apply fmap_Some in H as (fids' & H & ->). apply IH in H as [HF Hlen]. split; [|simpl; by rewrite Hlen].
    constructor; [simpl; lia|]. eapply Forall_impl; [exact HF|]. simpl. intros i. lia.
Qed.

Section preservation.
Context (z : sizes) (Hproc : Z.of_nat (n_proc z) ≤ MAX_PROC) (Hterm : (n_term z ≤ MAX_TERMINALS)%nat).
#[local] Set Default Proof Using "Type*".
Abbreviation MT := (machine_typed z).
Abbreviation ST := (sched_typed z).
Abbreviation KT := (kernel_typed z).

Lemma Forall_remove_node {A} `{EqDecision A} (P : A → Prop) x l : Forall P l → Forall P (remove_node x l).
Proof. rewrite !Forall_forall. intros H y [_ Hy]%elem_of_remove_node. auto. Qed.
Lemma Forall_filtered {A} (P Q : A → Prop) `{∀ x, Decision (Q x)} l : Forall P l → Forall P (filter Q l).
Proof. rewrite !Forall_forall. intros H1 y [_ Hy]%list_elem_of_filter. auto. Qed.

(** A table of typed blocks, updated by a typed block. *)
Lemma typed_update {A} (P : A → Prop) (l : list A) i x :
  (∀ j y, l !! j = Some y → P y) → P x → ∀ j y, <[i := x]> l !! j = Some y → P y.
Proof.
  intros Hl Hx j y. rewrite list_lookup_insert_Some. intros [(_ & <- & _)|[_ Hj]]; [done|by eapply Hl].
Qed.

Lemma keeps_upd_core c f :
  (∀ k, Core_typed k → Core_typed (f k)) → keeps MT (upd_core c f) (λ _, True).
Proof.
  intros Hf. unfold upd_core, get_core. intros s a s' [[Hl Hc] Hh Ht].
  unfold_monad. destruct (CORE s !! c) as [k|] eqn:Hk; [|by intros [=]]. intros [= <- <-].
  split; [|done]. split; [split; cbn; [by rewrite length_insert|]|done|done].
  apply typed_update; [exact Hc|]. apply Hf. by eapply Hc.
Qed.
Lemma typed_set_halted v k : Core_typed k → Core_typed (set_halted v k).
Proof. by intros [??]. Qed.
Lemma typed_set_int_disabled v k : Core_typed k → Core_typed (set_int_disabled v k).
Proof. by intros [??]. Qed.
Hint Resolve keeps_upd_core typed_set_halted typed_set_int_disabled : keeps.

Lemma keeps_halted_list f :
  (∀ l, (∀ c, c ∈ l → (c < n_core z)%nat) → ∀ c, c ∈ f l → (c < n_core z)%nat) →
  ∀ s, MT s → MT (set_halted_list (f (halted_list s)) s).
Proof. intros Hf s [H1 H2 H3]. split; [done|by apply Hf|done]. Qed.

Lemma keeps_get_core c : keeps MT (get_core c) (λ _, True).
Proof. unfold get_core. keeps_go; done. Qed.
Hint Resolve keeps_get_core : keeps.

Lemma keeps_restart c : keeps MT (core_restart c) (λ _, True).
Proof.
  unfold core_restart. keeps_go; auto. all: try done.
  apply (keeps_halted_list (remove_node c)); [|done].
  intros l Hl d [_ Hd]%elem_of_remove_node. auto.
Qed.
Hint Resolve keeps_restart : keeps.
Lemma keeps_restart_one : keeps MT cpu_core_restart_one (λ _, True).
Proof.
  unfold cpu_core_restart_one. eapply keeps_bind; [apply keeps_get|]. intros m Hm.
  destruct (halted_list m) as [|c l] eqn:Hl; [by apply keeps_ret|].
  eapply keeps_seq; [|intros; apply keeps_restart]. apply keeps_modify; [|done].
  intros s [H1 H2 H3]. split; [done| |done]. intros d Hd. apply (ty_halted _ _ Hm). rewrite Hl. by right.
Qed.
Hint Resolve keeps_restart_one : keeps.

(** *** Terminals *)
Lemma keeps_upd_term t f : keeps MT (upd_term t f) (λ _, True).
Proof.
  unfold upd_term, get_term. keeps_go; try done.
  match goal with H : MT _ |- _ => by destruct H end.
Qed.
Hint Resolve keeps_upd_term : keeps.
Lemma keeps_put_kbd t d : keeps MT (put_kbd t d) (λ _, True).
Proof. apply keeps_upd_term. Qed.
Lemma keeps_put_con t d : keeps MT (put_con t d) (λ _, True).
Proof. apply keeps_upd_term. Qed.
Hint Resolve keeps_put_kbd keeps_put_con : keeps.
Lemma keeps_io_failed d put : (∀ d, keeps MT (put d) (λ _, True)) → keeps MT (io_failed d put) (λ _, True).
Proof.
  intros Hp. unfold io_failed, interrupt_pic_thread. keeps_go; try done.
  match goal with H : MT _ |- _ => by destruct H end.
Qed.
Hint Resolve keeps_io_failed : keeps.
Lemma keeps_get_term t : keeps MT (get_term t) (λ _, True).
Proof. unfold get_term. keeps_go; done. Qed.
Hint Resolve keeps_get_term : keeps.
Lemma keeps_read_serial t input :
  keeps MT (bios_read_serial t input) (λ o, ∀ b, o = Some b → input = Some b).
Proof. unfold bios_read_serial, io_device_read. keeps_go; by auto. Qed.
Lemma keeps_write_serial t v sent : keeps MT (bios_write_serial t v sent) (λ _, True).
Proof. unfold bios_write_serial, io_device_write. keeps_go; by auto. Qed.
Lemma keeps_serial_ports : keeps MT bios_serial_ports (λ n, n = n_term z).
Proof. unfold bios_serial_ports. keeps_go. match goal with H : MT _ |- _ => by destruct H end. Qed.
Hint Resolve keeps_read_serial keeps_write_serial keeps_serial_ports : keeps.

(** *** The scheduler *)
Lemma keeps_on_vm {A} (m : BM A) Q : keeps MT m Q → keeps ST (on_vm m) Q.
Proof. intros Hm. apply (keeps_zoom _ MT); [done|by intros s []|]. intros s v []. by split. Qed.
Hint Resolve keeps_on_vm : keeps.

Lemma keeps_get_tcb t : keeps ST (get_tcb t) (TCB_typed z).
Proof.
  unfold get_tcb. intros s k s' Hs. unfold_monad.
  destruct (tcbs s !! t) as [k'|] eqn:Hk; [|by intros [=]]. intros [= <- <-].
  split; [done|]. by eapply (ty_tcbs _ _ Hs).
Qed.
Hint Resolve keeps_get_tcb : keeps.
Lemma keeps_set_tcb t k : TCB_typed z k → keeps ST (modify (λ s, set_tcbs (<[t := k]> (tcbs s)) s)) (λ _, True).
Proof.
  intros Hk. apply keeps_modify; [|done]. intros s []. split; try done. cbn.
  intros u ku. rewrite lookup_insert_Some. intros [[<- <-]|[_ Hu]]; eauto.
Qed.
Lemma keeps_upd_tcb t f : (∀ k, TCB_typed z k → TCB_typed z (f k)) → keeps ST (upd_tcb t f) (λ _, True).
Proof. intros Hf. unfold upd_tcb. eapply keeps_bind; [apply keeps_get_tcb|]. intros k Hk. by apply keeps_set_tcb, Hf. Qed.
Hint Resolve keeps_upd_tcb : keeps.
Lemma typed_set_state v k : TCB_typed z k → TCB_typed z (set_state v k).
Proof. by intros []. Qed.
Lemma typed_no_timeout k : TCB_typed z k → TCB_typed z (set_wakeup_time NO_TIMEOUT k).
Proof. intros []. by split. Qed.
Lemma typed_set_ptcb v k : TCB_typed z k → TCB_typed z (set_tcb_ptcb v k).
Proof. by intros []. Qed.
Hint Resolve typed_set_state typed_no_timeout typed_set_ptcb : keeps.

Lemma keeps_get_ccb c : keeps ST (get_ccb c) (λ _, True).
Proof. unfold get_ccb. keeps_go; done. Qed.
Hint Resolve keeps_get_ccb : keeps.
Lemma keeps_upd_ccb c f : keeps ST (upd_ccb c f) (λ _, True).
Proof. unfold upd_ccb. keeps_go; try done. match goal with H : ST _ |- _ => by destruct H end. Qed.
Hint Resolve keeps_upd_ccb : keeps.
Lemma keeps_CURTHREAD c : keeps ST (CURTHREAD c) (λ _, True).
Proof. unfold CURTHREAD. keeps_go; done. Qed.
Lemma keeps_preemption c b : keeps ST (set_core_preemption c b) (λ _, True).
Proof. unfold set_core_preemption. keeps_go; done. Qed.
Hint Resolve keeps_CURTHREAD keeps_preemption : keeps.

Lemma keeps_SCHED f : (∀ l, length l = Z.to_nat SCHED_MAX_LEVEL → length (f l) = Z.to_nat SCHED_MAX_LEVEL) →
  ∀ s, ST s → ST (set_SCHED (f (SCHED s)) s).
Proof. intros Hf s []. split; cbn; auto. Qed.
Lemma keeps_queue_add t : keeps ST (sched_queue_add t) (λ _, True).
Proof.
  unfold sched_queue_add. keeps_go; try done; auto with keeps.
  match goal with H1 : ST ?a, H2 : ST ?b |- _ => destruct H1, H2 end. split; try done. cbn. by rewrite length_insert.
Qed.
Hint Resolve keeps_queue_add : keeps.
Lemma keeps_unlink t s : ST s → ST (unlink t s).
Proof. intros []. split; try done. cbn. by rewrite length_fmap. Qed.
Lemma keeps_make_ready t : keeps ST (sched_make_ready t) (λ _, True).
Proof. unfold sched_make_ready. keeps_go; auto using keeps_unlink with keeps. Qed.
Hint Resolve keeps_make_ready : keeps.
Lemma keeps_wakeup t : keeps ST (wakeup t) (λ _, True).
Proof. unfold wakeup. keeps_go; done. Qed.
Lemma keeps_sleep_mark c st : keeps ST (sleep_mark c st NO_TIMEOUT) (λ _, True).
Proof.
  unfold sleep_mark. keeps_go; auto with keeps. unfold sched_register_timeout. rewrite decide_True by done.
  by apply keeps_ret.
Qed.
Hint Resolve keeps_wakeup keeps_sleep_mark : keeps.
Lemma keeps_spawn p f : (p < n_proc z)%nat → keeps ST (spawn_thread (Z.of_nat p) f) (λ _, True).
Proof.
  intros Hp. unfold spawn_thread. keeps_go; try done.
  - match goal with H1 : ST ?a, H2 : ST ?b |- _ => destruct H1, H2 end. split; try done. cbn.
    intros u ku. rewrite lookup_insert_Some. intros [[<- <-]|[_ Hu]]; [|eauto].
    split; cbn; unfold c_u64, NO_TIMEOUT, QUANTUM, SCHED_MAX_LEVEL; lia.
  - match goal with H : ST _ |- _ => destruct H end. split; try done. apply c_uint_u32.
Qed.

(** *** Access to the blocks of the kernel *)
Lemma keeps_on_ksched {A} (m : SM A) Q : keeps ST m Q → keeps KT (on_ksched m) Q.
Proof. intros Hm. apply (keeps_zoom _ ST); [done|by intros s []|]. intros s v []. by split. Qed.
Hint Resolve keeps_on_ksched : keeps.
Lemma keeps_on_machine {A} (m : BM A) Q : keeps MT m Q → keeps KT (on_machine m) Q.
Proof. intros Hm. by apply keeps_on_ksched, keeps_on_vm. Qed.
Hint Resolve keeps_on_machine : keeps.

Lemma keeps_get_PCB p : keeps KT (get_PCB p) (λ b, PCB_typed z b ∧ (p < n_proc z)%nat).
Proof.
  unfold get_PCB. intros s b s' Hs. unfold_monad.
  destruct (PT s !! p) as [b'|] eqn:Hb; [|by intros [=]]. intros [= <- <-].
  destruct (ty_PT _ _ Hs) as [<- H]. split; [done|]. split; [by eapply H|by eapply lookup_lt_Some].
Qed.
Hint Resolve keeps_get_PCB : keeps.
Lemma keeps_upd_PCB p f : (∀ b, PCB_typed z b → PCB_typed z (f b)) → keeps KT (upd_PCB p f) (λ _, (p < n_proc z)%nat).
Proof.
  intros Hf. unfold upd_PCB. eapply keeps_bind; [apply keeps_get_PCB|]. intros b [Hb Hp].
  apply keeps_modify; [|done]. intros s []. split; try done. cbn. rewrite length_insert.
  split; [by apply ty_PT0|]. apply typed_update; [by apply ty_PT0|by apply Hf].
Qed.
Hint Resolve keeps_upd_PCB : keeps.
Lemma keeps_get_FCB f : keeps KT (get_FCB f) (λ b, FCB_typed z b ∧ (f < n_file z)%nat).
Proof.
  unfold get_FCB. intros s b s' Hs. unfold_monad.
  destruct (FT s !! f) as [b'|] eqn:Hb; [|by intros [=]]. intros [= <- <-].
  destruct (ty_FT _ _ Hs) as [<- H]. split; [done|]. split; [by eapply H|by eapply lookup_lt_Some].
Qed.
Hint Resolve keeps_get_FCB : keeps.
Lemma keeps_upd_FCB f g : (∀ b, FCB_typed z b → FCB_typed z (g b)) → keeps KT (upd_FCB f g) (λ _, True).
Proof.
  intros Hg. unfold upd_FCB. eapply keeps_bind; [apply keeps_get_FCB|]. intros b [Hb Hf].
  apply keeps_modify; [|done]. intros s []. split; try done. cbn. rewrite length_insert.
  split; [by apply ty_FT0|]. apply typed_update; [by apply ty_FT0|by apply Hg].
Qed.
Hint Resolve keeps_upd_FCB : keeps.
Lemma keeps_get_PTCB p : keeps KT (get_PTCB p) PTCB_typed.
Proof.
  unfold get_PTCB. intros s b s' Hs. unfold_monad.
  destruct (ptcbs s !! p) as [b'|] eqn:Hb; [|by intros [=]]. intros [= <- <-].
  split; [done|]. by eapply (ty_ptcbs _ _ Hs).
Qed.
Hint Resolve keeps_get_PTCB : keeps.
Lemma keeps_set_PTCB p b : PTCB_typed b → keeps KT (modify (λ s, set_ptcbs (<[p := b]> (ptcbs s)) s)) (λ _, True).
Proof.
  intros Hb. apply keeps_modify; [|done]. intros s []. split; try done. cbn.
  intros q bq. rewrite lookup_insert_Some. intros [[<- <-]|[_ Hq]]; eauto.
Qed.
Lemma keeps_upd_PTCB p g : (∀ b, PTCB_typed b → PTCB_typed (g b)) → keeps KT (upd_PTCB p g) (λ _, True).
Proof. intros Hg. unfold upd_PTCB. eapply keeps_bind; [apply keeps_get_PTCB|]. intros b Hb. by apply keeps_set_PTCB, Hg. Qed.
Lemma keeps_free_PTCB p : keeps KT (free_PTCB p) (λ _, True).
Proof.
  unfold free_PTCB. eapply keeps_bind; [apply keeps_get_PTCB|]. intros b Hb. apply keeps_modify; [|done].
  intros s []. split; try done. cbn. intros q bq [_ Hq]%lookup_delete_Some. eauto.
Qed.
Hint Resolve keeps_upd_PTCB keeps_set_PTCB keeps_free_PTCB : keeps.

Lemma keeps_CURPROC c : keeps KT (CURPROC c) (λ p, (p < n_proc z)%nat).
Proof.
  unfold CURPROC. keeps_go. match goal with H : TCB_typed _ _ |- _ => destruct H end. lia.
Qed.
Hint Resolve keeps_CURPROC : keeps.

Lemma Forall_take_byte n l : Forall c_byte l → Forall c_byte (take n l).
Proof. apply Forall_take. Qed.
Lemma keeps_malloc_copy n src : Forall c_byte src → keeps KT (malloc_copy n src) (λ _, True).
Proof.
  intros Hsrc. unfold malloc_copy. keeps_go; try done.
  match goal with H1 : KT ?a, H2 : KT ?b |- _ => destruct H1, H2 end. split; try done. cbn.
  intros k l. rewrite lookup_insert_Some. intros [[<- <-]|[_ Hk]]; [by apply Forall_take|eauto].
Qed.
Lemma keeps_free_buf b : keeps KT (free_buf b) (λ _, True).
Proof.
  unfold free_buf. keeps_go; try done. match goal with H1 : KT ?a, H2 : KT ?b |- _ => destruct H1, H2 end.
  split; try done. cbn. intros k l' [_ Hk]%lookup_delete_Some. eauto.
Qed.
Hint Resolve keeps_malloc_copy keeps_free_buf : keeps.

(** *** Waiting *)
Lemma keeps_waiting f : (∀ l, Forall (λ w, channel_typed z w.1) l → Forall (λ w, channel_typed z w.1) (f l)) →
  ∀ s, KT s → KT (set_waiting (f (waiting s)) s).
Proof. intros Hf s []. split; try done. by apply Hf. Qed.
Lemma keeps_kernel_wait ch c : channel_typed z ch → keeps KT (kernel_wait ch c) (λ _, True).
Proof.
  intros Hch. unfold kernel_wait. keeps_go; try done. apply (keeps_waiting (λ l, l ++ [(ch, _)])); [|done].
  intros l Hl. rewrite Forall_app, Forall_singleton. done.
Qed.
Lemma keeps_kernel_sleep c st : keeps KT (kernel_sleep c st) (λ _, True).
Proof. unfold kernel_sleep. keeps_go. Qed.
Lemma keeps_broadcast ch : keeps KT (kernel_broadcast ch) (λ _, True).
Proof.
  unfold kernel_broadcast. keeps_go; try done.
  match goal with H1 : KT ?a, H2 : KT ?b |- _ => destruct H1, H2 end. split; try done. by apply Forall_filtered.
Qed.
Hint Resolve keeps_kernel_wait keeps_kernel_sleep keeps_broadcast : keeps.

(** *** Fields *)
Lemma typed_pstate v b : PCB_typed z b → PCB_typed z (set_pstate v b).
Proof. by intros []. Qed.
Lemma typed_parent v b : pointer (n_proc z) v → PCB_typed z b → PCB_typed z (set_parent v b).
Proof. by intros ? []. Qed.
Lemma typed_exitval v b : c_int v → PCB_typed z b → PCB_typed z (set_exitval v b).
Proof. by intros ? []. Qed.
Lemma typed_thread_list v b : PCB_typed z b → PCB_typed z (set_thread_list v b).
Proof. by intros []. Qed.
Lemma typed_thread_count v b : c_uint v → PCB_typed z b → PCB_typed z (set_thread_count v b).
Proof. by intros ? []. Qed.
Lemma typed_main f l a b : c_int l → PCB_typed z b → PCB_typed z (set_main f l a b).
Proof. by intros ? []. Qed.
Lemma typed_children v b : Forall (λ p, (p < n_proc z)%nat) v → PCB_typed z b → PCB_typed z (set_children_list v b).
Proof. by intros ? []. Qed.
Lemma typed_exited v b : Forall (λ p, (p < n_proc z)%nat) v → PCB_typed z b → PCB_typed z (set_exited_list v b).
Proof. by intros ? []. Qed.
Lemma typed_FIDT i o b : pointer (n_file z) o → PCB_typed z b → PCB_typed z (set_FIDT (<[i := o]> (FIDT b)) b).
Proof.
  intros Ho []. split; try done. cbn. rewrite length_insert. destruct ty_FIDT0 as [Hl HF]. split; [done|].
  by apply Forall_insert.
Qed.
Lemma typed_refcount v b : c_uint v → FCB_typed z b → FCB_typed z (set_refcount v b).
Proof. by intros ? []. Qed.
Lemma typed_detached v b : PTCB_typed b → PTCB_typed (set_detached v b).
Proof. by intros []. Qed.
Lemma typed_ref_count v b : c_uint v → PTCB_typed b → PTCB_typed (set_ref_count v b).
Proof. by intros ? []. Qed.
Lemma typed_ptcb_exited v b : c_int v → PTCB_typed b → PTCB_typed (set_exited v b).
Proof. intros ? []. split; try done. by intros w [= <-]. Qed.
Hint Resolve typed_pstate typed_parent typed_exitval typed_thread_list typed_thread_count typed_main
  typed_children typed_exited typed_FIDT typed_refcount typed_detached typed_ref_count typed_ptcb_exited
  ty_children ty_exited ty_argl ty_parent : keeps.
Hint Resolve c_uint_0 : keeps.

(** *** Devices *)
Definition moved_typed (reads : bool) (obj : option nat) (t : transfer) : Prop :=
  match t with
  | Moved n bytes => c_int n ∧ Forall c_byte bytes
  | MustWait => reads = true → ∀ o, obj = Some o → (o < n_term z)%nat
  end.

Lemma keeps_serial_read_loop term n : ∀ got avail, Forall c_byte got → Forall c_byte avail → (term < n_term z)%nat →
  keeps KT (serial_read_loop term n got avail) (moved_typed true (Some term)).
Proof.
  induction n as [|n IH]; intros got avail Hg Ha Ht; cbn [serial_read_loop].
  - apply keeps_ret. split; [apply c_int_i32|done].
  - eapply keeps_bind; [apply keeps_on_machine, keeps_read_serial|]. intros [b|] Hb; cbv beta iota.
    + apply IH; [| by apply Forall_tail|done]. apply Forall_app. split; [done|]. apply Forall_singleton.
      specialize (Hb b eq_refl). destruct avail as [|a avail]; [done|]. simplify_eq/=. by apply Forall_cons in Ha as [? _].
    + case_decide; apply keeps_ret; [by intros _ o [= <-]|]. split; [apply c_int_i32|done].
Qed.
Lemma keeps_serial_read c term size avail : Forall c_byte avail → (term < n_term z)%nat →
  keeps KT (serial_read c term size avail) (moved_typed true (Some term)).
Proof.
  intros Ha Ht. unfold serial_read. eapply keeps_seq; [keeps_go|intros _].
  eapply keeps_bind; [by apply keeps_serial_read_loop|]. intros [n bytes|] Hm; keeps_go; done.
Qed.
Lemma keeps_serial_write_loop term buf : ∀ count room,
  keeps KT (serial_write_loop term buf count room) (moved_typed false (Some term)).
Proof.
  induction buf as [|b buf IH]; intros count room; cbn [serial_write_loop].
  - apply keeps_ret. split; [apply c_int_i32|constructor].
  - eapply keeps_bind; [apply keeps_on_machine, keeps_write_serial|]. intros [] _; cbv beta iota; [apply IH|].
    case_decide; apply keeps_ret; [done|]. split; [apply c_int_i32|constructor].
Qed.

Lemma keeps_dev_read c d obj size avail : Forall c_byte avail → stream_typed z obj (Some d) →
  keeps KT (dev_read c d obj size avail) (moved_typed true obj).
Proof.
  intros Ha Ho. destruct d; simpl in Ho |- *.
  - apply keeps_ret. split; [apply c_int_i32|apply Forall_zeros].
  - destruct Ho as (t & -> & Ht). eapply keeps_bind; [apply keeps_some|]. intros u [= <-].
    by apply keeps_serial_read.
  - apply keeps_ret. split; [apply c_int_i32|by apply Forall_take].
Qed.
Lemma keeps_dev_write d obj buf size room :
  keeps KT (dev_write d obj buf size room) (moved_typed false obj).
Proof.
  destruct d; simpl.
  - apply keeps_ret. split; [apply c_int_i32|constructor].
  - eapply keeps_bind; [apply keeps_some|]. intros t ->. apply keeps_serial_write_loop.
  - apply keeps_ret. split; [apply c_int_i32|constructor].
Qed.
Lemma keeps_device_no major : keeps KT (device_no major) (λ n, n = match major with DEV_NULL => 1%nat | DEV_SERIAL => n_term z end).
Proof.
  unfold device_no. eapply keeps_bind; [apply keeps_get|]. intros s Hs. rewrite (ty_devnum _ _ Hs).
  eapply keeps_weaken; [apply keeps_some|]. by destruct major; intros n [= <-].
Qed.
Hint Resolve keeps_device_no : keeps.
Lemma keeps_device_open major minor :
  keeps KT (device_open major minor) (λ r, ∀ o d, r = Some (o, d) → stream_typed z o (Some d)).
Proof.
  unfold device_open. eapply keeps_bind; [apply keeps_device_no|]. intros n ->.
  case_decide; [by apply keeps_ret|]. destruct major; cbn [dev_open].
  - apply (keeps_bind _ _ _ (λ o, o = None)); [by apply keeps_ret|]. intros o ->.
    apply keeps_ret. by intros o d [= <- <-].
  - unfold serial_open. eapply keeps_bind; [|intros o Ho; apply keeps_ret; intros o' d [= <- <-]; exact Ho].
    eapply keeps_bind; [apply keeps_on_machine, keeps_serial_ports|]. intros n ->.
    eapply keeps_bind; [apply keeps_assert|]. intros _ Ht%bool_decide_eq_true.
    apply keeps_ret. by eexists.
Qed.
Hint Resolve keeps_device_open : keeps.

(** *** Streams *)
Lemma keeps_FCB_incref f : keeps KT (FCB_incref f) (λ _, True).
Proof. unfold FCB_incref. keeps_go. Qed.
Lemma keeps_release_FCB f : (f < n_file z)%nat → keeps KT (release_FCB f) (λ _, True).
Proof.
  intros Hf. unfold release_FCB. keeps_go; try done. match goal with H : KT _ |- _ => destruct H end.
  split; try done. cbn. rewrite Forall_app, Forall_singleton. done.
Qed.
Hint Resolve keeps_FCB_incref keeps_release_FCB : keeps.
Lemma keeps_FCB_decref f : keeps KT (FCB_decref f) c_int.
Proof.
  unfold FCB_decref. keeps_go; [|apply c_int_const; lia].
  match goal with |- c_int (dev_close ?d) => destruct d end; apply c_int_const; unfold dev_close, nulldev_close, serial_close, stdio_close; lia.
Qed.
Hint Resolve keeps_FCB_decref : keeps.

Lemma keeps_acquire_FCB : keeps KT acquire_FCB (pointer (n_file z)).
Proof.
  unfold acquire_FCB. eapply keeps_bind; [apply keeps_get|]. intros s Hs.
  destruct (FCB_freelist s) as [|f l] eqn:Hl; [by apply keeps_ret|].
  pose proof (ty_FCB_free _ _ Hs) as Hf. rewrite Hl in Hf. apply Forall_cons in Hf as [Hf Hfl].
  keeps_go; auto with keeps. match goal with H : KT _ |- KT (_ _ ?s) => destruct H end. by split.
Qed.
Hint Resolve keeps_acquire_FCB : keeps.
Lemma keeps_acquire_FCBs num : keeps KT (acquire_FCBs num) (Forall (λ f, (f < n_file z)%nat)).
Proof.
  induction num as [|num IH]; cbn [acquire_FCBs]; [by apply keeps_ret|].
  eapply keeps_bind; [apply keeps_acquire_FCB|]. intros [f|] Hf; [|by apply keeps_ret].
  eapply keeps_bind; [apply IH|]. intros l Hl. apply keeps_ret. constructor; [by apply Hf|done].
Qed.
Hint Resolve keeps_acquire_FCBs : keeps.

(** The ids and the streams that [FCB_reserve] gives. *)
Definition reserved_typed (r : option (list nat * list nat)) : Prop :=
  ∀ fids fcbs, r = Some (fids, fcbs) →
    Forall (λ i, (i < MAX_FILEID)%nat) fids ∧ Forall (λ f, (f < n_file z)%nat) fcbs.
Lemma keeps_FCB_reserve c num : keeps KT (FCB_reserve c num) reserved_typed.
Proof.
  unfold FCB_reserve. eapply keeps_bind; [apply keeps_CURPROC|]. intros p Hp.
  eapply keeps_bind; [apply keeps_get_PCB|]. intros b [Hb _].
  destruct (find_fids num 0 (FIDT b)) as [fids|] eqn:Hfids; [|by apply keeps_ret].
  apply find_fids_range in Hfids as [Hr _]. rewrite (proj1 (ty_FIDT _ _ Hb)) in Hr.
  eapply keeps_bind; [apply keeps_acquire_FCBs|]. intros fcbs Hfcbs. case_decide.
  - eapply keeps_seq; [apply keeps_for_each|intros _; by apply keeps_ret].
    intros f Hf. rewrite list_elem_of_In, <-in_rev, <-list_elem_of_In in Hf. apply keeps_release_FCB. exact (Forall_in _ _ _ Hfcbs Hf).
  - eapply keeps_seq; [apply keeps_for_each|].
    + intros [i f] Hx. unfold connect. cbn. eapply keeps_seq; [|intros; apply keeps_FCB_incref].
      eapply keeps_True, keeps_upd_PCB. intros e He. apply typed_FIDT; [|done]. apply pointer_Some.
      apply elem_of_zip_r in Hx. exact (Forall_in _ _ _ Hfcbs Hx).
    + intros _. apply keeps_ret. intros fids' fcbs' [= <- <-]. split; [|done].
      eapply Forall_impl; [exact Hr|]. simpl. intros i. lia.
Qed.
Lemma keeps_FCB_unreserve c fids fcbs : Forall (λ f, (f < n_file z)%nat) fcbs →
  keeps KT (FCB_unreserve c fids fcbs) (λ _, True).
Proof.
  intros Hf. unfold FCB_unreserve. eapply keeps_bind; [apply keeps_CURPROC|]. intros p Hp.
  apply keeps_for_each. intros [i f] Hx%elem_of_zip_r. unfold disconnect. keeps_go. cbn.
  apply keeps_release_FCB. exact (Forall_in _ _ _ Hf Hx).
Qed.
Hint Resolve keeps_FCB_reserve keeps_FCB_unreserve : keeps.

Lemma keeps_get_fcb c fd : keeps KT (get_fcb c fd) (pointer (n_file z)).
Proof.
  unfold get_fcb. destruct (valid_fid fd); [|by apply keeps_ret].
  eapply keeps_bind; [apply keeps_CURPROC|]. intros p Hp.
  eapply keeps_bind; [apply keeps_get_PCB|]. intros b [Hb _].
  eapply keeps_weaken; [apply keeps_some|]. intros o Ho. destruct (ty_FIDT _ _ Hb) as [_ HF].
  by eapply Forall_lookup in Ho.
Qed.
Hint Resolve keeps_get_fcb : keeps.

(** *** Calls on streams *)
Definition io_typed (r : io_result) : Prop :=
  match r with IoDone n bytes => c_int n ∧ Forall c_byte bytes | IoBlocked f => (f < n_file z)%nat end.
Lemma keeps_io_end c f obj reading t : (f < n_file z)%nat → moved_typed reading obj t →
  keeps KT (io_end c f obj reading t) io_typed.
Proof.
  intros Hf Ht. destruct t as [n bytes|]; cbn [io_end].
  - eapply keeps_seq; [eapply keeps_True, keeps_FCB_decref|intros _; by apply keeps_ret].
  - eapply keeps_bind; [apply keeps_some|]. intros o ->.
    eapply keeps_seq; [|intros _; by apply keeps_ret]. apply keeps_when; [|done]. intros ->.
    apply keeps_kernel_wait. by apply (Ht eq_refl).
Qed.
Lemma keeps_read_device c f size avail : Forall c_byte avail → keeps KT (read_device c f size avail) io_typed.
Proof.
  intros Ha. unfold read_device. eapply keeps_bind; [apply keeps_get_FCB|]. intros b [Hb Hf].
  eapply keeps_bind; [apply keeps_some|]. intros d Hd.
  eapply keeps_bind; [apply keeps_dev_read; [done|]|intros t Ht; by apply keeps_io_end].
  rewrite <-Hd. apply Hb.
Qed.
Lemma keeps_write_device c f buf size room : keeps KT (write_device c f buf size room) io_typed.
Proof.
  unfold write_device. eapply keeps_bind; [apply keeps_get_FCB|]. intros b [Hb Hf].
  eapply keeps_bind; [apply keeps_some|]. intros d Hd.
  eapply keeps_bind; [apply keeps_dev_write|intros t Ht; by apply keeps_io_end].
Qed.
Hint Resolve keeps_read_device keeps_write_device : keeps.
Lemma failed_typed : io_typed (IoDone (-1) []).
Proof. split; [apply c_int_const; lia|constructor]. Qed.
Hint Resolve failed_typed : keeps.
Lemma keeps_Read c fd size avail : Forall c_byte avail → keeps KT (sys_Read c fd size avail) io_typed.
Proof. intros Ha. unfold sys_Read. keeps_go. apply failed_typed. Qed.
Lemma keeps_Write c fd buf size room : keeps KT (sys_Write c fd buf size room) io_typed.
Proof. unfold sys_Write. keeps_go. apply failed_typed. Qed.
Lemma keeps_Close c fd : keeps KT (sys_Close c fd) c_int.
Proof.
  unfold sys_Close. keeps_go.
  destruct (valid_fid fd); apply c_int_const; lia.
Qed.
Lemma keeps_Dup2 c oldfd newfd : keeps KT (sys_Dup2 c oldfd newfd) c_int.
Proof.
  unfold sys_Dup2. case_match; [apply keeps_ret, c_int_const; lia|].
  eapply keeps_bind; [apply keeps_get_fcb|]. intros old Hold.
  eapply keeps_bind; [apply keeps_get_fcb|]. intros new Hnew.
  destruct old as [f|]; [|apply keeps_ret, c_int_const; lia].
  eapply keeps_seq; [|intros _; apply keeps_ret, c_int_const; lia].
  by keeps_go.
Qed.
Lemma keeps_GetTerminalDevices : keeps KT sys_GetTerminalDevices c_int.
Proof.
  unfold sys_GetTerminalDevices. eapply keeps_bind; [apply keeps_device_no|]. intros n ->.
  apply keeps_ret, small_int. unfold MAX_TERMINALS, MAX_PROC in *. lia.
Qed.
Lemma keeps_open_stream c major minor : keeps KT (open_stream c major minor) c_int.
Proof.
  assert (c_int NOFILE) as Hno by (apply c_int_const; unfold NOFILE; lia).
  unfold open_stream. eapply keeps_bind; [apply keeps_FCB_reserve|]. intros r Hr.
  destruct r as [[[|fid [|]] [|f [|]]]|]; try by apply keeps_ret.
  destruct (Hr _ _ eq_refl) as [Hfid%Forall_inv Hf].
  eapply keeps_bind; [apply keeps_device_open|]. intros [[obj ops]|] Ho.
  - eapply keeps_seq; [apply keeps_upd_FCB|intros _; apply keeps_ret, small_int].
    + intros b [Hc _]. split; [done|]. by apply Ho.
    + cbv beta in Hfid. unfold MAX_FILEID, MAX_PROC in *. lia.
  - eapply keeps_seq; [by apply keeps_FCB_unreserve|intros _; by apply keeps_ret].
Qed.
Hint Resolve keeps_Read keeps_Write keeps_Close keeps_Dup2 keeps_GetTerminalDevices keeps_open_stream : keeps.

(** *** Processes *)
Lemma keeps_get_pcb pid : keeps KT (get_pcb pid) (pointer (n_proc z)).
Proof. unfold get_pcb. keeps_go. case_decide; auto with keeps. Qed.
Lemma pid_int p : (p < n_proc z)%nat → c_int (Z.of_nat p).
Proof. intros. apply small_int. lia. Qed.
Lemma get_pid_int o : pointer (n_proc z) o → c_int (get_pid o).
Proof. destruct o as [p|]; intros Ho; [by apply pid_int, Ho|apply NOPROC_int]. Qed.
Hint Resolve keeps_get_pcb pid_int NOPROC_int get_pid_int : keeps.

Lemma keeps_set_free o : pointer (n_proc z) o → keeps KT (modify (set_pcb_freelist o)) (λ _, True).
Proof. intros Ho. apply keeps_modify; [|done]. by intros s []. Qed.
Lemma keeps_count f : keeps KT (modify (λ s, set_process_count (u32 (f s)) s)) (λ _, True).
Proof. apply keeps_modify; [|done]. intros s []. split; try done. apply c_uint_u32. Qed.
Hint Resolve keeps_set_free keeps_count : keeps.
Lemma keeps_acquire_PCB : keeps KT acquire_PCB (pointer (n_proc z)).
Proof.
  unfold acquire_PCB. eapply keeps_bind; [apply keeps_get|]. intros s Hs.
  pose proof (ty_free _ _ Hs) as Hp. destruct (pcb_freelist s) as [p|]; [|by apply keeps_ret].
  keeps_go; auto with keeps.
Qed.
Lemma keeps_release_PCB p : keeps KT (release_PCB p) (λ _, True).
Proof.
  unfold release_PCB. eapply keeps_bind; [apply keeps_upd_PCB; auto with keeps|]. intros [] Hp.
  eapply keeps_bind; [apply keeps_get|]. intros s Hs. pose proof (ty_free _ _ Hs) as Hq.
  keeps_go; auto with keeps.
Qed.
Hint Resolve keeps_acquire_PCB keeps_release_PCB : keeps.

Lemma keeps_inherit_fid p q i : keeps KT (inherit_fid p q i) (λ _, True).
Proof.
  unfold inherit_fid. eapply keeps_bind; [apply keeps_get_PCB|]. intros b [Hb _].
  eapply keeps_bind; [apply keeps_some|]. intros o Ho.
  assert (pointer (n_file z) o) as Hp by (destruct (ty_FIDT _ _ Hb) as [_ HF]; by eapply Forall_lookup in Ho).
  by keeps_go.
Qed.
Hint Resolve keeps_inherit_fid : keeps.
Lemma keeps_inherit c q : (q < n_proc z)%nat → keeps KT (inherit c q) (λ _, True).
Proof.
  intros Hq. unfold inherit. eapply keeps_bind; [apply keeps_CURPROC|]. intros p Hp.
  keeps_go; auto with keeps. all: eauto with keeps.
Qed.
Lemma keeps_copy_args argl args : user_args_typed args → keeps KT (copy_args argl args) (λ _, True).
Proof. unfold copy_args. destruct args as [[ptr bytes]|]; cbn; intros Ha; by keeps_go. Qed.
Hint Resolve keeps_inherit keeps_copy_args : keeps.
Lemma keeps_new_thread q func task argl args : (q < n_proc z)%nat → c_int argl →
  keeps KT (Proc.new_thread q func task argl args) (λ _, True).
Proof.
  intros Hq Ha. unfold Proc.new_thread. eapply keeps_bind; [apply keeps_get|]. intros s0 _. cbv zeta.
  eapply keeps_seq; [apply keeps_modify; [by intros s []|done]|intros _].
  eapply keeps_seq; [eapply keeps_True, keeps_upd_PCB; auto with keeps|intros _].
  eapply keeps_seq; [eapply keeps_True, keeps_upd_PCB; auto with keeps|intros _].
  eapply keeps_seq; [by apply keeps_on_ksched, keeps_spawn|intros t].
  eapply keeps_seq; [apply keeps_set_PTCB; by split|intros _].
  keeps_go; auto with keeps.
Qed.
Hint Resolve keeps_new_thread : keeps.
Lemma keeps_Exec c task argl args : c_int argl → user_args_typed args → keeps KT (sys_Exec c task argl args) c_int.
Proof.
  intros Hargl Hargs. unfold sys_Exec. eapply keeps_bind; [apply keeps_acquire_PCB|]. intros [q|] Hq.
  - pose proof (Hq q eq_refl) as Hq'. keeps_go; try done. all: auto with keeps.
  - apply keeps_ret. by apply get_pid_int.
Qed.
Hint Resolve keeps_Exec : keeps.
Lemma keeps_GetPid c : keeps KT (sys_GetPid c) c_int.
Proof. unfold sys_GetPid. keeps_go. by apply pid_int. Qed.
Lemma keeps_GetPPid c : keeps KT (sys_GetPPid c) c_int.
Proof. unfold sys_GetPPid. keeps_go. auto with keeps. Qed.
Hint Resolve keeps_GetPid keeps_GetPPid : keeps.

(** *** Waiting for children *)
Lemma keeps_map_PT f : (∀ b, PCB_typed z b → PCB_typed z (f b)) →
  keeps KT (modify (λ s, set_PT (f <$> PT s) s)) (λ _, True).
Proof.
  intros Hf. apply keeps_modify; [|done]. intros s []. split; try done. cbn. rewrite length_fmap.
  destruct ty_PT0 as [Hl H]. split; [done|]. intros p b. rewrite list_lookup_fmap_Some. intros (e & -> & He).
  by eapply Hf, H.
Qed.
Lemma keeps_unlink_child p : keeps KT (unlink_child p) (λ _, True).
Proof. apply keeps_map_PT. intros b Hb. apply typed_children; [|done]. apply Forall_remove_node, Hb. Qed.
Lemma keeps_unlink_exited p : keeps KT (unlink_exited p) (λ _, True).
Proof. apply keeps_map_PT. intros b Hb. apply typed_exited; [|done]. apply Forall_remove_node, Hb. Qed.
Lemma keeps_unlink_thread p : keeps KT (unlink_thread p) (λ _, True).
Proof. apply keeps_map_PT. intros b Hb. by apply typed_thread_list. Qed.
Hint Resolve keeps_unlink_child keeps_unlink_exited keeps_unlink_thread ty_exitval : keeps.
Lemma keeps_cleanup p : keeps KT (cleanup_zombie p) (λ v, c_int v ∧ (p < n_proc z)%nat).
Proof. unfold cleanup_zombie. keeps_go. split; [by eapply ty_exitval|done]. Qed.
Hint Resolve keeps_cleanup : keeps.

Definition child_typed (r : wait_result) : Prop :=
  match r with
  | Reaped pid status => c_int pid ∧ ∀ v, status = Some v → c_int v
  | Waiting w => point_typed z w
  end.
Lemma reaped_typed q v : (q < n_proc z)%nat → c_int v → child_typed (Reaped (get_pid (Some q)) (Some v)).
Proof. intros Hq Hv. split; [by apply pid_int|by intros w [= <-]]. Qed.
Lemma no_child_typed : child_typed (Reaped NOPROC None).
Proof. split; [apply NOPROC_int|done]. Qed.
Hint Resolve reaped_typed no_child_typed : keeps.
Lemma keeps_wait_specific c p q : (p < n_proc z)%nat → keeps KT (wait_specific_loop c p q) child_typed.
Proof. intros Hp. unfold wait_specific_loop. keeps_go; auto with keeps. done. Qed.
Lemma keeps_wait_any c p : (p < n_proc z)%nat → keeps KT (wait_any_loop c p) child_typed.
Proof. intros Hp. unfold wait_any_loop. keeps_go; auto with keeps. Qed.
Hint Resolve keeps_wait_specific keeps_wait_any : keeps.
Lemma keeps_WaitChild c pid : keeps KT (sys_WaitChild c pid) child_typed.
Proof. unfold sys_WaitChild, wait_for_specific_child, wait_for_any_child. keeps_go; auto with keeps. Qed.
Lemma keeps_wait_resume c w : point_typed z w → keeps KT (wait_resume c w) child_typed.
Proof. destruct w; cbn; intros Hw; keeps_go. apply keeps_wait_specific, Hw. Qed.
Hint Resolve keeps_WaitChild keeps_wait_resume : keeps.

(** *** Threads *)
Lemma keeps_CURPTCB c : keeps KT (CURPTCB c) (λ _, True).
Proof. unfold CURPTCB. keeps_go. Qed.
Hint Resolve keeps_CURPTCB : keeps.
Lemma keeps_CreateThread c task argl args : c_int argl → keeps KT (sys_CreateThread c task argl args) (λ _, True).
Proof. intros Ha. unfold sys_CreateThread. keeps_go; done. Qed.
Lemma keeps_join_end c p : keeps KT (join_end c p) join_typed.
Proof.
  unfold join_end. eapply keeps_bind; [apply keeps_get_PTCB|]. intros b Hb.
  eapply keeps_seq; [apply keeps_when; [|done]|intros _].
  - intros Hp%bool_decide_eq_true. apply keeps_upd_PTCB. intros b' Hb'. by apply typed_unref.
  - keeps_go; auto with keeps. apply joined_typed. lia.
Qed.
Hint Resolve keeps_join_end : keeps.
Lemma exit_cv_typed p : channel_typed z (ExitCv p).
Proof. done. Qed.
Hint Resolve exit_cv_typed : keeps.
Lemma keeps_join_loop c p : keeps KT (join_loop c p) join_typed.
Proof. unfold join_loop. keeps_go. done. Qed.
Hint Resolve keeps_join_loop : keeps.
Lemma keeps_ThreadJoin c p v : (∀ n, v = Some n → c_int n) → keeps KT (sys_ThreadJoin c p v) join_typed.
Proof. intros Hv. unfold sys_ThreadJoin. keeps_go; [apply joined_typed; lia|by apply Hv]. Qed.
Lemma keeps_ThreadDetach p : keeps KT (sys_ThreadDetach p) c_int.
Proof. unfold sys_ThreadDetach. keeps_go; apply c_int_const; lia. Qed.

(** *** The end of a process *)
Lemma keeps_exit_ptcb p v : c_int v → keeps KT (exit_ptcb p v) (λ _, True).
Proof. intros Hv. unfold exit_ptcb. keeps_go; auto with keeps. Qed.
Lemma keeps_free_args p : keeps KT (free_args p) (λ _, True).
Proof. unfold free_args. keeps_go; auto with keeps. Qed.
Lemma keeps_close_fid p i : keeps KT (close_fid p i) (λ _, True).
Proof. unfold close_fid. keeps_go; auto with keeps. Qed.
Lemma keeps_reparent fuel p i : pointer (n_proc z) i → keeps KT (reparent fuel p i) (λ _, True).
Proof.
  intros Hi. induction fuel as [|fuel IH]; cbn [reparent]; [apply keeps_raise|].
  eapply keeps_bind; [apply keeps_get_PCB|]. intros b [Hb _]. pose proof (ty_children _ _ Hb) as Hc.
  destruct (children_list b) as [|child l]; [by apply keeps_ret|]. apply Forall_cons in Hc as [Hc Hl].
  keeps_go; auto with keeps.
Qed.
Lemma keeps_append_exited p i : pointer (n_proc z) i → keeps KT (append_exited p i) (λ _, True).
Proof.
  intros Hi. unfold append_exited. eapply keeps_bind; [apply keeps_get_PCB|]. intros b [Hb _].
  pose proof (ty_exited _ _ Hb) as He. destruct (exited_list b) as [|q l]; [by apply keeps_ret|].
  eapply keeps_bind; [apply keeps_some|]. intros j ->.
  eapply keeps_seq; [eapply keeps_True, keeps_upd_PCB|intros _; keeps_go; auto with keeps].
  intros e He'. apply typed_exited; [|done]. apply Forall_app. split; [apply He'|done].
Qed.
Lemma keeps_tell_parent p : keeps KT (tell_parent p) (λ _, True).
Proof.
  unfold tell_parent. eapply keeps_bind; [apply keeps_get_PCB|]. intros b [Hb Hp].
  destruct (parent b) as [q|]; [|by apply keeps_ret]. by keeps_go.
Qed.
Hint Resolve keeps_exit_ptcb keeps_free_args keeps_close_fid keeps_reparent keeps_append_exited keeps_tell_parent : keeps.
Lemma keeps_exit_process p v : c_int v → keeps KT (exit_process p v) (λ _, True).
Proof. intros Hv. unfold exit_process. keeps_go; auto with keeps. Qed.
Hint Resolve keeps_exit_process : keeps.
Lemma keeps_ThreadExit c v : c_int v → keeps KT (sys_ThreadExit c v) (λ _, True).
Proof. intros Hv. unfold sys_ThreadExit. keeps_go; auto with keeps. Qed.
Hint Resolve keeps_ThreadExit : keeps.

Definition exit_typed (v : Z) (r : exit_result) : Prop :=
  match r with Ended => True | ExitWaits w => point_typed z w end.
Lemma keeps_after_wait c loop v r : c_int v → child_typed r → keeps KT loop (exit_typed v) →
  keeps KT (after_wait c loop v r) (exit_typed v).
Proof. intros Hv Hr Hl. unfold after_wait. destruct r; keeps_go; done. Qed.
Lemma keeps_exit_loop fuel c v : c_int v → keeps KT (exit_loop fuel c v) (exit_typed v).
Proof.
  intros Hv. induction fuel as [|fuel IH]; cbn [exit_loop]; [apply keeps_raise|].
  eapply keeps_bind; [apply keeps_WaitChild|]. intros r Hr. by apply keeps_after_wait.
Qed.
Lemma keeps_exit_turns c : keeps KT (exit_turns c) (λ _, True).
Proof. unfold exit_turns. keeps_go; done. Qed.
Hint Resolve keeps_exit_turns keeps_exit_loop : keeps.
Lemma keeps_Exit c v : c_int v → keeps KT (sys_Exit c v) (exit_typed v).
Proof. intros Hv. unfold sys_Exit. keeps_go; done. Qed.
Lemma keeps_exit_resume c w v : c_int v → point_typed z w → keeps KT (exit_resume c w v) (exit_typed v).
Proof.
  intros Hv Hw. unfold exit_resume. eapply keeps_seq; [apply keeps_exit_turns|intros fuel].
  eapply keeps_bind; [by apply keeps_wait_resume|]. intros r Hr. apply keeps_after_wait; auto with keeps.
Qed.

(** ** Every call *)
Lemma keeps_ptcb_of null tid : keeps KT (ptcb_of null tid) (λ _, True).
Proof. unfold ptcb_of. keeps_go; done. Qed.
Hint Resolve keeps_ptcb_of : keeps.

Lemma stubs_typed v : v = -1 → ret_typed z (Returns v).
Proof. intros ->. apply c_int_const. lia. Qed.

Lemma keeps_call c h call : host_typed h → call_typed call → keeps KT (sys_call c h call) (ret_typed z).
Proof.
  intros Hh Hcall. unfold sys_call. destruct call; cbn in Hcall; try (by apply keeps_ret, stubs_typed).
  - eapply keeps_fmap; [apply keeps_Exec; apply Hcall|done].
  - eapply keeps_fmap; [by apply keeps_Exit|by intros [|w] Hw].
  - eapply keeps_fmap; [apply keeps_GetPid|done].
  - eapply keeps_fmap; [apply keeps_GetPPid|done].
  - eapply keeps_fmap; [apply keeps_WaitChild|by intros [|w] Hw].
  - eapply keeps_fmap; [by apply keeps_CreateThread|done].
  - unfold sys_ThreadSelf. eapply (keeps_fmap _ _ _ (λ _, True)); [keeps_go; done|done].
  - eapply keeps_seq; [apply keeps_ptcb_of|intros p].
    eapply keeps_fmap; [apply keeps_ThreadJoin|by intros [v|q] Hv]. by intros v ->.
  - eapply keeps_seq; [apply keeps_ptcb_of|intros p]. eapply keeps_fmap; [apply keeps_ThreadDetach|done].
  - eapply keeps_seq; [by apply keeps_ThreadExit|intros _]. by apply keeps_ret.
  - eapply keeps_fmap; [apply keeps_GetTerminalDevices|done].
  - eapply keeps_fmap; [apply keeps_open_stream|done].
  - eapply keeps_fmap; [apply keeps_open_stream|done].
  - eapply keeps_fmap; [by apply keeps_Read|]. intros [n bytes|f] Hr; cbn in *; tauto.
  - eapply keeps_fmap; [by apply keeps_Write|]. intros [n bytes|f] Hr; cbn in *; tauto.
  - eapply keeps_fmap; [apply keeps_Close|done].
  - eapply keeps_fmap; [apply keeps_Dup2|done].
Qed.

Lemma keeps_resume c h w : host_typed h → wait_typed z w → keeps KT (sys_resume c h w) (ret_typed z).
Proof.
  intros Hh Hw. destruct w as [w|w v|p|f size|f buf size]; cbn in Hw |- *.
  - eapply keeps_fmap; [by apply keeps_wait_resume|by intros [|w'] H].
  - eapply keeps_fmap; [apply keeps_exit_resume; apply Hw|]. intros [|w1] H; cbn in *; tauto.
  - eapply keeps_fmap; [apply keeps_join_loop|by intros [|q] H].
  - eapply keeps_fmap; [by apply keeps_read_device|]. intros [n bytes|g] Hr; cbn in *; tauto.
  - eapply keeps_fmap; [by apply keeps_write_device|]. intros [n bytes|g] Hr; cbn in *; tauto.
Qed.
End preservation.

(** C2 (type). Every system call that returns or waits, from its start and from
    its waits on, keeps the types of the kernel's data, in every state that is typed,
    whatever its arguments are and in whatever way it is used: integers stay in the
    range of their fields, priorities have a queue, the numbers of processes, streams,
    terminals and cores and the file ids point into their tables, the object of a
    stream is one that its functions work on, and argument buffers hold bytes.  What
    it returns has the type that the call declares, and what it waits for is typed.
    Pointers to threads and to their PTCBs are not part of the types: they can dangle
    ([ThreadProps.PTCB_lifetime]). *)
Theorem syscalls_typed z c h s :
  Z.of_nat (n_proc z) ≤ MAX_PROC → (n_term z ≤ MAX_TERMINALS)%nat → host_typed h → kernel_typed z s →
  (∀ call r s', call_typed call → sys_call c h call s = Ok (r, s') → kernel_typed z s' ∧ ret_typed z r) ∧
  (∀ w r s', wait_typed z w → sys_resume c h w s = Ok (r, s') → kernel_typed z s' ∧ ret_typed z r).
Proof.
  intros Hp Ht Hh Hs. split.
  - intros call r s' Hc Hr. by apply (keeps_call z Hp Ht c h call Hh Hc s).
  - intros w r s' Hw Hr. by apply (keeps_resume z Hp Ht c h w Hh Hw s).
Qed.

(** Core 0 runs thread 0 of process 1, which has no stream yet. *)
Definition typed_block (p : option nat) : PCB :=
  MkPCB ALIVE p 0 [] 1 None 0 None [] [] (replicate MAX_FILEID None).
Definition typed_demo : kernel :=
  MkKernel (MkSched {[Thr 0 := MkTCB 1 0 None NORMAL_THREAD RUNNING CTX_DIRTY None NO_TIMEOUT QUANTUM QUANTUM SCHED_IDLE SCHED_IDLE]}
      [[]; []; []] [] {[0%nat := MkCCB (Thr 0) None true]} 1 0 1%nat (Machine [] 0%nat [] 0 [] 0%nat true 0))
    [typed_block None; typed_block None] None 2 ∅ 0%nat ∅ 0%nat [MkFCB 7 None None; MkFCB 8 None None] [0%nat; 1%nat] [1%nat; 0%nat] [].
Definition demo_sizes : sizes := Sizes 2 2 0 0.

Lemma typed_demo_ok : kernel_typed demo_sizes typed_demo.
Proof.
  split; cbn.
  - split; cbn; try done.
    + intros t k [<- <-]%lookup_singleton_Some. split; cbn; unfold c_u64, NO_TIMEOUT, QUANTUM, SCHED_MAX_LEVEL; lia.
    + split; cbn; [done| |done]. by intros c ?%elem_of_nil.
  - split; [done|]. assert (PCB_typed demo_sizes (typed_block None)) as Hb
      by (split; cbn; try done; split; [done|repeat constructor; by apply pointer_None]).
    by intros [|[|p]] b [= <-].
  - done.
  - done.
  - done.
  - done.
  - split; [done|]. by intros [|[|f]] b [= <-].
  - repeat constructor.
  - done.
  - constructor.
Qed.

Lemma syscalls_typed_witness :
  ∃ r s', sys_call 0 (Host [] 0) SYS_OpenNull typed_demo = Ok (r, s') ∧ kernel_typed demo_sizes s' ∧ r = Returns 0.
Proof.
  destruct (sys_call 0 (Host [] 0) SYS_OpenNull typed_demo) as [[r s']|] eqn:Hr; [|vm_compute in Hr; discriminate].
  exists r, s'. split; [reflexivity|]. split.
  - apply (proj1 (syscalls_typed demo_sizes 0 (Host [] 0) typed_demo ltac:(vm_compute; discriminate)
      ltac:(vm_compute; lia) ltac:(constructor) typed_demo_ok) SYS_OpenNull r s' I Hr).
  - vm_compute in Hr. by injection Hr as <- <-.
Defined.
