(* ===== verification/Frames.v ===== *)
(** * What system calls leave of the threads

    The threads of the system, as the calls of processes see them: which TCBs are
    alive, of which process and with which block they are, the blocks, and the list
    and the count of the threads of each process.  Calls on streams and on processes
    leave all of it, so that only the calls on threads and [Exec] are left to look
    at ([System.v]). *)
From S2P Require Import Prelude Hoare Bios Sched Kernel Devices Streams Proc Threads Syscalls.
Local Open Scope Z_scope.

(** ** The view *)

(** The owner and the block of a thread that has not exited. *)
Definition info (k : TCB) : option (Z * option ptcb_ptr) :=
  if decide (tcb_state k = EXITED) then None else Some (owner_pcb k, tcb_ptcb k).
Definition threads_of (v : sched) : gmap tid (Z * option ptcb_ptr) := omap info (tcbs v).

Definition lists_of (pt : list PCB) : list (list ptcb_ptr * Z) :=
  (λ b, (thread_list b, thread_count b)) <$> pt.

Record tview := TView {
  tv_threads : gmap tid (Z * option ptcb_ptr);
  tv_ptcbs : gmap ptcb_ptr PTCB;
  tv_lists : list (list ptcb_ptr * Z);
  tv_next : ptcb_ptr }.
Definition view (s : kernel) : tview :=
  TView (threads_of (ksched s)) (ptcbs s) (lists_of (PT s)) (next_ptcb s).

Lemma threads_of_lookup v t : threads_of v !! t = tcbs v !! t ≫= info.
Proof. apply lookup_omap. Qed.
Lemma threads_of_insert v t k : threads_of (set_tcbs (<[t := k]> (tcbs v)) v) =
  match info k with Some i => <[t := i]> (threads_of v) | None => delete t (threads_of v) end.
Proof.
  unfold threads_of. cbn. destruct (info k) as [i|] eqn:Hi; [by apply omap_insert_Some|by apply omap_insert_None].
Qed.
Lemma threads_of_same v t k k' :
  tcbs v !! t = Some k → info k' = info k → threads_of (set_tcbs (<[t := k']> (tcbs v)) v) = threads_of v.
Proof.
  intros Hk Hi. apply map_eq. intros u. rewrite !threads_of_lookup. cbn.
  destruct (decide (u = t)) as [->|Hu]; [by rewrite lookup_insert_eq, Hk|by rewrite lookup_insert_ne].
Qed.
Lemma lists_of_insert pt p b b' : pt !! p = Some b →
  thread_list b' = thread_list b → thread_count b' = thread_count b → lists_of (<[p := b']> pt) = lists_of pt.
Proof.
  intros Hb Hl Hc. unfold lists_of. rewrite list_fmap_insert, Hl, Hc. apply list_insert_id.
  by rewrite list_lookup_fmap, Hb.
Qed.

(** ** The scheduler *)

(** The threads are [L], and core [c] runs [self]. *)
Definition threads_are (L : gmap tid (Z * option ptcb_ptr)) (c : nat) (self : tid) (v : sched) : Prop :=
  threads_of v = L ∧ ∃ b, cctx v !! c = Some b ∧ current_thread b = self.

Section sched_frames.
Context (L : gmap tid (Z * option ptcb_ptr)) (c : nat) (self : tid).
#[local] Set Default Proof Using "Type".
Abbreviation LT := (threads_are L c self).

Lemma fr_on_vm {A} (m : BM A) : keeps LT (on_vm m) (λ _, True).
Proof. apply (keeps_zoom _ (λ _, True)); [by intros v a v' _ _|done|done]. Qed.
Hint Resolve fr_on_vm : keeps.
Lemma fr_get_tcb t : keeps LT (get_tcb t) (λ k, L !! t = info k).
Proof.
  unfold get_tcb. intros v k v' Hv. unfold_monad.
  destruct (tcbs v !! t) as [k'|] eqn:Hk; [|by intros [=]]. intros [= <- <-].
  split; [done|]. destruct Hv as [<- _]. by rewrite threads_of_lookup, Hk.
Qed.
Hint Resolve fr_get_tcb : keeps.
Lemma fr_upd_tcb t f : (∀ k, L !! t = info k → info (f k) = info k) → keeps LT (upd_tcb t f) (λ _, True).
Proof.
  intros Hf v [] v' Hv (k & v1 & Hr & [= <-])%bind_Ok. revert Hr. unfold get_tcb. unfold_monad.
  destruct (tcbs v !! t) as [k'|] eqn:Hk; [|by intros [=]]. intros [= -> ->]. split; [|done].
  destruct Hv as [HL Hc]. split; [|done]. rewrite (threads_of_same _ _ k); [done|done|]. apply Hf.
  by rewrite <-HL, threads_of_lookup, Hk.
Qed.
Lemma fr_get_ccb d : keeps LT (get_ccb d) (λ b, d = c → current_thread b = self).
Proof.
  unfold get_ccb. intros v b v' Hv. unfold_monad.
  destruct (cctx v !! d) as [b'|] eqn:Hb; [|by intros [=]]. intros [= <- <-].
  split; [done|]. intros ->. destruct Hv as [_ (b & Hb' & Hs)]. congruence.
Qed.
Hint Resolve fr_get_ccb : keeps.
Lemma fr_preemption d b : keeps LT (set_core_preemption d b) (λ _, True).
Proof.
  unfold set_core_preemption, upd_ccb. eapply keeps_bind; [apply fr_get_ccb|]. intros k0 _.
  eapply keeps_seq; [|intros _; by keeps_go].
  eapply keeps_bind; [apply fr_get_ccb|]. intros k Hk. apply keeps_modify; [|done].
  intros v [HL (e & He & Hs)]. split; [done|]. cbn. destruct (decide (d = c)) as [->|Hd].
  - eexists. split; [apply lookup_insert_eq|]. by apply Hk.
  - exists e. by rewrite lookup_insert_ne.
Qed.
Lemma fr_CURTHREAD : keeps LT (CURTHREAD c) (λ t, t = self).
Proof. unfold CURTHREAD. eapply keeps_bind; [apply fr_get_ccb|]. intros b Hb. apply keeps_ret. by apply Hb. Qed.
Hint Resolve fr_CURTHREAD fr_preemption : keeps.
Lemma fr_queue_add t : keeps LT (sched_queue_add t) (λ _, True).
Proof. unfold sched_queue_add. by keeps_go. Qed.
Hint Resolve fr_queue_add : keeps.
Lemma info_alive st k i : Some i = info k → st ≠ EXITED → info (set_state st k) = info k.
Proof. unfold info. intros H Hst. repeat case_decide; done. Qed.
Lemma fr_make_ready t : keeps LT (sched_make_ready t) (λ _, True).
Proof.
  unfold sched_make_ready. eapply keeps_bind; [apply fr_get_tcb|]. intros k Hk. cbv beta in Hk.
  eapply keeps_bind; [apply keeps_assert|]. intros _ Hst%bool_decide_eq_true.
  assert (info k = Some (owner_pcb k, tcb_ptcb k)) as Ht
    by (unfold info; rewrite decide_False; [done|by destruct Hst as [->| ->]]).
  assert (∀ f, (∀ k', f k' = set_state READY k' ∨ f k' = set_wakeup_time NO_TIMEOUT k') → keeps LT (upd_tcb t f) (λ _, True)) as Hu.
  { intros f Hf. apply fr_upd_tcb. intros k' Hk'. rewrite Hk, Ht in Hk'.
    destruct (Hf k') as [->| ->]; [by eapply info_alive|done]. }
  keeps_go; try done; apply Hu; auto.
Qed.
Hint Resolve fr_make_ready : keeps.
Lemma fr_wakeup t : keeps LT (wakeup t) (λ _, True).
Proof. unfold wakeup. by keeps_go. Qed.
Lemma fr_sleep_mark : is_Some (L !! self) → keeps LT (sleep_mark c STOPPED NO_TIMEOUT) (λ _, True).
Proof.
  intros [i Hi]. unfold sleep_mark. eapply keeps_seq; [eapply keeps_True, keeps_assert|intros _].
  eapply keeps_bind; [apply fr_CURTHREAD|]. intros t ->. eapply keeps_seq; [apply fr_preemption|intros _].
  eapply keeps_seq; [|intros _; unfold sched_register_timeout; rewrite decide_True by done; by keeps_go].
  apply fr_upd_tcb. intros k Hk. rewrite Hi in Hk. by eapply info_alive.
Qed.
End sched_frames.

(** ** The kernel *)
Record view_is (V : tview) (c : nat) (self : tid) (s : kernel) : Prop := ViewIs {
  vi_threads : threads_are (tv_threads V) c self (ksched s);
  vi_ptcbs : ptcbs s = tv_ptcbs V;
  vi_lists : lists_of (PT s) = tv_lists V;
  vi_next : next_ptcb s = tv_next V }.

Lemma view_is_view V c self s : view_is V c self s → view s = V.
Proof. intros [[H1 _] H2 H3 H4]. destruct V. unfold view. by f_equal. Qed.
Lemma view_is_self s c self p : runs_in s c self p → view_is (view s) c self s.
Proof. intros (b & k & Hb & Hs & _). split; [|done..]. split; [done|]. by exists b. Qed.

Section frames.
Context (V : tview) (c : nat) (self : tid) (Hself : is_Some (tv_threads V !! self)).
#[local] Set Default Proof Using "Type".
Abbreviation VT := (view_is V c self).
Abbreviation LT := (threads_are (tv_threads V) c self).

(** Fields outside of the view. *)
Ltac fr_done := try done; try (match goal with H : view_is _ _ _ ?s |- view_is _ _ _ (_ ?s) => by destruct H end).

Lemma fr_on_ksched {A} (m : SM A) Q : keeps LT m Q → keeps VT (on_ksched m) Q.
Proof. intros Hm. apply (keeps_zoom _ LT); [done|by intros s []|]. intros s v [] Hv. by split. Qed.
Hint Resolve fr_on_ksched fr_on_vm fr_get_tcb fr_get_ccb fr_CURTHREAD fr_preemption fr_wakeup fr_sleep_mark : keeps.
Lemma fr_on_machine {A} (m : BM A) : keeps VT (on_machine m) (λ _, True).
Proof. apply fr_on_ksched, fr_on_vm. Qed.
Hint Resolve fr_on_machine : keeps.

Lemma fr_get_PCB p : keeps VT (get_PCB p) (λ b, tv_lists V !! p = Some (thread_list b, thread_count b)).
Proof.
  unfold get_PCB. intros s b s' Hs. unfold_monad. destruct (PT s !! p) as [b'|] eqn:Hb; [|by intros [=]].
  intros [= <- <-]. split; [done|]. rewrite <-(vi_lists _ _ _ _ Hs). unfold lists_of. by rewrite list_lookup_fmap, Hb.
Qed.
Hint Resolve fr_get_PCB : keeps.
Lemma fr_upd_PCB p f : (∀ b, thread_list (f b) = thread_list b ∧ thread_count (f b) = thread_count b) →
  keeps VT (upd_PCB p f) (λ _, True).
Proof.
  intros Hf s [] s' Hs (b & s1 & Hr & [= <-])%bind_Ok. revert Hr. unfold get_PCB. unfold_monad.
  destruct (PT s !! p) as [b'|] eqn:Hb; [|by intros [=]]. intros [= -> ->]. split; [|done].
  destruct Hs as [H1 H2 H3 H4]. split; try done. cbn. destruct (Hf b) as [Hl Hc]. by erewrite lists_of_insert.
Qed.
Lemma fr_get_FCB f : keeps VT (get_FCB f) (λ _, True).
Proof. unfold get_FCB. keeps_go; fr_done. Qed.
Hint Resolve fr_get_FCB : keeps.
Lemma fr_upd_FCB f g : keeps VT (upd_FCB f g) (λ _, True).
Proof. unfold upd_FCB. keeps_go; fr_done. Qed.
Hint Resolve fr_upd_FCB : keeps.
Lemma fr_get_PTCB p : keeps VT (get_PTCB p) (λ b, tv_ptcbs V !! p = Some b).
Proof.
  unfold get_PTCB. intros s b s' Hs. unfold_monad. destruct (ptcbs s !! p) as [b'|] eqn:Hb; [|by intros [=]].
  intros [= <- <-]. split; [done|]. by rewrite <-(vi_ptcbs _ _ _ _ Hs).
Qed.
Hint Resolve fr_get_PTCB : keeps.
Lemma fr_map_PT f : (∀ b, thread_list (f b) = thread_list b ∧ thread_count (f b) = thread_count b) →
  keeps VT (modify (λ s, set_PT (f <$> PT s) s)) (λ _, True).
Proof.
  intros Hf. apply keeps_modify; [|done]. intros s [H1 H2 H3 H4]. split; try done. cbn. rewrite <-H3.
  unfold lists_of. rewrite <-list_fmap_compose. apply list_fmap_ext. intros i b _. cbn. destruct (Hf b) as [-> ->]. done.
Qed.
Hint Extern 1 (keeps _ (upd_PCB _ _) _) => apply fr_upd_PCB; intros; split; reflexivity : keeps.
Lemma fr_CURPROC : keeps VT (CURPROC c) (λ _, True).
Proof. unfold CURPROC. keeps_go; fr_done. Qed.
Hint Resolve fr_CURPROC : keeps.

(** *** Waiting *)
Lemma fr_kernel_wait ch : keeps VT (kernel_wait ch c) (λ _, True).
Proof using Hself. unfold kernel_wait. keeps_go; fr_done. Qed.
Lemma fr_broadcast ch : keeps VT (kernel_broadcast ch) (λ _, True).
Proof. unfold kernel_broadcast. keeps_go; fr_done. Qed.
Hint Resolve fr_kernel_wait fr_broadcast : keeps.

(** *** Streams *)
Lemma fr_acquire_FCB : keeps VT acquire_FCB (λ _, True).
Proof. unfold acquire_FCB. keeps_go; fr_done. Qed.
Lemma fr_release_FCB f : keeps VT (release_FCB f) (λ _, True).
Proof. unfold release_FCB. keeps_go; fr_done. Qed.
Lemma fr_FCB_incref f : keeps VT (FCB_incref f) (λ _, True).
Proof. unfold FCB_incref. keeps_go; fr_done. Qed.
Hint Resolve fr_acquire_FCB fr_release_FCB fr_FCB_incref : keeps.
Lemma fr_FCB_decref f : keeps VT (FCB_decref f) (λ _, True).
Proof. unfold FCB_decref. keeps_go; fr_done. Qed.
Hint Resolve fr_FCB_decref : keeps.
Lemma fr_acquire_FCBs num : keeps VT (acquire_FCBs num) (λ _, True).
Proof. induction num as [|num IH]; cbn [acquire_FCBs]; keeps_go; fr_done. Qed.
Hint Resolve fr_acquire_FCBs : keeps.
Lemma fr_FCB_reserve num : keeps VT (FCB_reserve c num) (λ _, True).
Proof. unfold FCB_reserve, connect. keeps_go; fr_done. Qed.
Lemma fr_FCB_unreserve fids fcbs : keeps VT (FCB_unreserve c fids fcbs) (λ _, True).
Proof. unfold FCB_unreserve, disconnect. keeps_go; fr_done. Qed.
Hint Resolve fr_FCB_reserve fr_FCB_unreserve : keeps.
Lemma fr_get_fcb fd : keeps VT (get_fcb c fd) (λ _, True).
Proof. unfold get_fcb. keeps_go; fr_done. Qed.
Hint Resolve fr_get_fcb : keeps.
Lemma fr_serial_read_loop t n : ∀ got avail, keeps VT (serial_read_loop t n got avail) (λ _, True).
Proof. induction n as [|n IH]; intros got avail; cbn [serial_read_loop]; keeps_go; fr_done; apply IH. Qed.
Lemma fr_serial_write_loop t buf : ∀ n room, keeps VT (serial_write_loop t buf n room) (λ _, True).
Proof. induction buf as [|b buf IH]; intros n room; cbn [serial_write_loop]; keeps_go; fr_done; apply IH. Qed.
Hint Resolve fr_serial_read_loop fr_serial_write_loop : keeps.
Lemma fr_dev_read d obj size avail : keeps VT (dev_read c d obj size avail) (λ _, True).
Proof. unfold dev_read, serial_read. keeps_go; fr_done. Qed.
Lemma fr_dev_write d obj buf size room : keeps VT (dev_write d obj buf size room) (λ _, True).
Proof. unfold dev_write, serial_write. keeps_go; fr_done. Qed.
Hint Resolve fr_dev_read fr_dev_write : keeps.
Lemma fr_io_end f obj b t : keeps VT (io_end c f obj b t) (λ _, True).
Proof using Hself. unfold io_end. keeps_go; fr_done. Qed.
Hint Resolve fr_io_end : keeps.
Lemma fr_read_device f size avail : keeps VT (read_device c f size avail) (λ _, True).
Proof using Hself. unfold read_device. keeps_go; fr_done. Qed.
Lemma fr_write_device f buf size room : keeps VT (write_device c f buf size room) (λ _, True).
Proof using Hself. unfold write_device. keeps_go; fr_done. Qed.
Hint Resolve fr_read_device fr_write_device : keeps.
Lemma fr_device_open major minor : keeps VT (device_open major minor) (λ _, True).
Proof. unfold device_open, device_no, dev_open, serial_open. keeps_go; fr_done. Qed.
Hint Resolve fr_device_open : keeps.
Lemma fr_open_stream major minor : keeps VT (open_stream c major minor) (λ _, True).
Proof. unfold open_stream. keeps_go; fr_done. Qed.
Lemma fr_Read fd size avail : keeps VT (sys_Read c fd size avail) (λ _, True).
Proof using Hself. unfold sys_Read. keeps_go; fr_done. Qed.
Lemma fr_Write fd buf size room : keeps VT (sys_Write c fd buf size room) (λ _, True).
Proof using Hself. unfold sys_Write. keeps_go; fr_done. Qed.
Lemma fr_Close fd : keeps VT (sys_Close c fd) (λ _, True).
Proof. unfold sys_Close. keeps_go; fr_done. Qed.
Lemma fr_Dup2 oldfd newfd : keeps VT (sys_Dup2 c oldfd newfd) (λ _, True).
Proof. unfold sys_Dup2. keeps_go; fr_done. Qed.
Hint Resolve fr_open_stream fr_Read fr_Write fr_Close fr_Dup2 : keeps.

(** *** Processes *)
Lemma fr_cleanup p : keeps VT (cleanup_zombie p) (λ _, True).
Proof.
  unfold cleanup_zombie, release_PCB, unlink_child, unlink_exited.
  eapply keeps_seq; [eapply keeps_True, fr_get_PCB|intros b].
  eapply keeps_seq; [by apply fr_map_PT|intros _]. eapply keeps_seq; [by apply fr_map_PT|intros _].
  keeps_go; fr_done.
Qed.
Hint Resolve fr_cleanup : keeps.
Lemma fr_wait_specific p q : keeps VT (wait_specific_loop c p q) (λ _, True).
Proof using Hself. unfold wait_specific_loop. keeps_go; fr_done. Qed.
Lemma fr_wait_any p : keeps VT (wait_any_loop c p) (λ _, True).
Proof using Hself. unfold wait_any_loop. keeps_go; fr_done. Qed.
Hint Resolve fr_wait_specific fr_wait_any : keeps.
Lemma fr_WaitChild pid : keeps VT (sys_WaitChild c pid) (λ _, True).
Proof using Hself. unfold sys_WaitChild, wait_for_specific_child, wait_for_any_child, get_pcb. keeps_go; fr_done. Qed.
Lemma fr_wait_resume w : keeps VT (wait_resume c w) (λ _, True).
Proof using Hself. unfold wait_resume. keeps_go; fr_done. Qed.

(** *** The end of a process *)
Lemma fr_reparent fuel p i : keeps VT (reparent fuel p i) (λ _, True).
Proof. induction fuel as [|fuel IH]; cbn [reparent]; keeps_go; fr_done. Qed.
Hint Resolve fr_reparent : keeps.
Lemma fr_exit_process p v : keeps VT (exit_process p v) (λ _, True).
Proof.
  unfold exit_process, free_args, free_buf, close_fid, get_pcb, append_exited, tell_parent. keeps_go; fr_done.
Qed.
End frames.

(** *** The threads, when a block changes *)
Section thread_frames.
Context (L : gmap tid (Z * option ptcb_ptr)) (c : nat) (self : tid).
#[local] Set Default Proof Using "Type".
Definition runs_threads (s : kernel) : Prop := threads_are L c self (ksched s).
Lemma fr_thread {A} (m : SM A) : keeps (threads_are L c self) m (λ _, True) → keeps runs_threads (on_ksched m) (λ _, True).
Proof. intros Hm. by apply (keeps_zoom _ (threads_are L c self)). Qed.
Hint Resolve fr_thread fr_wakeup : keeps.
Lemma fr_exit_ptcb p v : keeps runs_threads (exit_ptcb p v) (λ _, True).
Proof. unfold exit_ptcb, upd_PTCB, get_PTCB, kernel_broadcast, unlink_thread, free_PTCB, get_PTCB. keeps_go; done. Qed.
End thread_frames.
