(* ===== verification/Wakeups.v ===== *)
(** * What happens to a thread that was woken up

    While a thread is ready it stays so, whatever the thread that runs does until it
    ends: the calls wake up other threads, and put only the running one to sleep. *)
From S2P Require Import Prelude Hoare Bios Sched Kernel Devices Streams Proc Threads.
Local Open Scope Z_scope.

Lemma keeps_run {S A} (I : S → Prop) (m : M S A) (Q : A → Prop) s a s' :
  I s → m s = Ok (a, s') → keeps I m Q → I s'.
Proof. intros Hs Hr Hm. by destruct (Hm s a s' Hs Hr). Qed.

Section ready.
#[local] Set Default Proof Using "Type".
Context (us : list tid) (self : tid) (c : nat) (ch : channel).

(** The threads [us] are ready, and core [c] runs [self]. *)
Definition ready_sched (v : sched) : Prop :=
  (∀ u, u ∈ us → ∃ k, tcbs v !! u = Some k ∧ tcb_state k = READY) ∧ ∃ b, cctx v !! c = Some b ∧ current_thread b = self.
(** And nobody waits on [ch]. *)
Definition ready_in (s : kernel) : Prop := ready_sched (ksched s) ∧ ∀ x, (ch, x) ∉ waiting s.

Lemma rd_on_vm {A} (m : BM A) : keeps ready_sched (on_vm m) (λ _, True).
Proof. by apply (keeps_zoom _ (λ _, True)). Qed.
Lemma rd_get_tcb t : keeps ready_sched (get_tcb t) (λ _, True).
Proof. unfold get_tcb. by keeps_go. Qed.
Hint Resolve rd_on_vm rd_get_tcb : keeps.
Lemma rd_upd_tcb t f : t ∉ us ∨ (∀ k, tcb_state k = READY → tcb_state (f k) = READY) →
  keeps ready_sched (upd_tcb t f) (λ _, True).
Proof.
  intros Hf v [] v' [Hus Hc] (k & v1 & Hr & [= <-])%bind_Ok. revert Hr. unfold get_tcb. unfold_monad.
  destruct (tcbs v !! t) as [k'|] eqn:Hk; [|by intros [=]]. intros [= -> ->]. split; [|done]. split; [|done]. cbn.
  intros u Hu. destruct (Hus u Hu) as (ku & Hku & Hst).
  destruct (decide (t = u)) as [->|Ht]; [|exists ku; by rewrite lookup_insert_ne].
  exists (f k). rewrite lookup_insert_eq. split; [done|]. destruct Hf as [?|Hf]; [done|]. apply Hf. congruence.
Qed.
Lemma rd_get_ccb d : keeps ready_sched (get_ccb d) (λ b, d = c → current_thread b = self).
Proof.
  unfold get_ccb. intros v b v' Hv. unfold_monad.
  destruct (cctx v !! d) as [b'|] eqn:Hb; [|by intros [=]]. intros [= <- <-].
  split; [done|]. intros ->. destruct Hv as [_ (b & Hb' & Hs)]. congruence.
Qed.
Hint Resolve rd_get_ccb : keeps.
Lemma rd_preemption d b : keeps ready_sched (set_core_preemption d b) (λ _, True).
Proof.
  unfold set_core_preemption, upd_ccb. eapply keeps_bind; [apply rd_get_ccb|]. intros k0 _.
  eapply keeps_seq; [|intros _; by keeps_go].
  eapply keeps_bind; [apply rd_get_ccb|]. intros k Hk. apply keeps_modify; [|done].
  intros v [HL (e & He & Hs)]. split; [done|]. cbn. destruct (decide (d = c)) as [->|Hd].
  - eexists. split; [apply lookup_insert_eq|]. by apply Hk.
  - exists e. by rewrite lookup_insert_ne.
Qed.
Lemma rd_CURTHREAD : keeps ready_sched (CURTHREAD c) (λ t, t = self).
Proof. unfold CURTHREAD. eapply keeps_bind; [apply rd_get_ccb|]. intros b Hb. apply keeps_ret. by apply Hb. Qed.
Lemma rd_queue_add t : keeps ready_sched (sched_queue_add t) (λ _, True).
Proof. unfold sched_queue_add. by keeps_go. Qed.
Hint Resolve rd_CURTHREAD rd_queue_add rd_preemption : keeps.
Hint Extern 1 (keeps _ (upd_tcb _ _) _) => apply rd_upd_tcb; right; intros; by cbn : keeps.
Lemma rd_wakeup t : keeps ready_sched (wakeup t) (λ _, True).
Proof. unfold wakeup, sched_make_ready. by keeps_go. Qed.
Lemma rd_exited : self ∉ us → keeps ready_sched (sleep_mark c EXITED NO_TIMEOUT) (λ _, True).
Proof.
  intros Hu. unfold sleep_mark. eapply keeps_seq; [eapply keeps_True, keeps_assert|intros _].
  eapply keeps_bind; [apply rd_CURTHREAD|]. intros t ->. eapply keeps_seq; [apply rd_preemption|intros _].
  eapply keeps_seq; [apply rd_upd_tcb; by left|intros _]. by keeps_go.
Qed.
Hint Resolve rd_wakeup : keeps.

(** ** The kernel *)
Lemma rd_ksched {A} (m : SM A) Q : keeps ready_sched m Q → keeps ready_in (on_ksched m) Q.
Proof. intros Hm. apply (keeps_zoom _ ready_sched); [done|by intros s []|]. by intros s v [_ Hw] Hv. Qed.
Hint Resolve rd_ksched : keeps.
Lemma rd_get_PCB p : keeps ready_in (get_PCB p) (λ _, True).
Proof. unfold get_PCB. by keeps_go. Qed.
Lemma rd_get_FCB f : keeps ready_in (get_FCB f) (λ _, True).
Proof. unfold get_FCB. by keeps_go. Qed.
Lemma rd_get_PTCB p : keeps ready_in (get_PTCB p) (λ _, True).
Proof. unfold get_PTCB. by keeps_go. Qed.
Hint Resolve rd_get_PCB rd_get_FCB rd_get_PTCB : keeps.
Lemma rd_upd_PCB p f : keeps ready_in (upd_PCB p f) (λ _, True).
Proof. unfold upd_PCB. by keeps_go. Qed.
Lemma rd_upd_FCB f g : keeps ready_in (upd_FCB f g) (λ _, True).
Proof. unfold upd_FCB. by keeps_go. Qed.
Hint Resolve rd_upd_PCB rd_upd_FCB : keeps.
Lemma rd_broadcast d : keeps ready_in (kernel_broadcast d) (λ _, True).
Proof.
  unfold kernel_broadcast. eapply keeps_bind; [apply keeps_get|]. intros s [_ Hw].
  eapply keeps_seq; [|intros _; by keeps_go]. apply keeps_modify; [|done]. intros s' [Hs _]. split; [exact Hs|].
  intros x [_ Hx]%list_elem_of_filter. by apply (Hw x).
Qed.
Lemma rd_FCB_decref f : keeps ready_in (FCB_decref f) (λ _, True).
Proof. unfold FCB_decref, release_FCB. by keeps_go. Qed.
Hint Resolve rd_broadcast rd_FCB_decref : keeps.
Lemma rd_reparent fuel p i : keeps ready_in (reparent fuel p i) (λ _, True).
Proof. induction fuel as [|fuel IH]; cbn [reparent]; by keeps_go. Qed.
Hint Resolve rd_reparent : keeps.
Lemma rd_exit_process p v : keeps ready_in (exit_process p v) (λ _, True).
Proof. unfold exit_process, free_args, free_buf, close_fid, get_pcb, append_exited, tell_parent. by keeps_go. Qed.
Hint Resolve rd_exit_process : keeps.

(** The rest of [ThreadExit], after the joiners were woken up. *)
Lemma rd_unlink_thread n : keeps ready_in (unlink_thread n) (λ _, True).
Proof. unfold unlink_thread. by keeps_go. Qed.
Lemma rd_free_PTCB n : keeps ready_in (free_PTCB n) (λ _, True).
Proof. unfold free_PTCB. by keeps_go. Qed.
Lemma rd_exit_sleep : self ∉ us → keeps ready_in (kernel_sleep c EXITED) (λ _, True).
Proof. intros Hu. unfold kernel_sleep. apply rd_ksched. by apply rd_exited. Qed.
End ready.

#[export] Hint Resolve rd_get_PCB rd_get_PTCB rd_upd_PCB rd_exit_process rd_unlink_thread rd_free_PTCB : keeps.
