(* ===== verification/ProcInv.v ===== *)
(** * The family of processes

    Which processes exist, who is whose child, which children are zombies, and the
    free list of process control blocks: the invariant of kernel_proc.c, and the
    lemmas that the operations of [ProcExit.v] and [ProcExec.v] are run with. *)
From S2P Require Import Prelude Bios Sched SchedInv SchedSteps Kernel Devices Streams StreamInv StreamCalls StreamIO StreamProps Proc Threads.
Local Open Scope Z_scope.

(** ** The process table as a function

    An operation on the table is a function of a block and its index. *)
Definition ptmap (f : nat → PCB → PCB) (s : kernel) : kernel := set_PT (imap f (PT s)) s.
Definition at_ (p : nat) (g : PCB → PCB) (x : nat) (b : PCB) : PCB := if decide (x = p) then g b else b.

Lemma insert_imap (l : list PCB) p b g :
  l !! p = Some b → <[p := g b]> l = imap (at_ p g) l.
Proof.
  intros Hp. apply list_eq. intros i. rewrite list_lookup_imap, (table_update _ _ _ _ _ Hp).
  unfold at_. destruct (decide (p = i)) as [->|Hne].
  - rewrite Hp. simpl. by rewrite decide_True.
  - destruct (l !! i) as [x|]; simpl; [|done]. by rewrite decide_False by congruence.
Qed.

Lemma fmap_imap (l : list PCB) (g : PCB → PCB) : g <$> l = imap (λ _ b, g b) l.
Proof. apply list_eq. intros i. rewrite list_lookup_imap, list_lookup_fmap. by destruct (l !! i). Qed.

Lemma imap_imap (l : list PCB) (f g : nat → PCB → PCB) : imap f (imap g l) = imap (λ x b, f x (g x b)) l.
Proof. apply list_eq. intros i. rewrite !list_lookup_imap. by destruct (l !! i). Qed.

Lemma ptmap_ext f g s :
  (∀ x b, PT s !! x = Some b → f x b = g x b) → ptmap f s = ptmap g s.
Proof.
  intros He. unfold ptmap. f_equal. apply list_eq. intros i. rewrite !list_lookup_imap.
  destruct (PT s !! i) as [b|] eqn:Hb; simpl; [|done]. by rewrite (He _ _ Hb).
Qed.

Lemma ptmap_ptmap f g s : ptmap f (ptmap g s) = ptmap (λ x b, f x (g x b)) s.
Proof. unfold ptmap. simpl. by rewrite imap_imap. Qed.

Lemma ptmap_lookup f s x : PT (ptmap f s) !! x = f x <$> PT s !! x.
Proof. unfold ptmap. simpl. apply list_lookup_imap. Qed.

Lemma ptmap_id s : ptmap (λ _ b, b) s = s.
Proof.
  unfold ptmap. assert (imap (λ (_ : nat) (b : PCB), b) (PT s) = PT s) as ->; [|by destruct s].
  apply list_eq. intros i. rewrite list_lookup_imap. by destruct (PT s !! i).
Qed.

Lemma upd_ptmap s p b g : PT s !! p = Some b → upd_PCB p g s = Ok (tt, ptmap (at_ p g) s).
Proof. intros Hb. rewrite (upd_PCB_run _ _ _ _ Hb). unfold ptmap. by rewrite (insert_imap _ _ _ _ Hb). Qed.

Lemma at_same p g b : at_ p g p b = g b.
Proof. unfold at_. by rewrite decide_True. Qed.
Lemma at_ne p g x b : x ≠ p → at_ p g x b = b.
Proof. intros. unfold at_. by rewrite decide_False. Qed.

(** ** Waking up waiting threads *)

(** The scheduler is in order and every waiting thread is alive. *)
Definition sched_live (s : kernel) : Prop :=
  (∃ ms pl, inv (ksched s) ms pl) ∧
  ∀ ch t, (ch, t) ∈ waiting s → is_Some (tcbs (ksched s) !! t).

Lemma sched_live_same s s' : ksched s' = ksched s → waiting s' = waiting s → sched_live s → sched_live s'.
Proof. intros H1 H2. unfold sched_live. by rewrite H1, H2. Qed.

(** The state of a thread when those of [l] are woken up. *)
Definition sleeping (k : TCB) : Prop := tcb_state k = STOPPED ∨ tcb_state k = INIT.
#[export] Instance sleeping_dec k : Decision (sleeping k).
Proof. unfold sleeping. apply _. Defined.
Definition woken_state (l : list tid) (u : tid) (k : TCB) : Thread_state :=
  if decide (u ∈ l ∧ sleeping k) then READY else tcb_state k.

Lemma wakeup_live v ms pl t k :
  inv v ms pl → tcbs v !! t = Some k →
  ∃ r v' pl', wakeup t v = Ok (r, v') ∧ inv v' ms pl' ∧ cctx v' = cctx v ∧
    ∀ u ku, tcbs v !! u = Some ku →
      ∃ ku', tcbs v' !! u = Some ku' ∧ owner_pcb ku' = owner_pcb ku ∧ tcb_state ku' = woken_state [t] u ku.
Proof.
  intros Hi Hk. unfold wakeup. mrun ltac:(by apply get_tcb_run).
  destruct (place_of _ _ _ _ (i_threads _ _ _ Hi) Hk) as (p & Hp & _).
  destruct (decide (tcb_state k = STOPPED ∨ tcb_state k = INIT)) as [Hst|Hst].
  - destruct (make_ready_inv v ms pl t k p Hi Hk Hp Hst) as (v' & Hr & Hi' & Hfr & Htm & _).
    mrun ltac:(exact Hr). eexists true, v', _. split; [done|]. split; [done|].
    split; [apply Hfr|]. intros u ku Hu. rewrite Htm, lookup_insert.
    unfold woken_state, sleeping. destruct (decide (t = u)) as [->|Hne].
    + exists (readied k). simplify_eq. by rewrite decide_True by (split; [left|done]).
    + exists ku. rewrite decide_False; [done|]. rewrite list_elem_of_singleton. by intros [-> _].
  - eexists false, v, pl. split_and!; try done. intros u ku Hu. exists ku. split_and!; try done.
    unfold woken_state, sleeping. rewrite decide_False; [done|]. rewrite list_elem_of_singleton. intros [-> ?]. congruence.
Qed.
Lemma woken_cons t l u k k1 :
  tcb_state k1 = woken_state [t] u k → woken_state l u k1 = woken_state (t :: l) u k.
Proof.
  unfold woken_state, sleeping. intros Hk. pose proof (list_elem_of_singleton u t). pose proof (elem_of_cons l u t).
  repeat case_decide; rewrite ?Hk in *; try done; intuition congruence.
Qed.

Lemma wake_list_run l : ∀ s ms pl,
  inv (ksched s) ms pl → (∀ t, t ∈ l → is_Some (tcbs (ksched s) !! t)) →
  ∃ v pl', for_each l (λ t, on_ksched (wakeup t) ;; mret tt) s = Ok (tt, set_ksched v s) ∧
    inv v ms pl' ∧ cctx v = cctx (ksched s) ∧
    ∀ u ku, tcbs (ksched s) !! u = Some ku →
      ∃ ku', tcbs v !! u = Some ku' ∧ owner_pcb ku' = owner_pcb ku ∧ tcb_state ku' = woken_state l u ku.
Proof.
  induction l as [|t l IH]; intros s ms pl Hi Hl.
  - exists (ksched s), pl. rewrite set_ksched_id. split_and!; try done. intros u ku Hu. exists ku.
    split_and!; done.
  - destruct (Hl t ltac:(left)) as [k Hk].
    destruct (wakeup_live _ _ _ _ _ Hi Hk) as (r & v & pl1 & Hr & Hi1 & Hc1 & Hk1).
    cbn [for_each]. mstep. mrun ltac:(by apply on_ksched_run). mstep.
    destruct (IH (set_ksched v s) ms pl1 Hi1) as (v2 & pl2 & Hr2 & Hi2 & Hc2 & Hk2).
    { intros u Hu. destruct (Hl u ltac:(by right)) as [ku Hku].
      destruct (Hk1 _ _ Hku) as (ku' & Hku' & _). by eexists. }
    exists v2, pl2. split_and!; [exact Hr2|done|by rewrite Hc2|].
    intros u ku Hu. destruct (Hk1 _ _ Hu) as (k1 & Hu1 & Ho1 & Hst1).
    destruct (Hk2 _ _ Hu1) as (k2 & Hu2 & Ho2 & Hst2). exists k2. rewrite Ho2, Hst2.
    split_and!; try done. by apply woken_cons.
Qed.

(** A thread that can make calls in [s] can make them in [s']. *)
Definition calls (s s' : kernel) : Prop := ∀ c self p, can_call s c self p → can_call s' c self p.

Lemma calls_same s s' :
  ksched s' = ksched s → (∀ p, is_Some (PT s !! p) → is_Some (PT s' !! p)) → calls s s'.
Proof.
  intros Hk HP c self p [Hr Hp Ht Hi]. split; [|by apply HP|done|by rewrite Hk].
  unfold runs_in. by rewrite Hk.
Qed.
Lemma calls_trans s1 s2 s3 : calls s1 s2 → calls s2 s3 → calls s1 s3.
Proof. intros H1 H2 c self p H. by apply H2, H1. Qed.
Lemma calls_ptmap f s : calls s (ptmap f s).
Proof. apply calls_same; [done|]. intros p [b Hb]. rewrite ptmap_lookup, Hb. by eexists. Qed.

(** What a broadcast changes: the ring, and the scheduler. *)
Lemma kernel_broadcast_run ch s :
  sched_live s →
  ∃ v, let s' := set_ksched v (set_waiting (filter (λ w, w.1 ≠ ch) (waiting s)) s) in
    kernel_broadcast ch s = Ok (tt, s') ∧ sched_live s' ∧ calls s s'.
Proof.
  intros [(ms & pl & Hi) Hw]. unfold kernel_broadcast. mstep.
  destruct (wake_list_run (on_channel ch (waiting s))
    (set_waiting (filter (λ w, w.1 ≠ ch) (waiting s)) s) ms pl Hi) as (v & pl' & Hr & Hi' & _ & Hk).
  { intros t Ht. unfold on_channel in Ht. apply list_elem_of_fmap in Ht as ([c u] & -> & Hin).
    apply list_elem_of_filter in Hin as [_ Hin]. by eapply Hw. }
  exists v. split; [exact Hr|]. split; [split; [by exists ms, pl'|]; simpl|].
  2: { intros c self p [(b & k & Hb & Hcur & Hself & Ho) Hp Hthr (ms0 & pl0 & Hi0 & Hrun)].
    destruct (wake_list_run (on_channel ch (waiting s))
      (set_waiting (filter (λ w, w.1 ≠ ch) (waiting s)) s) ms0 pl0 Hi0) as (v0 & pl0' & Hr0 & Hi0' & Hc0 & Hk0).
    { intros t Ht. unfold on_channel in Ht. apply list_elem_of_fmap in Ht as ([d u] & -> & Hin).
      apply list_elem_of_filter in Hin as [_ Hin]. by eapply Hw. }
    rewrite Hr in Hr0. injection Hr0 as Hv. destruct (Hk0 _ _ Hself) as (k' & Hk' & Ho' & _).
    rewrite <-Hv in Hc0, Hk', Hi0'. cbn in Hc0.
    split; [|done|done|by exists ms0, pl0'].
    exists b, k'. cbn. rewrite Hc0, Ho'. done. }
  intros c t Ht. apply list_elem_of_filter in Ht as [_ Ht].
  destruct (Hw _ _ Ht) as [k Hkt]. destruct (Hk _ _ Hkt) as (k' & Hk' & _). by eexists.
Qed.

(** The sleeping threads of the ring are ready after it, and no other thread changes
    its state. *)
Lemma kernel_broadcast_wakes ch s s' u k :
  sched_live s → kernel_broadcast ch s = Ok (tt, s') → tcbs (ksched s) !! u = Some k →
  ∃ k', tcbs (ksched s') !! u = Some k' ∧ tcb_state k' = woken_state (on_channel ch (waiting s)) u k.
Proof.
  intros [(ms & pl & Hi) Hw] Hr Hk. unfold kernel_broadcast in Hr. revert Hr. mstep.
  destruct (wake_list_run (on_channel ch (waiting s))
    (set_waiting (filter (λ w, w.1 ≠ ch) (waiting s)) s) ms pl Hi) as (v & pl' & Hr & _ & _ & Hs).
  { intros t Ht. unfold on_channel in Ht. apply list_elem_of_fmap in Ht as ([c x] & -> & Hin).
    apply list_elem_of_filter in Hin as [_ Hin]. by eapply Hw. }
  rewrite Hr. intros [= <-]. destruct (Hs u k Hk) as (k' & Hk' & _ & Hst). by exists k'.
Qed.

(** ** The invariant *)
Inductive rooted (pt : list PCB) : nat → Prop :=
  | rooted_root x b : pt !! x = Some b → pstate b ≠ FREE → parent b = None → rooted pt x
  | rooted_child x y b : pt !! x = Some b → pstate b ≠ FREE → parent b = Some y → rooted pt y →
      rooted pt x.

Record family_ok (pt : list PCB) : Prop := FamilyOk {
  fa_children : ∀ x b, pt !! x = Some b → NoDup (children_list b) ∧
    ∀ y, y ∈ children_list b ↔ ∃ k, pt !! y = Some k ∧ pstate k ≠ FREE ∧ parent k = Some x;
  fa_exited : ∀ x b, pt !! x = Some b → NoDup (exited_list b) ∧
    ∀ y, y ∈ exited_list b ↔ ∃ k, pt !! y = Some k ∧ pstate k = ZOMBIE ∧ parent k = Some x;
  fa_parent : ∀ y k x, pt !! y = Some k → pstate k ≠ FREE → parent k = Some x →
    x ≠ 0%nat ∧ ∃ b, pt !! x = Some b ∧ pstate b = ALIVE;
  fa_rooted : ∀ x b, pt !! x = Some b → pstate b ≠ FREE → rooted pt x;
  fa_roots : ∀ x b, pt !! x = Some b → pstate b ≠ FREE → parent b = None ↔ (x ≤ 1)%nat;
  fa_init : ∀ x, (x ≤ 1)%nat → ∃ b, pt !! x = Some b ∧ pstate b ≠ FREE;
  fa_closed : ∀ x b, pt !! x = Some b → pstate b ≠ ALIVE → FIDT b = replicate MAX_FILEID None }.

(** The free list, linked through [parent], has the free blocks. *)
Fixpoint free_chain (pt : list PCB) (o : option nat) (l : list nat) : Prop :=
  match l with
  | [] => o = None
  | p :: l => o = Some p ∧ ∃ b, pt !! p = Some b ∧ free_chain pt (parent b) l
  end.
Definition freelist_ok (pt : list PCB) (o : option nat) : Prop :=
  ∃ l, free_chain pt o l ∧ NoDup l ∧
    ∀ p b, pt !! p = Some b → p ∈ l ↔ pstate b = FREE.

(** The argument buffers of the processes are live and not shared. *)
Record args_ok (s : kernel) : Prop := ArgsOk {
  ar_live : ∀ p b k, PT s !! p = Some b → pstate b = ALIVE → pargs b = Some k → is_Some (kbufs s !! k);
  ar_own : ∀ p q b e k, PT s !! p = Some b → PT s !! q = Some e → pstate b = ALIVE →
    pstate e = ALIVE → pargs b = Some k → pargs e = Some k → p = q;
  ar_fresh : ∀ k, (next_buf s ≤ k)%nat → kbufs s !! k = None }.

Record procs_ok (infl : nat → nat) (s : kernel) : Prop := ProcsOk {
  pr_family : family_ok (PT s);
  pr_free : freelist_ok (PT s) (pcb_freelist s);
  pr_args : args_ok s;
  pr_files : files_ok infl s;
  pr_sched : sched_live s }.

(** ** Consequences *)
Lemma rooted_alive pt x b :
  family_ok pt → pt !! x = Some b → pstate b ≠ FREE → parent b ≠ None →
  ∃ i, pt !! 1%nat = Some i ∧ pstate i = ALIVE.
Proof.
  intros Hf Hb Hst Hp. pose proof (fa_rooted _ Hf _ _ Hb Hst) as Hr. revert b Hb Hst Hp.
  induction Hr as [x b' Hb' Hst' Hp'|x y b' Hb' Hst' Hp' Hr IH]; intros b Hb Hst Hp;
    [congruence|]. assert (b' = b) as -> by congruence.
  destruct (fa_parent _ Hf _ _ _ Hb Hst Hp') as (Hy0 & by' & Hby & Halive).
  destruct (parent by') as [z|] eqn:Hz.
  - eapply IH; [exact Hby|congruence|congruence].
  - apply (fa_roots _ Hf _ _ Hby) in Hz; [|congruence].
    assert (y = 1%nat) as -> by lia. by exists by'.
Qed.

Lemma exited_children pt x b : family_ok pt → pt !! x = Some b → ∀ y, y ∈ exited_list b → y ∈ children_list b.
Proof.
  intros Hf Hb y Hy. apply (fa_exited _ Hf _ _ Hb) in Hy as (k & Hk & Hst & Hp).
  apply (fa_children _ Hf _ _ Hb). exists k. split; [done|]. split; [congruence|done].
Qed.

(** Nobody is a child of itself. *)
Lemma not_own_child pt x b : family_ok pt → pt !! x = Some b → pstate b ≠ FREE → parent b ≠ Some x.
Proof.
  intros Hf Hb Hst Hp. pose proof (fa_rooted _ Hf _ _ Hb Hst) as Hr. revert b Hb Hst Hp.
  induction Hr as [x b' Hb' Hst' Hp'|x y b' Hb' Hst' Hp' Hr IH]; intros b Hb Hst Hp;
    [congruence|]. assert (b' = b) as -> by congruence.
  assert (y = x) as -> by congruence. by eapply IH.
Qed.

(** ** Frames *)
Lemma imap_lookup_Some (pt : list PCB) (f : nat → PCB → PCB) x b' :
  imap f pt !! x = Some b' ↔ ∃ b, pt !! x = Some b ∧ b' = f x b.
Proof.
  rewrite list_lookup_imap, fmap_Some. naive_solver.
Qed.

Lemma files_ok_fids infl s s' :
  FIDT <$> PT s' = FIDT <$> PT s → FT s' = FT s → FCB_freelist s' = FCB_freelist s →
  devnum s' = devnum s → files_ok infl s → files_ok infl s'.
Proof.
  intros HP HF HL HD [H1 H2]. split; [by eapply counts_ok_fids|by eapply devices_ok_frame; [..|exact H2]].
Qed.

Lemma fidt_imap (pt : list PCB) (f : nat → PCB → PCB) :
  (∀ x b, pt !! x = Some b → FIDT (f x b) = FIDT b) → FIDT <$> imap f pt = FIDT <$> pt.
Proof.
  intros Hf. apply list_eq. intros i. rewrite !list_lookup_fmap, list_lookup_imap.
  destruct (pt !! i) as [b|] eqn:Hb; simpl; [|done]. by rewrite (Hf _ _ Hb).
Qed.

Lemma free_chain_ext pt pt' l : ∀ o,
  (∀ p b, p ∈ l → pt !! p = Some b → ∃ b', pt' !! p = Some b' ∧ parent b' = parent b) →
  free_chain pt o l → free_chain pt' o l.
Proof.
  induction l as [|p l IH]; intros o He; [done|]. intros (Ho & b & Hb & Hl). split; [done|].
  destruct (He p b ltac:(left) Hb) as (b' & Hb' & Hp). exists b'. split; [done|]. rewrite Hp.
  apply IH; [|done]. intros q e Hq. apply He. by right.
Qed.

(** ** A zombie is reaped *)
Definition reap_block (o : option nat) (q x : nat) (b : PCB) : PCB :=
  at_ q (λ b, set_parent o (set_pstate FREE b)) x
    (set_exited_list (remove_node q (exited_list b))
      (set_children_list (remove_node q (children_list b)) b)).

Definition reaped (q : nat) (s : kernel) : kernel :=
  set_process_count (u32 (process_count s - 1))
    (set_pcb_freelist (Some q) (ptmap (reap_block (pcb_freelist s) q) s)).

Lemma cleanup_run q k s :
  PT s !! q = Some k → cleanup_zombie q s = Ok (exitval k, reaped q s).
Proof.
  intros Hk. unfold cleanup_zombie. mrun ltac:(by apply get_PCB_run).
  unfold unlink_child, unlink_exited. mstep. cbn [PT set_PT].
  set (s1 := set_PT _ (set_PT _ s)).
  assert (s1 = ptmap (λ _ b, set_exited_list (remove_node q (exited_list b))
      (set_children_list (remove_node q (children_list b)) b)) s) as Hs1.
  { unfold s1, ptmap. rewrite !fmap_imap, imap_imap. done. }
  rewrite Hs1. clear s1 Hs1. unfold release_PCB. mstep.
  mrun ltac:(eapply upd_ptmap; by rewrite ptmap_lookup, Hk). mstep.
  mrun ltac:(eapply upd_ptmap; by rewrite ptmap_lookup, ptmap_lookup, Hk). mstep.
  rewrite !ptmap_ptmap. unfold reaped.
  erewrite (ptmap_ext (reap_block (pcb_freelist s) q)); [reflexivity|].
  intros x b _. unfold reap_block, at_. by repeat case_decide.
Qed.

Lemma reap_other o q x b : x ≠ q →
  pstate (reap_block o q x b) = pstate b ∧ parent (reap_block o q x b) = parent b.
Proof. intros Hx. unfold reap_block. by rewrite at_ne. Qed.
Lemma reap_same o q b : pstate (reap_block o q q b) = FREE ∧ parent (reap_block o q q b) = o.
Proof. unfold reap_block. by rewrite at_same. Qed.
Lemma reap_lists o q x b :
  children_list (reap_block o q x b) = remove_node q (children_list b) ∧
  exited_list (reap_block o q x b) = remove_node q (exited_list b) ∧
  FIDT (reap_block o q x b) = FIDT b ∧ pargs (reap_block o q x b) = pargs b.
Proof. unfold reap_block, at_. by case_decide. Qed.

(** The blocks that are not [q]'s keep their role. *)
Lemma reap_find pt o q y (P : PCB → Prop) :
  (∀ b, P (reap_block o q q b) → False) → (∀ b, y ≠ q → P (reap_block o q y b) ↔ P b) →
  (∃ k, imap (reap_block o q) pt !! y = Some k ∧ P k) ↔ y ≠ q ∧ ∃ k, pt !! y = Some k ∧ P k.
Proof.
  intros Hq Hother. split.
  - intros (k' & Hk' & HP). apply imap_lookup_Some in Hk' as (k & Hk & ->).
    assert (y ≠ q) as Hy by (intros ->; by eapply Hq). split; [done|]. exists k.
    split; [done|]. by apply Hother.
  - intros (Hy & k & Hk & HP). exists (reap_block o q y k). rewrite list_lookup_imap, Hk.
    split; [done|]. by apply Hother.
Qed.

Section reap.
Context (pt : list PCB) (o : option nat) (q p : nat) (k : PCB).
#[local] Set Default Proof Using "Type*".
Context (Hf : family_ok pt) (Hk : pt !! q = Some k) (Hz : pstate k = ZOMBIE)
  (Hp : parent k = Some p).

Lemma reap_rooted x : rooted pt x → x ≠ q → rooted (imap (reap_block o q) pt) x.
Proof.
  induction 1 as [x b Hb Hst Hpb|x y b Hb Hst Hpb Hr IH]; intros Hx.
  - destruct (reap_other o q x b Hx) as [H1 H2].
    eapply rooted_root; [by rewrite list_lookup_imap, Hb|congruence|congruence].
  - destruct (reap_other o q x b Hx) as [H1 H2].
    eapply rooted_child; [by rewrite list_lookup_imap, Hb|congruence|rewrite H2; done|].
    apply IH. intros ->. destruct (fa_parent _ Hf _ _ _ Hb Hst Hpb) as (_ & e & He & Ha). congruence.
Qed.

Lemma reap_family : family_ok (imap (reap_block o q) pt).
Proof.
  split.
  - intros x b' (b & Hb & ->)%imap_lookup_Some. destruct (reap_lists o q x b) as (-> & _).
    destruct (fa_children _ Hf _ _ Hb) as [Hnd Hin]. split; [by apply NoDup_remove_node|].
    intros y. rewrite elem_of_remove_node, Hin. symmetry. apply reap_find.
    + intros e [H _]. destruct (reap_same o q e). congruence.
    + intros e Hy. destruct (reap_other o q y e Hy) as [-> ->]. done.
  - intros x b' (b & Hb & ->)%imap_lookup_Some. destruct (reap_lists o q x b) as (_ & -> & _).
    destruct (fa_exited _ Hf _ _ Hb) as [Hnd Hin]. split; [by apply NoDup_remove_node|].
    intros y. rewrite elem_of_remove_node, Hin. symmetry. apply reap_find.
    + intros e [H _]. destruct (reap_same o q e). congruence.
    + intros e Hy. destruct (reap_other o q y e Hy) as [-> ->]. done.
  - intros y b' x (b & Hb & ->)%imap_lookup_Some Hst Hpb.
    assert (y ≠ q) as Hy by (intros ->; destruct (reap_same o q b); congruence).
    destruct (reap_other o q y b Hy) as [H1 H2]. rewrite H1 in Hst. rewrite H2 in Hpb.
    destruct (fa_parent _ Hf _ _ _ Hb Hst Hpb) as (Hx0 & e & He & Ha). split; [done|].
    exists (reap_block o q x e). rewrite list_lookup_imap, He. split; [done|].
    destruct (reap_other o q x e) as [-> _]; [|done]. intros ->. congruence.
  - intros x b' (b & Hb & ->)%imap_lookup_Some Hst.
    assert (x ≠ q) as Hx by (intros ->; destruct (reap_same o q b); congruence).
    destruct (reap_other o q x b Hx) as [H1 H2]. rewrite H1 in Hst.
    apply reap_rooted; [|done]. by apply (fa_rooted _ Hf x b).
  - intros x b' (b & Hb & ->)%imap_lookup_Some Hst.
    assert (x ≠ q) as Hx by (intros ->; destruct (reap_same o q b); congruence).
    destruct (reap_other o q x b Hx) as [H1 H2]. rewrite H1 in Hst. rewrite H2.
    by apply (fa_roots _ Hf).
  - intros x Hx. destruct (fa_init _ Hf x Hx) as (b & Hb & Hst).
    exists (reap_block o q x b). rewrite list_lookup_imap, Hb. split; [done|].
    destruct (reap_other o q x b) as [-> _]; [|done]. intros ->.
    assert (b = k) as -> by congruence. apply (fa_roots _ Hf _ _ Hk) in Hx; congruence.
  - intros x b' (b & Hb & ->)%imap_lookup_Some Hst. destruct (reap_lists o q x b) as (_ & _ & -> & _).
    apply (fa_closed _ Hf _ _ Hb). intros Ha. apply Hst. destruct (decide (x = q)) as [->|Hx].
    + congruence.
    + by destruct (reap_other o q x b Hx) as [-> _].
Qed.

Lemma reap_free : freelist_ok pt o → freelist_ok (imap (reap_block o q) pt) (Some q).
Proof.
  intros (l & Hc & Hnd & Hin). assert (q ∉ l) as Hq by (rewrite (Hin _ _ Hk); congruence).
  exists (q :: l). split; [|split; [by apply NoDup_cons|]].
  - split; [done|]. exists (reap_block o q q k). rewrite list_lookup_imap, Hk. split; [done|].
    destruct (reap_same o q k) as [_ ->]. eapply free_chain_ext; [|exact Hc].
    intros x b Hx Hb. exists (reap_block o q x b). rewrite list_lookup_imap, Hb. split; [done|].
    apply reap_other. by intros ->.
  - intros x b' (b & Hb & ->)%imap_lookup_Some. rewrite elem_of_cons.
    destruct (decide (x = q)) as [->|Hx].
    + destruct (reap_same o q b) as [-> _]. naive_solver.
    + destruct (reap_other o q x b Hx) as [-> _]. rewrite (Hin _ _ Hb). naive_solver.
Qed.
End reap.

Lemma reap_ok infl s q k p :
  procs_ok infl s → PT s !! q = Some k → pstate k = ZOMBIE → parent k = Some p →
  procs_ok infl (reaped q s).
Proof.
  intros [Hf Hfree [Ha1 Ha2 Ha3] Hfi Hs] Hk Hz Hp.
  assert (∀ x b, pstate (reap_block (pcb_freelist s) q x b) = ALIVE →
    pstate b = ALIVE ∧ pargs (reap_block (pcb_freelist s) q x b) = pargs b) as Hblock.
  { intros x b Hx. destruct (reap_lists (pcb_freelist s) q x b) as (_ & _ & _ & ->).
    destruct (decide (x = q)) as [->|Hne].
    - destruct (reap_same (pcb_freelist s) q b). congruence.
    - destruct (reap_other (pcb_freelist s) q x b Hne). split; congruence. }
  split; simpl.
  - by eapply reap_family.
  - by eapply reap_free.
  - split; simpl; [| |done].
    + intros x b' j (b & Hb & ->)%imap_lookup_Some Hst.
      destruct (Hblock x b Hst) as [Hst' ->]. by apply (Ha1 x b).
    + intros x y b' e' j (b & Hb & ->)%imap_lookup_Some (e & He & ->)%imap_lookup_Some H1 H2.
      destruct (Hblock x b H1) as [H1' ->]. destruct (Hblock y e H2) as [H2' ->].
      by apply (Ha2 x y b e).
  - eapply files_ok_fids; [..|exact Hfi]; try done. apply fidt_imap. intros x b _.
    by destruct (reap_lists (pcb_freelist s) q x b) as (_ & _ & -> & _).
  - done.
Qed.
