(* ===== verification/ProcExit.v ===== *)
(** * The end of a process

    [exit_process] of [Threads.v], what the last thread of a process does in
    [ThreadExit]: the arguments are freed, the streams closed, the children given
    to init, and the process becomes a zombie of its parent. *)
From S2P Require Import Prelude Bios Sched SchedInv SchedSteps Kernel Devices Streams StreamInv StreamCalls StreamIO StreamProps Proc Threads ProcInv.
Local Open Scope Z_scope.

(** ** Closing the streams *)
Lemma decref_next f s r s' : FCB_decref f s = Ok (r, s') → next_buf s' = next_buf s.
Proof.
  unfold FCB_decref, upd_FCB, get_FCB, release_FCB. unfold_monad.
  repeat (case_match; simplify_eq/=; try done); by intros [= _ <-].
Qed.

Lemma close_fid_run infl s p b fd :
  files_ok infl s → PT s !! p = Some b → (fd < MAX_FILEID)%nat →
  (∀ f, Z.of_nat (infl f) + 1 < 2 ^ 31) →
  ∃ s', close_fid p fd s = Ok (tt, s') ∧ files_ok infl s' ∧ same_rest s s' ∧
    PT s' = <[p := set_FIDT (<[fd := None]> (FIDT b)) b]> (PT s) ∧ next_buf s' = next_buf s.
Proof.
  intros Hfo Hb Hfd Hsm.
  destruct (lookup_lt_is_Some_2 (FIDT b) fd) as [o Ho];
    [by rewrite (fo_length _ _ _ (proj1 Hfo) _ _ Hb)|].
  unfold close_fid. mrun ltac:(by apply get_PCB_run). rewrite (run_some _ _ o) by done.
  destruct o as [f|].
  - destruct (drop_fid_run infl s p b fd (Some f) Hfo Hb Ho Hsm)
      as (s2 & Hr & Hfo2 & Hs2 & HP2 & _).
    assert (∃ r, FCB_decref f s = Ok (r, set_PT (PT s) s2)) as [r Hr'].
    { apply bind_Ok in Hr as (r & s3 & Hr & [= ->]). by exists r. }
    pose proof (decref_next _ _ _ _ Hr') as Hn. simpl in Hn.
    mrun ltac:(exact Hr'). rewrite (upd_PCB_run _ _ b) by done. eexists. split; [reflexivity|].
    assert (set_PT (<[p:=set_FIDT (<[fd:=None]> (FIDT b)) b]> (PT (set_PT (PT s) s2)))
      (set_PT (PT s) s2) = s2) as ->; [|done].
    cbn [PT set_PT]. rewrite <-HP2. by destruct s2.
  - exists s. split; [done|]. rewrite (list_insert_id (FIDT b)) by done.
    assert (set_FIDT (FIDT b) b = b) as -> by (by destruct b). by rewrite list_insert_id.
Qed.

Definition slots (l : list nat) : list (nat * nat) := (λ i, (i, 0%nat)) <$> l.

Lemma close_list_run infl p l : ∀ s b,
  files_ok infl s → PT s !! p = Some b → (∀ i, i ∈ l → (i < MAX_FILEID)%nat) →
  (∀ f, Z.of_nat (infl f) + 1 < 2 ^ 31) →
  ∃ s', for_each l (close_fid p) s = Ok (tt, s') ∧ files_ok infl s' ∧ same_rest s s' ∧
    PT s' = <[p := set_FIDT (disconnected (slots l) (FIDT b)) b]> (PT s) ∧ next_buf s' = next_buf s.
Proof.
  induction l as [|i l IH]; intros s b Hfo Hb Hl Hsm.
  - exists s. split_and!; try done. change (disconnected (slots []) (FIDT b)) with (FIDT b).
    assert (set_FIDT (FIDT b) b = b) as -> by (by destruct b). by rewrite list_insert_id.
  - destruct (close_fid_run infl s p b i Hfo Hb (Hl i ltac:(left)) Hsm)
      as (s1 & Hr1 & Hfo1 & Hs1 & HP1 & Hn1).
    cbn [for_each]. mrun ltac:(exact Hr1).
    destruct (IH s1 (set_FIDT (<[i:=None]> (FIDT b)) b) Hfo1) as (s2 & Hr2 & Hfo2 & Hs2 & HP2 & Hn2).
    + rewrite HP1. apply list_lookup_insert_eq. by eapply lookup_lt_Some.
    + intros j Hj. apply Hl. by right.
    + done.
    + exists s2. split_and!; try done; [by eapply same_rest_trans| |congruence].
      by rewrite HP2, HP1, list_insert_insert_eq.
Qed.

Lemma closed_all (l : list (option nat)) :
  length l = MAX_FILEID → disconnected (slots (seq 0 MAX_FILEID)) l = replicate MAX_FILEID None.
Proof.
  intros Hl. apply list_eq. intros i.
  assert ((slots (seq 0 MAX_FILEID)).*1 = seq 0 MAX_FILEID) as Hs by reflexivity.
  destruct (decide (i < MAX_FILEID)%nat) as [Hi|Hi].
  - destruct (lookup_lt_is_Some_2 l i) as [o Ho]; [lia|].
    rewrite (disconnected_in _ l i o); [|rewrite Hs; apply elem_of_seq; lia|done].
    by rewrite lookup_replicate_2.
  - rewrite disconnected_out by (rewrite Hs, elem_of_seq; lia).
    rewrite !lookup_ge_None_2; rewrite ?length_replicate; [done|lia|lia].
Qed.

(** ** The children *)

(** The children [l] of [p] are given to process [i]. *)
Definition adopt (p i : nat) (l : list nat) (x : nat) (b : PCB) : PCB :=
  at_ i (λ b, set_children_list (rev l ++ children_list b) b) x
    (at_ p (set_children_list []) x (if decide (x ∈ l) then set_parent (Some i) b else b)).

Lemma reparent_run p i l : ∀ fuel s b,
  (length l < fuel)%nat → PT s !! p = Some b → children_list b = l →
  (l ≠ [] → p ≠ i) → is_Some (PT s !! i) → (∀ y, y ∈ l → is_Some (PT s !! y)) →
  reparent fuel p (Some i) s = Ok (tt, ptmap (adopt p i l) s).
Proof.
  induction l as [|y l IH]; intros [|fuel] s b Hfuel Hb Hl Hpi [bi Hi] Hex; simpl in Hfuel; try lia.
  - cbn [reparent]. mrun ltac:(by apply get_PCB_run). rewrite Hl. unfold mret, M_ret. do 2 f_equal.
    rewrite <-(ptmap_id s) at 1. apply ptmap_ext. intros x e He. unfold adopt, at_.
    rewrite (decide_False (P := x ∈ [])) by apply not_elem_of_nil.
    assert (x = p → children_list e = []) as Hx by (intros ->; congruence).
    destruct e; simpl in *. repeat case_decide; simpl; rewrite ?Hx by done; done.
  - specialize (Hpi ltac:(done)). cbn [reparent]. mrun ltac:(by apply get_PCB_run). rewrite Hl.
    mrun ltac:(by eapply upd_ptmap). destruct (Hex y ltac:(left)) as [by' Hy].
    mrun ltac:(eapply upd_ptmap; by rewrite ptmap_lookup, Hy).
    rewrite (run_some _ _ i) by done.
    mrun ltac:(eapply upd_ptmap; by rewrite !ptmap_lookup, Hi).
    rewrite !ptmap_ptmap. erewrite (IH fuel); [|lia|by rewrite ptmap_lookup, Hb| |done| |].
    + rewrite ptmap_ptmap. do 2 f_equal. apply ptmap_ext. intros x e He. unfold adopt, at_.
      assert (x = y → x ∈ y :: l) by (intros ->; left).
      assert (x ∈ l → x ∈ y :: l) by (intros; by right).
      assert (x ∈ y :: l → x = y ∨ x ∈ l) by (intros ?%elem_of_cons; tauto).
      destruct e; simpl. repeat case_decide; simpl; try (exfalso; tauto); try done;
        subst; try (by destruct Hpi); simpl; rewrite <-?app_assoc; done.
    + rewrite at_ne by done. unfold at_. by repeat case_decide.
    + rewrite ptmap_lookup, Hi. by eexists.
    + intros z Hz. rewrite ptmap_lookup. destruct (Hex z ltac:(by right)) as [e ->]. by eexists.
Qed.

(** The exited children [l] of [p] go to the end of the list of process [i]. *)
Definition bequeath (p i : nat) (l : list nat) (x : nat) (b : PCB) : PCB :=
  at_ p (set_exited_list []) x (at_ i (λ b, set_exited_list (exited_list b ++ l) b) x b).
Definition tell (p : nat) (par : option nat) (x : nat) (b : PCB) : PCB :=
  if decide (par = Some x) then set_exited_list (p :: exited_list b) b else b.

(** Everything but the scheduler and the rings is as in [s]. *)
Definition woken (s s' : kernel) : Prop :=
  ∃ v w, s' = set_ksched v (set_waiting w s) ∧ sched_live s' ∧ calls s s'.

Lemma woken_broadcast ch s : sched_live s → ∃ s', kernel_broadcast ch s = Ok (tt, s') ∧ woken s s'.
Proof. intros Hl. destruct (kernel_broadcast_run ch s Hl) as (v & Hr & Hl' & Hc). eexists. split; [exact Hr|]. by eexists _, _. Qed.

Lemma append_exited_run p i b s :
  sched_live s → PT s !! p = Some b → is_Some (PT s !! i) →
  (exited_list b ≠ [] → p ≠ i) →
  ∃ s', append_exited p (Some i) s = Ok (tt, s') ∧ woken (ptmap (bequeath p i (exited_list b)) s) s'.
Proof.
  intros Hl Hb [bi Hi] Hpi. unfold append_exited. mrun ltac:(by apply get_PCB_run).
  destruct (exited_list b) as [|y l] eqn:He.
  - exists s. split; [done|]. assert (ptmap (bequeath p i []) s = s) as ->.
    { rewrite <-(ptmap_id s) at 2. apply ptmap_ext. intros x e Hx. unfold bequeath, at_.
      assert (x = p → exited_list e = []) as Hxp by (intros ->; congruence).
      destruct e; simpl in *. repeat case_decide; simpl; rewrite ?app_nil_r, ?Hxp by done; done. }
    exists (ksched s), (waiting s). split; [by destruct s|]. split; [done|by intros c self q].
  - rewrite (run_some _ _ i) by done. mrun ltac:(by eapply upd_ptmap).
    mrun ltac:(eapply upd_ptmap; by rewrite ptmap_lookup, Hb). rewrite ptmap_ptmap.
    apply woken_broadcast. exact Hl.
Qed.

Lemma tell_parent_run p b s :
  sched_live s → PT s !! p = Some b → (∀ q, parent b = Some q → is_Some (PT s !! q)) →
  ∃ s', tell_parent p s = Ok (tt, s') ∧ woken (ptmap (tell p (parent b)) s) s' ∧
    ∀ q t, parent b = Some q → (ChildExit q, t) ∉ waiting s'.
Proof.
  intros Hl Hb Hq. unfold tell_parent. mrun ltac:(by apply get_PCB_run).
  destruct (parent b) as [q|].
  - destruct (Hq q eq_refl) as [bq Hbq]. mrun ltac:(by eapply upd_ptmap).
    assert (ptmap (at_ q (λ b, set_exited_list (p :: exited_list b) b)) s = ptmap (tell p (Some q)) s)
      as ->.
    { apply ptmap_ext. intros x e _. unfold at_, tell. repeat case_decide; congruence. }
    destruct (kernel_broadcast_run (ChildExit q) (ptmap (tell p (Some q)) s) Hl) as (v & Hr & Hl' & Hc).
    eexists. split; [exact Hr|]. split; [by eexists _, _|].
    intros q' t [= <-] [Hne _]%list_elem_of_filter. by apply Hne.
  - exists s. split; [done|]. split; [|done].
    assert (ptmap (tell p None) s = s) as ->.
    { rewrite <-(ptmap_id s) at 2. by apply ptmap_ext. }
    exists (ksched s), (waiting s). split; [by destruct s|]. split; [done|by intros c self q].
Qed.

(** ** The whole of it *)
Definition emptied (v : Z) (b : PCB) : PCB :=
  set_FIDT (replicate MAX_FILEID None) (set_main (main_task b) (pargl b) None (set_exitval v b)).
Definition exit_block (p : nat) (v : Z) (b0 : PCB) (x : nat) (b : PCB) : PCB :=
  at_ p (set_pstate ZOMBIE) x (tell p (parent b0) x (bequeath p 1 (exited_list b0) x
    (adopt p 1 (children_list b0) x (at_ p (emptied v) x b)))).

(** What the end of process [p] leaves of the rest of the kernel. *)
Record exited_state (p : nat) (v : Z) (b : PCB) (s s' : kernel) : Prop := ExitedState {
  ex_PT : PT s' = imap (exit_block p v b) (PT s);
  ex_free : pcb_freelist s' = pcb_freelist s;
  ex_count : process_count s' = process_count s;
  ex_ptcbs : ptcbs s' = ptcbs s;
  ex_kbufs : kbufs s' = match pargs b with Some k => delete k (kbufs s) | None => kbufs s end;
  ex_next : next_buf s' = next_buf s;
  ex_live : sched_live s';
  ex_calls : calls s s';
  ex_told : ∀ q t, parent b = Some q → (ChildExit q, t) ∉ waiting s' }.

Lemma free_args_run p b s :
  PT s !! p = Some b → (∀ k, pargs b = Some k → is_Some (kbufs s !! k)) →
  free_args p s = Ok (tt, set_kbufs
      (match pargs b with Some k => delete k (kbufs s) | None => kbufs s end) (next_buf s)
      (ptmap (at_ p (λ b, set_main (main_task b) (pargl b) None b)) s)).
Proof.
  intros Hb Hk. unfold free_args. mrun ltac:(by apply get_PCB_run).
  destruct (pargs b) as [k|] eqn:Hp.
  - destruct (Hk k eq_refl) as [l Hl]. unfold free_buf. mstep. rewrite (run_some _ _ l) by done.
    mstep. by erewrite upd_ptmap by exact Hb.
  - unfold mret, M_ret. do 2 f_equal.
    assert (ptmap (at_ p (λ b, set_main (main_task b) (pargl b) None b)) s = s) as ->.
    { rewrite <-(ptmap_id s) at 2. apply ptmap_ext. intros x e Hx. unfold at_. case_decide; [|done].
      subst. assert (e = b) as -> by congruence. rewrite <-Hp. by destruct b. }
    by destruct s.
Qed.

Lemma woken_same s s' : woken s s' → PT s' = PT s ∧ pcb_freelist s' = pcb_freelist s ∧
  process_count s' = process_count s ∧ ptcbs s' = ptcbs s ∧ kbufs s' = kbufs s ∧
  next_buf s' = next_buf s ∧ FT s' = FT s ∧ FCB_freelist s' = FCB_freelist s ∧ devnum s' = devnum s ∧
  sched_live s' ∧ calls s s'.
Proof. intros (v & w & -> & Hl & Hc). done. Qed.

Lemma adopt_p p i l b : (l ≠ [] → p ≠ i) → p ∉ l → adopt p i l p b = set_children_list [] b.
Proof.
  intros Hpi Hl. unfold adopt, at_. rewrite (decide_False (P := p ∈ l)) by done.
  rewrite (decide_True (P := p = p)) by done. destruct (decide (p = i)) as [->|]; [|done].
  destruct l; [done|]. by destruct Hpi.
Qed.

Lemma FIDT_after p i l e par x b :
  FIDT (at_ p (set_pstate ZOMBIE) x (tell p par x (bequeath p i e x (adopt p i l x b)))) = FIDT b.
Proof. unfold at_, tell, bequeath, adopt, at_. by repeat case_decide. Qed.

(** Closing everything, after the exit value is set and the arguments are freed. *)
Lemma empty_run infl p v b s :
  files_ok infl s → args_ok s → sched_live s → PT s !! p = Some b → pstate b = ALIVE →
  (∀ f, Z.of_nat (infl f) + 1 < 2 ^ 31) →
  ∃ s', (∀ k : KM unit, (upd_PCB p (set_exitval v) ;; free_args p ;;
      for_each (seq 0 MAX_FILEID) (close_fid p) ;; k) s = k s') ∧ files_ok infl s' ∧ sched_live s' ∧ PT s' = imap (at_ p (emptied v)) (PT s) ∧
    pcb_freelist s' = pcb_freelist s ∧ process_count s' = process_count s ∧ ptcbs s' = ptcbs s ∧
    kbufs s' = match pargs b with Some k => delete k (kbufs s) | None => kbufs s end ∧
    next_buf s' = next_buf s ∧ ksched s' = ksched s.
Proof.
  intros Hfo Ha Hl Hb Hal Hsm.
  assert (PT (ptmap (at_ p (set_exitval v)) s) !! p = Some (set_exitval v b)) as Hb1
    by (rewrite ptmap_lookup, Hb; simpl; by rewrite at_same).
  pose proof (free_args_run p _ _ Hb1 (λ k, ar_live _ Ha _ _ k Hb Hal)) as Hr2.
  set (s2 := set_kbufs _ _ _) in Hr2.
  set (b2 := set_main (main_task b) (pargl b) None (set_exitval v b)).
  assert (PT s2 = imap (at_ p (λ b, set_main (main_task b) (pargl b) None (set_exitval v b))) (PT s)) as HP2.
  { unfold s2, ptmap. cbn [PT set_PT set_kbufs]. rewrite imap_imap. apply list_eq. intros x.
    rewrite !list_lookup_imap. destruct (PT s !! x); simpl; [|done]. unfold at_. by case_decide. }
  assert (PT s2 !! p = Some b2) as Hb2 by (rewrite HP2, list_lookup_imap, Hb; simpl; by rewrite at_same).
  assert (files_ok infl s2) as Hfo2.
  { eapply files_ok_fids; [| | | |exact Hfo]; try done. rewrite HP2. apply fidt_imap.
    intros x e _. unfold at_. by case_decide. }
  destruct (close_list_run infl p (seq 0 MAX_FILEID) s2 b2 Hfo2 Hb2) as (s3 & Hr3 & Hfo3 & Hs3 & HP3 & Hn3).
  { intros i Hi%elem_of_seq. lia. } { done. }
  exists s3. split.
  { intros k. mrun ltac:(by eapply upd_ptmap). mrun ltac:(exact Hr2). by mrun ltac:(exact Hr3). }
  split; [done|]. destruct Hs3 as [Hk Hd (H1 & H2 & H3 & H4 & H5 & _)].
  split; [by eapply sched_live_same; [..|exact Hl]|]. split_and!; try done.
  rewrite HP3. rewrite closed_all by (by eapply (fo_length _ _ _ (proj1 Hfo2))).
  assert (<[p:=set_FIDT (replicate MAX_FILEID None) b2]> (PT s2) =
    imap (at_ p (set_FIDT (replicate MAX_FILEID None))) (PT s2)) as -> by (by apply insert_imap).
  rewrite HP2, imap_imap. apply list_eq. intros x. rewrite !list_lookup_imap.
  destruct (PT s !! x); simpl; [|done]. unfold at_. by case_decide.
Qed.

Lemma exit_run infl p v b s :
  procs_ok infl s → PT s !! p = Some b → pstate b = ALIVE → (p = 1%nat → children_list b = []) →
  (∀ f, Z.of_nat (infl f) + 1 < 2 ^ 31) →
  ∃ s', exit_process p v s = Ok (tt, s') ∧ files_ok infl s' ∧ exited_state p v b s s'.
Proof.
  intros [Hf Hfree Ha Hfo Hl] Hb Hal Hp1 Hsm.
  assert (pstate b ≠ FREE) as Hnf by congruence.
  assert (p ∉ children_list b) as Hself.
  { rewrite (proj2 (fa_children _ Hf _ _ Hb)). intros (k & Hk & _ & Hp).
    assert (k = b) as -> by congruence. by eapply not_own_child. }
  assert (children_list b ≠ [] → p ≠ 1%nat) as Hpi by tauto.
  assert (exited_list b ≠ [] → p ≠ 1%nat) as Hpe.
  { intros He ->. destruct (exited_list b) as [|y l] eqn:Hex; [done|].
    pose proof (exited_children _ _ _ Hf Hb y) as Hy. rewrite Hex, Hp1 in Hy by done.
    apply (not_elem_of_nil y), Hy. left. }
  destruct (fa_init _ Hf 1%nat ltac:(lia)) as (i & Hi & Hist).
  unfold exit_process.
  destruct (empty_run infl p v b s Hfo Ha Hl Hb Hal Hsm)
    as (s3 & Hr3 & Hfo3 & Hl3 & HP3 & Hfr3 & Hc3 & Ht3 & Hk3 & Hn3 & Hv3).
  rewrite Hr3.
  assert (∀ x e, PT s !! x = Some e → PT s3 !! x = Some (at_ p (emptied v) x e)) as Hlk3
    by (intros x e Hx; by rewrite HP3, list_lookup_imap, Hx).
  pose proof (Hlk3 _ _ Hb) as Hb3. rewrite at_same in Hb3.
  assert (get_pcb 1 s3 = Ok (Some 1%nat, s3)) as Hg.
  { unfold get_pcb. mrun ltac:(apply get_PCB_run, (Hlk3 _ _ Hi)). rewrite decide_False; [done|].
    unfold at_. by case_decide. }
  mrun ltac:(exact Hg). mrun ltac:(by apply get_PCB_run).
  assert (reparent (S (length (children_list b))) p (Some 1%nat) s3
    = Ok (tt, ptmap (adopt p 1 (children_list b)) s3)) as Hr4.
  { eapply (reparent_run p 1 (children_list b)); [lia|exact Hb3|done|done|by rewrite (Hlk3 _ _ Hi)|].
    intros y Hy. apply (fa_children _ Hf _ _ Hb) in Hy as (k & Hk & _). by rewrite (Hlk3 _ _ Hk). }
  mrun ltac:(exact Hr4).
  set (s4 := ptmap _ s3).
  assert (PT s4 !! p = Some (set_children_list [] (emptied v b))) as Hb4
    by (unfold s4; rewrite ptmap_lookup, Hb3; simpl; by rewrite adopt_p).
  destruct (append_exited_run p 1 _ s4 Hl3 Hb4) as (s5 & Hr5 & Hw5);
    [unfold s4; rewrite ptmap_lookup, (Hlk3 _ _ Hi); by eexists|exact Hpe|].
  mrun ltac:(exact Hr5). cbn [exited_list set_children_list emptied set_FIDT set_main set_exitval] in Hw5.
  destruct (woken_same _ _ Hw5) as (HP5 & Hfr5 & Hc5 & Ht5 & Hk5 & Hn5 & HF5 & HL5 & HD5 & Hl5 & Hcl5).
  set (b5 := bequeath p 1 (exited_list b) p (set_children_list [] (emptied v b))) in *.
  assert (PT s5 !! p = Some b5) as Hb5 by (rewrite HP5, ptmap_lookup, Hb4; done).
  assert (parent b5 = parent b) as Hpar5 by (unfold b5, bequeath, at_; by repeat case_decide).
  destruct (tell_parent_run p b5 s5 Hl5 Hb5) as (s6 & Hr6 & Hw6 & Hwt6).
  { intros q Hq. rewrite Hpar5 in Hq. destruct (fa_parent _ Hf _ _ _ Hb Hnf Hq) as (_ & e & He & _).
    rewrite HP5. unfold s4. rewrite !ptmap_lookup, (Hlk3 _ _ He). by eexists. }
  mrun ltac:(exact Hr6). rewrite Hpar5 in Hw6.
  destruct (woken_same _ _ Hw6) as (HP6 & Hfr6 & Hc6 & Ht6 & Hk6 & Hn6 & HF6 & HL6 & HD6 & Hl6 & Hcl6).
  assert (PT s6 !! p = Some (tell p (parent b) p b5)) as Hb6 by (by rewrite HP6, ptmap_lookup, Hb5).
  eexists. split; [by eapply upd_ptmap|].
  assert (PT (ptmap (at_ p (set_pstate ZOMBIE)) s6) = imap (exit_block p v b) (PT s)) as HPT.
  { unfold ptmap at 1. cbn [PT set_PT]. rewrite HP6. unfold ptmap. cbn [PT set_PT]. rewrite HP5.
    unfold s4, ptmap. cbn [PT set_PT]. rewrite HP3. by rewrite !imap_imap. }
  split.
  - apply (files_ok_fids infl s3); [|by simpl; rewrite HF6; simpl; rewrite HF5|by simpl; rewrite HL6; simpl; rewrite HL5
      |by simpl; rewrite HD6; simpl; rewrite HD5|exact Hfo3].
    rewrite HPT, HP3. apply list_eq. intros x. rewrite !list_lookup_fmap, !list_lookup_imap.
    destruct (PT s !! x); simpl; [|done]. unfold exit_block. by rewrite FIDT_after.
  - split; [exact HPT|simpl..|exact Hl6| |by rewrite Hpar5 in Hwt6].
    6: { apply (calls_trans _ s3); [apply calls_same; [done|]; intros x [e Hx]; rewrite (Hlk3 _ _ Hx); by eexists|].
      eapply calls_trans; [apply (calls_ptmap (adopt p 1 (children_list b)))|].
      eapply calls_trans; [apply (calls_ptmap (bequeath p 1 (exited_list b)))|].
      eapply calls_trans; [exact Hcl5|]. eapply calls_trans; [apply (calls_ptmap (tell p (parent b)))|].
      eapply calls_trans; [exact Hcl6|apply calls_ptmap]. }
    + rewrite Hfr6. simpl. rewrite Hfr5. exact Hfr3.
    + rewrite Hc6. simpl. rewrite Hc5. exact Hc3.
    + rewrite Ht6. simpl. rewrite Ht5. exact Ht3.
    + rewrite Hk6. simpl. rewrite Hk5. exact Hk3.
    + rewrite Hn6. simpl. rewrite Hn5. exact Hn3.
Qed.

(** ** The family afterwards *)
Lemma elem_rev (y : nat) l : y ∈ rev l ↔ y ∈ l.
Proof. by rewrite <-Permutation_rev. Qed.
Lemma NoDup_rev' (l : list nat) : NoDup l → NoDup (rev l).
Proof. by rewrite <-Permutation_rev. Qed.

Section exit_family.
Context (pt : list PCB) (p : nat) (v : Z) (b0 : PCB).
#[local] Set Default Proof Using "Type*".
Context (Hf : family_ok pt) (Hb0 : pt !! p = Some b0) (Hal : pstate b0 = ALIVE)
  (Hp1 : p = 1%nat → children_list b0 = []).
Let G := exit_block p v b0.

Lemma kid y : y ∈ children_list b0 ↔ ∃ k, pt !! y = Some k ∧ pstate k ≠ FREE ∧ parent k = Some p.
Proof. apply (fa_children _ Hf _ _ Hb0). Qed.
Lemma heir y : y ∈ exited_list b0 ↔ ∃ k, pt !! y = Some k ∧ pstate k = ZOMBIE ∧ parent k = Some p.
Proof. apply (fa_exited _ Hf _ _ Hb0). Qed.
Lemma exited_nil : p = 1%nat → exited_list b0 = [].
Proof.
  intros H. destruct (exited_list b0) as [|y l] eqn:He; [done|].
  pose proof (exited_children _ _ _ Hf Hb0 y) as Hy. rewrite He, (Hp1 H) in Hy.
  destruct (not_elem_of_nil y). apply Hy. left.
Qed.
Lemma par_ne : parent b0 ≠ Some p.
Proof. eapply not_own_child; [done|done|congruence]. Qed.

Lemma G_pstate x b : pstate (G x b) = if decide (x = p) then ZOMBIE else pstate b.
Proof. unfold G, exit_block, at_, tell, bequeath, adopt, at_. by repeat case_decide. Qed.
Lemma G_parent x b : parent (G x b) = if decide (x ∈ children_list b0) then Some 1%nat else parent b.
Proof. unfold G, exit_block, at_, tell, bequeath, adopt, at_. by repeat case_decide. Qed.
Lemma G_FIDT x b : FIDT (G x b) = if decide (x = p) then replicate MAX_FILEID None else FIDT b.
Proof. unfold G, exit_block. rewrite FIDT_after. unfold at_. by case_decide. Qed.
Lemma G_pargs x b : pargs (G x b) = if decide (x = p) then None else pargs b.
Proof. unfold G, exit_block, at_, tell, bequeath, adopt, at_. by repeat case_decide. Qed.
Lemma G_children x b : children_list (G x b) =
  (if decide (x = 1%nat) then rev (children_list b0) else []) ++ (if decide (x = p) then [] else children_list b).
Proof.
  unfold G, exit_block, at_, tell, bequeath, adopt, at_.
  repeat case_decide; simpl; rewrite ?app_nil_r; done.
Qed.
Lemma G_exited x b : exited_list (G x b) =
  (if decide (parent b0 = Some x) then [p] else []) ++ (if decide (x = p) then [] else exited_list b) ++
  (if decide (x = 1%nat) then exited_list b0 else []).
Proof.
  pose proof par_ne. pose proof exited_nil.
  unfold G, exit_block, at_, tell, bequeath, adopt, at_.
  repeat case_decide; subst; simpl; rewrite ?app_nil_r; try done.
  all: try (rewrite exited_nil by done; done); by rewrite ?H0.
Qed.

Lemma G_kids x b y : y ∈ children_list (G x b) ↔
  (x = 1%nat ∧ y ∈ children_list b0) ∨ (x ≠ p ∧ y ∈ children_list b).
Proof.
  rewrite G_children, elem_of_app.
  destruct (decide (x = 1%nat)), (decide (x = p)); rewrite ?elem_of_nil, ?elem_rev; tauto.
Qed.
Lemma G_heirs x b y : y ∈ exited_list (G x b) ↔
  (parent b0 = Some x ∧ y = p) ∨ (x = 1%nat ∧ y ∈ exited_list b0) ∨ (x ≠ p ∧ y ∈ exited_list b).
Proof.
  rewrite G_exited, !elem_of_app.
  destruct (decide (parent b0 = Some x)), (decide (x = 1%nat)), (decide (x = p));
    rewrite ?elem_of_nil, ?list_elem_of_singleton; tauto.
Qed.

(** Membership in the new table, in terms of the old one. *)
Lemma G_find y (P : PCB → Prop) :
  (∃ k, imap G pt !! y = Some k ∧ P k) ↔ ∃ k, pt !! y = Some k ∧ P (G y k).
Proof.
  split; [intros (k & Hk & HP); apply imap_lookup_Some in Hk as (k0 & Hk0 & ->); by exists k0|].
  intros (k & Hk & HP). exists (G y k). by rewrite list_lookup_imap, Hk.
Qed.
Lemma G_nonfree x b : pt !! x = Some b → pstate (G x b) ≠ FREE ↔ pstate b ≠ FREE.
Proof. intros Hb. rewrite G_pstate. case_decide; [|done]. subst. assert (b = b0) as -> by congruence. by rewrite Hal. Qed.
Lemma kid_ne : p ∉ children_list b0.
Proof. rewrite kid. intros (k & Hk & _ & Hp). assert (k = b0) as -> by congruence. by apply par_ne. Qed.

Lemma init_alive : children_list b0 ≠ [] → p ≠ 1%nat ∧ ∃ i, pt !! 1%nat = Some i ∧ pstate i = ALIVE.
Proof.
  intros Hne. split; [tauto|].
  assert (∃ y, y ∈ children_list b0) as [y Hy]
    by (clear -Hne; destruct (children_list b0) as [|y l]; [done|exists y; left]).
  apply kid in Hy as (k & Hk & Hst & Hp).
  eapply rooted_alive; [done|exact Hk|done|congruence].
Qed.

Lemma exit_rooted x : rooted pt x → rooted (imap G pt) x.
Proof.
  induction 1 as [x b Hb Hst Hp|x y b Hb Hst Hp Hr IH].
  - apply (rooted_root _ x (G x b)); [by rewrite list_lookup_imap, Hb|by apply G_nonfree|].
    rewrite G_parent. rewrite decide_False; [done|]. intros (k & Hk & _ & Hkp)%kid. congruence.
  - destruct (decide (x ∈ children_list b0)) as [Hx|Hx].
    + apply (rooted_child _ x 1 (G x b)); [by rewrite list_lookup_imap, Hb|by apply G_nonfree| |].
      * rewrite G_parent. by rewrite decide_True.
      * destruct (fa_init _ Hf 1%nat ltac:(lia)) as (i & Hi & Hist).
        apply (rooted_root _ 1 (G 1 i)); [by rewrite list_lookup_imap, Hi|by apply G_nonfree|].
        rewrite G_parent. assert (parent i = None) as Hip by (by apply (fa_roots _ Hf 1%nat i)).
        rewrite decide_False; [done|]. intros (k & Hk & _ & Hkp)%kid. congruence.
    + apply (rooted_child _ x y (G x b)); [by rewrite list_lookup_imap, Hb|by apply G_nonfree| |done].
      rewrite G_parent. by rewrite decide_False.
Qed.

Lemma exit_children x b :
  pt !! x = Some b → NoDup (children_list (G x b)) ∧
  ∀ y, y ∈ children_list (G x b) ↔ ∃ k, imap G pt !! y = Some k ∧ pstate k ≠ FREE ∧ parent k = Some x.
Proof.
  intros Hb. destruct (fa_children _ Hf _ _ Hb) as [Hnd Hin]. split.
  - rewrite G_children. apply NoDup_app. split_and!.
    + case_decide; [|constructor]. apply NoDup_rev', (fa_children _ Hf _ _ Hb0).
    + intros y Hy Hy'. repeat case_decide; try by apply not_elem_of_nil in Hy.
      * by apply not_elem_of_nil in Hy'.
      * apply elem_rev, kid in Hy as (k & Hk & _ & Hkp). apply Hin in Hy' as (k' & Hk' & _ & Hkp').
        congruence.
    + case_decide; [constructor|done].
  - intros y. rewrite G_kids, (G_find y (λ k, pstate k ≠ FREE ∧ parent k = Some x)). split.
    + intros [[-> Hy]|[Hx Hy]].
      * pose proof Hy as (k & Hk & Hst & _)%kid. exists k. split; [done|].
        split; [by apply G_nonfree|]. rewrite G_parent. by rewrite decide_True.
      * apply Hin in Hy as (k & Hk & Hst & Hp). exists k. split; [done|].
        split; [by apply G_nonfree|]. rewrite G_parent. rewrite decide_False; [done|].
        intros (k' & Hk' & _ & Hp')%kid. congruence.
    + intros (k & Hk & Hst & Hp). apply G_nonfree in Hst; [|done]. rewrite G_parent in Hp.
      destruct (decide (y ∈ children_list b0)) as [Hy|Hy]; [left; split; [congruence|done]|].
      right. split; [|apply Hin; by exists k]. intros ->. apply Hy, kid. by exists k.
Qed.

Lemma exit_exited x b :
  pt !! x = Some b → NoDup (exited_list (G x b)) ∧
  ∀ y, y ∈ exited_list (G x b) ↔ ∃ k, imap G pt !! y = Some k ∧ pstate k = ZOMBIE ∧ parent k = Some x.
Proof.
  intros Hb. destruct (fa_exited _ Hf _ _ Hb) as [Hnd Hin].
  assert (∀ y, y ∈ exited_list b ∨ y ∈ exited_list b0 → y ≠ p) as Hzp.
  { intros y [Hy|Hy] ->; [apply Hin in Hy|apply heir in Hy]; destruct Hy as (k & Hk & Hz & _); congruence. }
  split.
  - rewrite G_exited. apply NoDup_app. split_and!.
    + case_decide; [apply NoDup_singleton|constructor].
    + intros y Hy. case_decide; [|by apply not_elem_of_nil in Hy].
      apply list_elem_of_singleton in Hy as ->. rewrite elem_of_app. intros [Hy|Hy]; revert Hy;
        (case_decide; [try by intros ?%not_elem_of_nil|try by intros ?%not_elem_of_nil]);
        intros Hy; by eapply (Hzp p); auto.
    + apply NoDup_app. split_and!; [by case_decide; [constructor|]| |].
      * intros y Hy Hy'. repeat case_decide; try (by apply not_elem_of_nil in Hy);
          try (by apply not_elem_of_nil in Hy').
        apply heir in Hy' as (k & Hk & _ & Hkp). apply Hin in Hy as (k' & Hk' & _ & Hkp'). congruence.
      * case_decide; [apply (fa_exited _ Hf _ _ Hb0)|constructor].
  - intros y. rewrite G_heirs, (G_find y (λ k, pstate k = ZOMBIE ∧ parent k = Some x)).
    setoid_rewrite G_pstate. setoid_rewrite G_parent. split.
    + intros [[Hpar ->]|[[-> Hy]|[Hx Hy]]].
      * exists b0. split; [done|]. rewrite decide_True by done. split; [done|].
        rewrite decide_False; [done|apply kid_ne].
      * pose proof (Hzp y ltac:(by right)) as Hyp. pose proof Hy as (k & Hk & Hz & Hkp)%heir.
        exists k. split; [done|]. rewrite decide_False by done. split; [done|].
        rewrite decide_True; [done|]. apply kid. exists k. split; [done|]. split; [congruence|done].
      * pose proof (Hzp y ltac:(by left)) as Hyp. apply Hin in Hy as (k & Hk & Hz & Hkp).
        exists k. split; [done|]. rewrite decide_False by done. split; [done|].
        rewrite decide_False; [done|]. intros (k' & Hk' & _ & Hp')%kid. congruence.
    + intros (k & Hk & Hz & Hp). destruct (decide (y = p)) as [->|Hyp].
      * left. split; [|done]. assert (k = b0) as -> by congruence.
        rewrite decide_False in Hp; [done|apply kid_ne].
      * right. destruct (decide (y ∈ children_list b0)) as [Hy|Hy].
        -- left. split; [congruence|]. apply heir. apply kid in Hy as (k' & Hk' & _ & Hp').
           assert (k' = k) as -> by congruence. by exists k.
        -- right. split; [|apply Hin; by exists k]. intros ->. apply Hy, kid. exists k.
           split; [done|]. split; [congruence|done].
Qed.

Lemma exit_family_ok : family_ok (imap G pt).
Proof.
  split.
  - intros x b' (b & Hb & ->)%imap_lookup_Some. by apply exit_children.
  - intros x b' (b & Hb & ->)%imap_lookup_Some. by apply exit_exited.
  - intros y b' x (b & Hb & ->)%imap_lookup_Some Hst Hp. apply G_nonfree in Hst; [|done].
    rewrite G_parent in Hp. destruct (decide (y ∈ children_list b0)) as [Hy|Hy].
    + injection Hp as <-. split; [done|].
      destruct init_alive as (Hp1' & i & Hi & Hia); [intros Hn; rewrite Hn in Hy; by apply not_elem_of_nil in Hy|].
      exists (G 1 i). rewrite list_lookup_imap, Hi. split; [done|]. rewrite G_pstate. by rewrite decide_False.
    + destruct (fa_parent _ Hf _ _ _ Hb Hst Hp) as (Hx0 & e & He & Ha). split; [done|].
      exists (G x e). rewrite list_lookup_imap, He. split; [done|]. rewrite G_pstate.
      rewrite decide_False; [done|]. intros ->. apply Hy, kid. by exists b.
  - intros x b' (b & Hb & ->)%imap_lookup_Some Hst. apply G_nonfree in Hst; [|done].
    apply exit_rooted. by eapply (fa_rooted _ Hf).
  - intros x b' (b & Hb & ->)%imap_lookup_Some Hst. apply G_nonfree in Hst; [|done].
    rewrite G_parent. pose proof (fa_roots _ Hf _ _ Hb Hst) as Hr. case_decide as Hx; [|done].
    apply kid in Hx as (k & Hk & _ & Hp). split; [done|]. intros Hle. apply Hr in Hle. congruence.
  - intros x Hx. destruct (fa_init _ Hf x Hx) as (b & Hb & Hst). exists (G x b).
    rewrite list_lookup_imap, Hb. split; [done|]. by apply G_nonfree.
  - intros x b' (b & Hb & ->)%imap_lookup_Some Hst. rewrite G_pstate in Hst. rewrite G_FIDT.
    case_decide; [done|]. by apply (fa_closed _ Hf _ _ Hb).
Qed.

Lemma exit_free o : freelist_ok pt o → freelist_ok (imap G pt) o.
Proof.
  intros (l & Hc & Hnd & Hin). exists l. split; [|split; [done|]].
  - eapply free_chain_ext; [|exact Hc]. intros x b Hx Hb. exists (G x b).
    rewrite list_lookup_imap, Hb. split; [done|]. rewrite G_parent. rewrite decide_False; [done|].
    intros (k & Hk & Hst & _)%kid. apply (Hin _ _ Hb) in Hx. congruence.
  - intros x b' (b & Hb & ->)%imap_lookup_Some. rewrite (Hin _ _ Hb), G_pstate.
    case_decide; [|done]. subst. assert (b = b0) as -> by congruence. by rewrite Hal.
Qed.
End exit_family.

Lemma exit_ok infl p v b s s' :
  procs_ok infl s → PT s !! p = Some b → pstate b = ALIVE → (p = 1%nat → children_list b = []) →
  files_ok infl s' → exited_state p v b s s' → procs_ok infl s'.
Proof.
  intros [Hf Hfree [Ha1 Ha2 Ha3] _ _] Hb Hal Hp1 Hfo [HP Hfr _ _ Hk Hn Hl _ _].
  assert (∀ x e j, PT s !! x = Some e → pstate (exit_block p v b x e) = ALIVE →
    pargs (exit_block p v b x e) = Some j → x ≠ p ∧ pstate e = ALIVE ∧ pargs e = Some j) as Hblock.
  { intros x e j He. rewrite (G_pstate (PT s)), (G_pargs (PT s)) by done.
    case_decide; [done|]. intros. split_and!; done. }
  split.
  - rewrite HP. by apply exit_family_ok.
  - rewrite HP, Hfr. by apply exit_free.
  - split.
    + intros x b' j. rewrite HP. intros (e & He & ->)%imap_lookup_Some Hst Hj.
      destruct (Hblock x e j He Hst Hj) as (Hx & Hea & Hej). pose proof (Ha1 _ _ _ He Hea Hej) as Hlive.
      rewrite Hk. destruct (pargs b) as [j0|] eqn:Hj0; [|done].
      rewrite lookup_delete_ne; [done|]. intros ->. by eapply Hx, (Ha2 x p e b).
    + intros x y b' e' j. rewrite HP.
      intros (e & He & ->)%imap_lookup_Some (e2 & He2 & ->)%imap_lookup_Some H1 H2 H3 H4.
      destruct (Hblock x e j He H1 H3) as (_ & Hea & Hej).
      destruct (Hblock y e2 j He2 H2 H4) as (_ & Hea2 & Hej2). by apply (Ha2 x y e e2 j).
    + intros j Hj. rewrite Hn in Hj. rewrite Hk. destruct (pargs b); [|by apply Ha3].
      rewrite lookup_delete. case_decide; [done|]. by apply Ha3.
  - done.
  - done.
Qed.
