(* ===== verification/ProcExec.v ===== *)
(** * The creation of a process

    [Exec]: a block from the free list, the parent's streams, a copy of the
    arguments and a thread that is ready to run. *)
From S2P Require Import Prelude Bios Sched SchedInv SchedSteps Kernel Devices Streams StreamInv StreamCalls StreamIO StreamProps Proc Threads ProcInv.
Local Open Scope Z_scope.

(** ** The streams of the parent *)
Definition copied (l : list nat) (src dst : list (option nat)) : list (option nat) :=
  foldl (λ d i, <[i := default None (src !! i)]> d) dst l.

Lemma copied_all src dst :
  length src = MAX_FILEID → length dst = MAX_FILEID → copied (seq 0 MAX_FILEID) src dst = src.
Proof.
  unfold MAX_FILEID. intros H1 H2.
  do 16 (destruct src as [|? src]; [done|]; destruct dst as [|? dst]; [done|]).
  destruct src; [|done]. destruct dst; [|done]. reflexivity.
Qed.

Section inherit.
Context (infl : nat → nat) (p q : nat) (bp : PCB).
#[local] Set Default Proof Using "Type*".
Context (Hpq : p ≠ q) (Hsm : ∀ f, Z.of_nat (infl f) + 1 < 2 ^ 31).

Lemma inherit_fid_run s bq i :
  files_ok infl s → PT s !! p = Some bp → PT s !! q = Some bq → FIDT bq !! i = Some None →
  ∃ s', inherit_fid p q i s = Ok (tt, s') ∧ files_ok infl s' ∧ same_rest s s' ∧
    next_buf s' = next_buf s ∧ next_ptcb s' = next_ptcb s ∧
    PT s' = <[q := set_FIDT (<[i := default None (FIDT bp !! i)]> (FIDT bq)) bq]> (PT s).
Proof.
  intros [Hok Hdev] Hp Hq Hi.
  pose proof (fo_length _ _ _ Hok _ _ Hp) as Hlp. pose proof (fo_length _ _ _ Hok _ _ Hq) as Hlq.
  destruct (lookup_lt_is_Some_2 (FIDT bp) i) as [o Ho];
    [rewrite Hlp, <-Hlq; by eapply lookup_lt_Some|].
  unfold inherit_fid. mrun ltac:(by apply get_PCB_run). rewrite (run_some _ _ o) by done.
  mrun ltac:(by apply upd_PCB_run). rewrite Ho. cbn [default from_option id].
  destruct o as [f|].
  - assert (0 < fidt_refs (PT s) f)%nat as Hpos by exact (fidt_refs_pos _ _ _ _ _ Hp Ho).
    destruct (used_block _ _ _ Hok f ltac:(lia)) as (bf & Hbf & _).
    pose proof (used_not_free _ _ _ Hok f ltac:(lia)) as Hnf.
    destruct (incref_run _ _ _ Hok f bf Hbf (Hsm f) Hnf) as [_ Hok1].
    pose proof (refs_bound _ _ _ Hok f) as Hbd.
    destruct (fo_used _ _ _ Hok f bf Hbf Hnf) as [Hrc _].
    unfold FCB_incref. erewrite upd_FCB_run by exact Hbf. rewrite u32_small by lia.
    eexists. split; [reflexivity|]. split_and!; [split|by split|done|done|done].
    + apply (store_ref _ _ _ Hok1 q bq i None (Some f) infl); [done|done| |].
      * intros g. by rewrite add_ref_one.
      * intros g. specialize (Hsm g). lia.
    + pose proof (devices_ok_set [] s f bf (set_refcount (refcount bf + 1) bf) (FCB_freelist s)
        Hdev Hbf eq_refl eq_refl ltac:(done)) as H.
      eapply devices_ok_frame; [..|exact H]; done.
  - eexists. split; [reflexivity|]. split_and!; [|by split|done|done|done].
    split; [|done]. apply (store_ref _ _ _ Hok q bq i None None infl); [done|done|done|].
    intros g. specialize (Hsm g). lia.
Qed.

Lemma inherit_list_run l : ∀ s bq,
  files_ok infl s → PT s !! p = Some bp → PT s !! q = Some bq → NoDup l →
  (∀ i, i ∈ l → FIDT bq !! i = Some None) →
  ∃ s', for_each l (inherit_fid p q) s = Ok (tt, s') ∧ files_ok infl s' ∧ same_rest s s' ∧
    next_buf s' = next_buf s ∧ next_ptcb s' = next_ptcb s ∧
    PT s' = <[q := set_FIDT (copied l (FIDT bp) (FIDT bq)) bq]> (PT s).
Proof.
  induction l as [|i l IH]; intros s bq Hfo Hp Hq Hnd Hl.
  - exists s. split_and!; try done. change (copied [] (FIDT bp) (FIDT bq)) with (FIDT bq).
    assert (set_FIDT (FIDT bq) bq = bq) as -> by (by destruct bq). by rewrite list_insert_id.
  - apply NoDup_cons in Hnd as [Hil Hnd].
    destruct (inherit_fid_run s bq i Hfo Hp Hq (Hl i ltac:(left))) as (s1 & Hr1 & Hfo1 & Hs1 & Hn1 & Hm1 & HP1).
    cbn [for_each]. mrun ltac:(exact Hr1).
    edestruct (IH s1) as (s2 & Hr2 & Hfo2 & Hs2 & Hn2 & Hm2 & HP2);
      [done|by rewrite HP1, list_lookup_insert_ne by done
      |rewrite HP1; apply list_lookup_insert_eq; by eapply lookup_lt_Some|done| |].
    + intros j Hj. simpl. rewrite list_lookup_insert_ne by (intros ->; done). apply Hl. by right.
    + exists s2. split_and!; try done; [by eapply same_rest_trans|congruence|congruence|].
      by rewrite HP2, HP1, list_insert_insert_eq.
Qed.
End inherit.

(** ** The thread *)

(** The new thread of process [q], ready to run, and its PTCB. *)
Record thread_of (s : kernel) (q : nat) (n : ptcb_ptr) (t : tid) (func : thread_entry)
    (call : Task) (argl args : Z) : Prop := ThreadOf {
  th_ptcb : ptcbs s !! n = Some (MkPTCB t false false 0 None call argl args);
  th_tcb : ∃ k, Sched.tcbs (ksched s) !! t = Some k ∧ owner_pcb k = Z.of_nat q ∧
    tcb_ptcb k = Some n ∧ thread_func k = Some func ∧ tcb_state k = READY }.

Definition add_thread (n : ptcb_ptr) (b : PCB) : PCB :=
  set_thread_count (u32 (thread_count b + 1)) (set_thread_list (thread_list b ++ [n]) b).

Lemma spawn_cctx pcb func v t v' : spawn_thread pcb func v = Ok (t, v') → cctx v' = cctx v.
Proof. unfold spawn_thread. mstep. cbv zeta. mstep. intros H. injection H as _ <-. done. Qed.

Lemma new_thread_run s q b func call argl args :
  sched_live s → PT s !! q = Some b →
  ∃ v t, let n := next_ptcb s in
    new_thread q func call argl args s = Ok (n,
      set_ksched v (set_ptcbs (<[n := MkPTCB t false false 0 None call argl args]> (ptcbs s))
        (set_next_ptcb (S n) (ptmap (at_ q (add_thread n)) s)))) ∧
    Sched.tcbs (ksched s) !! t = None ∧
    (∃ k, Sched.tcbs v !! t = Some k ∧ owner_pcb k = Z.of_nat q ∧
       tcb_ptcb k = Some n ∧ thread_func k = Some func ∧ tcb_state k = READY) ∧
    (∃ ms pl, inv v ms pl) ∧
    (∀ u, u ≠ t → Sched.tcbs v !! u = Sched.tcbs (ksched s) !! u) ∧
    cctx v = cctx (ksched s) ∧ is_thr t.
Proof.
  intros [(ms & pl & Hi) _] Hb. set (n := next_ptcb s). unfold new_thread. mstep. fold n.
  mrun ltac:(by eapply upd_ptmap).
  mrun ltac:(eapply upd_ptmap; rewrite ptmap_lookup; simpl; by rewrite Hb).
  rewrite ptmap_ptmap, (ptmap_ext _ (at_ q (add_thread n)))
    by (intros x e _; unfold at_; by case_decide).
  destruct (spawn_run (ksched s) ms pl (Z.of_nat q) func Hi) as (v1 & Hr1 & Hi1 & Ht1).
  mrun ltac:(apply on_ksched_run, Hr1). mstep.
  set (t := Thr (next_tcb (ksched s))) in *. set (k := new_TCB (Z.of_nat q) func) in *.
  assert (Sched.tcbs v1 !! t = Some k) as Hk1 by (by rewrite Ht1, lookup_insert_eq).
  mrun ltac:(apply on_ksched_run; by eapply upd_tcb_run).
  pose proof (inv_role v1 ms _ t k (set_tcb_ptcb (Some n) k) Hi1 Hk1 ltac:(done)) as Hi2.
  set (v2 := set_tcbs _ v1) in *.
  assert (Sched.tcbs v2 !! t = Some (set_tcb_ptcb (Some n) k)) as Hk2 by apply lookup_insert_eq.
  destruct (place_of _ _ _ _ (i_threads _ _ _ Hi2) Hk2) as (pla & Hp & _).
  destruct (make_ready_inv v2 ms _ t _ pla Hi2 Hk2 Hp ltac:(by right)) as (v3 & Hr3 & Hi3 & Hf3 & Ht3 & _).
  assert (wakeup t v2 = Ok (true, v3)) as Hw.
  { unfold wakeup. mrun ltac:(by eapply get_tcb_run).
    rewrite decide_True by (by right). by mrun ltac:(exact Hr3). }
  mrun ltac:(apply on_ksched_run, Hw). exists v3, t. split_and!.
  - reflexivity.
  - by apply (i_fresh _ _ _ Hi).
  - exists (readied (set_tcb_ptcb (Some n) k)). split; [by rewrite Ht3, lookup_insert_eq|done].
  - by eexists _, _.
  - intros u Hu. rewrite Ht3, lookup_insert_ne by done. unfold v2. simpl.
    by rewrite lookup_insert_ne, Ht1, lookup_insert_ne by done.
  - etransitivity; [apply Hf3|]. exact (spawn_cctx _ _ _ _ _ Hr1).
  - done.
Qed.

(** ** The block of the new process *)
Definition newborn (p : nat) (fidt : list (option nat)) (call : Task) (argl : Z) (buf : option nat)
    (b : PCB) : PCB :=
  set_main call argl buf (set_FIDT fidt (set_parent (Some p) (set_thread_count 0 (set_pstate ALIVE b)))).
Definition started (n : option ptcb_ptr) (b : PCB) : PCB :=
  match n with Some n => add_thread n b | None => b end.
Definition exec_block (p q : nat) fidt call argl buf (n : option ptcb_ptr) (x : nat) (b : PCB) : PCB :=
  at_ q (started n) x (at_ p (λ b, set_children_list (q :: children_list b) b) x
    (at_ q (newborn p fidt call argl buf) x b)).

(** [args] can be read for [argl] bytes. *)
Definition args_readable (argl : Z) (args : user_args) : Prop :=
  match args with Some (_, bytes) => 0 ≤ argl ≤ Z.of_nat (length bytes) | None => True end.
Definition new_buf (s : kernel) (args : user_args) : option nat :=
  match args with Some _ => Some (next_buf s) | None => None end.
Definition new_kbufs (s : kernel) (argl : Z) (args : user_args) : gmap nat (list Z) :=
  match args with
  | Some (_, bytes) => <[next_buf s := take (Z.to_nat argl) bytes]> (kbufs s)
  | None => kbufs s
  end.
Definition new_next (s : kernel) (args : user_args) : nat :=
  match args with Some _ => S (next_buf s) | None => next_buf s end.

Lemma copy_args_run s argl args :
  args_readable argl args →
  copy_args argl args s = Ok (new_buf s args, set_kbufs (new_kbufs s argl args) (new_next s args) s).
Proof.
  destruct args as [[ptr bytes]|]; intros Ha; [|by destruct s].
  unfold copy_args, malloc_copy. mstep. by rewrite (decide_True (P := 0 ≤ argl ≤ Z.of_nat (length bytes))) by done.
Qed.

(** The result of [Exec] by process [p] when [q] is the first free block. *)
Record exec_state (p q : nat) (bp bq : PCB) (call : Task) (argl : Z) (args : user_args)
    (s s' : kernel) : Prop := ExecState {
  es_PT : PT s' = imap (exec_block p q (FIDT bp) call argl (new_buf s args)
            (match call with Some _ => Some (next_ptcb s) | None => None end)) (PT s);
  es_free : pcb_freelist s' = parent bq;
  es_count : process_count s' = u32 (process_count s + 1);
  es_kbufs : kbufs s' = new_kbufs s argl args;
  es_next : next_buf s' = new_next s args;
  es_live : sched_live s';
  es_thread : ∀ f, call = Some f → ∃ t, Sched.tcbs (ksched s) !! t = None ∧
    thread_of s' q (next_ptcb s) t start_main_thread_entry call argl (args_ptr args) ∧
    is_thr t ∧ ∀ u, u ≠ t → Sched.tcbs (ksched s') !! u = Sched.tcbs (ksched s) !! u;
  es_ptcbs : ∀ n, n ≠ next_ptcb s → ptcbs s' !! n = ptcbs s !! n;
  es_runs : ∀ d u x, runs_in s d u x → runs_in s' d u x;
  es_none : call = None → ksched s' = ksched s ∧ ptcbs s' = ptcbs s;
  es_ptcb : next_ptcb s' = match call with Some _ => S (next_ptcb s) | None => next_ptcb s end }.

Lemma acquire_PCB_run s q b :
  pcb_freelist s = Some q → PT s !! q = Some b →
  acquire_PCB s = Ok (Some q, set_process_count (u32 (process_count s + 1))
    (set_pcb_freelist (parent b) (ptmap (at_ q (λ b, set_thread_count 0 (set_pstate ALIVE b))) s))).
Proof.
  intros Hq Hb. unfold acquire_PCB. mstep. rewrite Hq.
  mrun ltac:(by eapply upd_ptmap).
  mrun ltac:(eapply upd_ptmap; by rewrite ptmap_lookup, Hb).
  rewrite ptmap_ptmap, (ptmap_ext _ (at_ q (λ b, set_thread_count 0 (set_pstate ALIVE b))))
    by (intros x e _; unfold at_; by case_decide).
  mrun ltac:(apply get_PCB_run; by rewrite ptmap_lookup, Hb). rewrite at_same. reflexivity.
Qed.

Lemma inherit_run infl s c self p q bp bq :
  files_ok infl s → runs_in s c self p → p ≠ q → PT s !! p = Some bp → PT s !! q = Some bq →
  FIDT bq = replicate MAX_FILEID None → (∀ f, Z.of_nat (infl f) + 1 < 2 ^ 31) →
  ∃ s', inherit c q s = Ok (tt, s') ∧ files_ok infl s' ∧ same_rest s s' ∧
    next_buf s' = next_buf s ∧ next_ptcb s' = next_ptcb s ∧
    PT s' = imap (λ x b, at_ p (λ b, set_children_list (q :: children_list b) b) x
      (at_ q (λ b, set_FIDT (FIDT bp) (set_parent (Some p) b)) x b)) (PT s).
Proof.
  intros Hfo Hr Hpq Hp Hq Hfid Hsm. unfold inherit. mrun ltac:(by eapply CURPROC_run).
  mrun ltac:(by eapply upd_ptmap).
  mrun ltac:(eapply upd_ptmap; by rewrite ptmap_lookup, Hp). rewrite ptmap_ptmap.
  set (f := λ x b, at_ p _ x _). set (s1 := ptmap f s).
  destruct (inherit_list_run infl p q (f p bp) Hpq Hsm (seq 0 MAX_FILEID) s1 (f q bq))
    as (s2 & Hr2 & Hfo2 & Hs2 & Hn2 & Hm2 & HP2).
  - apply (files_ok_fids infl s); try done. apply fidt_imap. intros x b _.
    unfold f, at_. by repeat case_decide.
  - unfold s1. by rewrite ptmap_lookup, Hp.
  - unfold s1. by rewrite ptmap_lookup, Hq.
  - apply NoDup_seq.
  - intros i Hi%elem_of_seq. unfold f. rewrite at_ne, at_same by done. simpl. rewrite Hfid.
    apply lookup_replicate_2. lia.
  - exists s2. split_and!; try done.
    + eapply same_rest_trans; [|exact Hs2]. by split.
    + rewrite HP2. rewrite copied_all.
      * rewrite (insert_imap _ _ (f q bq) (set_FIDT (FIDT (f p bp)))) by (unfold s1; by rewrite ptmap_lookup, Hq).
        unfold s1, ptmap. cbn [PT set_PT]. rewrite imap_imap. apply list_eq. intros x.
        rewrite !list_lookup_imap. destruct (PT s !! x); simpl; [|done]. unfold f, at_.
        by repeat case_decide; subst.
      * unfold f. rewrite at_same, at_ne by done. exact (fo_length _ _ _ (proj1 Hfo) _ _ Hp).
      * unfold f. rewrite at_ne, at_same by done. simpl. by rewrite Hfid.
Qed.

Lemma fidt_started p q fidt call argl buf n pt :
  FIDT <$> imap (exec_block p q fidt call argl buf None) pt
  = FIDT <$> imap (exec_block p q fidt call argl buf n) pt.
Proof.
  apply list_eq. intros x. rewrite !list_lookup_fmap, !list_lookup_imap.
  destruct (pt !! x); simpl; [|done]. unfold exec_block, at_, started. by repeat case_decide; destruct n.
Qed.

Lemma exec_none c call argl args s :
  pcb_freelist s = None → sys_Exec c call argl args s = Ok (NOPROC, s).
Proof. intros Hn. unfold sys_Exec, acquire_PCB. mstep. by rewrite Hn. Qed.

Lemma exec_run infl c self p q bp bq call argl args s :
  procs_ok infl s → runs_in s c self p → PT s !! p = Some bp → pstate bp = ALIVE →
  pcb_freelist s = Some q → PT s !! q = Some bq → args_readable argl args →
  (∀ f, Z.of_nat (infl f) + 1 < 2 ^ 31) →
  ∃ s', sys_Exec c call argl args s = Ok (Z.of_nat q, s') ∧ files_ok infl s' ∧
    exec_state p q bp bq call argl args s s'.
Proof.
  intros [Hf (l & Hc & Hnd & Hfl) Ha Hfo Hl] Hr Hp Hal Hq Hbq Hargs Hsm.
  assert (pstate bq = FREE) as Hfree.
  { destruct l as [|x l]; simpl in Hc; [congruence|]. destruct Hc as [Hx _].
    apply (Hfl q bq Hbq). replace x with q by congruence. left. }
  assert (p ≠ q) as Hpq by congruence.
  assert ((q ≤ 1)%nat → False) as Hq1.
  { intros Hle. destruct (fa_init _ Hf q Hle) as (b & Hb & Hst). congruence. }
  unfold sys_Exec. mrun ltac:(by apply (acquire_PCB_run s q bq)).
  set (s1 := set_process_count _ _). cbv beta iota.
  rewrite (decide_False (P := get_pid (Some q) ≤ 1)) by (simpl; lia).
  destruct (inherit_run infl s1 c self p q bp (set_thread_count 0 (set_pstate ALIVE bq)))
    as (s2 & Hr2 & Hfo2 & Hs2 & Hn2 & Hm2 & HP2); try done.
  { apply (files_ok_fids infl s); try done. apply fidt_imap. intros x b _. unfold at_. by case_decide. }
  { unfold s1. cbn. rewrite list_lookup_imap, Hp. simpl. by rewrite at_ne. }
  { unfold s1. cbn. rewrite list_lookup_imap, Hbq. simpl. by rewrite at_same. }
  { by apply (fa_closed _ Hf _ _ Hbq); rewrite Hfree. }
  mrun ltac:(exact Hr2). mrun ltac:(by apply copy_args_run).
  set (s3 := set_kbufs _ _ s2).
  assert (∃ b3, PT s3 !! q = Some b3) as [b3 Hb3].
  { unfold s3. cbn. rewrite HP2, list_lookup_imap. unfold s1. cbn. rewrite list_lookup_imap, Hbq. by eexists. }
  mrun ltac:(by eapply upd_ptmap). set (s4 := ptmap _ s3).
  assert (PT s4 = imap (exec_block p q (FIDT bp) call argl (new_buf s args) None) (PT s)) as HP4.
  { unfold s4, ptmap. cbn [PT set_PT set_kbufs s3]. rewrite HP2. unfold s1. cbn [PT set_PT ptmap set_pcb_freelist set_process_count].
    rewrite !imap_imap. apply list_eq. intros x. rewrite !list_lookup_imap.
    destruct (PT s !! x); simpl; [|done]. unfold new_buf. rewrite Hn2. unfold exec_block, at_, newborn. simpl.
    by repeat case_decide. }
  destruct Hs2 as [Hk2 Hd2 (Hfr2 & Hc2 & Ht2 & Hb2 & Hw2 & _)].
  assert (sched_live s4) as Hl4 by (by eapply sched_live_same; [..|exact Hl]).
  destruct call as [f|].
  - assert (∃ b4, PT s4 !! q = Some b4) as [b4 Hb4] by (unfold s4; rewrite ptmap_lookup, Hb3; by eexists).
    destruct (new_thread_run s4 q b4 start_main_thread_entry (Some f) argl (args_ptr args) Hl4 Hb4)
      as (v & t & Hr5 & Hnew & Htcb & Hinv & Hother & Hcctx & Hthr).
    mstep. mrun ltac:(exact Hr5). mstep. eexists. split; [reflexivity|].
    set (s5 := set_ksched v _).
    assert (PT s5 = imap (exec_block p q (FIDT bp) (Some f) argl (new_buf s args) (Some (next_ptcb s4))) (PT s)) as HP5.
    { unfold s5, ptmap. cbn [PT set_PT set_ksched set_ptcbs set_next_ptcb]. rewrite HP4, imap_imap.
      apply list_eq. intros x. rewrite !list_lookup_imap. destruct (PT s !! x); simpl; [|done].
      unfold exec_block, at_, started. by repeat case_decide. }
    assert (next_ptcb s4 = next_ptcb s) as Hn4 by exact Hm2. rewrite Hn4 in *.
    split; [|split].
    + apply (files_ok_fids infl s2); try done. rewrite HP5, <-(fidt_started p q (FIDT bp) (Some f) argl (new_buf s args) (Some (next_ptcb s))), <-HP4.
      unfold s4, s3, ptmap. cbn. apply fidt_imap. intros x b _. unfold at_. by case_decide.
    + exact HP5.
    + exact Hfr2.
    + exact Hc2.
    + unfold s5, s4, s3. cbn. unfold new_kbufs. by rewrite Hb2, Hn2.
    + unfold s5, s4, s3. cbn. unfold new_next. by rewrite Hn2.
    + split; [done|]. intros ch u Hu. destruct Hl4 as [_ Hw]. specialize (Hw ch u Hu).
      simpl. rewrite Hother; [done|]. intros ->. rewrite Hnew in Hw. by destruct Hw.
    + intros f' [= <-]. exists t. split; [unfold s4, s3 in Hnew; cbn in Hnew; by rewrite Hk2 in Hnew|].
      split; [split; [rewrite <-Hn4; apply lookup_insert_eq|exact Htcb]|]. split; [exact Hthr|].
      intros u Hu. change (Sched.tcbs v !! u = Sched.tcbs (ksched s) !! u). rewrite Hother by done.
      unfold s4, s3. cbn. by rewrite Hk2.
    + intros n Hn. rewrite <-Hn4 in Hn.
      change (<[next_ptcb s4 := MkPTCB t false false 0 None (Some f) argl (args_ptr args)]> (ptcbs s2) !! n = ptcbs s !! n).
      by rewrite lookup_insert_ne, Ht2 by done.
    + intros d u x (cb & k & Hcb & Hcu & Hku & Ho). exists cb, k.
      change (cctx v !! d = Some cb ∧ current_thread cb = u ∧ Sched.tcbs v !! u = Some k ∧ owner_pcb k = Z.of_nat x).
      rewrite Hcctx, Hother; unfold s4, s3; cbn; [by rewrite Hk2|].
      intros ->. unfold s4, s3 in Hnew. cbn in Hnew. rewrite Hk2 in Hnew. unfold s1 in Hnew. cbn in Hnew. congruence.
    + done.
    + unfold s5. cbn. by rewrite <-Hn4.
  - mstep. exists s4. split; [reflexivity|]. split; [|split].
    + apply (files_ok_fids infl s2); try done. unfold s4, s3, ptmap. cbn. apply fidt_imap.
      intros x b _. unfold at_. by case_decide.
    + exact HP4.
    + exact Hfr2.
    + exact Hc2.
    + unfold s4, s3. cbn. unfold new_kbufs. by rewrite Hb2, Hn2.
    + unfold s4, s3. cbn. unfold new_next. by rewrite Hn2.
    + exact Hl4.
    + done.
    + intros n _. cbn. by rewrite Ht2.
    + intros d u x Hdu. unfold runs_in, s4, s3. cbn. rewrite Hk2. exact Hdu.
    + intros _. unfold s4, s3. cbn. by rewrite Hk2, Ht2.
    + unfold s4, s3. cbn. exact Hm2.
Qed.

(** ** The family afterwards *)
Section exec_family.
Context (pt : list PCB) (p q : nat) (bp bq : PCB) (call : Task) (argl : Z) (buf : option nat)
  (n : option ptcb_ptr).
#[local] Set Default Proof Using "Type*".
Context (Hf : family_ok pt) (Hp : pt !! p = Some bp) (Hq : pt !! q = Some bq)
  (Hal : pstate bp = ALIVE) (Hfree : pstate bq = FREE) (Hp0 : p ≠ 0%nat).
Let E := exec_block p q (FIDT bp) call argl buf n.

Lemma exec_ne : p ≠ q.
Proof. congruence. Qed.
Lemma E_pstate x b : pstate (E x b) = if decide (x = q) then ALIVE else pstate b.
Proof. unfold E, exec_block, at_, started. by repeat case_decide; destruct n. Qed.
Lemma E_parent x b : parent (E x b) = if decide (x = q) then Some p else parent b.
Proof. unfold E, exec_block, at_, started. by repeat case_decide; destruct n. Qed.
Lemma E_children x b :
  children_list (E x b) = if decide (x = p) then q :: children_list b else children_list b.
Proof. unfold E, exec_block, at_, started. by repeat case_decide; destruct n. Qed.
Lemma E_exited x b : exited_list (E x b) = exited_list b.
Proof. unfold E, exec_block, at_, started. by repeat case_decide; destruct n. Qed.
Lemma E_FIDT x b : FIDT (E x b) = if decide (x = q) then FIDT bp else FIDT b.
Proof.
  pose proof exec_ne. unfold E, exec_block, at_, started.
  repeat case_decide; subst; try done; by destruct n.
Qed.
Lemma E_pargs x b : pargs (E x b) = if decide (x = q) then buf else pargs b.
Proof. pose proof exec_ne. unfold E, exec_block, at_, started. by repeat case_decide; destruct n. Qed.

Lemma E_lookup x b : pt !! x = Some b → imap E pt !! x = Some (E x b).
Proof. intros Hb. by rewrite list_lookup_imap, Hb. Qed.
Lemma E_old x b : pt !! x = Some b → pstate b ≠ FREE → x ≠ q.
Proof. intros Hb Hst ->. congruence. Qed.

Lemma exec_rooted x : rooted pt x → rooted (imap E pt) x.
Proof.
  induction 1 as [x b Hb Hst Hpa|x y b Hb Hst Hpa Hr IH]; pose proof (E_old _ _ Hb Hst) as Hx.
  - apply (rooted_root _ x (E x b)); [by apply E_lookup|rewrite E_pstate|rewrite E_parent];
      by rewrite decide_False.
  - apply (rooted_child _ x y (E x b)); [by apply E_lookup|rewrite E_pstate|rewrite E_parent|done];
      by rewrite decide_False.
Qed.

(** Membership in the new table, for a block of the old one or the new process. *)
Lemma E_find y x (P : pid_state → Prop) :
  (∃ k, imap E pt !! y = Some k ∧ P (pstate k) ∧ parent k = Some x) ↔
  (y = q ∧ x = p ∧ P ALIVE) ∨ (y ≠ q ∧ ∃ k, pt !! y = Some k ∧ P (pstate k) ∧ parent k = Some x).
Proof.
  split.
  - intros (k & Hk & HP & Hpa). apply imap_lookup_Some in Hk as (k0 & Hk0 & ->).
    rewrite E_pstate in HP. rewrite E_parent in Hpa. destruct (decide (y = q)); [left|right].
    + split_and!; [done|congruence|done].
    + split; [done|]. by exists k0.
  - intros [(-> & -> & HP)|(Hy & k & Hk & HP & Hpa)].
    + exists (E q bq). split; [by apply E_lookup|]. rewrite E_pstate, E_parent. by rewrite !decide_True.
    + exists (E y k). split; [by apply E_lookup|]. rewrite E_pstate, E_parent. by rewrite !decide_False.
Qed.

Lemma exec_family_ok : family_ok (imap E pt).
Proof.
  assert (∀ x b y, pt !! x = Some b → y ∈ children_list b → y ≠ q) as Hkids.
  { intros x b y Hb Hy. apply (fa_children _ Hf _ _ Hb) in Hy as (k & Hk & Hst & _). by eapply E_old. }
  split.
  - intros x b' (b & Hb & ->)%imap_lookup_Some. rewrite E_children.
    destruct (fa_children _ Hf _ _ Hb) as [Hnd Hin]. split.
    + case_decide; [|done]. apply NoDup_cons. split; [|done]. intros Hy. by apply (Hkids _ _ _ Hb) in Hy.
    + intros y. rewrite (E_find y x (λ st, st ≠ FREE)), <-Hin. pose proof (Hkids x b y Hb).
      case_decide; rewrite ?elem_of_cons; [|by intuition congruence].
      destruct (decide (y = q)); intuition congruence.
  - intros x b' (b & Hb & ->)%imap_lookup_Some. rewrite E_exited.
    destruct (fa_exited _ Hf _ _ Hb) as [Hnd Hin]. split; [done|]. intros y.
    rewrite (E_find y x (λ st, st = ZOMBIE)), <-Hin.
    pose proof (exited_children _ _ _ Hf Hb y). pose proof (Hkids x b y Hb). intuition congruence.
  - intros y k x Hk Hst Hpa.
    assert (∃ k, imap E pt !! y = Some k ∧ pstate k ≠ FREE ∧ parent k = Some x) as Hex by (by exists k).
    apply (E_find y x (λ st, st ≠ FREE)) in Hex as [(_ & -> & _)|(_ & k0 & Hk0 & Hst0 & Hp0')].
    + split; [done|]. exists (E p bp). split; [by apply E_lookup|]. rewrite E_pstate.
      rewrite decide_False; [done|apply exec_ne].
    + destruct (fa_parent _ Hf _ _ _ Hk0 Hst0 Hp0') as (Hx0 & b & Hb & Ha). split; [done|].
      exists (E x b). split; [by apply E_lookup|]. rewrite E_pstate. by case_decide.
  - intros x b' (b & Hb & ->)%imap_lookup_Some Hst. rewrite E_pstate in Hst.
    destruct (decide (x = q)) as [->|Hx].
    + apply (rooted_child _ q p (E q b)); [by apply E_lookup|rewrite E_pstate|rewrite E_parent|].
      * by rewrite decide_True.
      * by rewrite decide_True.
      * apply exec_rooted, (fa_rooted _ Hf p bp Hp). congruence.
    + apply exec_rooted. by eapply (fa_rooted _ Hf).
  - intros x b' (b & Hb & ->)%imap_lookup_Some Hst. rewrite E_pstate in Hst. rewrite E_parent.
    destruct (decide (x = q)) as [->|Hx]; [|by apply (fa_roots _ Hf)].
    split; [done|]. intros Hle. destruct (fa_init _ Hf q Hle) as (b1 & Hb1 & Hst1). congruence.
  - intros x Hx. destruct (fa_init _ Hf x Hx) as (b & Hb & Hst). exists (E x b).
    split; [by apply E_lookup|]. rewrite E_pstate. by case_decide.
  - intros x b' (b & Hb & ->)%imap_lookup_Some Hst. rewrite E_pstate in Hst. rewrite E_FIDT.
    case_decide; [done|]. by apply (fa_closed _ Hf _ _ Hb).
Qed.

Lemma exec_free : freelist_ok pt (Some q) → freelist_ok (imap E pt) (parent bq).
Proof.
  intros ([|x l] & Hc & Hnd & Hin); [done|]. destruct Hc as ([= <-] & b & Hb & Hc).
  assert (b = bq) as -> by congruence. apply NoDup_cons in Hnd as [Hql Hnd].
  exists l. split; [|split; [done|]].
  - eapply free_chain_ext; [|exact Hc]. intros x e Hx He. exists (E x e).
    split; [by apply E_lookup|]. rewrite E_parent. rewrite decide_False; [done|by intros ->].
  - intros x b' (b & Hb' & ->)%imap_lookup_Some. rewrite E_pstate. pose proof (Hin x b Hb') as Hx.
    rewrite elem_of_cons in Hx. destruct (decide (x = q)) as [->|Hne]; [by split|].
    rewrite <-Hx. split; [auto|]. by intros [?|?].
Qed.
End exec_family.

Lemma exec_keeps infl p q bp bq call argl args s s' :
  procs_ok infl s → PT s !! p = Some bp → pstate bp = ALIVE → p ≠ 0%nat →
  pcb_freelist s = Some q → PT s !! q = Some bq →
  files_ok infl s' → exec_state p q bp bq call argl args s s' → procs_ok infl s'.
Proof.
  intros [Hf Hfree Ha _ _] Hp Hal Hp0 Hq Hbq Hfo [HP Hfr _ Hkb Hnb Hl _ _ _].
  assert (pstate bq = FREE) as Hst.
  { destruct Hfree as ([|x l] & Hc & _ & Hfl); simpl in Hc; [congruence|]. destruct Hc as [Hx _].
    apply (Hfl q bq Hbq). replace x with q by congruence. left. }
  assert (kbufs s !! next_buf s = None) as Hfresh by (by apply (ar_fresh _ Ha)).
  assert (∀ k l, kbufs s !! k = Some l → kbufs s' !! k = Some l ∧ k ≠ next_buf s) as Hkeep.
  { intros k l Hk. assert (k ≠ next_buf s) as Hne by congruence. split; [|done]. rewrite Hkb.
    unfold new_kbufs. destruct args as [[]|]; [|done]. by rewrite lookup_insert_ne. }
  split.
  - rewrite HP. by eapply exec_family_ok.
  - rewrite HP, Hfr. apply exec_free; try done. by rewrite <-Hq.
  - split.
    + intros x b' k. rewrite HP. intros (b & Hb & ->)%imap_lookup_Some.
      rewrite (E_pstate (PT s) p q bp bq), (E_pargs (PT s) p q bp bq) by done. case_decide; intros H1 H2.
      * rewrite Hkb. unfold new_buf, new_kbufs in *. destruct args as [[]|]; [|done].
        injection H2 as <-. rewrite lookup_insert_eq. by eexists.
      * destruct (ar_live _ Ha _ _ _ Hb H1 H2) as [l Hlv]. exists l. by apply Hkeep.
    + intros x y b' e' k. rewrite HP.
      intros (b & Hb & ->)%imap_lookup_Some (e & He & ->)%imap_lookup_Some.
      rewrite !(E_pstate (PT s) p q bp bq), !(E_pargs (PT s) p q bp bq) by done.
      unfold new_buf. intros H1 H2 H3 H4.
      destruct (decide (x = q)) as [->|Hx], (decide (y = q)) as [->|Hy]; [done| | |].
      * destruct (ar_live _ Ha _ _ _ He H2 H4) as [l Hlv]. destruct args; simplify_eq/=.
      * destruct (ar_live _ Ha _ _ _ Hb H1 H3) as [l Hlv]. destruct args; simplify_eq/=.
      * by apply (ar_own _ Ha x y b e k).
    + intros k Hk. rewrite Hnb in Hk. rewrite Hkb. unfold new_next, new_kbufs in *.
      destruct args as [[]|]; [rewrite lookup_insert_ne by lia|]; apply (ar_fresh _ Ha); lia.
  - done.
  - done.
Qed.
