(* ===== verification/World.v ===== *)
(** * The kernel as one system

    Process calls ([Exec], [WaitChild] and the end of a process) and stream calls,
    by any threads of any processes, interleaved with one another and with the
    scheduler.  A call runs with the kernel locked, from its start or from the end
    of a wait to its return or its next wait; that is one step. *)
From S2P Require Import Prelude Bios Sched SchedInv SchedSteps Kernel Devices Streams StreamInv StreamCalls StreamIO StreamProps Proc Threads ProcInv ProcExit ProcExec.
Local Open Scope Z_scope.

(** ** The states

    [wheld]: the references that waiting [Read]s and [Write]s hold; [wwaits]: where
    the waiting [WaitChild]s go on. *)
Record world := World { wk : kernel; wheld : list nat; wwaits : list wait_point }.

Definition waiter (w : wait_point) : nat := match w with ForChild p _ => p | ForAny p => p end.

Inductive proc_call :=
  | Exec (call : Task) (argl : Z) (args : user_args)
  | WaitChild (cpid : Z)
  | WaitMore (w : wait_point)        (** after a wait *)
  | EndProcess (v : Z).              (** in the [ThreadExit] of the last thread *)

Inductive proc_result := Pid (pid : Z) | Wait (r : wait_result) | Gone.

Definition exec_proc (c p : nat) (op : proc_call) : KM proc_result :=
  match op with
  | Exec call argl args => pid ← sys_Exec c call argl args; mret (Pid pid)
  | WaitChild cpid => r ← sys_WaitChild c cpid; mret (Wait r)
  | WaitMore w => r ← wait_resume c w; mret (Wait r)
  | EndProcess v => exit_process p v ;; mret Gone
  end.

(** A thread runs in a live process that is not the idle one. *)
Definition in_process (s : kernel) (p : nat) : Prop :=
  p ≠ 0%nat ∧ ∃ b, PT s !! p = Some b ∧ pstate b = ALIVE.

(** What the calls assume.  At most one thread of a process waits for a child at a
    time (with two, a block can be freed twice: [ProcProps.v]); a process does not
    end while one of its threads waits; init ends after its children, as [Exit]
    makes sure. *)
Definition proc_ok (x : world) (p : nat) (op : proc_call) : Prop :=
  match op with
  | Exec _ argl args => args_readable argl args
  | WaitChild cpid =>
      (∀ w, w ∈ wwaits x → waiter w ≠ p) ∧
      (MAX_PROC ≤ cpid ∨ cpid < Z.of_nat (length (PT (wk x))))
  | WaitMore w => w ∈ wwaits x ∧ waiter w = p
  | EndProcess _ =>
      (∀ w, w ∈ wwaits x → waiter w ≠ p) ∧
      (p = 1%nat → ∀ b, PT (wk x) !! p = Some b → children_list b = [])
  end.

Definition next_waits (op : proc_call) (p : nat) (r : proc_result) (l : list wait_point)
  : list wait_point :=
  match op, r with
  | WaitChild _, Wait (Waiting w) => w :: l
  | WaitMore _, Wait (Reaped _ _) => filter (λ w, waiter w ≠ p) l
  | _, _ => l
  end.

Definition few_calls (x : world) : Prop := Z.of_nat (length (wheld x)) + 1 < 2 ^ 31.

Inductive world_step (x : world) : world → Prop :=
  | do_proc c self p op r s' :
      can_call (wk x) c self p → in_process (wk x) p → proc_ok x p op → few_calls x →
      exec_proc c p op (wk x) = Ok (r, s') →
      world_step x (World s' (wheld x) (next_waits op p r (wwaits x)))
  | do_stream c self p call r s' :
      can_call (wk x) c self p → in_process (wk x) p → call_ok (wheld x) call → few_calls x →
      terms_ok (wk x) →
      exec_call c call (wk x) = Ok (r, s') →
      world_step x (World s' (next_held call r (wheld x)) (wwaits x))
  | do_sched v l :      (** the scheduler runs; timeouts may empty rings *)
      let s' := set_ksched v (set_waiting l (wk x)) in
      sched_live s' → world_step x (World s' (wheld x) (wwaits x)).

(** ** The invariant *)
Definition wait_ok (pt : list PCB) (w : wait_point) : Prop :=
  (∃ b, pt !! waiter w = Some b ∧ pstate b = ALIVE) ∧
  match w with
  | ForChild p q => ∃ k, pt !! q = Some k ∧ pstate k ≠ FREE ∧ parent k = Some p
  | ForAny _ => True
  end.

Record world_ok (x : world) : Prop := WorldOk {
  w_procs : procs_ok (holds (wheld x)) (wk x);
  w_nodup : NoDup (waiter <$> wwaits x);
  w_waits : ∀ w, w ∈ wwaits x → wait_ok (PT (wk x)) w }.

Lemma sched_live_kept s s' : sched_live s → kept s s' → sched_live s'.
Proof.
  intros [Hi Hw] Hk. split; [by apply (kp_inv _ _ Hk)|]. intros ch t Ht.
  destruct (kp_wait _ _ Hk _ _ Ht) as [Ht'|]; [|done]. apply (kp_tcbs _ _ Hk). by eapply Hw.
Qed.

Lemma args_ok_same s s' : PT s' = PT s → kbufs s' = kbufs s → next_buf s' = next_buf s →
  args_ok s → args_ok s'.
Proof. intros HP Hk Hn [H1 H2 H3]. split; rewrite ?HP, ?Hk, ?Hn; done. Qed.

(** A call that waits changes rings and the scheduler only. *)
Lemma procs_ok_sched infl s s' :
  PT s' = PT s → FT s' = FT s → FCB_freelist s' = FCB_freelist s → devnum s' = devnum s →
  kbufs s' = kbufs s → next_buf s' = next_buf s → pcb_freelist s' = pcb_freelist s →
  sched_live s' → procs_ok infl s → procs_ok infl s'.
Proof.
  intros HP HF HL HD Hk Hn Hfr Hl [H1 H2 H3 H4 H5].
  split; [by rewrite HP|by rewrite HP, Hfr|by eapply args_ok_same| |done].
  eapply files_ok_fids; [|done..|exact H4]. by rewrite HP.
Qed.

Lemma wait_keeps infl s c self p ch :
  procs_ok infl s → can_call s c self p →
  ∃ s', kernel_wait ch c s = Ok (tt, s') ∧ procs_ok infl s' ∧ PT s' = PT s.
Proof.
  intros Hpr Hc. destruct (kernel_wait_run s c self p ch Hc) as (k & Hr & _ & _ & Hk).
  eexists. split; [exact Hr|]. split; [|done].
  eapply procs_ok_sched; [..|exact Hpr]; try done. eapply sched_live_kept; [apply Hpr|done].
Qed.

(** ** Waiting for children *)
Section waiting.
Context (infl : nat → nat) (s : kernel) (c : nat) (self : tid) (p : nat).
#[local] Set Default Proof Using "Type*".
Context (Hpr : procs_ok infl s) (Hc : can_call s c self p).

Lemma wait_specific_run q k :
  PT s !! q = Some k → pstate k ≠ FREE → parent k = Some p →
  if decide (pstate k = ALIVE)
  then ∃ s', wait_specific_loop c p q s = Ok (Waiting (ForChild p q), s') ∧
    procs_ok infl s' ∧ PT s' = PT s
  else wait_specific_loop c p q s = Ok (Reaped (Z.of_nat q) (Some (exitval k)), reaped q s) ∧
    procs_ok infl (reaped q s).
Proof.
  intros Hk Hst Hp. unfold wait_specific_loop. mrun ltac:(by apply get_PCB_run).
  destruct (decide (pstate k = ALIVE)).
  - destruct (wait_keeps infl s c self p (ChildExit p) Hpr Hc) as (s' & Hr & Hpr' & HP).
    mrun ltac:(exact Hr). by exists s'.
  - mrun ltac:(by apply cleanup_run). split; [done|]. eapply reap_ok; try done.
    by destruct (pstate k).
Qed.

Lemma wait_any_run b :
  PT s !! p = Some b →
  match exited_list b with
  | [] => ∃ s', wait_any_loop c p s = Ok (Waiting (ForAny p), s') ∧ procs_ok infl s' ∧ PT s' = PT s
  | q :: _ => ∃ k, PT s !! q = Some k ∧ pstate k = ZOMBIE ∧ parent k = Some p ∧
      wait_any_loop c p s = Ok (Reaped (Z.of_nat q) (Some (exitval k)), reaped q s) ∧
      procs_ok infl (reaped q s)
  end.
Proof.
  intros Hb. unfold wait_any_loop. mrun ltac:(by apply get_PCB_run).
  destruct (exited_list b) as [|q l] eqn:He.
  - destruct (wait_keeps infl s c self p (ChildExit p) Hpr Hc) as (s' & Hr & Hpr' & HP).
    mrun ltac:(exact Hr). by exists s'.
  - assert (q ∈ exited_list b) as Hq by (rewrite He; left).
    apply (fa_exited _ (pr_family _ _ Hpr) _ _ Hb) in Hq as (k & Hk & Hz & Hp).
    exists k. split_and!; [done|done|done| |by eapply reap_ok].
    mrun ltac:(by apply get_PCB_run). rewrite run_assert by (by apply bool_decide_true).
    by mrun ltac:(by apply cleanup_run).
Qed.
End waiting.

(** The block of [cpid], if it is a child of process [p]. *)
Definition child_of (s : kernel) (p : nat) (cpid : Z) : option PCB :=
  if decide (0 ≤ cpid < MAX_PROC) then
    match PT s !! Z.to_nat cpid with
    | Some k => if decide (pstate k ≠ FREE ∧ parent k = Some p) then Some k else None
    | None => None
    end
  else None.

(** What a [WaitChild] of process [p] comes to: [q] is a child, with block [k]. *)
Definition reaps (s : kernel) (q : nat) (k : PCB) (r : wait_result) (s' : kernel) : Prop :=
  pstate k = ZOMBIE ∧ r = Reaped (Z.of_nat q) (Some (exitval k)) ∧ s' = reaped q s.
Definition waits_at (s : kernel) (w : wait_point) (r : wait_result) (s' : kernel) : Prop :=
  r = Waiting w ∧ PT s' = PT s ∧ pcb_freelist s' = pcb_freelist s.

Definition wait_spec (s : kernel) (p : nat) (b : PCB) (cpid : Z) (r : wait_result) (s' : kernel)
  : Prop :=
  if decide (cpid = NOPROC) then
    match children_list b, exited_list b with
    | [], _ => r = Reaped NOPROC None ∧ s' = s
    | _ :: _, [] => waits_at s (ForAny p) r s'
    | _ :: _, q :: _ => ∃ k, PT s !! q = Some k ∧ parent k = Some p ∧ reaps s q k r s'
    end
  else
    match child_of s p cpid with
    | None => r = Reaped NOPROC None ∧ s' = s
    | Some k =>
        if decide (pstate k = ALIVE) then waits_at s (ForChild p (Z.to_nat cpid)) r s'
        else reaps s (Z.to_nat cpid) k r s'
    end.

Section wait_child.
Context (infl : nat → nat) (s : kernel) (c : nat) (self : tid) (p : nat) (b : PCB).
#[local] Set Default Proof Using "Type*".
Context (Hpr : procs_ok infl s) (Hc : can_call s c self p) (Hb : PT s !! p = Some b).

Lemma wait_keeps_free ch s' : kernel_wait ch c s = Ok (tt, s') → pcb_freelist s' = pcb_freelist s.
Proof.
  intros Hr. destruct (kernel_wait_run s c self p ch Hc) as (k & Hr' & _).
  rewrite Hr in Hr'. by simplify_eq.
Qed.

Lemma specific_run q k :
  PT s !! q = Some k → pstate k ≠ FREE → parent k = Some p →
  ∃ r s', wait_specific_loop c p q s = Ok (r, s') ∧ procs_ok infl s' ∧
    if decide (pstate k = ALIVE) then waits_at s (ForChild p q) r s' else reaps s q k r s'.
Proof.
  intros Hk Hst Hp. pose proof (wait_specific_run infl s c self p Hpr Hc q k Hk Hst Hp) as H.
  destruct (decide (pstate k = ALIVE)) as [Hal|Hz].
  - destruct H as (s' & Hr & Hpr' & HP). exists (Waiting (ForChild p q)), s'. do 4 (split; [done|]).
    revert Hr. unfold wait_specific_loop. mrun ltac:(by apply get_PCB_run). rewrite decide_True by done.
    intros ([] & s1 & Hr & [= ->])%bind_Ok. by eapply wait_keeps_free.
  - destruct H as [Hr Hpr']. eexists _, _. split; [exact Hr|]. split; [done|]. split; [by destruct (pstate k)|done].
Qed.

Lemma any_run :
  ∃ r s', wait_any_loop c p s = Ok (r, s') ∧ procs_ok infl s' ∧
    match exited_list b with
    | [] => waits_at s (ForAny p) r s'
    | q :: _ => ∃ k, PT s !! q = Some k ∧ parent k = Some p ∧ reaps s q k r s'
    end.
Proof.
  pose proof (wait_any_run infl s c self p Hpr Hc b Hb) as H.
  destruct (exited_list b) as [|q l] eqn:He.
  - destruct H as (s' & Hr & Hpr' & HP). exists (Waiting (ForAny p)), s'. do 4 (split; [done|]).
    revert Hr. unfold wait_any_loop. mrun ltac:(by apply get_PCB_run). rewrite He.
    intros ([] & s1 & Hr & [= ->])%bind_Ok. by eapply wait_keeps_free.
  - destruct H as (k & Hk & Hz & Hp & Hr & Hpr'). eexists _, _. split_and!; [exact Hr|done|].
    by exists k.
Qed.

Lemma wait_child_run cpid :
  MAX_PROC ≤ cpid ∨ cpid < Z.of_nat (length (PT s)) →
  ∃ r s', sys_WaitChild c cpid s = Ok (r, s') ∧ procs_ok infl s' ∧ wait_spec s p b cpid r s'.
Proof.
  intros Hpid. unfold sys_WaitChild, wait_spec. destruct (decide (cpid = NOPROC)) as [->|Hne].
  - rewrite (decide_False (P := NOPROC ≠ NOPROC)) by tauto. unfold wait_for_any_child.
    mrun ltac:(eapply CURPROC_run, Hc). mrun ltac:(by apply get_PCB_run).
    destruct (children_list b) as [|y l]; [by eexists _, s|].
    destruct any_run as (r & s' & Hr & Hpr' & H). exists r, s'. split; [done|]. split; [done|].
    by destruct (exited_list b).
  - rewrite (decide_True (P := cpid ≠ NOPROC)) by done. unfold wait_for_specific_child, child_of.
    destruct (decide (cpid < 0 ∨ MAX_PROC ≤ cpid)) as [Hout|Hin].
    + rewrite decide_False by lia. by eexists _, s.
    + rewrite (decide_True (P := 0 ≤ cpid < MAX_PROC)) by lia.
      mrun ltac:(eapply CURPROC_run, Hc).
      destruct (lookup_lt_is_Some_2 (PT s) (Z.to_nat cpid)) as [k Hk]; [lia|]. rewrite Hk.
      assert (get_pcb (Z.to_nat cpid) s = Ok (if decide (pstate k = FREE) then None else Some (Z.to_nat cpid), s))
        as Hg by (unfold get_pcb; by mrun ltac:(by apply get_PCB_run)).
      mrun ltac:(exact Hg). destruct (decide (pstate k = FREE)) as [Hf|Hnf].
      { rewrite decide_False by tauto. by eexists _, s. }
      mrun ltac:(by apply get_PCB_run). destruct (decide (parent k ≠ Some p)) as [Hp|Hp].
      { rewrite decide_False by tauto. by eexists _, s. }
      assert (parent k = Some p) as Hp' by (destruct (decide (parent k = Some p)); tauto).
      rewrite decide_True by done. by apply specific_run.
Qed.

Lemma wait_more_run w :
  wait_ok (PT s) w → waiter w = p →
  ∃ r s', wait_resume c w s = Ok (r, s') ∧ procs_ok infl s' ∧
    match w with
    | ForChild _ q => ∃ k, PT s !! q = Some k ∧ parent k = Some p ∧
        if decide (pstate k = ALIVE) then waits_at s w r s' else reaps s q k r s'
    | ForAny _ =>
        match exited_list b with
        | [] => waits_at s w r s'
        | q :: _ => ∃ k, PT s !! q = Some k ∧ parent k = Some p ∧ reaps s q k r s'
        end
    end.
Proof.
  intros [_ Hw] Hwp. destruct w as [p' q|p']; simpl in Hwp; subst p'; simpl.
  - destruct Hw as (k & Hk & Hst & Hp). destruct (specific_run q k Hk Hst Hp) as (r & s' & Hr & Hpr' & H).
    exists r, s'. split_and!; try done. by exists k.
  - apply any_run.
Qed.
End wait_child.

(** ** The waits stay valid *)

(** [pt'] keeps live processes alive, except for [p], and the children of processes
    other than [p]. *)
Lemma waits_kept pt pt' p (l : list wait_point) :
  (∀ x b, pt !! x = Some b → pstate b = ALIVE → x ≠ p → ∃ b', pt' !! x = Some b' ∧ pstate b' = ALIVE) →
  (∀ y k x, pt !! y = Some k → pstate k ≠ FREE → parent k = Some x → x ≠ p →
     ∃ k', pt' !! y = Some k' ∧ pstate k' ≠ FREE ∧ parent k' = Some x) →
  (∀ w, w ∈ l → wait_ok pt w ∧ waiter w ≠ p) → ∀ w, w ∈ l → wait_ok pt' w.
Proof.
  intros Ha Hk Hl w Hw. destruct (Hl w Hw) as [[(b & Hb & Hst) Hc] Hne]. split; [by eapply Ha|].
  destruct w as [x q|x]; [|done]. destruct Hc as (k & Hq & Hnf & Hp). by eapply Hk.
Qed.

(** As [waits_kept], when live processes stay alive and children stay children. *)
Lemma waits_kept_all pt pt' (l : list wait_point) :
  (∀ x b, pt !! x = Some b → pstate b = ALIVE → ∃ b', pt' !! x = Some b' ∧ pstate b' = ALIVE) →
  (∀ y k x, pt !! y = Some k → pstate k ≠ FREE → parent k = Some x →
     ∃ k', pt' !! y = Some k' ∧ pstate k' ≠ FREE ∧ parent k' = Some x) →
  (∀ w, w ∈ l → wait_ok pt w) → ∀ w, w ∈ l → wait_ok pt' w.
Proof.
  intros Ha Hk Hl w Hw. destruct (Hl w Hw) as [(b & Hb & Hst) Hc]. split; [by eapply Ha|].
  destruct w as [x q|x]; [|done]. destruct Hc as (k & Hq & Hnf & Hp). by eapply Hk.
Qed.

Lemma reaped_waits s q k p (l : list wait_point) :
  PT s !! q = Some k → pstate k = ZOMBIE → parent k = Some p →
  (∀ w, w ∈ l → wait_ok (PT s) w ∧ waiter w ≠ p) → ∀ w, w ∈ l → wait_ok (PT (reaped q s)) w.
Proof.
  intros Hk Hz Hp. apply waits_kept.
  - intros x b Hb Hal _. assert (x ≠ q) as Hx by congruence. eexists.
    split; [unfold reaped; simpl; by rewrite list_lookup_imap, Hb|].
    by destruct (reap_other (pcb_freelist s) q x b Hx) as [-> _].
  - intros y e x He Hst Hpe Hxp. assert (y ≠ q) as Hy by congruence. eexists.
    split; [unfold reaped; simpl; by rewrite list_lookup_imap, He|].
    by destruct (reap_other (pcb_freelist s) q y e Hy) as [-> ->].
Qed.

Lemma exec_waits p q bp bq call argl args s s' (l : list wait_point) :
  PT s !! q = Some bq → pstate bq = FREE → exec_state p q bp bq call argl args s s' →
  (∀ w, w ∈ l → wait_ok (PT s) w) → ∀ w, w ∈ l → wait_ok (PT s') w.
Proof.
  intros Hq Hf He. apply waits_kept_all; rewrite (es_PT _ _ _ _ _ _ _ _ _ He).
  - intros x b Hb Hal. eexists. split; [by rewrite list_lookup_imap, Hb|].
    unfold exec_block, at_, started. by repeat case_decide; destruct call.
  - intros y k x Hk Hst Hpa. assert (y ≠ q) as Hy by congruence. eexists.
    split; [by rewrite list_lookup_imap, Hk|].
    unfold exec_block, at_, started. by repeat case_decide; destruct call.
Qed.

Lemma exit_waits p v b pt (l : list wait_point) :
  family_ok pt → pt !! p = Some b → pstate b = ALIVE → (p = 1%nat → children_list b = []) →
  (∀ w, w ∈ l → wait_ok pt w ∧ waiter w ≠ p) → ∀ w, w ∈ l → wait_ok (imap (exit_block p v b) pt) w.
Proof.
  intros Hf Hb Hal Hp1. apply waits_kept.
  - intros x e He' Hst Hx. eexists. split; [by rewrite list_lookup_imap, He'|].
    rewrite (G_pstate pt) by done. by rewrite decide_False.
  - intros y k x Hk Hst Hpa Hx. eexists. split; [by rewrite list_lookup_imap, Hk|].
    split; [by apply (G_nonfree pt)|]. rewrite (G_parent pt) by done.
    rewrite decide_False; [done|]. intros (k' & Hk' & _ & Hp')%(fa_children _ Hf _ _ Hb). congruence.
Qed.

Lemma waits_distinct x p w :
  world_ok x → w ∈ wwaits x → waiter w = p →
  ∀ w', w' ∈ filter (λ w, waiter w ≠ p) (wwaits x) → wait_ok (PT (wk x)) w' ∧ waiter w' ≠ p.
Proof. intros Hx Hw Hp w' [Hne Hin]%list_elem_of_filter. split; [by apply (w_waits _ Hx)|done]. Qed.

Lemma nodup_filter (l : list wait_point) p :
  NoDup (waiter <$> l) → NoDup (waiter <$> filter (λ w, waiter w ≠ p) l).
Proof.
  induction l as [|w l IH]; intros Hnd; [constructor|]. rewrite fmap_cons in Hnd.
  apply NoDup_cons in Hnd as [Hn Hnd]. rewrite filter_cons. case_decide; [|by apply IH].
  rewrite fmap_cons. apply NoDup_cons. split; [|by apply IH].
  intros (w' & Hw & [_ Hin]%list_elem_of_filter)%list_elem_of_fmap. apply Hn.
  apply list_elem_of_fmap. by exists w'.
Qed.

Lemma few_small x : few_calls x → ∀ f, Z.of_nat (holds (wheld x) f) + 1 < 2 ^ 31.
Proof. unfold few_calls. intros Hx f. pose proof (holds_le (wheld x) f). lia. Qed.

(** Processes that are alive stay alive. *)
Definition alive_kept (pt pt' : list PCB) : Prop :=
  ∀ x b, pt !! x = Some b → pstate b = ALIVE → ∃ b', pt' !! x = Some b' ∧ pstate b' = ALIVE.
Lemma alive_kept_refl pt : alive_kept pt pt.
Proof. intros x b Hb Hal. by exists b. Qed.
Lemma reaped_alive s q k : PT s !! q = Some k → pstate k = ZOMBIE → alive_kept (PT s) (PT (reaped q s)).
Proof.
  intros Hk Hz x b Hb Hal. assert (x ≠ q) as Hx by congruence. eexists.
  split; [unfold reaped; simpl; by rewrite list_lookup_imap, Hb|].
  by destruct (reap_other (pcb_freelist s) q x b Hx) as [-> _].
Qed.
Lemma waited_alive s w r s' :
  (r = Reaped NOPROC None ∧ s' = s) ∨ waits_at s w r s' ∨ (∃ q k p, PT s !! q = Some k ∧ parent k = Some p ∧ reaps s q k r s') →
  alive_kept (PT s) (PT s').
Proof.
  intros [[_ ->]|[(_ & -> & _)|(q & k & p & Hk & _ & Hz & _ & ->)]];
    [apply alive_kept_refl..|by eapply reaped_alive].
Qed.
Lemma exec_alive p q bq call argl args s s' bp :
  PT s !! q = Some bq → pstate bq = FREE → exec_state p q bp bq call argl args s s' → alive_kept (PT s) (PT s').
Proof.
  intros Hq Hf He x b Hb Hal. rewrite (es_PT _ _ _ _ _ _ _ _ _ He), list_lookup_imap, Hb. eexists. split; [done|].
  unfold exec_block, at_, started. by repeat case_decide; destruct call.
Qed.

(** ** Every call succeeds and keeps the invariant *)
Lemma exec_step_ok x c self p call argl args :
  world_ok x → can_call (wk x) c self p → in_process (wk x) p → args_readable argl args →
  few_calls x →
  ∃ pid s', sys_Exec c call argl args (wk x) = Ok (pid, s') ∧ world_ok (World s' (wheld x) (wwaits x)).
Proof.
  intros Hx Hc (Hp0 & bp & Hp & Hal) Hargs Hfew. destruct (pcb_freelist (wk x)) as [q|] eqn:Hq.
  - pose proof Hx as [Hpr Hnd Hw]. pose proof (pr_free _ _ Hpr) as ([|y l] & Hch & _ & Hfl);
      simpl in Hch; [congruence|]. destruct Hch as (Hy & bq & Hbq & _).
    assert (y = q) as -> by congruence.
    assert (pstate bq = FREE) as Hst by (apply (Hfl q bq Hbq); left).
    destruct (exec_run _ c self p q bp bq call argl args (wk x) Hpr (cc_runs _ _ _ _ Hc) Hp Hal Hq Hbq
      Hargs (few_small x Hfew)) as (s' & Hr & Hfo & He).
    exists (Z.of_nat q), s'. split; [done|]. split; cbn [wk wheld wwaits]; [|done|].
    + by apply (exec_keeps _ p q bp bq call argl args (wk x)).
    + by eapply exec_waits.
  - exists NOPROC, (wk x). split; [by apply exec_none|]. by destruct x.
Qed.

Lemma end_step_ok x p v :
  world_ok x → in_process (wk x) p → few_calls x →
  (∀ w, w ∈ wwaits x → waiter w ≠ p) →
  (p = 1%nat → ∀ b, PT (wk x) !! p = Some b → children_list b = []) →
  ∃ s', exec_proc 0 p (EndProcess v) (wk x) = Ok (Gone, s') ∧
    world_ok (World s' (wheld x) (wwaits x)).
Proof.
  intros [Hpr Hnd Hw] (Hp0 & b & Hb & Hal) Hfew Hno Hp1.
  destruct (exit_run _ p v b (wk x) Hpr Hb Hal ltac:(auto) (few_small x Hfew)) as (s' & Hr & Hfo & He).
  exists s'. split; [simpl; by mrun ltac:(exact Hr)|]. split; cbn [wk wheld wwaits].
  - eapply exit_ok; try done. auto.
  - done.
  - rewrite (ex_PT _ _ _ _ _ He). apply exit_waits; [apply Hpr|done|done|auto|]. intros w Hin. split; auto.
Qed.

(** A wait that returns or goes on waiting. *)
Lemma waits_post x p w (l : list wait_point) r s' :
  world_ok x → procs_ok (holds (wheld x)) s' → wait_ok (PT (wk x)) w → waiter w = p →
  NoDup (waiter <$> l) → (∀ w', w' ∈ l → wait_ok (PT (wk x)) w' ∧ waiter w' ≠ p) →
  (r = Reaped NOPROC None ∧ s' = wk x) ∨ waits_at (wk x) w r s' ∨
    (∃ q k, PT (wk x) !! q = Some k ∧ parent k = Some p ∧ reaps (wk x) q k r s') →
  world_ok (World s' (wheld x) (match r with Waiting w => w :: l | Reaped _ _ => l end)).
Proof.
  intros Hx Hpr Hwok Hwp Hnd Hl [[-> ->]|[(-> & HP & _)|(q & k & Hk & Hp & Hz & -> & ->)]].
  - split; cbn [wk wheld wwaits]; [done|done|]. intros w' Hw'. by apply Hl.
  - split; cbn [wk wheld wwaits]; [done| |].
    + rewrite fmap_cons. apply NoDup_cons. split; [|done].
      intros (w' & Hw' & Hin)%list_elem_of_fmap. destruct (Hl w' Hin) as [_ Hne]. congruence.
    + rewrite HP. intros w' [->|Hin]%elem_of_cons; [done|]. by apply Hl.
  - split; cbn [wk wheld wwaits]; [done|done|]. by eapply reaped_waits.
Qed.

Lemma child_of_some s p cpid k :
  child_of s p cpid = Some k →
  0 ≤ cpid < MAX_PROC ∧ PT s !! Z.to_nat cpid = Some k ∧ pstate k ≠ FREE ∧ parent k = Some p.
Proof.
  unfold child_of. case_decide as Hr; [|done]. destruct (PT s !! Z.to_nat cpid) as [k'|]; [|done].
  case_decide as Hc; [|done]. intros [= ->]. done.
Qed.

Lemma wait_step_ok x c self p cpid :
  world_ok x → can_call (wk x) c self p → in_process (wk x) p →
  (∀ w, w ∈ wwaits x → waiter w ≠ p) →
  MAX_PROC ≤ cpid ∨ cpid < Z.of_nat (length (PT (wk x))) →
  ∃ r s', sys_WaitChild c cpid (wk x) = Ok (r, s') ∧
    world_ok (World s' (wheld x) (next_waits (WaitChild cpid) p (Wait r) (wwaits x))) ∧
    alive_kept (PT (wk x)) (PT s') ∧ ∀ w, r = Waiting w → waiter w = p.
Proof.
  intros Hx Hc (Hp0 & b & Hb & Hal) Hno Hpid.
  destruct (wait_child_run _ (wk x) c self p b (w_procs _ Hx) Hc Hb cpid Hpid) as (r & s' & Hr & Hpr & Hs).
  exists r, s'. split; [done|]. unfold next_waits.
  assert (∃ w, wait_ok (PT (wk x)) w ∧ waiter w = p ∧
    ((r = Reaped NOPROC None ∧ s' = wk x) ∨ waits_at (wk x) w r s' ∨
     (∃ q k, PT (wk x) !! q = Some k ∧ parent k = Some p ∧ reaps (wk x) q k r s'))) as (w & Hw & Hwp & H).
  { assert (wait_ok (PT (wk x)) (ForAny p)) as Hany by (split; [by exists b|done]).
    unfold wait_spec in Hs. destruct (decide (cpid = NOPROC)).
    - exists (ForAny p). split_and!; [done|done|].
      destruct (children_list b) as [|y cl]; [by left|].
      destruct (exited_list b) as [|q l]; [by right; left|]. destruct Hs as (k & Hk & Hp & Hs).
      right; right. by exists q, k.
    - destruct (child_of (wk x) p cpid) as [k|] eqn:Hk.
      + apply child_of_some in Hk as (_ & Hk & Hst & Hp). exists (ForChild p (Z.to_nat cpid)).
        split_and!; [split; [by exists b|by exists k]|done|]. right.
        destruct (decide (pstate k = ALIVE)); [by left|right; by exists (Z.to_nat cpid), k].
      + exists (ForAny p). split_and!; [done|done|by left]. }
  split; [|split].
  - eapply waits_post; try done; [apply Hx|]. intros w' Hin. split; [by apply Hx|auto].
  - apply (waited_alive _ w r). destruct H as [?|[?|(q & k & ? & ? & ?)]]; [by left|by right; left|].
    right; right. by exists q, k, p.
  - destruct H as [[-> _]|[(-> & _)|(q & k & _ & _ & _ & -> & _)]]; [done| |done]. by intros w' [= <-].
Qed.

Lemma more_step_ok x c self p w :
  world_ok x → can_call (wk x) c self p → in_process (wk x) p → w ∈ wwaits x → waiter w = p →
  ∃ r s', wait_resume c w (wk x) = Ok (r, s') ∧
    world_ok (World s' (wheld x) (next_waits (WaitMore w) p (Wait r) (wwaits x))) ∧
    alive_kept (PT (wk x)) (PT s') ∧ (r = Waiting w ∨ ∃ q st, r = Reaped (Z.of_nat q) (Some st)).
Proof.
  intros Hx Hc (Hp0 & b & Hb & Hal) Hin Hwp. pose proof (w_waits _ Hx w Hin) as Hw.
  destruct (wait_more_run _ (wk x) c self p b (w_procs _ Hx) Hc Hb w Hw Hwp) as (r & s' & Hr & Hpr & Hs).
  exists r, s'. split; [done|]. unfold next_waits.
  assert (waits_at (wk x) w r s' ∨
    (∃ q k, PT (wk x) !! q = Some k ∧ parent k = Some p ∧ reaps (wk x) q k r s')) as [(-> & HP & _)|H].
  { destruct w as [x' q|x'].
    - destruct Hs as (k & Hk & Hp & Hs). destruct (decide (pstate k = ALIVE)); [by left|right].
      by exists q, k.
    - destruct (exited_list b) as [|q l]; [by left|right]. by exists q. }
  - split_and!; [|rewrite HP; apply alive_kept_refl|by left].
    split; cbn [wk wheld wwaits]; [done|apply Hx|]. rewrite HP. apply Hx.
  - pose proof H as (q & k & Hk & Hp & Hz & -> & Hs'). split_and!.
    2: { rewrite Hs'. by eapply reaped_alive. }
    2: { right. by eexists _, _. }
    apply (waits_post x p w (filter (λ w, waiter w ≠ p) (wwaits x)) _ _ Hx Hpr Hw Hwp
      (nodup_filter _ p (w_nodup _ Hx)) (waits_distinct x p w Hx Hin Hwp) (or_intror (or_intror H))).
Qed.

Lemma proc_step_ok x c self p op :
  world_ok x → can_call (wk x) c self p → in_process (wk x) p → proc_ok x p op → few_calls x →
  ∃ r s', exec_proc c p op (wk x) = Ok (r, s') ∧
    world_ok (World s' (wheld x) (next_waits op p r (wwaits x))).
Proof.
  intros Hx Hc Hin Hok Hfew. destruct op as [call argl args|cpid|w|v]; simpl in Hok |- *.
  - destruct (exec_step_ok x c self p call argl args Hx Hc Hin Hok Hfew) as (pid & s' & Hr & Hx').
    mrun ltac:(exact Hr). by eexists _, s'.
  - destruct (wait_step_ok x c self p cpid Hx Hc Hin (proj1 Hok) (proj2 Hok)) as (r & s' & Hr & Hx' & _).
    mrun ltac:(exact Hr). by eexists _, s'.
  - destruct (more_step_ok x c self p w Hx Hc Hin (proj1 Hok) (proj2 Hok)) as (r & s' & Hr & Hx' & _).
    mrun ltac:(exact Hr). by eexists _, s'.
  - destruct (end_step_ok x p v Hx Hin Hfew (proj1 Hok) (proj2 Hok)) as (s' & Hr & Hx').
    by exists Gone, s'.
Qed.

(** A stream call of process [p] changes the file ids of [p] only, which is alive. *)
Lemma fids_old (pt : list PCB) p b l :
  pt !! p = Some b → pstate b = ALIVE →
  ∀ x e', <[p := set_FIDT l b]> pt !! x = Some e' → ∃ e, pt !! x = Some e ∧
    pstate e' = pstate e ∧ parent e' = parent e ∧ children_list e' = children_list e ∧
    exited_list e' = exited_list e ∧ pargs e' = pargs e ∧ (FIDT e' = FIDT e ∨ pstate e = ALIVE).
Proof.
  intros Hb Hal x e'. rewrite (table_update _ _ _ _ _ Hb). case_decide; intros; simplify_eq.
  - exists b. split_and!; try done. by right.
  - exists e'. split_and!; try done. by left.
Qed.

Lemma fids_new (pt : list PCB) p b l :
  pt !! p = Some b → ∀ x e, pt !! x = Some e → ∃ e', <[p := set_FIDT l b]> pt !! x = Some e' ∧
    pstate e' = pstate e ∧ parent e' = parent e.
Proof.
  intros Hb x e He. rewrite (table_update _ _ _ _ _ Hb). case_decide; subst; simplify_eq; eauto.
Qed.

Lemma family_fids pt p b l :
  family_ok pt → pt !! p = Some b → pstate b = ALIVE → family_ok (<[p := set_FIDT l b]> pt).
Proof.
  intros Hf Hb Hal.
  pose proof (fids_old pt p b l Hb Hal) as Hold. pose proof (fids_new pt p b l Hb) as Hnew.
  assert (∀ (P : pid_state → Prop) x y,
    (∃ k, <[p := set_FIDT l b]> pt !! y = Some k ∧ P (pstate k) ∧ parent k = Some x) ↔
    (∃ k, pt !! y = Some k ∧ P (pstate k) ∧ parent k = Some x)) as Hex.
  { intros P x y. split.
    - intros (k & Hk & HP & Hp). destruct (Hold _ _ Hk) as (e & He & Hs & Hpa & _).
      exists e. by rewrite <-Hs, <-Hpa.
    - intros (k & Hk & HP & Hp). destruct (Hnew _ _ Hk) as (e & He & Hs & Hpa).
      exists e. by rewrite Hs, Hpa. }
  split.
  - intros x e' He'. destruct (Hold _ _ He') as (e & He & _ & _ & -> & _).
    setoid_rewrite (Hex (λ st, st ≠ FREE) x). by apply (fa_children _ Hf).
  - intros x e' He'. destruct (Hold _ _ He') as (e & He & _ & _ & _ & -> & _).
    setoid_rewrite (Hex (λ st, st = ZOMBIE) x). by apply (fa_exited _ Hf).
  - intros y e' x He' Hst Hp. destruct (Hold _ _ He') as (e & He & Hs & Hpa & _).
    destruct (fa_parent _ Hf y e x He) as (Hx0 & k & Hk & Ha); [congruence|congruence|].
    split; [done|]. destruct (Hnew _ _ Hk) as (k' & Hk' & Hs' & _). exists k'. split; congruence.
  - intros x e' He' Hst. destruct (Hold _ _ He') as (e & He & Hs & _).
    assert (rooted pt x) as Hr by (eapply (fa_rooted _ Hf); [done|congruence]).
    clear -Hr Hnew. induction Hr as [x e He Hst Hp|x y e He Hst Hp Hr IH];
      destruct (Hnew _ _ He) as (k' & Hk' & Hs' & Hp').
    + eapply rooted_root; [done|congruence|congruence].
    + eapply rooted_child; [done|congruence|by rewrite Hp'|done].
  - intros x e' He' Hst. destruct (Hold _ _ He') as (e & He & Hs & -> & _).
    apply (fa_roots _ Hf _ _ He). congruence.
  - intros x Hx. destruct (fa_init _ Hf x Hx) as (e & He & Hst).
    destruct (Hnew _ _ He) as (k' & Hk' & Hs' & _). exists k'. split; congruence.
  - intros x e' He' Hst. destruct (Hold _ _ He') as (e & He & Hs & _ & _ & _ & _ & [->|Ha]); [|congruence].
    apply (fa_closed _ Hf _ _ He). congruence.
Qed.

Lemma free_fids (pt : list PCB) p b l o :
  pt !! p = Some b → pstate b = ALIVE → freelist_ok pt o → freelist_ok (<[p := set_FIDT l b]> pt) o.
Proof.
  intros Hb Hal (fl & Hch & Hnd & Hfl). exists fl. split; [|split; [done|]].
  - apply (free_chain_ext pt); [|done]. intros q e _ He.
    destruct (fids_new pt p b l Hb q e He) as (e' & He' & _ & Hp). by exists e'.
  - intros q e' He'. destruct (fids_old pt p b l Hb Hal q e' He') as (e & He & -> & _). by apply Hfl.
Qed.

Lemma args_fids s s' p b l :
  PT s !! p = Some b → pstate b = ALIVE → PT s' = <[p := set_FIDT l b]> (PT s) →
  kbufs s' = kbufs s → next_buf s' = next_buf s → args_ok s → args_ok s'.
Proof.
  intros Hb Hal HP Hk Hn [H1 H2 H3].
  split; rewrite ?HP, ?Hk, ?Hn.
  - intros x e' k He' Hst Ha.
    destruct (fids_old _ p b l Hb Hal x e' He') as (e & He & Hs & _ & _ & _ & Hpa & _).
    apply (H1 x e); congruence.
  - intros x y e' f' k He' Hf' Hst Hst' Ha Ha'.
    destruct (fids_old _ p b l Hb Hal x e' He') as (e & He & Hs & _ & _ & _ & Hpa & _).
    destruct (fids_old _ p b l Hb Hal y f' Hf') as (f & Hf & Hs' & _ & _ & _ & Hpa' & _).
    apply (H2 x y e f k); congruence.
  - done.
Qed.

Lemma stream_step_ok x c self p call :
  world_ok x → can_call (wk x) c self p → in_process (wk x) p → call_ok (wheld x) call →
  few_calls x → terms_ok (wk x) →
  ∃ r s', exec_call c call (wk x) = Ok (r, s') ∧
    world_ok (World s' (next_held call r (wheld x)) (wwaits x)) ∧ alive_kept (PT (wk x)) (PT s').
Proof.
  intros [[Hf Hfr Ha Hfo Hl] Hnd Hw] Hc (_ & b0 & Hb0 & Hal) Hcall Hfew Ht.
  destruct (exec_call_ok (Conf (wk x) (wheld x)) c self p call (conj Hfo Ht) Hc Hcall Hfew)
    as (r & s' & Hr & Hfo' & _ & Hk & b & l & Hb & HP). cbn [kern held] in *.
  assert (b0 = b) as -> by congruence. exists r, s'. split; [done|].
  destruct (kp_rest _ _ Hk) as (Hpf & _ & _ & Hkb & Hnb). split.
  2: { rewrite HP. intros y e He Hst. destruct (fids_new _ p b l Hb y e He) as (e' & He' & Hs & _).
       exists e'. split; congruence. }
  split; cbn [wk wheld wwaits]; [split|done|].
  - rewrite HP. by apply family_fids.
  - rewrite HP, Hpf. by apply free_fids.
  - by eapply args_fids.
  - done.
  - by eapply sched_live_kept.
  - rewrite HP. apply (waits_kept_all (PT (wk x))); [| |exact Hw].
    + intros y e He Hst. destruct (fids_new _ p b l Hb y e He) as (e' & He' & Hs & _).
      exists e'. split; congruence.
    + intros y e z He Hst Hpa. destruct (fids_new _ p b l Hb y e He) as (e' & He' & Hs & Hp').
      exists e'. split_and!; congruence.
Qed.

(** Every step succeeds and keeps the invariant. *)
Lemma world_step_ok x y : world_ok x → world_step x y → world_ok y.
Proof.
  intros Hx [c self p op r s' Hc Hin Hok Hfew Hr|c self p call r s' Hc Hin Hok Hfew Ht Hr|v l s' Hl].
  - destruct (proc_step_ok x c self p op Hx Hc Hin Hok Hfew) as (r' & s'' & Hr' & Hx').
    rewrite Hr in Hr'. by simplify_eq.
  - destruct (stream_step_ok x c self p call Hx Hc Hin Hok Hfew Ht) as (r' & s'' & Hr' & Hx' & _).
    rewrite Hr in Hr'. by simplify_eq.
  - destruct Hx as [Hpr Hnd Hw]. split; cbn [wk wheld wwaits]; [|done|done].
    apply (procs_ok_sched _ (wk x)); try done.
Qed.

Lemma world_reach_ok x y : world_ok x → reachable world_step x y → world_ok y.
Proof. intros Hx. apply reachable_invariant; [done|]. apply world_step_ok. Qed.
