(* ===== verification/Boot.v ===== *)
(** * Booting the kernel (kernel_init.c)

    [boot] starts the machine; core 0 builds the tables and starts the idle process
    and init, and every core then enters the scheduler.  Between [sched_live] before
    and the invariant of [World.v] after.  [boot_rec], the static variables that hand
    over the arguments of [boot], are arguments here. *)
From S2P Require Import Prelude Bios Sched SchedInv SchedSteps Kernel Devices Streams StreamInv StreamCalls StreamIO StreamProps Proc Threads ProcInv ProcExit ProcExec World.
Local Open Scope Z_scope.

(** ** The code

    The process table has [n] blocks, the file table [nf]. *)
Definition boot_tables (c n nf : nat) : KM unit :=
  initialize_processes c n ;; initialize_devices c ;; initialize_files nf.

Definition start_init (c : nat) (init_task : Task) (argl : Z) (args : user_args) : KM unit :=
  pid ← sys_Exec c init_task argl args;
  if decide (pid ≠ 1) then raise Fatal else mret tt.

(** On core [c], up to the loop of [run_scheduler].  The barrier lets no core pass
    before core 0 is there. *)
Definition boot_tinyos_kernel (n nf : nat) (init_task : Task) (argl : Z) (args : user_args) (c : nat)
  : KM unit :=
  when (bool_decide (c = 0%nat))
    (boot_tables c n nf ;; on_ksched initialize_scheduler ;; start_init c init_task argl args) ;;
  on_ksched (run_scheduler_begin c).

Definition boot (n nf ncores nterm : nat) (boot_task : Task) (argl : Z) (args : user_args) : KM unit :=
  on_machine (vm_boot_cores ncores nterm) ;;
  for_each (seq 0 ncores) (boot_tinyos_kernel n nf boot_task argl args).

(** ** The process table *)
Definition cleared (l : list nat) (x : nat) (b : PCB) : PCB :=
  if decide (x ∈ l) then cleared_PCB b else b.

Lemma initialize_PCB_run s p b :
  PT s !! p = Some b →
  initialize_PCB p s = Ok (tt, set_waiting (filter (λ w, w.1 ≠ ChildExit p) (waiting s))
    (ptmap (at_ p cleared_PCB) s)).
Proof. intros Hb. unfold initialize_PCB. by mrun ltac:(by eapply upd_ptmap). Qed.

Lemma clear_table_run l : ∀ s,
  (∀ p, p ∈ l → (p < length (PT s))%nat) →
  ∃ w, for_each l initialize_PCB s = Ok (tt, set_waiting w (ptmap (cleared l) s)) ∧
    ∀ e, e ∈ w → e ∈ waiting s.
Proof.
  induction l as [|p l IH]; intros s Hl.
  - exists (waiting s). split; [|done]. rewrite (ptmap_ext _ (λ _ b, b)), ptmap_id by done.
    by destruct s.
  - destruct (lookup_lt_is_Some_2 (PT s) p) as [b Hb]; [apply Hl; left|].
    cbn [for_each]. mrun ltac:(by eapply initialize_PCB_run).
    set (s1 := set_waiting _ _). destruct (IH s1) as (w & Hr & Hw).
    { intros q Hq. unfold s1. cbn. rewrite length_imap. apply Hl. by right. }
    exists w. split.
    + rewrite Hr. unfold s1, ptmap, set_waiting, set_PT. cbn.
      rewrite imap_imap, (imap_ext _ (cleared (p :: l))); [done|].
      intros x e _. unfold cleared, at_. repeat case_decide; subst; set_solver.
    + intros e He. apply Hw in He. unfold s1 in He. cbn in He. by apply list_elem_of_filter in He as [_ He].
Qed.

(** Blocks [i] to [i + k - 1] are linked, in order. *)
Definition linked (i k : nat) (o : option nat) (x : nat) (b : PCB) : PCB :=
  if decide (i ≤ x < i + k)%nat
  then set_parent (if decide (S x < i + k)%nat then Some (S x) else o) b else b.

Lemma link_table_run k : ∀ i s,
  (i + k ≤ length (PT s))%nat →
  for_each (rev (seq i k)) link_free s =
    Ok (tt, set_pcb_freelist (if decide (k = 0%nat) then pcb_freelist s else Some i)
              (ptmap (linked i k (pcb_freelist s)) s)).
Proof.
  induction k as [|k IH]; intros i s Hk.
  - simpl. rewrite (ptmap_ext _ (λ _ b, b)), ptmap_id.
    + by destruct s.
    + intros x b _. unfold linked. by rewrite decide_False by lia.
  - simpl seq. simpl rev. rewrite for_each_app. mrun ltac:(apply IH; lia). cbn [for_each].
    set (s1 := set_pcb_freelist _ _). unfold link_free. mstep.
    destruct (lookup_lt_is_Some_2 (PT s) i) as [b Hb]; [lia|].
    mrun ltac:(eapply upd_ptmap; unfold s1; cbn; by rewrite list_lookup_imap, Hb). mstep.
    unfold s1, ptmap, set_pcb_freelist, set_PT. cbn.
    rewrite imap_imap, (imap_ext _ (linked i (S k) (pcb_freelist s))); [done|].
    intros x e _. unfold linked, at_.
    destruct (decide (k = 0%nat)); repeat case_decide; try lia; try done; subst; try lia; by destruct e.
Qed.

(** ** The first two processes

    [Exec] into a block whose pid is at most 1 inherits nothing. *)
Definition first_block (q : nat) (call : Task) (argl : Z) (buf : option nat) (n : option ptcb_ptr)
  : nat → PCB → PCB :=
  at_ q (λ b, started n (set_main call argl buf (set_parent None (set_thread_count 0 (set_pstate ALIVE b))))).

Record first_state (q : nat) (bq : PCB) (call : Task) (argl : Z) (args : user_args) (s s' : kernel)
  : Prop := FirstState {
  fs_PT : PT s' = imap (first_block q call argl (new_buf s args)
            (match call with Some _ => Some (next_ptcb s) | None => None end)) (PT s);
  fs_free : pcb_freelist s' = parent bq;
  fs_kbufs : kbufs s' = new_kbufs s argl args;
  fs_next : next_buf s' = new_next s args;
  fs_rest : FT s' = FT s ∧ FCB_freelist s' = FCB_freelist s ∧ devnum s' = devnum s ∧
            waiting s' = waiting s;
  fs_live : sched_live s';
  fs_idle : call = None → ksched s' = ksched s ∧ ptcbs s' = ptcbs s ∧ next_ptcb s' = next_ptcb s;
  fs_thread : ∀ f, call = Some f → ∃ t,
    thread_of s' q (next_ptcb s) t start_main_thread_entry call argl (args_ptr args) ∧
    Sched.tcbs (ksched s) !! t = None ∧ is_thr t ∧
    (∀ u, u ≠ t → Sched.tcbs (ksched s') !! u = Sched.tcbs (ksched s) !! u) ∧
    (∀ k, k ≠ next_ptcb s → ptcbs s' !! k = ptcbs s !! k) ∧ next_ptcb s' = S (next_ptcb s) }.

Lemma first_exec_run c q bq call argl args s :
  sched_live s → pcb_freelist s = Some q → PT s !! q = Some bq → (q ≤ 1)%nat →
  args_readable argl args →
  ∃ s', sys_Exec c call argl args s = Ok (Z.of_nat q, s') ∧ first_state q bq call argl args s s'.
Proof.
  intros Hl Hq Hbq Hle Hargs. unfold sys_Exec. mrun ltac:(by apply (acquire_PCB_run s q bq)).
  cbv beta iota. rewrite (decide_True (P := get_pid (Some q) ≤ 1)) by (simpl; lia).
  mrun ltac:(eapply upd_ptmap; cbn; by rewrite list_lookup_imap, Hbq).
  mrun ltac:(by apply copy_args_run).
  mrun ltac:(eapply upd_ptmap; cbn; by rewrite !list_lookup_imap, Hbq).
  set (s4 := ptmap _ (set_kbufs _ _ _)).
  assert (PT s4 = imap (first_block q call argl (new_buf s args) None) (PT s)) as HP4.
  { unfold s4, ptmap. cbn. rewrite !imap_imap. apply imap_ext. intros x e _.
    unfold first_block, at_, new_buf. by repeat case_decide. }
  assert (sched_live s4) as Hl4 by (by eapply sched_live_same; [..|exact Hl]).
  destruct call as [f|].
  - assert (∃ b4, PT s4 !! q = Some b4) as [b4 Hb4] by (rewrite HP4, list_lookup_imap, Hbq; by eexists).
    destruct (new_thread_run s4 q b4 start_main_thread_entry (Some f) argl (args_ptr args) Hl4 Hb4)
      as (v & t & Hr5 & Hnew & Htcb & Hinv & Hother & _ & Hthr).
    mstep. mrun ltac:(exact Hr5). mstep. eexists. split; [reflexivity|].
    split; try done.
    + unfold ptmap. cbn [PT set_PT set_ksched set_ptcbs set_next_ptcb]. rewrite HP4, imap_imap.
      apply imap_ext. intros x e _. unfold first_block, at_, started. by repeat case_decide.
    + split; [done|]. intros ch u Hu. destruct Hl4 as [_ Hw]. specialize (Hw ch u Hu).
      simpl. rewrite Hother; [done|]. intros ->. rewrite Hnew in Hw. by destruct Hw.
    + intros f' [= <-]. exists t. split; [split; [apply lookup_insert_eq|exact Htcb]|].
      split_and!; try done. intros k Hk. cbn. by rewrite lookup_insert_ne.
  - mstep. exists s4. split; [reflexivity|]. by split.
Qed.

(** ** The invariant at the start

    [start_ok k]: the first [k] processes of the table run, the others are free. *)
Record start_ok (k : nat) (s : kernel) : Prop := StartOk {
  so_free : pcb_freelist s = if decide (k < length (PT s))%nat then Some k else None;
  so_blocks : ∀ x b, PT s !! x = Some b →
    children_list b = [] ∧ exited_list b = [] ∧ FIDT b = replicate MAX_FILEID None ∧
    if decide (x < k)%nat then pstate b = ALIVE ∧ parent b = None
    else pstate b = FREE ∧ pargs b = None ∧ thread_list b = [] ∧
         parent b = if decide (S x < length (PT s))%nat then Some (S x) else None }.

(** No process has a thread. *)
Definition no_threads (s : kernel) : Prop :=
  ∀ x b, PT s !! x = Some b → thread_list b = [] ∧ thread_count b = 0.
Definition same_threads (s s' : kernel) : Prop :=
  Sched.tcbs (ksched s') = Sched.tcbs (ksched s) ∧ ptcbs s' = ptcbs s ∧ next_ptcb s' = next_ptcb s.

Lemma tables_start c n s :
  length (PT s) = n → (0 < n)%nat → sched_live s →
  ∃ s', initialize_processes c n s = Ok (tt, s') ∧ start_ok 1 s' ∧ sched_live s' ∧
    length (PT s') = n ∧ ksched s' = ksched s ∧ length (FT s') = length (FT s) ∧
    kbufs s' = kbufs s ∧ next_buf s' = next_buf s ∧ (∀ b, PT s' !! 0%nat = Some b → pargs b = None) ∧
    no_threads s' ∧ ptcbs s' = ptcbs s ∧ next_ptcb s' = next_ptcb s.
Proof.
  intros Hn Hpos Hl. unfold initialize_processes.
  destruct (clear_table_run (seq 0 n) s) as (w & Hr & Hw).
  { intros p Hp%elem_of_seq. lia. }
  mrun ltac:(exact Hr). mstep. set (s1 := set_pcb_freelist None _).
  assert (length (PT s1) = n) as Hn1 by (unfold s1; cbn; by rewrite length_imap).
  mrun ltac:(apply link_table_run; lia). mstep. rewrite decide_False by lia.
  set (s2 := set_process_count _ _).
  assert (sched_live s2) as Hl2.
  { destruct Hl as [Hi Hwt]. split; [exact Hi|]. intros ch t Ht. by eapply Hwt, Hw. }
  destruct (lookup_lt_is_Some_2 (PT s) 0) as [b0 Hb0]; [lia|].
  assert (∃ e, PT s2 !! 0%nat = Some e) as [e0 He0].
  { unfold s2, s1. cbn. rewrite !list_lookup_imap, Hb0. by eexists. }
  destruct (first_exec_run c 0 e0 None 0 None s2 Hl2 eq_refl He0 ltac:(lia) I) as (s3 & Hr3 & Hf).
  mrun ltac:(exact Hr3). rewrite (decide_False (P := Z.of_nat 0 ≠ 0)) by lia.
  assert (∀ x b, PT s3 !! x = Some b → ∃ b', PT s !! x = Some b' ∧
    b = first_block 0 None 0 None None x (linked 0 n None x (cleared (seq 0 n) x b'))) as Hblk.
  { intros x b. rewrite (fs_PT _ _ _ _ _ _ _ Hf). unfold s2, s1. cbn. rewrite !list_lookup_imap.
    destruct (PT s !! x) as [b'|]; [|done]. simpl. intros [= <-]. by exists b'. }
  assert (length (PT s3) = n) as Hn3.
  { rewrite (fs_PT _ _ _ _ _ _ _ Hf), length_imap. unfold s2. cbn. by rewrite length_imap. }
  assert (∀ x b', PT s !! x = Some b' → cleared (seq 0 n) x b' = cleared_PCB b') as Hcl.
  { intros x b' Hb'%lookup_lt_Some. unfold cleared. rewrite decide_True; [done|]. apply elem_of_seq. lia. }
  destruct (fs_rest _ _ _ _ _ _ _ Hf) as (HF & _).
  exists s3. split_and!; try done.
  - split.
    + rewrite (fs_free _ _ _ _ _ _ _ Hf), Hn3. revert He0. unfold s2, s1. cbn.
      rewrite !list_lookup_imap, Hb0. simpl. intros [= <-]. unfold linked.
      rewrite decide_True by lia. simpl. by repeat case_decide; try lia.
    + intros x b Hb. rewrite Hn3. destruct (Hblk x b Hb) as (b' & Hb' & ->). rewrite (Hcl _ _ Hb').
      apply lookup_lt_Some in Hb'. unfold first_block, linked, at_.
      rewrite (decide_True (P := (0 ≤ x < 0 + n)%nat)) by lia. cbn [Nat.add].
      destruct (decide (x = 0%nat)) as [->|Hx]; [by rewrite (decide_True (P := (0 < 1)%nat)) by lia|].
      by rewrite (decide_False (P := (x < 1)%nat)) by lia.
  - apply (fs_live _ _ _ _ _ _ _ Hf).
  - by destruct (fs_idle _ _ _ _ _ _ _ Hf eq_refl) as [-> _].
  - by rewrite HF.
  - by rewrite (fs_kbufs _ _ _ _ _ _ _ Hf).
  - by rewrite (fs_next _ _ _ _ _ _ _ Hf).
  - intros b Hb. by destruct (Hblk _ _ Hb) as (b' & _ & ->).
  - intros x b Hb. destruct (Hblk x b Hb) as (b' & Hb' & ->). rewrite (Hcl _ _ Hb').
    unfold first_block, linked, at_. by repeat case_decide.
  - by destruct (fs_idle _ _ _ _ _ _ _ Hf eq_refl) as (_ & -> & _).
  - by destruct (fs_idle _ _ _ _ _ _ _ Hf eq_refl) as (_ & _ & ->).
Qed.

(** Everything but the scheduler, the device numbers and the waiting threads. *)
Definition same_tables (s s' : kernel) : Prop :=
  PT s' = PT s ∧ FT s' = FT s ∧ kbufs s' = kbufs s ∧ next_buf s' = next_buf s ∧
  pcb_freelist s' = pcb_freelist s ∧ SCHED (ksched s') = SCHED (ksched s) ∧ same_threads s s'.

Lemma clear_rings_run l : ∀ s,
  ∃ w, for_each l (λ i, modify (λ s, set_waiting (filter (λ w, w.1 ≠ RxReady i) (waiting s)) s)) s
      = Ok (tt, set_waiting w s) ∧ ∀ e, e ∈ w → e ∈ waiting s.
Proof.
  induction l as [|i l IH]; intros s; [exists (waiting s); split; [by destruct s|done]|].
  cbn [for_each]. mstep. destruct (IH (set_waiting (filter (λ w, w.1 ≠ RxReady i) (waiting s)) s)) as (w & Hr & Hw).
  exists w. split; [exact Hr|]. intros e He. apply Hw in He. by apply list_elem_of_filter in He as [_ He].
Qed.

Lemma install_run c i h s k :
  CORE (vm (ksched s)) !! c = Some k → sched_live s →
  ∃ s', on_machine (cpu_interrupt_handler c i h) s = Ok (tt, s') ∧ sched_live s' ∧ same_tables s s' ∧
    is_Some (CORE (vm (ksched s')) !! c).
Proof.
  intros Hk [(ms & pl & Hi) Hw].
  destruct (handler_run (ksched s) c k i h Hk (proj1 (i_vm _ _ _ Hi))) as (v & Hr & Hh & Hl).
  eexists. split; [by apply on_ksched_run|]. split; [split|split; [done|]].
  - exists ms, pl. apply inv_vm; [done|]. by eapply vm_ok_length; [apply (i_vm _ _ _ Hi)|..].
  - intros ch t Ht. by eapply Hw.
  - cbn. apply lookup_lt_is_Some. rewrite Hl. by eapply lookup_lt_Some.
Qed.

Lemma devices_run c s k :
  CORE (vm (ksched s)) !! c = Some k → sched_live s →
  ∃ s', initialize_devices c s = Ok (tt, s') ∧ sched_live s' ∧ same_tables s s'.
Proof.
  intros Hk [Hi Hw]. unfold initialize_devices.
  assert (on_machine bios_serial_ports s = Ok (nterm (vm (ksched s)), s)) as Hp by (by destruct s as [[] ? ? ? ? ? ? ? ? ? ? ?]).
  mrun ltac:(exact Hp). mstep.
  destruct (clear_rings_run (seq 0 (nterm (vm (ksched s)))) (set_devnum [1%nat; nterm (vm (ksched s))] s)) as (w & Hr & Hws).
  mrun ltac:(exact Hr). set (s1 := set_waiting w _).
  assert (sched_live s1) as Hl1 by (split; [exact Hi|intros ch t Ht; by eapply Hw, Hws]).
  destruct (install_run c SERIAL_RX_READY (Some Bios.serial_rx_handler) s1 k Hk Hl1) as (s2 & Hr2 & Hl2 & Hs2 & [k2 Hk2]).
  mrun ltac:(exact Hr2).
  destruct (install_run c SERIAL_TX_READY (Some Bios.serial_tx_handler) s2 k2 Hk2 Hl2) as (s3 & Hr3 & Hl3 & Hs3 & _).
  exists s3. split; [exact Hr3|]. split; [done|].
  destruct Hs2 as (?&?&?&?&?&?&?&?&?), Hs3 as (?&?&?&?&?&?&?&?&?). unfold s1 in *.
  unfold same_tables, same_threads. split_and!; etrans; eassumption.
Qed.

(** ** From two processes to the invariant *)
Section start.
Context (s : kernel).
#[local] Set Default Proof Using "Type*".
Context (Hs : start_ok 2 s) (Hlen : (2 ≤ length (PT s))%nat).

Lemma start_nonfree x b : PT s !! x = Some b → pstate b ≠ FREE → (x < 2)%nat ∧ pstate b = ALIVE ∧ parent b = None.
Proof.
  intros Hb Hst. destruct (so_blocks _ _ Hs x b Hb) as (_ & _ & _ & H).
  destruct (decide (x < 2)%nat); [done|]. by destruct H.
Qed.

Lemma start_family : family_ok (PT s).
Proof.
  assert (∀ x y (P : pid_state → Prop), (∀ st, P st → st ≠ FREE) →
    y ∈ [] ↔ ∃ k, PT s !! y = Some k ∧ P (pstate k) ∧ parent k = Some x) as Hnone.
  { intros x y P HP. split; [by intros ?%not_elem_of_nil|]. intros (k & Hk & Hst & Hp).
    destruct (start_nonfree _ _ Hk (HP _ Hst)) as (_ & _ & Hn). congruence. }
  split.
  - intros x b Hb. destruct (so_blocks _ _ Hs x b Hb) as (-> & _). split; [constructor|].
    intros y. by apply (Hnone x y (λ st, st ≠ FREE)).
  - intros x b Hb. destruct (so_blocks _ _ Hs x b Hb) as (_ & -> & _). split; [constructor|].
    intros y. by apply (Hnone x y (λ st, st = ZOMBIE)); intros ? ->.
  - intros y k x Hk Hst Hp. destruct (start_nonfree _ _ Hk Hst) as (_ & _ & Hn). congruence.
  - intros x b Hb Hst. destruct (start_nonfree _ _ Hb Hst) as (_ & _ & Hn). by eapply rooted_root.
  - intros x b Hb Hst. destruct (start_nonfree _ _ Hb Hst) as (Hx & _ & Hn). split; [lia|done].
  - intros x Hx. destruct (lookup_lt_is_Some_2 (PT s) x) as [b Hb]; [lia|]. exists b.
    split; [done|]. destruct (so_blocks _ _ Hs x b Hb) as (_ & _ & _ & H).
    rewrite decide_True in H by lia. destruct H as [-> _]. done.
  - intros x b Hb _. apply (so_blocks _ _ Hs x b Hb).
Qed.

(** From block [i] on, the free list has the blocks in order. *)
Lemma start_chain k : ∀ i,
  (2 ≤ i)%nat → (i + k = length (PT s))%nat →
  free_chain (PT s) (if decide (i < length (PT s))%nat then Some i else None) (seq i k).
Proof.
  induction k as [|k IH]; intros i Hi Hk; cbn [seq free_chain].
  - by rewrite decide_False by lia.
  - rewrite decide_True by lia. split; [done|].
    destruct (lookup_lt_is_Some_2 (PT s) i) as [b Hb]; [lia|]. exists b. split; [done|].
    destruct (so_blocks _ _ Hs i b Hb) as (_ & _ & _ & H). rewrite decide_False in H by lia.
    destruct H as (_ & _ & _ & ->). apply IH; lia.
Qed.

Lemma start_free : freelist_ok (PT s) (pcb_freelist s).
Proof.
  exists (seq 2 (length (PT s) - 2)). rewrite (so_free _ _ Hs).
  split; [by apply start_chain; lia|]. split; [apply NoDup_seq|].
  intros p b Hb. pose proof (lookup_lt_Some _ _ _ Hb) as Hlt. rewrite elem_of_seq.
  destruct (so_blocks _ _ Hs p b Hb) as (_ & _ & _ & H).
  destruct (decide (p < 2)%nat).
  - destruct H as [-> _]. split; [lia|done].
  - destruct H as [-> _]. split; [done|lia].
Qed.

Lemma start_world :
  files_ok (holds []) s → args_ok s → sched_live s → world_ok (World s [] []).
Proof.
  intros Hfo Ha Hl. split; cbn [wk wheld wwaits].
  - split; [apply start_family|apply start_free|done|done|done].
  - constructor.
  - intros w Hw. by apply not_elem_of_nil in Hw.
Qed.
End start.

(** ** Powering on *)

(** [s] as [vm_boot] leaves it: tables of sizes [n] and [nf], and core 0. *)
Record powered_on (n nf : nat) (s : kernel) : Prop := PoweredOn {
  po_PT : length (PT s) = n;
  po_size : (2 ≤ n)%nat ∧ Z.of_nat n ≤ MAX_PROC;
  po_FT : length (FT s) = nf;
  po_bufs : kbufs s = ∅;
  po_core : is_Some (CORE (vm (ksched s)) !! 0%nat);
  po_sched : sched_live s }.

Lemma boot_tables_run n nf s :
  powered_on n nf s →
  ∃ s', boot_tables 0 n nf s = Ok (tt, s') ∧ start_ok 1 s' ∧ files_ok (holds []) s' ∧ sched_live s' ∧
    length (PT s') = n ∧ kbufs s' = ∅ ∧ (∀ b, PT s' !! 0%nat = Some b → pargs b = None) ∧
    SCHED (ksched s') = SCHED (ksched s) ∧ no_threads s' ∧ same_threads s s'.
Proof.
  intros [Hn Hsz HF Hb [k Hk] Hl]. unfold boot_tables.
  destruct (tables_start 0 n s Hn ltac:(lia) Hl) as (s1 & Hr1 & Hst & Hl1 & Hn1 & Hk1 & HF1 & Hb1 & Hnb1 & Ha1 & Hnt1 & Hp1 & Hnp1).
  mrun ltac:(exact Hr1). rewrite <-Hk1 in Hk.
  destruct (devices_run 0 s1 k Hk Hl1) as (s2 & Hr2 & Hl2 & HP2 & HF2 & Hb2 & Hnb2 & Hfr2 & Hq2 & Ht2 & Hp2 & Hnp2).
  mrun ltac:(exact Hr2).
  destruct (initialize_files_ok nf s2) as (s3 & Hr3 & Hfo & Hs3 & HP3 & _).
  - by rewrite HF2, HF1.
  - intros p b. rewrite HP2. intros Hp. apply (so_blocks _ _ Hst p b Hp).
  - rewrite HP2, Hn1. lia.
  - exists s3. destruct Hs3 as [Hk3 _ (Hfr3 & _ & Hp3 & Hb3 & Hw3 & Hnb3 & Hnp3)].
    split; [exact Hr3|]. split; [|split; [done|]].
    + destruct Hst as [H1 H2]. split; rewrite HP3, HP2, ?Hfr3, ?Hfr2; done.
    + split; [by eapply sched_live_same|]. split_and!.
      * by rewrite HP3, HP2.
      * by rewrite Hb3, Hb2, Hb1.
      * by rewrite HP3, HP2.
      * by rewrite Hk3, Hq2, Hk1.
      * unfold no_threads. by rewrite HP3, HP2.
      * unfold same_threads. by rewrite Hk3, Ht2, Hk1, Hp3, Hp2, Hp1, Hnp3, Hnp2, Hnp1.
Qed.

Lemma start_init_run n f argl args s :
  start_ok 1 s → files_ok (holds []) s → sched_live s → length (PT s) = n → (2 ≤ n)%nat →
  kbufs s = ∅ → (∀ b, PT s !! 0%nat = Some b → pargs b = None) → args_readable argl args →
  ∃ s' bq, start_init 0 (Some f) argl args s = Ok (tt, s') ∧ world_ok (World s' [] []) ∧
    PT s !! 1%nat = Some bq ∧ first_state 1 bq (Some f) argl args s s'.
Proof.
  intros Hst Hfo Hl Hn Hsz Hb H0 Hargs. destruct (lookup_lt_is_Some_2 (PT s) 1) as [bq Hbq]; [lia|].
  assert (pcb_freelist s = Some 1%nat) as Hq by (rewrite (so_free _ _ Hst), decide_True; [done|lia]).
  destruct (first_exec_run 0 1 bq (Some f) argl args s Hl Hq Hbq ltac:(lia) Hargs) as (s' & Hr & Hf).
  pose proof Hf as [HP Hfr Hkb Hnb (HF & HFL & Hdv & Hwt) Hl' _ _].
  exists s', bq. split; [unfold start_init; by mrun ltac:(exact Hr)|]. split; [|done].
  set (F := first_block 1 (Some f) argl (new_buf s args) (Some (next_ptcb s))) in *.
  assert (∀ x b, PT s' !! x = Some b → ∃ b', PT s !! x = Some b' ∧ b = F x b') as Hblk.
  { intros x b. rewrite HP, imap_lookup_Some. done. }
  assert (length (PT s') = n) as Hn' by (by rewrite HP, length_imap).
  apply start_world.
  - split.
    + rewrite Hfr. destruct (so_blocks _ _ Hst 1 bq Hbq) as (_ & _ & _ & H).
      rewrite decide_False in H by lia. destruct H as (_ & _ & _ & ->). by rewrite Hn, Hn'.
    + intros x b Hx. destruct (Hblk x b Hx) as (b' & Hb' & ->). rewrite Hn'.
      destruct (so_blocks _ _ Hst x b' Hb') as (H1 & H2 & H3 & H4). rewrite Hn in H4.
      unfold F, first_block, at_. destruct (decide (x = 1%nat)) as [->|Hx1]; [done|].
      do 3 (split; [done|]). destruct (decide (x < 1)%nat); [rewrite decide_True by lia|rewrite decide_False by lia]; done.
  - lia.
  - apply (files_ok_fids _ s); try done. rewrite HP. apply fidt_imap. intros x b _.
    unfold F, first_block, at_. by case_decide.
  - assert (∀ x b k, PT s' !! x = Some b → pstate b = ALIVE → pargs b = Some k →
      x = 1%nat ∧ new_buf s args = Some k) as Hown.
    { intros x b k Hx Hal Hk. destruct (Hblk x b Hx) as (b' & Hb' & ->). revert Hal Hk.
      destruct (so_blocks _ _ Hst x b' Hb') as (_ & _ & _ & H).
      unfold F, first_block, at_. destruct (decide (x = 1%nat)) as [->|Hx1]; [done|].
      destruct (decide (x < 1)%nat); [|by destruct H as [-> _]].
      replace x with 0%nat in Hb' by lia. by rewrite (H0 _ Hb'). }
    split.
    + intros p b k Hp Hal Hk. destruct (Hown p b k Hp Hal Hk) as [_ Hnew]. rewrite Hkb.
      unfold new_buf, new_kbufs in *. destruct args as [[ptr bytes]|]; [|done]. simplify_eq.
      rewrite lookup_insert_eq. by eexists.
    + intros p q b e k Hp Hq' Hal Hal' Hk Hk'. destruct (Hown p b k Hp Hal Hk) as [-> _].
      by destruct (Hown q e k Hq' Hal' Hk') as [-> _].
    + intros k Hk. rewrite Hnb in Hk. rewrite Hkb. unfold new_next, new_kbufs in *.
      destruct args as [[ptr bytes]|]; [|by rewrite Hb]. rewrite lookup_insert_ne by lia. by rewrite Hb.
  - done.
Qed.

Lemma boot_world n nf s0 s1 s2 f argl args :
  powered_on n nf s0 → args_readable argl args →
  boot_tables 0 n nf s0 = Ok (tt, s1) → start_init 0 (Some f) argl args s1 = Ok (tt, s2) →
  world_ok (World s2 [] []).
Proof.
  intros Hp Hargs Hr1 Hr2.
  destruct (boot_tables_run n nf s0 Hp) as (s1' & Hr1' & Hst & Hfo & Hl & Hn & Hb & H0 & _).
  rewrite Hr1 in Hr1'. injection Hr1' as <-. destruct Hp as [_ Hsz _ _ _ _].
  destruct (start_init_run n f argl args s1 Hst Hfo Hl Hn ltac:(lia) Hb H0 Hargs)
    as (s2' & _ & Hr2' & Hw & _). rewrite Hr2 in Hr2'. by injection Hr2' as <-.
Qed.

Lemma boot_runs n nf s0 f argl args :
  powered_on n nf s0 → args_readable argl args →
  ∃ s1 s2, boot_tables 0 n nf s0 = Ok (tt, s1) ∧ start_init 0 (Some f) argl args s1 = Ok (tt, s2).
Proof.
  intros Hp Hargs. destruct (boot_tables_run n nf s0 Hp) as (s1 & Hr1 & Hst & Hfo & Hl & Hn & Hb & H0 & _).
  destruct Hp as [_ Hsz _ _ _ _].
  destruct (start_init_run n f argl args s1 Hst Hfo Hl Hn ltac:(lia) Hb H0 Hargs) as (s2 & _ & Hr2 & _).
  by exists s1, s2.
Qed.
