(* ===== verification/ProcProps.v ===== *)
(** * Properties of the processes

    Booting, the invariant of every state that process calls and stream calls
    reach, the results of [Exec] and [WaitChild], the end of a process, and what
    goes wrong when two threads wait for one child, or when init ends before its
    children. *)
From S2P Require Import Prelude Bios Sched SchedInv SchedSteps SchedProps Kernel Devices Streams StreamInv StreamCalls StreamIO StreamProps Proc Threads ProcInv ProcExit ProcExec World Boot.
Local Open Scope Z_scope.

(** ** A small system, for the witnesses

    Core 0 runs thread 0, of process [p] and with PTCB [n]; there are five process
    blocks and three streams. *)
Definition demo_TCB (p : Z) (n : option ptcb_ptr) (k : TCB) : TCB :=
  MkTCB p (priority k) n (tcb_type k) (tcb_state k) (tcb_phase k) (thread_func k) (wakeup_time k)
    (its k) (rts k) (curr_cause k) (last_cause k).
Definition demo_on (p : Z) (n : option ptcb_ptr) : sched :=
  let v := st demo_running in
  match tcbs v !! Thr 0 with
  | Some k => set_tcbs (<[Thr 0 := demo_TCB p n k]> (tcbs v)) v
  | None => v
  end.

Lemma demo_on_facts p n :
  (∃ pl, inv (demo_on p n) (md demo_running) pl) ∧
  ∃ b k, cctx (demo_on p n) !! 0%nat = Some b ∧ current_thread b = Thr 0 ∧
    tcbs (demo_on p n) !! Thr 0 = Some (demo_TCB p n k).
Proof.
  destruct demo_running_ok as [pl Hi]. destruct demo_thread as (b & k & Hb & Hcur & Hk & _).
  unfold demo_on. revert Hi Hb Hk. generalize (st demo_running) as v. intros v Hi Hb Hk. rewrite Hk. split.
  - exists pl. by apply (inv_role v _ pl _ k).
  - exists b, k. split; [exact Hb|]. split; [exact Hcur|]. apply lookup_insert_eq.
Qed.

Lemma demo_on_live p n s : ksched s = demo_on p n → waiting s = [] → sched_live s.
Proof.
  intros Hk Hw. destruct (demo_on_facts p n) as [[pl Hi] _]. split; [rewrite Hk; by eexists _, pl|].
  rewrite Hw. intros ch t Ht. by apply not_elem_of_nil in Ht.
Qed.

Lemma demo_on_call (p : nat) n s :
  ksched s = demo_on (Z.of_nat p) n → is_Some (PT s !! p) → can_call s 0 (Thr 0) p.
Proof.
  intros Hs HP. destruct demo_thread as (_ & _ & _ & _ & _ & _ & Hm).
  destruct (demo_on_facts (Z.of_nat p) n) as [[pl Hi] (b & k & Hb & Hcur & Hk)].
  rewrite <-Hs in Hi, Hb, Hk. split; [|exact HP|exact I|by exists (md demo_running), pl].
  exists b, (demo_TCB (Z.of_nat p) n k). split_and!; [exact Hb|exact Hcur|exact Hk|reflexivity].
Qed.

#[global] Opaque demo_on.

Definition demo_free (o : option nat) : PCB :=
  MkPCB FREE o 0 [] 0 None 0 None [] [] (replicate MAX_FILEID None).
Definition demo_power (v : sched) : kernel :=
  MkKernel v (replicate 5 (demo_free None)) None 0 ∅ 0%nat ∅ 0%nat (replicate 3 (MkFCB 7 None None)) []
    [0%nat; 0%nat] [].

Lemma demo_powered : powered_on 5 3 (demo_power (demo_on 1 None)).
Proof.
  split; [reflexivity| |reflexivity|reflexivity| |by apply (demo_on_live 1 None)].
  - split; [lia|]. vm_compute. discriminate.
  - vm_compute. by eexists.
Qed.

(** The state of a run that succeeds. *)
Definition final {A} (m : KM A) (s : kernel) : kernel := match m s with Ok (_, s') => s' | Fault _ => s end.

Definition demo_args : user_args := Some (4096, [7; 8; 9; 10]).
Definition demo_tables : kernel := final (boot_tables 0 5 3) (demo_power (demo_on 1 None)).
Definition demo_booted : kernel := final (start_init 0 (Some 5%nat) 3 demo_args) demo_tables.

(** Process [p] calls [op]; its thread 0 is scheduled first. *)
Definition demo_run (p : nat) (n : option ptcb_ptr) (op : proc_call) (x : world) : world :=
  let s := set_ksched (demo_on (Z.of_nat p) n) (set_waiting [] (wk x)) in
  match exec_proc 0 p op s with
  | Ok (r, s') => World s' (wheld x) (next_waits op p r (wwaits x))
  | Fault _ => x
  end.

Lemma demo_run_reach x0 x p n op :
  reachable world_step x0 x →
  (let y := World (set_ksched (demo_on (Z.of_nat p) n) (set_waiting [] (wk x))) (wheld x) (wwaits x) in
   in_process (wk y) p ∧ proc_ok y p op ∧ few_calls y ∧
   match exec_proc 0 p op (wk y) with Ok _ => True | Fault _ => False end) →
  reachable world_step x0 (demo_run p n op x).
Proof.
  set (y := World _ _ _). intros Hx (Hin & Hok & Hfew & Hr). unfold demo_run.
  assert (reachable world_step x0 y) as Hy.
  { eapply reach_step; [exact Hx|]. by apply do_sched, (demo_on_live (Z.of_nat p) n). }
  change (set_ksched _ _) with (wk y).
  destruct (exec_proc 0 p op (wk y)) as [[r s']|] eqn:He; [|done].
  eapply reach_step; [exact Hy|]. apply (do_proc y 0 (Thr 0) p op r s'); try done.
  apply (demo_on_call p n); [done|]. destruct Hin as (_ & b & Hb & _). by eexists.
Qed.

(** ** Booting *)

(** C33 (functional). Booting starts init.  On a machine whose tables have any
    contents, core 0 fills the tables, makes process 0, which has no thread and no
    arguments, and then process 1 with the boot task: no parent, no children, no
    streams, a copy of the arguments, and a main thread that is ready to run.  All
    other blocks are in the free list, and the invariant of the system holds. *)
Theorem boot_starts_init n nf s0 f argl args :
  powered_on n nf s0 → args_readable argl args →
  ∃ s1 s2 b t, boot_tables 0 n nf s0 = Ok (tt, s1) ∧
    start_init 0 (Some f) argl args s1 = Ok (tt, s2) ∧ world_ok (World s2 [] []) ∧
    PT s2 !! 1%nat = Some b ∧ pstate b = ALIVE ∧ parent b = None ∧ main_task b = Some f ∧
    pargl b = argl ∧ thread_list b = [next_ptcb s1] ∧ thread_count b = 1 ∧
    (∀ ptr bytes, args = Some (ptr, bytes) →
       ∃ k, pargs b = Some k ∧ kbufs s2 !! k = Some (take (Z.to_nat argl) bytes)) ∧
    thread_of s2 1 (next_ptcb s1) t start_main_thread_entry (Some f) argl (args_ptr args) ∧
    ∀ x e, PT s2 !! x = Some e →
      children_list e = [] ∧ exited_list e = [] ∧ FIDT e = replicate MAX_FILEID None ∧
      (pstate e = ALIVE ↔ (x ≤ 1)%nat).
Proof.
  intros Hp Hargs. destruct (boot_tables_run n nf s0 Hp) as (s1 & Hr1 & Hst & Hfo & Hl & Hn & Hb & H0 & _).
  destruct Hp as [_ Hsz _ _ _ _].
  destruct (start_init_run n f argl args s1 Hst Hfo Hl Hn ltac:(lia) Hb H0 Hargs)
    as (s2 & bq & Hr2 & Hw & Hbq & [HP _ Hkb _ _ _ _ Hth]).
  destruct (Hth f eq_refl) as (t & Ht & _). destruct (so_blocks _ _ Hst 1 bq Hbq) as (Hc & He & Hf & H1).
  rewrite decide_False in H1 by lia. destruct H1 as (_ & _ & Htl & _).
  assert (PT s2 !! 1%nat = Some (first_block 1 (Some f) argl (new_buf s1 args) (Some (next_ptcb s1)) 1 bq))
    as Hb1 by (by rewrite HP, list_lookup_imap, Hbq).
  eexists s1, s2, _, t. split_and!; [done|done|done|exact Hb1|..]; try done.
  - unfold first_block. rewrite at_same. simpl. by rewrite Htl.
  - intros ptr bytes ->. exists (next_buf s1). split; [done|]. rewrite Hkb. apply lookup_insert_eq.
  - intros x e. rewrite HP. intros (e0 & He0 & ->)%imap_lookup_Some.
    destruct (so_blocks _ _ Hst x e0 He0) as (H1 & H2 & H3 & H4).
    unfold first_block, at_. destruct (decide (x = 1%nat)) as [->|Hx]; [split_and!; try done; simpl; lia|].
    split_and!; try done. destruct (decide (x < 1)%nat); [destruct H4 as [-> _]|destruct H4 as [-> _]]; split; try done; lia.
Qed.

Lemma boot_starts_init_witness :
  ∃ s1 s2 b, boot_tables 0 5 3 (demo_power (demo_on 1 None)) = Ok (tt, s1) ∧
    start_init 0 (Some 5%nat) 3 demo_args s1 = Ok (tt, s2) ∧ PT s2 !! 1%nat = Some b ∧
    ∃ k, pargs b = Some k ∧ kbufs s2 !! k = Some [7; 8; 9].
Proof.
  destruct (boot_starts_init 5 3 (demo_power (demo_on 1 None)) 5%nat 3 demo_args demo_powered
    ltac:(vm_compute; split; discriminate)) as (s1 & s2 & b & t & H1 & H2 & _ & H3 & _ & _ & _ & _ & _ & _ & H4 & _).
  exists s1, s2, b. split; [exact H1|]. split; [exact H2|]. split; [exact H3|].
  destruct (H4 4096 [7; 8; 9; 10] eq_refl) as (k & Hk & Hbuf). exists k. split; [exact Hk|exact Hbuf].
Defined.

(** ** The invariant *)

(** Processes and streams stay consistent, whatever the processes do.
    From boot, after any sequence of [Exec], [WaitChild] and process ends, of stream
    calls, and of steps of the scheduler, waiting calls included: the children of a
    process are its living and its zombie children and the exited list has exactly
    the zombies; parents are alive and every process descends from init or the idle
    process; a finished process holds no stream; every other block of the table is
    in the free list, once; argument buffers are live and not shared; and reference
    counts are exact.  Every call that a thread makes next runs to its end (or to
    its wait) without an invalid access or a failed assertion. *)
Theorem system_consistent n nf s0 s1 s2 f argl args y :
  powered_on n nf s0 → args_readable argl args →
  boot_tables 0 n nf s0 = Ok (tt, s1) → start_init 0 (Some f) argl args s1 = Ok (tt, s2) →
  reachable world_step (World s2 [] []) y →
  family_ok (PT (wk y)) ∧ freelist_ok (PT (wk y)) (pcb_freelist (wk y)) ∧ args_ok (wk y) ∧
  files_ok (holds (wheld y)) (wk y) ∧
  (∀ c self p op, can_call (wk y) c self p → in_process (wk y) p → proc_ok y p op → few_calls y →
     ∃ r s', exec_proc c p op (wk y) = Ok (r, s')) ∧
  (∀ c self p call, can_call (wk y) c self p → in_process (wk y) p → call_ok (wheld y) call →
     few_calls y → terms_ok (wk y) → ∃ r s', exec_call c call (wk y) = Ok (r, s')).
Proof.
  intros Hp Hargs Hr1 Hr2 Hreach. pose proof (boot_world n nf s0 s1 s2 f argl args Hp Hargs Hr1 Hr2) as Hw.
  pose proof (world_reach_ok _ y Hw Hreach) as Hy. pose proof (w_procs _ Hy) as [H1 H2 H3 H4 H5].
  split_and!; [exact H1|exact H2|exact H3|exact H4|..].
  - intros c self p op Hc Hin Hok Hfew.
    destruct (proc_step_ok y c self p op Hy Hc Hin Hok Hfew) as (r & s' & Hr & _). by exists r, s'.
  - intros c self p call Hc Hin Hok Hfew Ht.
    destruct (stream_step_ok y c self p call Hy Hc Hin Hok Hfew Ht) as (r & s' & Hr & _). by exists r, s'.
Qed.

Definition demo_0 : world := World demo_booted [] [].
(** Init starts process 2, which starts process 3 and ends; init waits for it. *)
Definition demo_1 : world := demo_run 1 None (Exec (Some 6%nat) 0 None) demo_0.
Definition demo_2 : world := demo_run 2 None (Exec (Some 7%nat) 0 None) demo_1.
Definition demo_3 : world := demo_run 1 None (WaitChild 2) demo_2.
Definition demo_4 : world := demo_run 2 None (EndProcess 42) demo_3.

Ltac demo_go H :=
  apply demo_run_reach; [exact H|]; cbv zeta; split; [|split; [|split]];
  [split; [done|eexists; vm_compute; split; reflexivity]| |vm_compute; reflexivity|vm_compute; exact I].

Lemma demo_1_reach : reachable world_step demo_0 demo_1.
Proof. demo_go (reach_refl world_step demo_0). exact I. Qed.
Lemma demo_2_reach : reachable world_step demo_0 demo_2.
Proof. demo_go demo_1_reach. exact I. Qed.
Lemma demo_3_reach : reachable world_step demo_0 demo_3.
Proof.
  demo_go demo_2_reach. split; [|right; vm_compute; reflexivity].
  assert (wwaits demo_2 = []) as -> by (vm_compute; reflexivity). by intros w Hw%not_elem_of_nil.
Qed.
Lemma demo_4_reach : reachable world_step demo_0 demo_4.
Proof.
  demo_go demo_3_reach. split; [|intros [=]].
  assert (wwaits demo_3 = [ForChild 1 2]) as -> by (vm_compute; reflexivity).
  intros w ->%list_elem_of_singleton. done.
Qed.

(** The scheduler runs thread 0 of process [p]. *)
Definition scheduled (p : nat) (n : option ptcb_ptr) (x : world) : world :=
  World (set_ksched (demo_on (Z.of_nat p) n) (set_waiting [] (wk x))) (wheld x) (wwaits x).
Lemma scheduled_reach x0 x p n : reachable world_step x0 x → reachable world_step x0 (scheduled p n x).
Proof.
  intros Hx. eapply reach_step; [exact Hx|]. by apply do_sched, (demo_on_live (Z.of_nat p) n).
Qed.

Lemma demo_tables_run :
  boot_tables 0 5 3 (demo_power (demo_on 1 None)) = Ok (tt, demo_tables) ∧
  start_init 0 (Some 5%nat) 3 demo_args demo_tables = Ok (tt, demo_booted).
Proof.
  destruct (boot_runs 5 3 _ 5%nat 3 demo_args demo_powered ltac:(vm_compute; split; discriminate)) as (s1 & s2 & H1 & H2).
  assert (demo_tables = s1) as Ht by (unfold demo_tables, final; by rewrite H1).
  split; [by rewrite Ht|]. unfold demo_booted, final. rewrite Ht. by rewrite H2.
Qed.

Lemma demo_4_call : can_call (wk (scheduled 1 None demo_4)) 0 (Thr 0) 1.
Proof. apply (demo_on_call 1 None); [reflexivity|]. eexists. vm_compute. reflexivity. Qed.

(** Init is woken up, and reaps process 2. *)
Lemma system_consistent_witness :
  family_ok (PT (wk (scheduled 1 None demo_4))) ∧
  ∃ r s', exec_proc 0 1 (WaitMore (ForChild 1 2)) (wk (scheduled 1 None demo_4)) = Ok (r, s').
Proof.
  destruct (system_consistent 5 3 _ _ _ 5%nat 3 demo_args (scheduled 1 None demo_4) demo_powered
    ltac:(vm_compute; split; discriminate) (proj1 demo_tables_run) (proj2 demo_tables_run)
    (scheduled_reach _ _ 1 None demo_4_reach)) as (Hf & _ & _ & _ & Hc & _).
  split; [exact Hf|]. apply (Hc 0%nat (Thr 0) 1%nat (WaitMore (ForChild 1 2)) demo_4_call).
  - split; [lia|]. eexists. vm_compute. split; reflexivity.
  - split; [|reflexivity].
    assert (wwaits (scheduled 1 None demo_4) = [ForChild 1 2]) as -> by (vm_compute; reflexivity). left.
  - vm_compute. reflexivity.
Defined.

(** ** Exec *)
Lemma no_free_block pt : freelist_ok pt None → ∀ x b, pt !! x = Some b → pstate b ≠ FREE.
Proof.
  intros (l & Hc & _ & Hl) x b Hb Hst. apply (Hl x b Hb) in Hst. destruct l as [|y l].
  - by apply not_elem_of_nil in Hst.
  - by destruct Hc.
Qed.

(** A free block has no children. *)
Lemma free_childless pt q k :
  family_ok pt → pt !! q = Some k → pstate k = FREE → children_list k = [] ∧ exited_list k = [].
Proof.
  intros Hf Hk Hst.
  assert (∀ y e, pt !! y = Some e → pstate e ≠ FREE → parent e = Some q → False) as Hno.
  { intros y e He Hne Hp. destruct (fa_parent _ Hf y e q He Hne Hp) as (_ & k' & Hk' & Hal). congruence. }
  split.
  - destruct (children_list k) as [|y l] eqn:Hc; [done|]. exfalso.
    destruct (proj1 (proj2 (fa_children _ Hf _ _ Hk) y)) as (e & He & Hne & Hp); [rewrite Hc; left|]. by eapply Hno.
  - destruct (exited_list k) as [|y l] eqn:Hc; [done|]. exfalso.
    destruct (proj1 (proj2 (fa_exited _ Hf _ _ Hk) y)) as (e & He & Hz & Hp); [rewrite Hc; left|].
    eapply (Hno y e); [done|congruence|done].
Qed.

(** C12 (functional). [Exec] fails exactly when no block is free, and then changes
    nothing.  Otherwise the first free block becomes a living child of the caller,
    first in its list: with no children, the caller's streams (each counted once
    more), a copy of the arguments, and, if there is a task, a new main thread that
    is ready to run.  No other process changes, and the invariant is kept. *)
Theorem Exec_result infl s c self p b call argl args :
  procs_ok infl s → runs_in s c self p → p ≠ 0%nat → PT s !! p = Some b → pstate b = ALIVE →
  args_readable argl args → (∀ f, Z.of_nat (infl f) + 1 < 2 ^ 31) →
  match pcb_freelist s with
  | None => (∀ x e, PT s !! x = Some e → pstate e ≠ FREE) ∧
      sys_Exec c call argl args s = Ok (NOPROC, s)
  | Some q => ∃ s' k k', PT s !! q = Some k ∧ pstate k = FREE ∧
      sys_Exec c call argl args s = Ok (Z.of_nat q, s') ∧ procs_ok infl s' ∧
      PT s' !! q = Some k' ∧ pstate k' = ALIVE ∧ parent k' = Some p ∧ children_list k' = [] ∧
      exited_list k' = [] ∧ FIDT k' = FIDT b ∧ main_task k' = call ∧ pargl k' = argl ∧
      (args = None → pargs k' = None) ∧
      (∀ ptr bytes, args = Some (ptr, bytes) →
         ∃ a, pargs k' = Some a ∧ kbufs s' !! a = Some (take (Z.to_nat argl) bytes)) ∧
      PT s' !! p = Some (set_children_list (q :: children_list b) b) ∧
      (∀ x, x ≠ p → x ≠ q → PT s' !! x = PT s !! x) ∧
      (call = None → thread_count k' = 0) ∧
      (∀ f, call = Some f → thread_count k' = 1 ∧ next_ptcb s ∈ thread_list k' ∧
         ∃ t, Sched.tcbs (ksched s) !! t = None ∧
           thread_of s' q (next_ptcb s) t start_main_thread_entry call argl (args_ptr args))
  end.
Proof.
  intros Hpr Hr Hp0 Hb Hal Hargs Hsm. destruct (pcb_freelist s) as [q|] eqn:Hq.
  - pose proof (pr_free _ _ Hpr) as (l & Hch & _ & Hfl). rewrite Hq in Hch.
    destruct l as [|y l]; [done|]. destruct Hch as ([= <-] & k & Hk & _).
    assert (pstate k = FREE) as Hst by (apply (Hfl q k Hk); left).
    assert (p ≠ q) as Hpq by congruence. assert (q ≠ p) as Hqp by done.
    destruct (free_childless _ q k (pr_family _ _ Hpr) Hk Hst) as [Hch Hex].
    destruct (exec_run infl c self p q b k call argl args s Hpr Hr Hb Hal Hq Hk Hargs Hsm)
      as (s' & Hrun & Hfo & He).
    pose proof (exec_keeps infl p q b k call argl args s s' Hpr Hb Hal Hp0 Hq Hk Hfo He) as Hpr'.
    destruct He as [HP _ _ Hkb _ _ Hth _ _ _ _].
    set (n := match call with Some _ => Some (next_ptcb s) | None => None end) in *.
    exists s', k, (started n (newborn p (FIDT b) call argl (new_buf s args) k)).
    split_and!; [exact Hk|exact Hst|exact Hrun|exact Hpr'|..]; try (by destruct call).
    + rewrite HP, list_lookup_imap, Hk. simpl. unfold exec_block. by rewrite at_same, at_ne, at_same.
    + intros ->. by destruct call.
    + intros ptr bytes ->. exists (next_buf s). split; [by destruct call|rewrite Hkb; apply lookup_insert_eq].
    + rewrite HP, list_lookup_imap, Hb. simpl. unfold exec_block. by rewrite at_ne, at_same, at_ne by done.
    + intros x Hxp Hxq. rewrite HP, list_lookup_imap. destruct (PT s !! x); simpl; [|done].
      unfold exec_block. by rewrite !at_ne by done.
    + intros f ->. destruct (Hth f eq_refl) as (t & Ht & Hto & _).
      split; [done|]. split; [|by exists t]. simpl. apply elem_of_app. right. left.
  - split; [|by apply exec_none]. apply no_free_block. rewrite <-Hq. apply Hpr.
Qed.

Lemma demo_0_ok : world_ok demo_0.
Proof.
  exact (boot_world 5 3 _ _ _ 5%nat 3 demo_args demo_powered ltac:(vm_compute; split; discriminate)
    (proj1 demo_tables_run) (proj2 demo_tables_run)).
Qed.

Lemma scheduled_ok x p n : reachable world_step demo_0 x → world_ok (scheduled p n x).
Proof. intros Hx. eapply world_reach_ok; [apply demo_0_ok|]. by apply scheduled_reach. Qed.

Lemma no_holds : ∀ f, Z.of_nat (holds [] f) + 1 < 2 ^ 31.
Proof. done. Qed.

(** Init, when it is scheduled in [demo_1]; process 2 is its child. *)
Definition demo_init : kernel := wk (scheduled 1 None demo_1).

Lemma demo_init_runs : runs_in demo_init 0 (Thr 0) 1.
Proof. apply (demo_on_call 1 None); [reflexivity|]. eexists. vm_compute. reflexivity. Qed.
Lemma demo_init_ok : procs_ok (holds []) demo_init.
Proof. exact (w_procs _ (scheduled_ok demo_1 1 None demo_1_reach)). Qed.

Definition block (s : kernel) (p : nat) : PCB := default (demo_free None) (PT s !! p).

Lemma Exec_result_witness :
  ∃ s' k', sys_Exec 0 (Some 8%nat) 2 demo_args demo_init = Ok (3, s') ∧
    PT s' !! 3%nat = Some k' ∧ parent k' = Some 1%nat ∧
    ∃ a, pargs k' = Some a ∧ kbufs s' !! a = Some [7; 8].
Proof.
  pose proof (Exec_result (holds []) demo_init 0 (Thr 0) 1 (block demo_init 1) (Some 8%nat) 2 demo_args
    demo_init_ok demo_init_runs ltac:(lia) ltac:(vm_compute; reflexivity) ltac:(vm_compute; reflexivity)
    ltac:(vm_compute; split; discriminate) no_holds) as H.
  assert (pcb_freelist demo_init = Some 3%nat) as Hq by (vm_compute; reflexivity). rewrite Hq in H.
  destruct H as (s' & k & k' & _ & _ & Hr & _ & Hk' & _ & Hp & _ & _ & _ & _ & _ & _ & Ha & _).
  exists s', k'. split; [exact Hr|]. split; [exact Hk'|]. split; [exact Hp|].
  destruct (Ha 4096 [7; 8; 9; 10] eq_refl) as (a & H1 & H2). exists a. split; [exact H1|exact H2].
Defined.

(** ** WaitChild *)

(** C13 (refinement). [WaitChild] does what [wait_spec] says.  For a child of the
    caller that has ended, and for [NOPROC] with an ended child (the first of the
    exited list), it returns the child's pid and exit value and frees the block; it
    waits while the child lives, or while no child has ended; and without such a
    child (a free block, a process of another parent, a number out of range) it
    fails and changes nothing.  A freed block is the first of the free list, and is
    in no process's lists.  The invariant is kept. *)
Theorem WaitChild_refines infl s c self p b cpid :
  procs_ok infl s → can_call s c self p → PT s !! p = Some b →
  MAX_PROC ≤ cpid ∨ cpid < Z.of_nat (length (PT s)) →
  ∃ r s', sys_WaitChild c cpid s = Ok (r, s') ∧ procs_ok infl s' ∧ wait_spec s p b cpid r s' ∧
    ∀ q v, r = Reaped (Z.of_nat q) v →
      pcb_freelist s' = Some q ∧ process_count s' = u32 (process_count s - 1) ∧
      (∃ k, PT s' !! q = Some k ∧ pstate k = FREE) ∧
      ∀ x e, PT s' !! x = Some e → (q ∉ children_list e) ∧ q ∉ exited_list e.
Proof.
  intros Hpr Hc Hb Hpid.
  destruct (wait_child_run infl s c self p b Hpr Hc Hb cpid Hpid) as (r & s' & Hr & Hpr' & Hs).
  exists r, s'. split_and!; [done|done|done|]. intros q v ->.
  assert (∃ k, PT s !! q = Some k ∧ s' = reaped q s) as (k & Hk & ->).
  { assert (∀ w, ¬ waits_at s w (Reaped (Z.of_nat q) v) s') as Hnw by (by intros w [? _]).
    assert (∀ q' k, PT s !! q' = Some k → reaps s q' k (Reaped (Z.of_nat q) v) s' →
      ∃ k, PT s !! q = Some k ∧ s' = reaped q s) as Hre.
    { intros q' k Hk (_ & [= Hq _] & ->). assert (q' = q) as -> by lia. by exists k. }
    unfold wait_spec, NOPROC in Hs. destruct (decide (cpid = -1)).
    - destruct (children_list b) as [|y l]; [destruct Hs as [[= H _] _]; lia|].
      destruct (exited_list b) as [|q' l']; [by destruct (Hnw _ Hs)|].
      destruct Hs as (k & Hk & _ & Hs). by eapply Hre.
    - destruct (child_of s p cpid) as [k|] eqn:Hch; [|destruct Hs as [[= H _] _]; lia].
      apply child_of_some in Hch as (_ & Hk & _). destruct (decide (pstate k = ALIVE)); [by destruct (Hnw _ Hs)|].
      by eapply Hre. }
  split_and!; [done|done|..].
  - eexists. split; [cbn; by rewrite list_lookup_imap, Hk|apply reap_same].
  - intros x e. cbn. intros (e0 & _ & ->)%imap_lookup_Some.
    destruct (reap_lists (pcb_freelist s) q x e0) as (-> & -> & _).
    split; intros [Hne _]%elem_of_remove_node; done.
Qed.

(** Init after the end of process 2, which it waits for. *)
Definition demo_reap : kernel := wk (scheduled 1 None demo_4).
Lemma demo_reap_ok : procs_ok (holds []) demo_reap.
Proof. exact (w_procs _ (scheduled_ok demo_4 1 None demo_4_reach)). Qed.

Lemma WaitChild_refines_witness :
  ∃ s', sys_WaitChild 0 NOPROC demo_reap = Ok (Reaped 2 (Some 42), s') ∧ procs_ok (holds []) s' ∧
    pcb_freelist s' = Some 2%nat.
Proof.
  destruct (WaitChild_refines (holds []) demo_reap 0 (Thr 0) 1 (block demo_reap 1) NOPROC
    demo_reap_ok demo_4_call ltac:(vm_compute; reflexivity) ltac:(right; vm_compute; reflexivity))
    as (r & s' & Hr & Hpr & _ & Hq).
  assert (match sys_WaitChild 0 NOPROC demo_reap with Ok (r, _) => r | Fault _ => Waiting (ForAny 0) end
    = Reaped 2 (Some 42)) as Hres by (vm_compute; reflexivity).
  rewrite Hr in Hres. rewrite Hres in Hr, Hq. exists s'. split; [exact Hr|]. split; [exact Hpr|].
  apply (Hq 2%nat (Some 42) eq_refl).
Defined.

(** ** The end of a process *)

(** C14 (functional). The end of a process.  It becomes a zombie with its exit value,
    and with no children, streams or arguments (which are freed).  Its children go
    to init, the last first; those that have ended join the end of init's exited
    list.  Its parent finds it first in its own exited list, and no thread waits on
    for a child of the parent: they have been woken up.  No process changes its
    state or its streams otherwise, and the invariant is kept. *)
Theorem process_end infl s p b v :
  procs_ok infl s → PT s !! p = Some b → pstate b = ALIVE → (p = 1%nat → children_list b = []) →
  (∀ f, Z.of_nat (infl f) + 1 < 2 ^ 31) →
  ∃ s' b', exit_process p v s = Ok (tt, s') ∧ procs_ok infl s' ∧
    PT s' !! p = Some b' ∧ pstate b' = ZOMBIE ∧ exitval b' = v ∧ parent b' = parent b ∧
    children_list b' = [] ∧ exited_list b' = [] ∧ FIDT b' = replicate MAX_FILEID None ∧ pargs b' = None ∧
    (∀ k, pargs b = Some k → kbufs s' !! k = None) ∧ pcb_freelist s' = pcb_freelist s ∧
    (∀ q t, parent b = Some q → (ChildExit q, t) ∉ waiting s') ∧
    ∀ x k, PT s !! x = Some k → x ≠ p →
      ∃ k', PT s' !! x = Some k' ∧ pstate k' = pstate k ∧ FIDT k' = FIDT k ∧ exitval k' = exitval k ∧
        parent k' = (if decide (x ∈ children_list b) then Some 1%nat else parent k) ∧
        children_list k' = (if decide (x = 1%nat) then rev (children_list b) else []) ++ children_list k ∧
        exited_list k' = (if decide (parent b = Some x) then [p] else []) ++ exited_list k ++
          (if decide (x = 1%nat) then exited_list b else []).
Proof.
  intros Hpr Hb Hal Hp1 Hsm. pose proof (pr_family _ _ Hpr) as Hf.
  destruct (exit_run infl p v b s Hpr Hb Hal Hp1 Hsm) as (s' & Hr & Hfo & He).
  pose proof (exit_ok infl p v b s s' Hpr Hb Hal Hp1 Hfo He) as Hpr'.
  destruct He as [HP Hfr _ _ Hk _ _ _ Htold].
  assert (p ∉ children_list b) as Hself by (by eapply kid_ne).
  assert (parent b ≠ Some p) as Hpar by (by eapply par_ne).
  exists s', (exit_block p v b p b).
  split_and!; [done|done|by rewrite HP, list_lookup_imap, Hb|..].
  - rewrite (G_pstate (PT s)) by done. by rewrite decide_True.
  - unfold exit_block, at_, tell, bequeath, adopt, at_. by repeat case_decide.
  - rewrite (G_parent (PT s)) by done. by rewrite decide_False.
  - rewrite (G_children (PT s)) by done. rewrite (decide_True (P := p = p)), app_nil_r by done.
    case_decide; [|done]. by rewrite Hp1.
  - rewrite (G_exited (PT s)) by done. rewrite (decide_True (P := p = p)), decide_False by done.
    case_decide; [|done]. by eapply exited_nil.
  - rewrite (G_FIDT (PT s)) by done. by rewrite decide_True.
  - rewrite (G_pargs (PT s)) by done. by rewrite decide_True.
  - intros k Hpk. rewrite Hk, Hpk. apply lookup_delete_eq.
  - done.
  - done.
  - intros x k Hx Hxp. exists (exit_block p v b x k). split; [by rewrite HP, list_lookup_imap, Hx|].
    rewrite (G_pstate (PT s)), (G_FIDT (PT s)), (G_parent (PT s)), (G_children (PT s)), (G_exited (PT s)) by done.
    rewrite !(decide_False (P := x = p)) by done. split_and!; try done.
    unfold exit_block, at_, tell, bequeath, adopt, at_. by repeat case_decide.
Qed.

(** Process 2, with a living child, whose parent waits. *)
Definition demo_ending : kernel := wk (scheduled 2 None demo_3).
Lemma demo_ending_ok : procs_ok (holds []) demo_ending.
Proof. exact (w_procs _ (scheduled_ok demo_3 2 None demo_3_reach)). Qed.

Lemma process_end_witness :
  ∃ s' k, exit_process 2 42 demo_ending = Ok (tt, s') ∧ procs_ok (holds []) s' ∧
    PT s' !! 1%nat = Some k ∧ children_list k = [3; 2]%nat ∧ exited_list k = [2]%nat.
Proof.
  destruct (process_end (holds []) demo_ending 2 (block demo_ending 2) 42 demo_ending_ok
    ltac:(vm_compute; reflexivity) ltac:(vm_compute; reflexivity) ltac:(intros [=]) no_holds)
    as (s' & b' & Hr & Hpr & _ & _ & _ & _ & _ & _ & _ & _ & _ & _ & _ & Ho).
  destruct (Ho 1%nat (block demo_ending 1) ltac:(vm_compute; reflexivity) ltac:(lia))
    as (k & Hk & _ & _ & _ & _ & Hc & He).
  exists s', k. split; [exact Hr|]. split; [exact Hpr|]. split; [exact Hk|].
  split; [rewrite Hc|rewrite He]; vm_compute; reflexivity.
Defined.

(** ** Two waits for one child *)

(** C37 (error). Two threads that wait for the same child break the free list.  The
    second of them finds the block [q] free, as the first left it, and frees it
    again: it reports the same pid and value a second time, [q] follows itself in
    the free list, and from then on every [Exec] gets [q]; one into which a process
    was just put is given away again while that process runs. *)
Theorem reaped_twice s c p q k :
  PT s !! q = Some k → pstate k = ZOMBIE →
  ∃ s1 s2, wait_resume c (ForChild p q) s = Ok (Reaped (Z.of_nat q) (Some (exitval k)), s1) ∧
    wait_resume c (ForChild p q) s1 = Ok (Reaped (Z.of_nat q) (Some (exitval k)), s2) ∧
    ∃ s3 s4 k3, acquire_PCB s2 = Ok (Some q, s3) ∧ PT s3 !! q = Some k3 ∧ pstate k3 = ALIVE ∧
      acquire_PCB s3 = Ok (Some q, s4).
Proof.
  intros Hk Hz. exists (reaped q s), (reaped q (reaped q s)).
  assert (∀ s k, PT s !! q = Some k → pstate k ≠ ALIVE →
    wait_resume c (ForChild p q) s = Ok (Reaped (Z.of_nat q) (Some (exitval k)), reaped q s)) as Hw.
  { clear. intros s k Hk Hst. unfold wait_resume, wait_specific_loop. mrun ltac:(by apply get_PCB_run).
    rewrite decide_False by done. by mrun ltac:(by apply cleanup_run). }
  assert (∀ s k, PT s !! q = Some k → ∃ k', PT (reaped q s) !! q = Some k' ∧ pstate k' = FREE ∧
    parent k' = pcb_freelist s ∧ exitval k' = exitval k) as Hre.
  { clear. intros s k Hk. eexists. split; [cbn; by rewrite list_lookup_imap, Hk|].
    unfold reap_block, at_. by case_decide. }
  destruct (Hre s k Hk) as (k1 & Hk1 & Hf1 & _ & He1).
  destruct (Hre _ k1 Hk1) as (k2 & Hk2 & Hf2 & Hp2 & _). cbn in Hp2.
  split; [apply Hw; congruence|]. split; [rewrite <-He1; apply Hw; congruence|].
  eexists _, _, _. split; [by apply (acquire_PCB_run _ q k2)|].
  split; [unfold ptmap; cbn -[reaped]; rewrite list_lookup_imap, Hk2; cbn; by rewrite at_same|].
  split; [done|]. eapply acquire_PCB_run; [done|].
  unfold ptmap; cbn -[reaped]. by rewrite list_lookup_imap, Hk2.
Qed.

Lemma reaped_twice_witness :
  ∃ s1 s2, wait_resume 0 (ForChild 1 2) demo_reap = Ok (Reaped 2 (Some 42), s1) ∧
    wait_resume 0 (ForChild 1 2) s1 = Ok (Reaped 2 (Some 42), s2).
Proof.
  destruct (reaped_twice demo_reap 0 1 2 (block demo_reap 2) ltac:(vm_compute; reflexivity)
    ltac:(vm_compute; reflexivity)) as (s1 & s2 & H1 & H2 & _).
  exists s1, s2. split; [exact H1|exact H2].
Defined.

(** ** Init *)

(** A main thread of init that calls [ThreadExit] while init has
    children never returns: the loop that hands the children of the process over to
    init takes the first child from the list and puts it back there.  No bound on
    the turns is enough. *)
Theorem init_orphans_forever fuel s b :
  PT s !! 1%nat = Some b → (∀ y, y ∈ children_list b → is_Some (PT s !! y)) →
  (1%nat ∉ children_list b) → children_list b ≠ [] →
  reparent fuel 1 (Some 1%nat) s = Fault OutOfFuel.
Proof.
  revert s b. induction fuel as [|fuel IH]; intros s b Hb Hex Hin Hne; [done|].
  cbn [reparent]. mrun ltac:(by apply get_PCB_run).
  destruct (children_list b) as [|y l] eqn:Hc; [done|].
  assert (y ≠ 1%nat) as Hy by (intros ->; apply Hin; left).
  destruct (Hex y ltac:(left)) as [e He].
  mrun ltac:(by eapply upd_ptmap). mrun ltac:(eapply upd_ptmap; by rewrite ptmap_lookup, He).
  rewrite (run_some _ _ 1%nat) by done.
  mrun ltac:(eapply upd_ptmap; by rewrite !ptmap_lookup, Hb). rewrite !ptmap_ptmap.
  apply (IH _ (set_children_list (y :: l) b)); [|intros z Hz|done|done].
  - rewrite ptmap_lookup, Hb. cbn [fmap option_fmap option_map]. f_equal.
    unfold at_. by rewrite !decide_True, decide_False by done.
  - rewrite ptmap_lookup. by destruct (Hex z Hz) as [? ->].
Qed.

Lemma init_orphans_forever_witness : reparent 100 1 (Some 1%nat) demo_init = Fault OutOfFuel.
Proof.
  apply (init_orphans_forever 100 demo_init (block demo_init 1)).
  - vm_compute. reflexivity.
  - intros y Hy. assert (children_list (block demo_init 1) = [2%nat]) as Hc by (vm_compute; reflexivity).
    rewrite Hc in Hy. apply list_elem_of_singleton in Hy as ->. eexists. vm_compute. reflexivity.
  - assert (children_list (block demo_init 1) = [2%nat]) as -> by (vm_compute; reflexivity).
    intros ?%list_elem_of_singleton. done.
  - vm_compute. discriminate.
Defined.
