(* ===== verification/ThreadProps.v ===== *)
(** * Properties of the threads of a process

    [CreateThread], [ThreadJoin] and [ThreadExit], the [Exit] of init, and the
    lifetime of the control blocks that threads are joined by. *)
From S2P Require Import Prelude Hoare Bios Sched SchedInv SchedSteps SchedProps Kernel Devices Streams StreamInv StreamCalls StreamIO StreamProps Proc Threads Frames Wakeups ProcInv ProcExit ProcExec World Boot ProcProps.
Local Open Scope Z_scope.

(** ** Frames *)

(** [f] leaves what the invariant of the processes looks at. *)
Definition same_process (b b' : PCB) : Prop :=
  pstate b' = pstate b ∧ parent b' = parent b ∧ children_list b' = children_list b ∧
  exited_list b' = exited_list b ∧ FIDT b' = FIDT b ∧ pargs b' = pargs b ∧ exitval b' = exitval b.

Section frame.
Context (f : nat → PCB → PCB) (Hsame : ∀ x b, same_process b (f x b)).
#[local] Set Default Proof Using "Type*".

Lemma frame_find pt y x (P : pid_state → Prop) :
  (∃ k, imap f pt !! y = Some k ∧ P (pstate k) ∧ parent k = Some x) ↔
  (∃ k, pt !! y = Some k ∧ P (pstate k) ∧ parent k = Some x).
Proof.
  split.
  - intros (k & (e & He & ->)%imap_lookup_Some & HP & Hp). destruct (Hsame y e) as (Hs & Hpa & _).
    exists e. by rewrite <-Hs, <-Hpa.
  - intros (k & Hk & HP & Hp). destruct (Hsame y k) as (Hs & Hpa & _). exists (f y k).
    rewrite Hs, Hpa. split; [|done]. by rewrite list_lookup_imap, Hk.
Qed.

Lemma frame_rooted pt x : rooted pt x → rooted (imap f pt) x.
Proof.
  induction 1 as [x b Hb Hst Hp|x y b Hb Hst Hp Hr IH]; destruct (Hsame x b) as (Hs & Hpa & _).
  - eapply (rooted_root _ x (f x b)); [by rewrite list_lookup_imap, Hb|by rewrite Hs|by rewrite Hpa].
  - eapply (rooted_child _ x y (f x b)); [by rewrite list_lookup_imap, Hb|by rewrite Hs|by rewrite Hpa|done].
Qed.

Lemma frame_family pt : family_ok pt → family_ok (imap f pt).
Proof.
  intros Hf. split.
  - intros x b' (b & Hb & ->)%imap_lookup_Some. destruct (Hsame x b) as (_ & _ & -> & _).
    setoid_rewrite (frame_find pt _ x (λ st, st ≠ FREE)). by apply (fa_children _ Hf).
  - intros x b' (b & Hb & ->)%imap_lookup_Some. destruct (Hsame x b) as (_ & _ & _ & -> & _).
    setoid_rewrite (frame_find pt _ x (λ st, st = ZOMBIE)). by apply (fa_exited _ Hf).
  - intros y k' x (k & Hk & ->)%imap_lookup_Some. destruct (Hsame y k) as (-> & -> & _). intros Hst Hp.
    destruct (fa_parent _ Hf y k x Hk Hst Hp) as (Hx & b & Hb & Hal). split; [done|].
    exists (f x b). destruct (Hsame x b) as (-> & _). by rewrite list_lookup_imap, Hb.
  - intros x b' (b & Hb & ->)%imap_lookup_Some. destruct (Hsame x b) as (-> & _).
    intros Hst. apply frame_rooted. by apply (fa_rooted _ Hf x b).
  - intros x b' (b & Hb & ->)%imap_lookup_Some. destruct (Hsame x b) as (-> & -> & _).
    by apply (fa_roots _ Hf x b).
  - intros x Hx. destruct (fa_init _ Hf x Hx) as (b & Hb & Hst). exists (f x b).
    destruct (Hsame x b) as (-> & _). by rewrite list_lookup_imap, Hb.
  - intros x b' (b & Hb & ->)%imap_lookup_Some. destruct (Hsame x b) as (-> & _ & _ & _ & -> & _).
    by apply (fa_closed _ Hf x b).
Qed.

Lemma frame_free pt o : freelist_ok pt o → freelist_ok (imap f pt) o.
Proof.
  intros (l & Hc & Hnd & Hl). exists l. split; [|split; [done|]].
  - apply (free_chain_ext pt); [|done]. intros q e _ He. exists (f q e).
    destruct (Hsame q e) as (_ & -> & _). by rewrite list_lookup_imap, He.
  - intros q b' (b & Hb & ->)%imap_lookup_Some. destruct (Hsame q b) as (-> & _). by apply Hl.
Qed.

(** Threads may change, processes do not. *)
Lemma frame_procs infl s s' :
  procs_ok infl s → PT s' = imap f (PT s) → FT s' = FT s → FCB_freelist s' = FCB_freelist s →
  devnum s' = devnum s → kbufs s' = kbufs s → next_buf s' = next_buf s →
  pcb_freelist s' = pcb_freelist s → sched_live s' → procs_ok infl s'.
Proof.
  intros [Hf Hfr [H1 H2 H3] Hfo _] HP HF HL HD Hk Hn Hq Hl. split.
  - rewrite HP. by apply frame_family.
  - rewrite HP, Hq. by apply frame_free.
  - split; rewrite ?HP, ?Hk, ?Hn; [| |done].
    + intros p b' k (b & Hb & ->)%imap_lookup_Some. destruct (Hsame p b) as (-> & _ & _ & _ & _ & -> & _).
      by apply (H1 p).
    + intros p q b' e' k (b & Hb & ->)%imap_lookup_Some (e & He & ->)%imap_lookup_Some.
      destruct (Hsame p b) as (-> & _ & _ & _ & _ & -> & _), (Hsame q e) as (-> & _ & _ & _ & _ & -> & _).
      by apply (H2 p q b e).
  - apply (files_ok_fids infl s); try done. rewrite HP. apply fidt_imap. intros x b _. apply (Hsame x b).
  - done.
Qed.
End frame.

(** ** Steps *)
Lemma CURPTCB_run s c self p k t :
  runs_in s c self p → Sched.tcbs (ksched s) !! self = Some k → tcb_ptcb k = Some t →
  CURPTCB c s = Ok (t, s).
Proof.
  intros Hr Hk Ht. unfold CURPTCB. mrun ltac:(by eapply CURTHREAD_run).
  assert (on_ksched (get_tcb self) s = Ok (k, s)) as Hg.
  { rewrite <-(set_ksched_id s) at 2. apply on_ksched_run. by apply get_tcb_run. }
  mrun ltac:(exact Hg). by rewrite Ht.
Qed.

Lemma unlink_thread_run t s :
  unlink_thread t s = Ok (tt, ptmap (λ _ b, set_thread_list (remove_node t (thread_list b)) b) s).
Proof. unfold unlink_thread, modify, ptmap. by rewrite fmap_imap. Qed.

Lemma sleep_exited c v v' b k :
  sleep_mark c EXITED NO_TIMEOUT v = Ok (tt, v') → cctx v !! c = Some b →
  Sched.tcbs v !! current_thread b = Some k →
  Sched.tcbs v' !! current_thread b = Some (set_state EXITED k) ∧
  ∀ u, u ≠ current_thread b → Sched.tcbs v' !! u = Sched.tcbs v !! u.
Proof.
  intros Hr Hb Hk. revert Hr.
  unfold sleep_mark, CURTHREAD, set_core_preemption, get_ccb, upd_ccb, upd_tcb, get_tcb, get_ccb,
    on_vm, upd_core, get_core. unfold_monad. rewrite bool_decide_true by (by right).
  repeat (case_match; simplify_eq/=; try done); intros [= <-]; simpl;
    (split; [by rewrite lookup_insert_eq|intros u Hu; by rewrite lookup_insert_ne]).
Qed.

Lemma kernel_exit_run s c self p :
  sched_live s → can_call s c self p →
  ∃ v k, kernel_sleep c EXITED s = Ok (tt, set_ksched v s) ∧ sched_live (set_ksched v s) ∧
    Sched.tcbs v !! self = Some k ∧ tcb_state k = EXITED ∧
    threads_of v = delete self (threads_of (ksched s)).
Proof.
  intros [_ Hw] [(b & k0 & Hb & Hcur & Hk0 & _) _ Ht (ms & pl & Hi & Hm)].
  destruct (sleep_run (ksched s) ms pl c EXITED NO_TIMEOUT Hi Hm) as (v & pl' & Hrun & Hi').
  { split; [by right|]. split; [|by left]. exists b. by rewrite Hcur. }
  subst self. destruct (sleep_exited _ _ _ _ _ Hrun Hb Hk0) as [Hs Ho].
  exists v, (set_state EXITED k0). split; [by apply on_ksched_run|]. split.
  - split; [by eexists _, _|]. intros ch t Hin. cbn in *.
    destruct (decide (t = current_thread b)) as [->|Hne]; [by eexists|]. rewrite Ho by done. by eapply Hw.
  - split; [exact Hs|]. split; [done|]. apply map_eq. intros u. rewrite threads_of_lookup.
    destruct (decide (u = current_thread b)) as [->|Hne]; [by rewrite Hs, lookup_delete_eq|].
    by rewrite Ho, lookup_delete_ne, threads_of_lookup.
Qed.

(** The block of the thread that ends, and the list that it may be taken from. *)
Definition ended_ptcbs (t : ptcb_ptr) (v : Z) (pb : PTCB) (m : gmap ptcb_ptr PTCB) : gmap ptcb_ptr PTCB :=
  if decide (ref_count pb = 0) then delete t m else <[t := set_exited v pb]> m.
Definition ended_list (t : ptcb_ptr) (pb : PTCB) (b : PCB) : PCB :=
  if decide (ref_count pb = 0) then set_thread_list (remove_node t (thread_list b)) b else b.

Lemma exit_ptcb_run t v pb s :
  sched_live s → ptcbs s !! t = Some pb → detached pb = false →
  ∃ w ks, let s' := set_ksched ks (set_waiting w (set_ptcbs (ended_ptcbs t v pb (ptcbs s))
      (ptmap (λ _, ended_list t pb) s))) in
    exit_ptcb t v s = Ok (tt, s') ∧ sched_live s' ∧ calls s s' ∧ ∀ u, (ExitCv t, u) ∉ w.
Proof.
  intros Hl Ht Hd. unfold exit_ptcb. mrun ltac:(by apply upd_PTCB_run).
  set (s1 := set_ptcbs _ s). destruct (kernel_broadcast_run (ExitCv t) s1 Hl) as (ks & Hr & Hl' & Hc).
  set (w := filter (λ w, w.1 ≠ ExitCv t) (waiting s1)) in *. exists w, ks. mrun ltac:(exact Hr).
  set (s2 := set_ksched ks _) in *.
  assert (calls s s2) as Hc2 by (eapply calls_trans; [by apply (calls_same s s1)|exact Hc]).
  assert (ptcbs s2 !! t = Some (set_exited v pb)) as Ht2 by apply lookup_insert_eq.
  mrun ltac:(by apply get_PTCB_run). rewrite run_when_false by (by simpl).
  mrun ltac:(by apply get_PTCB_run).
  assert (∀ u, (ExitCv t, u) ∉ w) as Hw by (intros u [Hne _]%list_elem_of_filter; by apply Hne).
  unfold ended_ptcbs, ended_list. simpl ref_count. simpl detached. rewrite Hd.
  destruct (decide (ref_count pb = 0)) as [Hz|Hnz].
  - rewrite bool_decide_true by done. cbn [when]. mrun ltac:(by apply unlink_thread_run).
    split; [|split; [|split; [|done]]].
    + erewrite free_PTCB_run by exact Ht2. do 2 f_equal. unfold s2, s1, ptmap. cbn.
      by rewrite delete_insert_eq.
    + by eapply sched_live_same; [..|exact Hl'].
    + eapply calls_trans; [exact Hc2|]. apply calls_same; [done|]. intros q [b Hb]. cbn.
      change (PT s !! q = Some b) in Hb. rewrite list_lookup_imap, Hb. by eexists.
  - rewrite bool_decide_false by tauto. cbn [when]. fold (ptmap (λ _ b, b) s). rewrite ptmap_id.
    split; [reflexivity|]. split; [exact Hl'|]. split; [exact Hc2|exact Hw].
Qed.

(** ** ThreadExit *)
Definition leave (b : PCB) : PCB := set_thread_count (u32 (thread_count b - 1)) b.
(** The table without the thread, whose block is [t]. *)
Definition gone_block (p : nat) (t : ptcb_ptr) (pb : PTCB) (x : nat) (b : PCB) : PCB :=
  at_ p leave x (ended_list t pb b).

Section thread_exit.
Context (infl : nat → nat) (s : kernel) (c : nat) (self : tid) (p : nat) (b : PCB)
  (k : TCB) (t : ptcb_ptr) (pb : PTCB) (v : Z).
#[local] Set Default Proof Using "Type*".
Context (Hpr : procs_ok infl s) (Hc : can_call s c self p)
  (Hk : Sched.tcbs (ksched s) !! self = Some k) (Htk : tcb_ptcb k = Some t)
  (Ht : ptcbs s !! t = Some pb) (Hd : detached pb = false)
  (Hb : PT s !! p = Some b) (Hal : pstate b = ALIVE) (Hcount : 1 ≤ thread_count b < 2 ^ 32)
  (Hinit : p = 1%nat → thread_count b = 1 → children_list b = [])
  (Hsm : ∀ f, Z.of_nat (infl f) + 1 < 2 ^ 31).

Abbreviation gone := (gone_block p t pb).
Lemma gone_same x e : same_process e (gone x e).
Proof using Type. unfold gone_block, at_, ended_list. by repeat case_decide. Qed.

(** Up to the end of the process, if the thread is the last. *)
Lemma thread_ends :
  ∃ s2, (∀ m : KM unit, (exit_ptcb t v ;; upd_PCB p leave ;; m) s = m s2) ∧ procs_ok infl s2 ∧
    PT s2 = imap gone (PT s) ∧ ptcbs s2 = ended_ptcbs t v pb (ptcbs s) ∧
    can_call s2 c self p ∧ (∀ u, (ExitCv t, u) ∉ waiting s2) ∧
    next_ptcb s2 = next_ptcb s ∧ threads_of (ksched s2) = threads_of (ksched s).
Proof.
  destruct (exit_ptcb_run t v pb s (pr_sched _ _ Hpr) Ht Hd) as (w & ks & Hr & Hl & Hcl & Hw).
  set (s1 := set_ksched ks _) in *. set (s2 := ptmap (at_ p leave) s1).
  assert (PT s2 = imap gone (PT s)) as HP by (unfold s2, s1, ptmap; cbn; by rewrite imap_imap).
  assert (threads_of (ksched s1) = threads_of (ksched s)) as HL.
  { destruct (fr_exit_ptcb (threads_of (ksched s)) c self t v s tt s1) as [[H _] _]; [|exact Hr|done].
    split; [done|]. destruct (cc_runs _ _ _ _ Hc) as (cb & _ & Hcb & Hcu & _). by exists cb. }
  exists s2. split; [|split; [|split; [done|split; [done|split; [|done]]]]].
  - intros m. mrun ltac:(exact Hr).
    assert (PT s1 !! p = Some (ended_list t pb b)) as Hb1 by (unfold s1, ptmap; cbn; by rewrite list_lookup_imap, Hb).
    by mrun ltac:(by eapply upd_ptmap).
  - by apply (frame_procs gone gone_same infl s).
  - by apply calls_ptmap, Hcl.
Qed.

Lemma thread_exit_run :
  ∃ s' b' k', sys_ThreadExit c v s = Ok (tt, s') ∧ procs_ok infl s' ∧
    Sched.tcbs (ksched s') !! self = Some k' ∧ tcb_state k' = EXITED ∧
    ptcbs s' = ended_ptcbs t v pb (ptcbs s) ∧ PT s' !! p = Some b' ∧
    thread_count b' = thread_count b - 1 ∧ thread_list b' = thread_list (ended_list t pb b) ∧
    (children_list b = [] → children_list b' = []) ∧
    (PT s' = if decide (thread_count b = 1) then imap (exit_block p v (gone p b)) (imap gone (PT s))
             else imap gone (PT s)) ∧
    next_ptcb s' = next_ptcb s ∧ threads_of (ksched s') = delete self (threads_of (ksched s)) ∧
    if decide (thread_count b = 1) then pstate b' = ZOMBIE ∧ exitval b' = v
    else pstate b' = ALIVE ∧ exitval b' = exitval b ∧ children_list b' = children_list b ∧
         ∀ u, (ExitCv t, u) ∉ waiting s'.
Proof.
  destruct thread_ends as (s2 & Hr & Hpr2 & HP2 & Hm2 & Hc2 & Hw2 & Hn2 & HL2).
  assert (PT s2 !! p = Some (gone p b)) as Hb2 by (by rewrite HP2, list_lookup_imap, Hb).
  assert (thread_count (gone p b) = thread_count b - 1) as Hn.
  { unfold gone_block. rewrite at_same. unfold leave. cbn. unfold ended_list. case_decide; apply u32_small; lia. }
  assert (thread_list (gone p b) = thread_list (ended_list t pb b)) as Htl by (unfold gone_block; by rewrite at_same).
  destruct (gone_same p b) as (Hg1 & _ & Hg3 & _ & _ & _ & Hg7).
  unfold sys_ThreadExit. mrun ltac:(eapply CURPTCB_run; [apply Hc|done|done]).
  mrun ltac:(eapply CURPROC_run, Hc). rewrite Hr. mrun ltac:(by apply get_PCB_run). rewrite Hn.
  destruct (decide (thread_count b = 1)) as [H1|H1].
  - rewrite run_when_true by (apply bool_decide_true; lia).
    destruct (exit_run infl p v (gone p b) s2 Hpr2 Hb2) as (s3 & Hr3 & Hfo3 & He); [congruence| |done|].
    { intros Hp. rewrite Hg3. auto. }
    pose proof (exit_ok infl p v (gone p b) s2 s3 Hpr2 Hb2 ltac:(congruence)
      ltac:(intros Hp; rewrite Hg3; auto) Hfo3 He) as Hpr3.
    mrun ltac:(exact Hr3). destruct He as [HP3 _ _ Hm3 _ _ _ Hcl3 _].
    destruct (fr_exit_process (view s2) c self p v s2 tt s3 (view_is_self _ _ _ _ (cc_runs _ _ _ _ Hc2)) Hr3)
      as [[[HL3 _] _ _ Hn3] _].
    destruct (kernel_exit_run s3 c self p (pr_sched _ _ Hpr3) (Hcl3 _ _ _ Hc2)) as (ks & k' & Hr4 & Hl4 & Hk' & Hst & HL4).
    eexists _, _, k'. split; [exact Hr4|]. split_and!; [by apply (procs_ok_sched infl s3)|exact Hk'|exact Hst|..].
    + cbn. by rewrite Hm3.
    + cbn. by rewrite HP3, list_lookup_imap, Hb2.
    + rewrite <-Hn. unfold exit_block, at_, tell, bequeath, adopt, at_. by repeat case_decide.
    + rewrite <-Htl. unfold exit_block, at_, tell, bequeath, adopt, at_. by repeat case_decide.
    + intros Hch. rewrite (G_children (PT s2)) by first [exact Hb2 | exact (pr_family _ _ Hpr2) | congruence | intros Hp; rewrite Hg3; auto].
      rewrite (decide_True (P := p = p)), Hg3, Hch by done. by case_decide.
    + cbn. by rewrite HP3, HP2.
    + cbn. by rewrite Hn3.
    + cbn. by rewrite HL4, HL3, <-HL2.
    + unfold exit_block, at_, tell, bequeath, adopt, at_. by repeat case_decide.
    + unfold exit_block, at_, tell, bequeath, adopt, at_. by repeat case_decide.
  - rewrite run_when_false by (apply bool_decide_false; lia).
    destruct (kernel_exit_run s2 c self p (pr_sched _ _ Hpr2) Hc2) as (ks & k' & Hr4 & Hl4 & Hk' & Hst & HL4).
    exists (set_ksched ks s2), (gone p b), k'. split_and!; try done; try congruence.
    + by apply (procs_ok_sched infl s2).
    + cbn. by rewrite HL4, HL2.
Qed.
End thread_exit.

(** Of a detached thread, the block is read after it was freed. *)
Lemma detached_exit s c self p k t pb v :
  sched_live s → can_call s c self p → Sched.tcbs (ksched s) !! self = Some k →
  ptcbs s !! t = Some pb → tcb_ptcb k = Some t → detached pb = true →
  sys_ThreadExit c v s = Fault UseAfterFree.
Proof.
  intros Hl Hc Hk Ht Htk Hd. pose proof (cc_runs _ _ _ _ Hc) as Hr.
  unfold sys_ThreadExit. mrun ltac:(by eapply CURPTCB_run).
  mrun ltac:(by eapply CURPROC_run). apply bind_fault. unfold exit_ptcb. mrun ltac:(by apply upd_PTCB_run).
  set (s1 := set_ptcbs _ s). destruct (kernel_broadcast_run (ExitCv t) s1 Hl) as (ks & Hr1 & _). mrun ltac:(exact Hr1).
  set (s2 := set_ksched ks _). assert (ptcbs s2 !! t = Some (set_exited v pb)) as Ht2 by apply lookup_insert_eq.
  mrun ltac:(by apply get_PTCB_run). simpl detached. rewrite Hd. cbn [when]. mstep.
  mrun ltac:(by apply unlink_thread_run). mstep. mrun ltac:(by eapply free_PTCB_run). mstep.
  apply bind_fault, get_PTCB_freed. apply lookup_delete_eq.
Qed.

(** The threads that sleep in a join of the one that ends are ready after it. *)
Lemma running_awake s c self p k : can_call s c self p → Sched.tcbs (ksched s) !! self = Some k → ¬ sleeping k.
Proof.
  intros [(b & k0 & Hb & Hcur & Hk0 & _) _ _ (ms & pl & Hi & Hm)] Hk. subst self.
  pose proof (c_core _ _ _ (i_cores _ _ _ Hi) _ _ _ Hb Hm) as Hp. cbn in Hp.
  destruct (t_place _ _ (i_threads _ _ _ Hi) _ _ _ Hk Hp) as [Hst _]. unfold sleeping. intuition congruence.
Qed.

Lemma exit_ready us s c self p k t pb v s' :
  sched_live s → can_call s c self p → Sched.tcbs (ksched s) !! self = Some k → tcb_ptcb k = Some t →
  ptcbs s !! t = Some pb → sys_ThreadExit c v s = Ok (tt, s') →
  (∀ u, u ∈ us → (ExitCv t, u) ∈ waiting s ∧ ∃ ku, Sched.tcbs (ksched s) !! u = Some ku ∧ sleeping ku) →
  ready_in us self c (ExitCv t) s'.
Proof.
  intros Hl Hc Hk Htk Ht Hr Hus. pose proof (cc_runs _ _ _ _ Hc) as Hrun.
  assert (self ∉ us) as Hself.
  { intros Hin. destruct (Hus _ Hin) as (_ & ku & Hku & Hsl). by eapply running_awake. }
  revert Hr. unfold sys_ThreadExit. mrun ltac:(by eapply CURPTCB_run). mrun ltac:(by eapply CURPROC_run).
  intros ([] & s3 & Hr3 & Hr)%bind_Ok. revert Hr3. unfold exit_ptcb. mrun ltac:(by apply upd_PTCB_run).
  set (s1 := set_ptcbs _ s). intros ([] & s2 & Hr2 & Hr3)%bind_Ok.
  assert (ready_in us self c (ExitCv t) s2) as H2.
  { destruct (kernel_broadcast_run (ExitCv t) s1 Hl) as (ks & Hb & _ & Hcl). rewrite Hb in Hr2. injection Hr2 as <-.
    assert (can_call s1 c self p) as Hc1 by (revert Hc; by apply calls_same).
    destruct (Hcl _ _ _ Hc1) as [(b & _ & Hcb & Hcur & _) _ _ _].
    split; [split; [|by exists b]|intros x [Hne _]%list_elem_of_filter; by apply Hne].
    intros u Hu. destruct (Hus u Hu) as (Hw & ku & Hku & Hsl).
    destruct (kernel_broadcast_wakes (ExitCv t) s1 _ u ku Hl Hb Hku) as (k' & Hk' & Hst). exists k'.
    split; [exact Hk'|]. rewrite Hst. unfold woken_state. rewrite decide_True; [done|]. split; [|done].
    unfold on_channel. apply list_elem_of_fmap. exists (ExitCv t, u). split; [done|]. by apply list_elem_of_filter. }
  assert (ready_in us self c (ExitCv t) s3) as H3.
  { apply (keeps_run _ _ (λ _, True) _ _ _ H2 Hr3). by keeps_go. }
  apply (keeps_run _ _ (λ _, True) _ _ _ H3 Hr). keeps_go; first [done|by apply rd_exit_sleep].
Qed.

(** C16 (functional). [ThreadExit].  A thread that is detached reads its block after
    freeing it.  Of any other, the block gets the exit value, and is freed and taken
    from the thread list when nobody joins it; every thread that sleeps in a join of
    it is ready afterwards, and none waits for it any more.  The count of the process
    drops, and with the last thread the process ends, with that exit value.  The
    thread is marked [EXITED]; the invariant is kept. *)
Theorem ThreadExit_result infl s c self p b k t pb v :
  procs_ok infl s → can_call s c self p → Sched.tcbs (ksched s) !! self = Some k →
  tcb_ptcb k = Some t → ptcbs s !! t = Some pb →
  PT s !! p = Some b → pstate b = ALIVE → 1 ≤ thread_count b < 2 ^ 32 →
  (p = 1%nat → thread_count b = 1 → children_list b = []) →
  (∀ f, Z.of_nat (infl f) + 1 < 2 ^ 31) →
  if detached pb then sys_ThreadExit c v s = Fault UseAfterFree
  else ∃ s' b' k', sys_ThreadExit c v s = Ok (tt, s') ∧ procs_ok infl s' ∧
    Sched.tcbs (ksched s') !! self = Some k' ∧ tcb_state k' = EXITED ∧
    ptcbs s' !! t = (if decide (ref_count pb = 0) then None else Some (set_exited v pb)) ∧
    (∀ u, u ≠ t → ptcbs s' !! u = ptcbs s !! u) ∧
    (∀ u, (ExitCv t, u) ∉ waiting s') ∧
    (∀ u ku, (ExitCv t, u) ∈ waiting s → Sched.tcbs (ksched s) !! u = Some ku → sleeping ku →
       ∃ ku', Sched.tcbs (ksched s') !! u = Some ku' ∧ tcb_state ku' = READY) ∧
    PT s' !! p = Some b' ∧ thread_count b' = thread_count b - 1 ∧
    thread_list b' = (if decide (ref_count pb = 0) then remove_node t (thread_list b) else thread_list b) ∧
    if decide (thread_count b = 1) then pstate b' = ZOMBIE ∧ exitval b' = v
    else pstate b' = ALIVE ∧ exitval b' = exitval b ∧ children_list b' = children_list b.
Proof.
  intros Hpr Hc Hk Htk Ht Hb Hal Hn Hi Hsm. destruct (detached pb) eqn:Hd; [by eapply detached_exit; [apply Hpr|..]|].
  destruct (thread_exit_run infl s c self p b k t pb v Hpr Hc Hk Htk Ht Hd Hb Hal Hn Hi Hsm)
    as (s' & b' & k' & Hr & Hpr' & Hk' & Hst & Hm & Hb' & Hn' & Hl' & _ & _ & _ & _ & H).
  pose proof (λ us, exit_ready us s c self p k t pb v s' (pr_sched _ _ Hpr) Hc Hk Htk Ht Hr) as Hready.
  exists s', b', k'. rewrite Hm, Hl'. unfold ended_ptcbs, ended_list.
  split_and!; try done.
  - destruct (decide (ref_count pb = 0)); [apply lookup_delete_eq|apply lookup_insert_eq].
  - intros u Hu. destruct (decide (ref_count pb = 0)); [by rewrite lookup_delete_ne|by rewrite lookup_insert_ne].
  - apply (Hready []). by intros u ?%not_elem_of_nil.
  - intros u ku Hw Hu Hsl. apply (Hready [u]); [|left].
    intros x ->%list_elem_of_singleton. split; [done|]. by exists ku.
  - by destruct (decide (ref_count pb = 0)).
  - destruct (decide (thread_count b = 1)); [done|]. by destruct H as (? & ? & ? & _).
Qed.

(** ** Threads of init, for the witnesses

    The main thread of init, after [Exec] of process 2. *)
Definition demo_main : kernel := wk (scheduled 1 (Some 0%nat) demo_1).
Lemma demo_main_ok : procs_ok (holds []) demo_main.
Proof. exact (w_procs _ (scheduled_ok demo_1 1 (Some 0%nat) demo_1_reach)). Qed.
Lemma demo_main_call : can_call demo_main 0 (Thr 0) 1.
Proof. apply (demo_on_call 1 (Some 0%nat)); [reflexivity|]. eexists. vm_compute. reflexivity. Qed.

Definition demo_tcb (s : kernel) : TCB := default (demo_TCB 0 None (new_TCB 0 start_thread_entry)) (tcbs (ksched s) !! Thr 0).
Definition demo_ptcb (s : kernel) : PTCB := default (MkPTCB (Idle 0) true true 0 None None 0 0) (ptcbs s !! 0%nat).

(** Process 2 runs its main thread, the only one. *)
Definition demo_second : kernel := wk (scheduled 2 (Some 1%nat) demo_1).
Lemma demo_second_ok : procs_ok (holds []) demo_second.
Proof. exact (w_procs _ (scheduled_ok demo_1 2 (Some 1%nat) demo_1_reach)). Qed.
Lemma demo_second_call : can_call demo_second 0 (Thr 0) 2.
Proof. apply (demo_on_call 2 (Some 1%nat)); [reflexivity|]. eexists. vm_compute. reflexivity. Qed.

Definition demo_second_ptcb : PTCB := default (MkPTCB (Idle 0) true true 0 None None 0 0) (ptcbs demo_second !! 1%nat).
Lemma ThreadExit_result_witness :
  ∃ s' b', sys_ThreadExit 0 42 demo_second = Ok (tt, s') ∧ procs_ok (holds []) s' ∧
    PT s' !! 2%nat = Some b' ∧ pstate b' = ZOMBIE ∧ exitval b' = 42 ∧ ptcbs s' !! 1%nat = None.
Proof.
  pose proof (ThreadExit_result (holds []) demo_second 0 (Thr 0) 2 (block demo_second 2) (demo_tcb demo_second) 1%nat
    demo_second_ptcb 42 demo_second_ok demo_second_call ltac:(vm_compute; reflexivity) ltac:(vm_compute; reflexivity)
    ltac:(vm_compute; reflexivity) ltac:(vm_compute; reflexivity)
    ltac:(vm_compute; reflexivity) ltac:(vm_compute; split; [discriminate|reflexivity]) ltac:(intros [=]) no_holds) as Hx.
  assert (detached demo_second_ptcb = false) as Hd by (vm_compute; reflexivity). rewrite Hd in Hx.
  destruct Hx as (s' & b' & k' & Hr & Hpr & _ & _ & Hm & _ & _ & _ & Hb' & _ & _ & H).
  rewrite decide_True in Hm by (vm_compute; reflexivity). rewrite decide_True in H by (vm_compute; reflexivity).
  exists s', b'. split; [exact Hr|]. split; [exact Hpr|]. split; [exact Hb'|]. split; [apply H|]. split; [apply H|exact Hm].
Defined.

(** ** Init's [Exit] *)
Section init_exit.
Context (infl : nat → nat) (c : nat) (self : tid) (t : ptcb_ptr) (v : Z).
#[local] Set Default Proof Using "Type*".
Context (Hsm : ∀ f, Z.of_nat (infl f) + 1 < 2 ^ 31).

(** The last thread of init, with block [b] of the process. *)
Record last_thread (s : kernel) (b : PCB) : Prop := LastThread {
  lt_procs : procs_ok infl s;
  lt_call : can_call s c self 1;
  lt_tcb : ∃ k, Sched.tcbs (ksched s) !! self = Some k ∧ tcb_ptcb k = Some t;
  lt_ptcb : ∃ pb, ptcbs s !! t = Some pb ∧ detached pb = false;
  lt_pcb : PT s !! 1%nat = Some b;
  lt_alive : pstate b = ALIVE;
  lt_count : thread_count b = 1 }.

(** What the call comes to: it waits for a child, none of which has ended, or init
    has no child left and has ended. *)
Definition exit_post (r : exit_result) (s' : kernel) : Prop :=
  procs_ok infl s' ∧ ∃ b', PT s' !! 1%nat = Some b' ∧
  match r with
  | ExitWaits w => w = ForAny 1 ∧ children_list b' ≠ [] ∧ exited_list b' = [] ∧ pstate b' = ALIVE
  | Ended => children_list b' = [] ∧ pstate b' = ZOMBIE ∧ exitval b' = v ∧
      ∃ k, Sched.tcbs (ksched s') !! self = Some k ∧ tcb_state k = EXITED
  end.

Lemma reaped_last s b q k :
  last_thread s b → PT s !! q = Some k → pstate k = ZOMBIE → parent k = Some 1%nat →
  ∃ b', last_thread (reaped q s) b' ∧ S (length (children_list b')) = length (children_list b).
Proof.
  intros [Hpr Hc [kt Hk] [pb Ht] Hb Hal Hn] Hq Hz Hp.
  assert (q ≠ 1%nat) as Hq1 by congruence.
  destruct (reap_lists (pcb_freelist s) q 1 b) as (Hch & _).
  destruct (reap_other (pcb_freelist s) q 1 b ltac:(done)) as [Hst _].
  exists (reap_block (pcb_freelist s) q 1 b). split.
  - split; [by eapply reap_ok| |by exists kt|by exists pb|cbn; by rewrite list_lookup_imap, Hb|by rewrite Hst|].
    + revert Hc. apply calls_same; [done|]. intros x [e Hx]. cbn. rewrite list_lookup_imap, Hx. by eexists.
    + unfold reap_block. by rewrite at_ne.
  - rewrite Hch. destruct (fa_children _ (pr_family _ _ Hpr) _ _ Hb) as [Hnd Hin].
    apply length_remove_node_in; [done|]. apply Hin. exists k. split; [done|]. split; [congruence|done].
Qed.

(** The turn after a [WaitChild] of any child. *)
Lemma after_any_run fuel :
  (∀ s b, last_thread s b → (length (children_list b) < fuel)%nat →
     ∃ r s', exit_loop fuel c v s = Ok (r, s') ∧ exit_post r s') →
  ∀ s b, last_thread s b → (length (children_list b) ≤ fuel)%nat → children_list b ≠ [] →
  ∀ r0 s0, (match exited_list b with
    | [] => waits_at s (ForAny 1) r0 s0 ∧ procs_ok infl s0
    | q :: _ => ∃ k, PT s !! q = Some k ∧ parent k = Some 1%nat ∧ reaps s q k r0 s0
    end) →
  ∃ r s', after_wait c (exit_loop fuel c v) v r0 s0 = Ok (r, s') ∧ exit_post r s'.
Proof.
  intros IH s b Hlt Hlen Hne r0 s0 H. destruct (exited_list b) as [|q l] eqn:He.
  - destruct H as [(-> & HP & _) Hpr]. exists (ExitWaits (ForAny 1)), s0. split; [done|]. split; [done|].
    exists b. rewrite HP. split; [apply Hlt|]. split; [done|]. split; [done|]. split; [done|apply Hlt].
  - destruct H as (k & Hk & Hp & Hz & -> & ->).
    destruct (reaped_last s b q k Hlt Hk Hz Hp) as (b' & Hlt' & Hlen').
    destruct (IH _ b' Hlt' ltac:(lia)) as (r & s' & Hr & Hpost).
    exists r, s'. split; [|done]. unfold after_wait, NOPROC. by rewrite decide_True by lia.
Qed.

Lemma exit_loop_run fuel : ∀ s b,
  last_thread s b → (length (children_list b) < fuel)%nat →
  ∃ r s', exit_loop fuel c v s = Ok (r, s') ∧ exit_post r s'.
Proof.
  induction fuel as [|fuel IH]; intros s b Hlt Hlen; [lia|]. cbn [exit_loop].
  pose proof Hlt as [Hpr Hc (k & Hk & Htk) (pb & Ht & Hd) Hb Hal Hn].
  destruct (wait_child_run infl s c self 1 b Hpr Hc Hb NOPROC) as (r0 & s0 & Hr0 & Hpr0 & Hs0).
  { right. unfold NOPROC. lia. }
  mrun ltac:(exact Hr0). unfold wait_spec in Hs0. rewrite decide_True in Hs0 by done.
  destruct (children_list b) as [|y l] eqn:Hch.
  - destruct Hs0 as [-> ->]. unfold after_wait. rewrite decide_False by tauto.
    destruct (thread_exit_run infl s c self 1 b k t pb v Hpr Hc Hk Htk Ht Hd Hb Hal ltac:(lia)
      ltac:(auto) Hsm) as (s' & b' & k' & Hr & Hpr' & Hk' & Hst & _ & Hb' & _ & _ & Hcl & _ & _ & _ & H).
    mrun ltac:(exact Hr). exists Ended, s'. split; [done|]. split; [done|]. exists b'.
    rewrite decide_True in H by done. destruct H as [Hz Hv]. split_and!; try done; [by apply Hcl|].
    by exists k'.
  - simpl in Hlen. apply (after_any_run fuel IH s b); rewrite ?Hch; try done; simpl; [lia|].
    destruct (exited_list b); [|done]. by split.
Qed.
End init_exit.

(** C15 (termination). [Exit] of init's last thread terminates, with as many turns of
    the loop over [WaitChild] as init has children, and one more, at its start and
    whenever it goes on after a wait.  It waits while some child is left and none
    has ended; and only when no child is left does init end, a zombie with the
    given exit value. *)
Theorem init_Exit_terminates infl c self t v s b :
  (∀ f, Z.of_nat (infl f) + 1 < 2 ^ 31) → last_thread infl c self t s b →
  (∃ r s', sys_Exit c v s = Ok (r, s') ∧ exit_post infl self v r s') ∧
  (children_list b ≠ [] → ∃ r s', exit_resume c (ForAny 1) v s = Ok (r, s') ∧ exit_post infl self v r s').
Proof.
  intros Hsm Hlt. pose proof Hlt as [Hpr Hc _ _ Hb _ _].
  assert (exit_turns c s = Ok (S (length (children_list b)), s)) as Ht.
  { unfold exit_turns. mrun ltac:(eapply CURPROC_run, Hc). by mrun ltac:(by apply get_PCB_run). }
  split.
  - destruct (exit_loop_run infl c self t v Hsm (S (length (children_list b))) s b Hlt) as (r & s' & Hr & Hpost); [lia|].
    exists r, s'. split; [|done]. unfold sys_Exit.
    assert (sys_GetPid c s = Ok (1, s)) as Hpid by (unfold sys_GetPid; by mrun ltac:(eapply CURPROC_run, Hc)).
    mrun ltac:(exact Hpid). rewrite decide_True by done. by mrun ltac:(exact Ht).
  - intros Hne. unfold exit_resume. mrun ltac:(exact Ht).
    destruct (any_run infl s c self 1 b Hpr Hc Hb) as (r0 & s0 & Hr0 & Hpr0 & H).
    assert (wait_resume c (ForAny 1) s = Ok (r0, s0)) as Hr1 by exact Hr0. mrun ltac:(exact Hr1).
    apply (after_any_run infl c self t v Hsm _ (exit_loop_run infl c self t v Hsm _) s b Hlt); [lia|done|].
    destruct (exited_list b); [by split|done].
Qed.

Lemma demo_main_last : last_thread (holds []) 0 (Thr 0) 0%nat demo_main (block demo_main 1).
Proof.
  split; [exact demo_main_ok|exact demo_main_call| | | | |].
  - exists (demo_tcb demo_main). split; vm_compute; reflexivity.
  - exists (demo_ptcb demo_main). split; vm_compute; reflexivity.
  - vm_compute. reflexivity.
  - vm_compute. reflexivity.
  - vm_compute. reflexivity.
Qed.

Lemma init_Exit_terminates_witness :
  ∃ r s', sys_Exit 0 3 demo_main = Ok (r, s') ∧ exit_post (holds []) (Thr 0) 3 r s'.
Proof.
  exact (proj1 (init_Exit_terminates (holds []) 0 (Thr 0) 0%nat 3 demo_main (block demo_main 1) no_holds demo_main_last)).
Defined.

(** ** CreateThread and ThreadJoin *)
Lemma thread_find_in (l : list ptcb_ptr) t : thread_find l (KPTCB t) = Some t ↔ t ∈ l.
Proof.
  unfold thread_find. split.
  - intros ([i x] & Hx & ->)%fmap_Some. apply list_find_Some in Hx as (Hi & _).
    by eapply list_elem_of_lookup_2.
  - intros Hin. destruct (list_find_elem_of (λ p, KPTCB p = KPTCB t) l t Hin eq_refl) as [[i x] Hx].
    rewrite Hx. apply list_find_Some in Hx as (_ & [= ->] & _). done.
Qed.
(** No node is found by the address of a node. *)
Lemma thread_find_node (l : list ptcb_ptr) t : thread_find l (KNode t) = None.
Proof.
  unfold thread_find. destruct (list_find _ l) as [[i x]|] eqn:Hx; [|done].
  by apply list_find_Some in Hx as (_ & ? & _).
Qed.

(** [CreateThread] adds a thread to the calling process: a new
    control block, not exited and not detached, at the end of the thread list, and
    a thread that is ready to run [start_thread]; the count goes up by one and
    nothing else of any process changes.  The id it returns is never the one that
    [ThreadSelf] returns to that thread (or to any other). *)
Theorem CreateThread_result infl s c self p b task argl args :
  procs_ok infl s → runs_in s c self p → PT s !! p = Some b → 0 ≤ thread_count b < 2 ^ 32 - 1 →
  ∃ s' t, sys_CreateThread c task argl args s = Ok (OfPTCB (next_ptcb s), s') ∧ procs_ok infl s' ∧
    thread_of s' p (next_ptcb s) t start_thread_entry task argl args ∧
    Sched.tcbs (ksched s) !! t = None ∧
    PT s' !! p = Some (set_thread_count (thread_count b + 1) (set_thread_list (thread_list b ++ [next_ptcb s]) b)) ∧
    (∀ x, x ≠ p → PT s' !! x = PT s !! x) ∧
    ∀ d u q r, runs_in s' d u q → sys_ThreadSelf d s' = Ok (r, s') → r ≠ OfPTCB (next_ptcb s).
Proof.
  intros Hpr Hr Hb Hn. unfold sys_CreateThread. mrun ltac:(by eapply CURPROC_run).
  destruct (new_thread_run s p b start_thread_entry task argl args (pr_sched _ _ Hpr) Hb)
    as (v & t & Hrun & Hnew & Htcb & Hinv & Hother & _).
  mrun ltac:(exact Hrun). set (s' := set_ksched v _). exists s', t.
  assert (sched_live s') as Hl.
  { split; [done|]. intros ch u Hu. destruct (pr_sched _ _ Hpr) as [_ Hw].
    destruct (Hw ch u Hu) as [k Hk]. cbn. rewrite Hother; [by eexists|]. congruence. }
  assert (∀ x e, same_process e (at_ p (add_thread (next_ptcb s)) x e)) as Hsame
    by (intros x e; unfold at_; by case_decide).
  split_and!; [done|by apply (frame_procs _ Hsame infl s)|split; [apply lookup_insert_eq|exact Htcb]|done|..].
  - unfold s', ptmap. cbn. rewrite list_lookup_imap, Hb. cbn. rewrite at_same. unfold add_thread.
    by rewrite u32_small by lia.
  - intros x Hx. unfold s', ptmap. cbn. rewrite list_lookup_imap. destruct (PT s !! x); simpl; [|done].
    by rewrite at_ne.
  - intros d u q r Hru. unfold sys_ThreadSelf. mrun ltac:(by eapply CURTHREAD_run). by intros [= <-].
Qed.

Lemma CreateThread_result_witness :
  ∃ s' t, sys_CreateThread 0 (Some 9%nat) 0 0 demo_main = Ok (OfPTCB 2%nat, s') ∧
    thread_of s' 1 2%nat t start_thread_entry (Some 9%nat) 0 0.
Proof.
  destruct (CreateThread_result (holds []) demo_main 0 (Thr 0) 1 (block demo_main 1) (Some 9%nat) 0 0
    demo_main_ok (cc_runs _ _ _ _ demo_main_call) ltac:(vm_compute; reflexivity)
    ltac:(vm_compute; split; [discriminate|reflexivity])) as (s' & t & Hr & _ & Hto & _).
  assert (next_ptcb demo_main = 2%nat) as Hn by (vm_compute; reflexivity). rewrite Hn in Hr, Hto.
  exists s', t. split; [exact Hr|exact Hto].
Defined.

(** The caller's thread is there. *)
Lemma caller_live s c self p :
  can_call s c self p → is_thr self ∧ ∃ k, Sched.tcbs (ksched s) !! self = Some k ∧
    threads_of (ksched s) !! self = Some (Z.of_nat p, tcb_ptcb k).
Proof.
  intros [(b & k & Hb & <- & Hk & Ho) _ Ht (ms & pl & Hi & Hm)]. split; [done|]. exists k. split; [done|].
  destruct (current_place _ _ _ _ _ _ Hi Hb Hm ltac:(done)) as (k' & pa & Hk' & _ & Hpl & _ & _ & ->).
  assert (k' = k) as -> by congruence. destruct Hpl as [Hr _]. rewrite threads_of_lookup, Hk. cbn.
  unfold info. by rewrite Hr, decide_False, Ho.
Qed.

Lemma join_run infl s c self p b t pb e :
  procs_ok infl s → can_call s c self p → PT s !! p = Some b → ptcbs s !! t = Some pb →
  0 ≤ ref_count pb < 2 ^ 31 →
  (if decide (detached pb = true ∨ pt_tcb pb = self ∨ t ∉ thread_list b)
   then sys_ThreadJoin c t e s = Ok (Joined (-1), s)
   else if exited pb
   then sys_ThreadJoin c t e s = match e with Some v => Ok (Joined v, s) | None => Fault NullDeref end
   else ∃ s', sys_ThreadJoin c t e s = Ok (JoinWaits t, s') ∧ procs_ok infl s' ∧ PT s' = PT s ∧
        ptcbs s' = <[t := set_ref_count (ref_count pb + 1) pb]> (ptcbs s) ∧
        (ExitCv t, self) ∈ waiting s' ∧ threads_of (ksched s') = threads_of (ksched s) ∧
        next_ptcb s' = next_ptcb s) ∧
  (exited pb = true → detached pb = false → 0 < ref_count pb →
     join_loop c t s = Ok (Joined 0, set_ptcbs (<[t := set_ref_count (ref_count pb - 1) pb]> (ptcbs s)) s)).
Proof.
  intros Hpr Hc Hb Ht Hn. pose proof (cc_runs _ _ _ _ Hc) as Hr. split.
  - unfold sys_ThreadJoin. mrun ltac:(by apply get_PTCB_run). mrun ltac:(by eapply CURTHREAD_run).
    mrun ltac:(by eapply CURPROC_run). mrun ltac:(by apply get_PCB_run).
    assert (thread_find (thread_list b) (KPTCB t) ≠ Some t ↔ t ∉ thread_list b) as Hf by (by rewrite thread_find_in).
    destruct (decide (detached pb = true ∨ pt_tcb pb = self ∨ t ∉ thread_list b)) as [Hno|Hyes];
      [by rewrite decide_True by tauto|]. rewrite decide_False by tauto.
    destruct (exited pb) eqn:He; [by destruct e|].
    mrun ltac:(by apply upd_PTCB_run). unfold join_loop. set (s1 := set_ptcbs _ s).
    mrun ltac:(apply get_PTCB_run, lookup_insert_eq).
    assert (detached pb = false) as Hd by (destruct (detached pb); [by destruct Hyes; left|done]).
    rewrite decide_True by (split; [exact He|exact Hd]).
    assert (can_call s1 c self p) as Hc1 by (revert Hc; by apply calls_same).
    assert (procs_ok infl s1) as Hpr1 by (apply (procs_ok_sched infl s); try done; apply Hpr).
    destruct (wait_keeps infl s1 c self p (ExitCv t) Hpr1 Hc1) as (s' & Hr' & Hpr' & HP).
    destruct (kernel_wait_run s1 c self p (ExitCv t) Hc1) as (k & Hr2 & _).
    rewrite Hr2 in Hr'. injection Hr' as <-. mrun ltac:(exact Hr2).
    eexists. split; [reflexivity|]. split_and!; [done|done|unfold s1; cbn; by rewrite u32_small by lia|..].
    + cbn. apply elem_of_app. right. left.
    + destruct (caller_live _ _ _ _ Hc) as (_ & k' & _ & Hv).
      destruct (fr_kernel_wait (view s1) c self ltac:(by eexists) (ExitCv t) _ _ _ (view_is_self _ _ _ _ (cc_runs _ _ _ _ Hc1)) Hr2) as [[[HT _] _ _ _] _].
      exact HT.
    + done.
  - intros He Hd Hpos. unfold join_loop. mrun ltac:(by apply get_PTCB_run).
    rewrite decide_False by (rewrite He; by intros [??]). unfold join_end. mrun ltac:(by apply get_PTCB_run).
    rewrite run_when_true by (by apply bool_decide_true). mrun ltac:(by apply upd_PTCB_run).
    mrun ltac:(apply get_PTCB_run, lookup_insert_eq). mrun ltac:(by eapply CURPROC_run).
    mrun ltac:(by apply get_PCB_run). rewrite run_when_false; [done|].
    apply bool_decide_false. rewrite thread_find_node. simpl. rewrite Hd. intros [(_ & H1 & _)|H1]; congruence.
Qed.

(** C35 (functional). [ThreadJoin] of a thread whose block exists.  It fails for a
    detached thread, the caller itself, and a thread that is not in the list of the
    caller's process.  If the thread has exited, it gives the caller what its own
    variable held before (and dereferences the pointer, even a null one), not the
    thread's exit value.  Otherwise the caller joins the thread's waiters and counts
    as a reference; when it goes on and the thread has exited, it returns 0 and
    gives up its reference. *)
Theorem ThreadJoin_result infl s c self p b t pb e :
  procs_ok infl s → can_call s c self p → PT s !! p = Some b → ptcbs s !! t = Some pb →
  0 ≤ ref_count pb < 2 ^ 31 →
  (if decide (detached pb = true ∨ pt_tcb pb = self ∨ t ∉ thread_list b)
   then sys_ThreadJoin c t e s = Ok (Joined (-1), s)
   else if exited pb
   then sys_ThreadJoin c t e s = match e with Some v => Ok (Joined v, s) | None => Fault NullDeref end
   else ∃ s', sys_ThreadJoin c t e s = Ok (JoinWaits t, s') ∧ procs_ok infl s' ∧ PT s' = PT s ∧
        ptcbs s' = <[t := set_ref_count (ref_count pb + 1) pb]> (ptcbs s) ∧
        (ExitCv t, self) ∈ waiting s') ∧
  (exited pb = true → detached pb = false → 0 < ref_count pb →
     join_loop c t s = Ok (Joined 0, set_ptcbs (<[t := set_ref_count (ref_count pb - 1) pb]> (ptcbs s)) s)).
Proof.
  intros Hpr Hc Hb Ht Hn. destruct (join_run infl s c self p b t pb e Hpr Hc Hb Ht Hn) as [H1 H2].
  split; [|exact H2]. case_decide; [done|]. destruct (exited pb); [done|]. naive_solver.
Qed.

(** The thread joins init's main thread, as if it were another. *)
Lemma ThreadJoin_result_witness :
  ∃ s', sys_ThreadJoin 0 0%nat None demo_main = Ok (JoinWaits 0%nat, s') ∧ (ExitCv 0%nat, Thr 0) ∈ waiting s'.
Proof.
  assert (PT demo_main !! 1%nat = Some (block demo_main 1)) as Hb by (vm_compute; reflexivity).
  assert (ptcbs demo_main !! 0%nat = Some (demo_ptcb demo_main)) as Ht by (vm_compute; reflexivity).
  assert (0 ≤ ref_count (demo_ptcb demo_main) < 2 ^ 31) as Hn by (vm_compute; split; [discriminate|reflexivity]).
  destruct (ThreadJoin_result (holds []) demo_main 0 (Thr 0) 1 (block demo_main 1) 0%nat (demo_ptcb demo_main) None
    demo_main_ok demo_main_call Hb Ht Hn) as [H _].
  rewrite decide_False in H.
  - assert (exited (demo_ptcb demo_main) = false) as He by (vm_compute; reflexivity). rewrite He in H.
    destruct H as (s' & Hr & _ & _ & _ & Hw). exists s'. split; [exact Hr|exact Hw].
  - assert (thread_list (block demo_main 1) = [0%nat]) as -> by (vm_compute; reflexivity).
    vm_compute. intros [H1|[H1|H1]]; [discriminate|discriminate|]. apply H1. left.
Defined.

(** ** The lifetime of the blocks *)

(** C36 (error). The blocks that threads are joined by are freed too early, twice, or
    never.  A detached thread that ends reads its block after freeing it.  A thread
    that nobody joins frees its block when it ends, so joining or detaching it
    afterwards reads freed memory.  Of two threads that join one that is detached
    meanwhile, the first frees the block and takes one off the process's count of
    threads, and the second reads freed memory.  And a thread that is joined while
    it runs is never freed: it stays in its process's list. *)
Theorem PTCB_lifetime s c self p b k t pb :
  sched_live s → can_call s c self p → Sched.tcbs (ksched s) !! self = Some k →
  PT s !! p = Some b → ptcbs s !! t = Some pb →
  (tcb_ptcb k = Some t → detached pb = true → ∀ v, sys_ThreadExit c v s = Fault UseAfterFree) ∧
  (tcb_ptcb k = Some t → detached pb = false → ref_count pb = 0 →
     ∃ s', (∃ v, exit_ptcb t v s = Ok (tt, s')) ∧
       (∀ d e, sys_ThreadJoin d t e s' = Fault UseAfterFree) ∧ sys_ThreadDetach t s' = Fault UseAfterFree) ∧
  (detached pb = true → 2 ≤ ref_count pb →
     ∃ s' b', join_loop c t s = Ok (Joined 0, s') ∧ PT s' !! p = Some b' ∧
       thread_count b' = u32 (thread_count b - 1) ∧ ∀ d, join_loop d t s' = Fault UseAfterFree) ∧
  (exited pb = true → detached pb = false → 0 < ref_count pb →
     ∃ s' pb', join_loop c t s = Ok (Joined 0, s') ∧ ptcbs s' !! t = Some pb' ∧
       ref_count pb' = ref_count pb - 1 ∧ PT s' = PT s).
Proof.
  intros Hl Hc Hk Hb Ht. pose proof (cc_runs _ _ _ _ Hc) as Hr. split_and!.
  - intros Htk Hd v. by eapply detached_exit.
  - intros Htk Hd Hz. destruct (exit_ptcb_run t 0 pb s Hl Ht Hd) as (w & ks & Hr1 & _).
    eexists. split; [by exists 0|].
    set (s' := set_ksched ks _). assert (ptcbs s' !! t = None) as Hn.
    { unfold s', ended_ptcbs. cbn. rewrite decide_True by done. apply lookup_delete_eq. }
    split; [intros d e; unfold sys_ThreadJoin|unfold sys_ThreadDetach]; by apply bind_fault, get_PTCB_freed.
  - intros Hd Hn. unfold join_loop at 1. mrun ltac:(by apply get_PTCB_run).
    rewrite decide_False by (rewrite Hd; by intros [_ ?]). unfold join_end at 1.
    mrun ltac:(by apply get_PTCB_run). rewrite run_when_true by (apply bool_decide_true; lia).
    mrun ltac:(by apply upd_PTCB_run). mrun ltac:(apply get_PTCB_run, lookup_insert_eq).
    mrun ltac:(by eapply CURPROC_run). mrun ltac:(by apply get_PCB_run).
    rewrite run_when_true by (apply bool_decide_true; by right). mstep.
    mrun ltac:(by apply unlink_thread_run). mstep. mrun ltac:(eapply free_PTCB_run, lookup_insert_eq). mstep.
    set (s2 := set_ptcbs _ _). assert (runs_in s2 c self p) as Hr2 by exact Hr.
    mrun ltac:(by eapply CURPROC_run).
    mrun ltac:(eapply upd_ptmap; unfold s2; cbn; by rewrite list_lookup_imap, Hb).
    eexists _, _. split; [reflexivity|]. split; [unfold ptmap; cbn; rewrite !list_lookup_imap, Hb; cbn; by rewrite at_same|].
    split; [done|]. intros d. unfold join_loop. apply bind_fault, get_PTCB_freed. unfold s2. cbn.
    apply lookup_delete_eq.
  - intros He Hd Hn. unfold join_loop. mrun ltac:(by apply get_PTCB_run).
    rewrite decide_False by (rewrite He; by intros [??]). unfold join_end. mrun ltac:(by apply get_PTCB_run).
    rewrite run_when_true by (by apply bool_decide_true). mrun ltac:(by apply upd_PTCB_run).
    mrun ltac:(apply get_PTCB_run, lookup_insert_eq). mrun ltac:(by eapply CURPROC_run).
    mrun ltac:(by apply get_PCB_run). rewrite run_when_false.
    + eexists _, _. split; [reflexivity|]. split; [apply lookup_insert_eq|done].
    + apply bool_decide_false. rewrite thread_find_node. simpl. rewrite Hd. intros [(_ & H1 & _)|H1]; congruence.
Qed.

(** Init's block after [ThreadDetach], and after two joins of that. *)
Definition demo_with (pb : PTCB) : kernel := set_ptcbs (<[0%nat := pb]> (ptcbs demo_main)) demo_main.
Lemma ptcbs_only m s c self p :
  sched_live s → can_call s c self p → sched_live (set_ptcbs m s) ∧ can_call (set_ptcbs m s) c self p.
Proof. intros Hl Hc. split; [exact Hl|]. revert Hc. by apply calls_same. Qed.
Lemma demo_with_ok pb : sched_live (demo_with pb) ∧ can_call (demo_with pb) 0 (Thr 0) 1.
Proof. exact (ptcbs_only _ demo_main 0 (Thr 0) 1 (pr_sched _ _ demo_main_ok) demo_main_call). Qed.

Lemma PTCB_lifetime_witness :
  sys_ThreadExit 0 1 (demo_with (set_detached true (demo_ptcb demo_main))) = Fault UseAfterFree ∧
  ∃ s', (∃ v, exit_ptcb 0%nat v demo_main = Ok (tt, s')) ∧ sys_ThreadDetach 0%nat s' = Fault UseAfterFree.
Proof.
  split.
  - apply (proj1 (PTCB_lifetime (demo_with (set_detached true (demo_ptcb demo_main))) 0 (Thr 0) 1 (block demo_main 1)
      (demo_tcb demo_main) 0%nat (set_detached true (demo_ptcb demo_main)) (proj1 (demo_with_ok _)) (proj2 (demo_with_ok _))
      ltac:(vm_compute; reflexivity) ltac:(vm_compute; reflexivity) ltac:(vm_compute; reflexivity)));
      vm_compute; reflexivity.
  - destruct (proj1 (proj2 (PTCB_lifetime demo_main 0 (Thr 0) 1 (block demo_main 1)
      (demo_tcb demo_main) 0%nat (demo_ptcb demo_main) (pr_sched _ _ demo_main_ok) demo_main_call
      ltac:(vm_compute; reflexivity) ltac:(vm_compute; reflexivity) ltac:(vm_compute; reflexivity)))
      ltac:(vm_compute; reflexivity) ltac:(vm_compute; reflexivity) ltac:(vm_compute; reflexivity))
      as (s' & Hr & _ & Hd).
    exists s'. split; [exact Hr|exact Hd].
Defined.
