(* ===== verification/SchedMoves.v ===== *)
(** * The scheduler leaves the threads to their processes

    Wakeups, timeouts, [yield], [gain] and the start of a core neither make nor end
    a thread, and no thread changes its process or its block.  So they are steps of
    the system ([System.v]), and with its calls they are all of its steps. *)
From S2P Require Import Prelude Hoare Bios Sched SchedInv SchedSteps SchedProps Kernel Frames.
Local Open Scope Z_scope.

(** The threads, idle ones apart, are [L]. *)
Definition known (L : gmap tid (Z * option ptcb_ptr)) (v : sched) : Prop :=
  ∀ t, is_thr t → threads_of v !! t = L !! t.

Section moves.
Context (L : gmap tid (Z * option ptcb_ptr)).
#[local] Set Default Proof Using "Type".
Abbreviation LT := (known L).

Lemma mv_same v v' : LT v → tcbs v' = tcbs v → LT v'.
Proof. intros Hv Ht t Hthr. rewrite <-Hv by done. by rewrite !threads_of_lookup, Ht. Qed.
Lemma mv_modify f : (∀ v, tcbs (f v) = tcbs v) → keeps LT (modify f) (λ _, True).
Proof. intros Hf. apply keeps_modify; [|done]. intros v Hv. by eapply mv_same. Qed.
Lemma mv_on_vm {A} (m : BM A) : keeps LT (on_vm m) (λ _, True).
Proof. apply (keeps_zoom _ (λ _, True)); [by intros v a v' _ _|done|]. intros v n Hv _. by eapply mv_same. Qed.
Lemma mv_get_tcb t : keeps LT (get_tcb t) (λ k, is_thr t → L !! t = info k).
Proof.
  unfold get_tcb. intros v k v' Hv. unfold_monad.
  destruct (tcbs v !! t) as [k'|] eqn:Hk; [|by intros [=]]. intros [= <- <-].
  split; [done|]. intros Ht. by rewrite <-Hv, threads_of_lookup, Hk.
Qed.
Lemma mv_insert v t k : LT v → (is_thr t → info k = L !! t) → LT (set_tcbs (<[t := k]> (tcbs v)) v).
Proof.
  intros Hv Hk u Hu. rewrite threads_of_lookup. cbn. destruct (decide (u = t)) as [->|Hne].
  - rewrite lookup_insert_eq. cbn. by apply Hk.
  - rewrite lookup_insert_ne, <-threads_of_lookup by done. by apply Hv.
Qed.
Lemma mv_upd_tcb t f : (∀ k, (is_thr t → L !! t = info k) → is_thr t → info (f k) = info k) → keeps LT (upd_tcb t f) (λ _, True).
Proof.
  intros Hf. unfold upd_tcb. eapply keeps_bind; [apply mv_get_tcb|]. intros k Hk. apply keeps_modify; [|done].
  intros v Hv. apply mv_insert; [done|]. intros Ht. rewrite Hf by done. symmetry. by apply Hk.
Qed.
Lemma mv_get_ccb c : keeps LT (get_ccb c) (λ _, True).
Proof. intros v b v' Hv. unfold get_ccb. unfold_monad. destruct (cctx v !! c); [by intros [= <- <-]|by intros [=]]. Qed.
Lemma mv_CURTHREAD c : keeps LT (CURTHREAD c) (λ _, True).
Proof. unfold CURTHREAD. eapply keeps_bind; [apply mv_get_ccb|]. intros b _. by apply keeps_ret. Qed.
Hint Resolve mv_modify mv_on_vm mv_get_tcb mv_upd_tcb mv_get_ccb mv_CURTHREAD : keeps.

Lemma mv_upd_ccb c f : keeps LT (upd_ccb c f) (λ _, True).
Proof. unfold upd_ccb. keeps_go; try done; by eapply mv_same. Qed.
Lemma mv_preemption c b : keeps LT (set_core_preemption c b) (λ _, True).
Proof. unfold set_core_preemption. by repeat first [apply mv_upd_ccb | keeps_step]. Qed.
Hint Resolve mv_upd_ccb mv_preemption : keeps.
Lemma mv_queue_add t : keeps LT (sched_queue_add t) (λ _, True).
Proof. unfold sched_queue_add. by keeps_go. Qed.
Hint Resolve mv_queue_add : keeps.
Lemma info_state st k : tcb_state k ≠ EXITED → st ≠ EXITED → info (set_state st k) = info k.
Proof. unfold info. cbn. intros H1 H2. by rewrite !decide_False. Qed.

Lemma mv_make_ready t : keeps LT (sched_make_ready t) (λ _, True).
Proof.
  unfold sched_make_ready. eapply keeps_bind; [apply mv_get_tcb|]. intros k Hk. cbv beta in Hk.
  eapply keeps_bind; [apply keeps_assert|]. intros _ Hst%bool_decide_eq_true.
  assert (is_thr t → L !! t = Some (owner_pcb k, tcb_ptcb k)) as Ht
    by (intros Hthr; etrans; [exact (Hk Hthr)|]; unfold info; rewrite decide_False; [done|by destruct Hst as [->| ->]]).
  assert (∀ f, (∀ k', f k' = set_state READY k' ∨ f k' = set_wakeup_time NO_TIMEOUT k') → keeps LT (upd_tcb t f) (λ _, True)) as Hu.
  { intros f Hf. apply mv_upd_tcb. intros k' Hk' Hthr. destruct (Hf k') as [->| ->]; [|done].
    apply info_state; [|done]. intros He. pose proof (eq_trans (eq_sym (Ht Hthr)) (Hk' Hthr)) as H. unfold info in H.
    by rewrite decide_True in H. }
  keeps_go; try done; try (apply Hu; auto); by eapply mv_same.
Qed.
Hint Resolve mv_make_ready : keeps.
Lemma mv_wakeup t : keeps LT (wakeup t) (λ _, True).
Proof. unfold wakeup. by keeps_go. Qed.
Lemma mv_wakeup_expired fuel now : keeps LT (wakeup_expired fuel now) (λ _, True).
Proof.
  induction fuel as [|fuel IH]; cbn [wakeup_expired]; [by apply keeps_raise|].
  eapply keeps_bind; [apply keeps_get|]. intros s _. destruct (TIMEOUT_LIST s) as [|t l]; [by apply keeps_ret|].
  by keeps_go.
Qed.
Lemma mv_expired : keeps LT sched_wakeup_expired_timeouts (λ _, True).
Proof. unfold sched_wakeup_expired_timeouts. keeps_go. apply mv_wakeup_expired. Qed.
Hint Resolve mv_expired : keeps.
Lemma mv_select_from l : keeps LT (select_from l) (λ _, True).
Proof.
  induction l as [|i l IH]; cbn [select_from]; [by apply keeps_ret|].
  eapply keeps_bind; [apply keeps_get|]. intros s _. cbv zeta.
  eapply keeps_bind; [apply keeps_some|]. intros [|t q] _; [exact IH|]. keeps_go; try done; by eapply mv_same.
Qed.
Hint Resolve mv_select_from : keeps.
Lemma mv_queue_select c t : keeps LT (sched_queue_select c t) (λ _, True).
Proof.
  unfold sched_queue_select. eapply keeps_seq; [apply mv_select_from|]. intros o. eapply (keeps_seq _ (match o with Some _ => _ | None => _ end)).
  - by keeps_go.
  - intros u. by keeps_go.
Qed.
Hint Resolve mv_queue_select : keeps.

Lemma info_yield cause r k : info (yield_update cause r k) = info k.
Proof. unfold yield_update, info. destruct (decide (tcb_state k = RUNNING)) as [Hs|]; cbn; [by rewrite Hs|done]. Qed.
Lemma mv_yield c cause old : keeps LT (yield c cause old) (λ _, True).
Proof.
  unfold yield. eapply keeps_seq; [apply mv_on_vm|intros rem]. eapply keeps_seq; [apply mv_preemption|intros _].
  eapply keeps_seq; [apply mv_CURTHREAD|intros t].
  eapply keeps_seq; [apply mv_upd_tcb; intros k _ _; apply info_yield|intros _].
  by keeps_go.
Qed.

(** The thread that [gain] releases has exited. *)
Lemma mv_release t : (is_thr t → L !! t = None) → keeps LT (release_TCB t) (λ _, True).
Proof.
  intros Ht. unfold release_TCB. eapply keeps_seq; [eapply keeps_True, mv_get_tcb|intros _].
  eapply keeps_seq; [|intros _; by apply mv_modify]. apply keeps_modify; [|done].
  intros v Hv u Hu. rewrite threads_of_lookup. cbn. destruct (decide (u = t)) as [->|Hne].
  - rewrite lookup_delete_eq. symmetry. by apply Ht.
  - rewrite lookup_delete_ne, <-threads_of_lookup by done. by apply Hv.
Qed.
Lemma mv_gain_prev (prev : tid) :
  keeps LT (upd_tcb prev (set_phase CTX_CLEAN) ;;
     k ← get_tcb prev;
     match tcb_state k with
     | READY => when (negb (bool_decide (tcb_type k = IDLE_THREAD))) (sched_queue_add prev)
     | EXITED => release_TCB prev
     | STOPPED => mret tt
     | _ => raise AssertFailed
     end) (λ _, True).
Proof.
  eapply keeps_seq; [by apply mv_upd_tcb|intros _]. eapply keeps_bind; [apply mv_get_tcb|]. intros k Hk. cbv beta in Hk.
  destruct (tcb_state k) eqn:Hs; try by keeps_go.
  apply mv_release. intros Ht. rewrite Hk by done. unfold info. by rewrite decide_True.
Qed.
End moves.

(** ** The operations of the scheduler *)
Definition own_move (o : op) : Prop :=
  match o with OpSpawn _ _ | OpSleep _ _ _ => False | _ => True end.

Lemma known_self v : known (threads_of v) v.
Proof. by intros t _. Qed.

(** The thread that [gain] starts was selected, so it has not exited. *)
Lemma switching_current s ms pl c b k :
  inv s ms pl → cctx s !! c = Some b → ms !! c = Some Switching → tcbs s !! current_thread b = Some k →
  tcb_state k = READY.
Proof.
  intros Hi Hb Hm Hk. destruct (c_core _ _ _ (i_cores _ _ _ Hi) c b _ Hb Hm) as (q & Hq & Hcore).
  case_decide as Hqc; [subst q|destruct Hcore as [Hcore _]];
    by destruct (t_place _ _ (i_threads _ _ _ Hi) _ _ _ Hk Hcore).
Qed.

Lemma gain_known s ms pl c preempt old s' :
  inv s ms pl → ms !! c = Some Switching → gain c preempt old s = Ok (tt, s') → known (threads_of s) s'.
Proof.
  intros Hi Hm Hr. destruct (mode_block _ _ _ _ _ Hi Hm) as [b Hb].
  unfold gain in Hr. apply bind_Ok in Hr as (b' & s0 & Hr0 & Hr). rewrite (get_ccb_run _ _ _ Hb) in Hr0. injection Hr0 as <- <-.
  apply bind_Ok in Hr as ([] & s1 & Hr1 & Hr).
  assert (known (threads_of s) s1) as H1.
  { unfold upd_tcb in Hr1. apply bind_Ok in Hr1 as (k & s2 & Hk & Hr1).
    unfold get_tcb in Hk. revert Hk. unfold_monad. destruct (tcbs s !! current_thread b) as [k'|] eqn:Hk; [|done].
    intros [= <- <-]. injection Hr1 as <-. apply mv_insert; [apply known_self|]. intros _.
    pose proof (switching_current _ _ _ _ _ _ Hi Hb Hm Hk) as Hs. rewrite threads_of_lookup, Hk. cbn.
    unfold info. by rewrite Hs. }
  revert Hr. match goal with |- ?m s1 = _ → _ => assert (keeps (known (threads_of s)) m (λ _, True)) as Hkeep end.
  { eapply keeps_bind; [apply keeps_some|]. intros prev _.
    eapply keeps_seq; [apply keeps_when; [intros _; apply mv_gain_prev|done]|intros _].
    eapply keeps_seq; [apply keeps_when; [|done]; intros _; eapply keeps_seq; [apply mv_preemption|intros _; by apply keeps_ret]|intros _].
    eapply keeps_seq; [eapply keeps_True, mv_get_tcb|intros k].
    eapply keeps_seq; [apply mv_on_vm|intros _; by apply keeps_ret]. }
  intros Hr. by destruct (Hkeep _ _ _ H1 Hr).
Qed.

Lemma start_known L c : keeps (known L) (run_scheduler_begin c) (λ _, True).
Proof.
  unfold run_scheduler_begin. eapply keeps_seq; [by apply mv_modify|intros _].
  eapply keeps_seq; [apply keeps_modify; [|done]; intros v Hv; by apply mv_insert|intros _].
  eapply keeps_seq; [apply mv_on_vm|intros _]. eapply keeps_seq; [apply mv_on_vm|intros _].
  eapply keeps_seq; [apply mv_preemption|intros _]. by apply keeps_ret.
Qed.

(** The scheduler makes and ends no thread. *)
Lemma moves_known x o s' :
  sched_ok x → own_move o → guard o x → exec o (st x) = Ok (tt, s') → known (threads_of (st x)) s'.
Proof.
  intros [pl Hi] Ho Hg Hr. destruct o as [| t | |c cause old|c preempt old|c|v]; try done; cbn [exec guard] in *.
  - apply bind_Ok in Hr as (b & s1 & Hr & [= <-]). by destruct (mv_wakeup _ t _ _ _ (known_self _) Hr).
  - by destruct (mv_yield _ c cause old _ _ _ (known_self _) Hr).
  - by eapply gain_known.
  - by destruct (start_known _ c _ _ _ (known_self _) Hr).
  - injection Hr as <-. eapply mv_same; [apply known_self|done].
Qed.
