(* ===== verification/System.v ===== *)
(** * The system: all calls of all threads

    The system calls of [Syscalls.v], by any threads of any processes, interleaved
    with one another and with the scheduler.  Each thread that waits inside of a call
    has its wait in [pend]; the rest of the call is a later step.  The invariant of
    [World.v] is joined with one on threads, that ties TCBs, their blocks, and the
    lists and the counts of the processes together. *)
From S2P Require Import Prelude Hoare Bios Sched SchedInv SchedSteps Kernel Devices Streams StreamInv StreamCalls StreamIO StreamProps Proc Threads Syscalls Frames ProcInv ProcExit ProcExec World Boot ProcProps ThreadProps.
Local Open Scope Z_scope.

(** ** The states *)
Record system := System { sk : kernel; pend : gmap tid wait }.

Definition held_by (w : wait) : option nat :=
  match w with WaitsRead f _ | WaitsWrite f _ _ => Some f | _ => None end.
Definition child_point (w : wait) : option wait_point :=
  match w with WaitsChild w | WaitsExit w _ => Some w | _ => None end.
Definition joined_by (w : wait) : option ptcb_ptr :=
  match w with WaitsJoin n => Some n | _ => None end.

Definition waits (m : gmap tid wait) : list wait := (map_to_list m).*2.
(** The streams that waiting threads hold, where they wait for children, and how
    many of them join thread [n]. *)
Definition held_streams (m : gmap tid wait) : list nat := omap held_by (waits m).
Definition points (m : gmap tid wait) : list wait_point := omap child_point (waits m).
Definition joiners (m : gmap tid wait) (n : ptcb_ptr) : nat :=
  length (filter (λ k, k = n) (omap joined_by (waits m))).

Definition as_world (x : system) : world := World (sk x) (held_streams (pend x)) (points (pend x)).

(** ** The steps *)
Definition after_call (self : tid) (r : sysret) (m : gmap tid wait) : gmap tid wait :=
  match r with Waits w => <[self := w]> m | _ => m end.

(** No thread of process [p] waits for a child. *)
Definition no_child_wait (x : system) (p : nat) : Prop :=
  ∀ t w wp, pend x !! t = Some w → child_point w = Some wp → waiter wp ≠ p.

(** How the calls are used.  At most one thread of a process waits for a child
    ([ProcProps.reaped_twice] says why).  No thread is detached, and a thread is
    joined while its block exists ([ThreadProps.PTCB_lifetime]); the pointer for the
    exit value of one that has exited is not null.  Init ends when it has no
    children, or calls [Exit] in its only thread. *)
Definition allowed (x : system) (self : tid) (p : nat) (call : syscall) : Prop :=
  match call with
  | SYS_Exec _ argl args => args_readable argl args
  | SYS_WaitChild cpid => no_child_wait x p ∧ (MAX_PROC ≤ cpid ∨ cpid < Z.of_nat (length (PT (sk x))))
  | SYS_Exit _ => p = 1%nat → ∀ b, PT (sk x) !! p = Some b → thread_count b = 1
  | SYS_ThreadExit _ => p = 1%nat → ∀ b, PT (sk x) !! p = Some b → thread_count b = 1 → children_list b = []
  | SYS_ThreadJoin tid v => ∃ n pb, tid = Some (OfPTCB n) ∧ ptcbs (sk x) !! n = Some pb ∧ (exited pb = true → is_Some v)
  | SYS_ThreadDetach _ => False
  | SYS_OpenTerminal n => 0 ≤ n
  | _ => True
  end.

(** Fewer than [2^31] threads were made and are waiting, and the terminals are those
    that the devices were made for. *)
Record bounded (x : system) : Prop := Bounded {
  bd_pend : Z.of_nat (size (pend x)) + 1 < 2 ^ 31;
  bd_ptcb : Z.of_nat (next_ptcb (sk x)) + 1 < 2 ^ 31;
  bd_terms : terms_ok (sk x) }.

Inductive system_step (x : system) : system → Prop :=
  | do_call c h self p call r s' :
      can_call (sk x) c self p → pend x !! self = None → allowed x self p call → bounded x →
      sys_call c h call (sk x) = Ok (r, s') →
      system_step x (System s' (after_call self r (pend x)))
  | do_resume c h self p w r s' :
      can_call (sk x) c self p → pend x !! self = Some w → bounded x →
      sys_resume c h w (sk x) = Ok (r, s') →
      system_step x (System s' (after_call self r (delete self (pend x))))
  | do_schedule v l :      (** threads run and are stopped; ended ones are released *)
      let s' := set_ksched v (set_waiting l (sk x)) in
      sched_live s' → (∀ t, is_thr t → threads_of v !! t = threads_of (ksched (sk x)) !! t) →
      system_step x (System s' (pend x)).

(** ** The invariant of threads *)

(** Block [n] is of a thread that has not exited. *)
Definition running (m : gmap ptcb_ptr PTCB) (n : ptcb_ptr) : bool :=
  match m !! n with Some pb => negb (exited pb) | None => false end.
Definition running_count (m : gmap ptcb_ptr PTCB) (l : list ptcb_ptr) : Z :=
  Z.of_nat (length (filter (λ n, running m n = true) l)).

Record list_ok (V : tview) (q : nat) (l : list ptcb_ptr) (cnt : Z) : Prop := ListOk {
  lo_nodup : NoDup l;
  lo_count : cnt = running_count (tv_ptcbs V) l;
  lo_ptcb : ∀ n, n ∈ l → ∃ pb, tv_ptcbs V !! n = Some pb ∧
    (exited pb = false → is_thr (pt_tcb pb) ∧ tv_threads V !! pt_tcb pb = Some (Z.of_nat q, Some n)) }.

(** Thread [t] of process [q] has the block [n]. *)
Definition thread_in (V : tview) (t : tid) (q : nat) (n : ptcb_ptr) : Prop :=
  q ≠ 0%nat ∧ ∃ l cnt pb, tv_lists V !! q = Some (l, cnt) ∧ n ∈ l ∧
    tv_ptcbs V !! n = Some pb ∧ pt_tcb pb = t ∧ exited pb = false.

Definition pend_ok (V : tview) (t : tid) (w : wait) : Prop :=
  is_thr t ∧ ∃ q o, tv_threads V !! t = Some (Z.of_nat q, o) ∧
    (∀ wp, child_point w = Some wp → waiter wp = q) ∧
    (∀ wp v, w = WaitsExit wp v → wp = ForAny 1 ∧ ∃ l, tv_lists V !! q = Some (l, 1)).

Record threads_ok (V : tview) (m : gmap tid wait) : Prop := ThreadsOk {
  to_tcb : ∀ t z o, is_thr t → tv_threads V !! t = Some (z, o) →
    ∃ q n, z = Z.of_nat q ∧ o = Some n ∧ thread_in V t q n;
  to_list : ∀ q l cnt, tv_lists V !! q = Some (l, cnt) → list_ok V q l cnt;
  to_ptcb : ∀ n pb, tv_ptcbs V !! n = Some pb →
    (n < tv_next V)%nat ∧ detached pb = false ∧ ref_count pb = Z.of_nat (joiners m n);
  to_join : ∀ n, (0 < joiners m n)%nat → is_Some (tv_ptcbs V !! n);
  to_pend : ∀ t w, m !! t = Some w → pend_ok V t w }.

(** Processes that have threads are alive. *)
Definition owners_alive (V : tview) (pt : list PCB) : Prop :=
  ∀ t q o, is_thr t → tv_threads V !! t = Some (Z.of_nat q, o) → ∃ b, pt !! q = Some b ∧ pstate b = ALIVE.

Record system_ok (x : system) : Prop := SystemOk {
  so_world : world_ok (as_world x);
  so_threads : threads_ok (view (sk x)) (pend x);
  so_alive : owners_alive (view (sk x)) (PT (sk x)) }.

Lemma filter_all {A} (P : A → Prop) `{∀ x, Decision (P x)} (l : list A) : (∀ x, x ∈ l → P x) → filter P l = l.
Proof.
  induction l as [|x l IH]; intros Hl; [done|]. rewrite filter_cons_True by (apply Hl; left).
  f_equal. apply IH. intros y Hy. apply Hl. by right.
Qed.

(** ** Waiting threads *)
Lemma waits_insert m t w : m !! t = None → waits (<[t := w]> m) ≡ₚ w :: waits m.
Proof. intros Ht. unfold waits. by rewrite map_to_list_insert. Qed.
Lemma waits_delete m t w : m !! t = Some w → waits m ≡ₚ w :: waits (delete t m).
Proof. intros Ht. unfold waits. by rewrite <-(map_to_list_delete m t w Ht). Qed.

Lemma omap_perm {A B} (f : A → option B) l l' : l ≡ₚ l' → omap f l ≡ₚ omap f l'.
Proof. intros H. by rewrite H. Qed.
Lemma omap_cons_app {A B} (f : A → option B) x l : omap f (x :: l) = option_list (f x) ++ omap f l.
Proof. simpl. by destruct (f x). Qed.

Lemma held_insert m t w : m !! t = None → held_streams (<[t := w]> m) ≡ₚ option_list (held_by w) ++ held_streams m.
Proof. intros Ht. unfold held_streams. by rewrite (waits_insert _ _ _ Ht), omap_cons_app. Qed.
Lemma held_delete m t w : m !! t = Some w → held_streams m ≡ₚ option_list (held_by w) ++ held_streams (delete t m).
Proof. intros Ht. unfold held_streams. by rewrite (waits_delete _ _ _ Ht), omap_cons_app. Qed.
Lemma points_insert m t w : m !! t = None → points (<[t := w]> m) ≡ₚ option_list (child_point w) ++ points m.
Proof. intros Ht. unfold points. by rewrite (waits_insert _ _ _ Ht), omap_cons_app. Qed.
Lemma points_delete m t w : m !! t = Some w → points m ≡ₚ option_list (child_point w) ++ points (delete t m).
Proof. intros Ht. unfold points. by rewrite (waits_delete _ _ _ Ht), omap_cons_app. Qed.

Definition one_join (w : wait) (n : ptcb_ptr) : nat := if decide (joined_by w = Some n) then 1%nat else 0%nat.
Lemma joiners_cons w l n :
  length (filter (λ k, k = n) (omap joined_by (w :: l))) = (one_join w n + length (filter (λ k, k = n) (omap joined_by l)))%nat.
Proof.
  simpl. unfold one_join. destruct (joined_by w) as [k|]; [rewrite filter_cons|]; simpl.
  - repeat case_decide; simplify_eq; done.
  - done.
Qed.
Lemma joiners_insert m t w n : m !! t = None → joiners (<[t := w]> m) n = (one_join w n + joiners m n)%nat.
Proof. intros Ht. unfold joiners. rewrite (waits_insert _ _ _ Ht). apply joiners_cons. Qed.
Lemma joiners_delete m t w n : m !! t = Some w → joiners m n = (one_join w n + joiners (delete t m) n)%nat.
Proof. intros Ht. unfold joiners. rewrite (waits_delete _ _ _ Ht). apply joiners_cons. Qed.

Lemma waits_size m : length (waits m) = size m.
Proof. unfold waits. by rewrite length_fmap, length_map_to_list. Qed.
Lemma omap_le {A B} (f : A → option B) l : (length (omap f l) ≤ length l)%nat.
Proof. induction l as [|x l IH]; [done|]. rewrite omap_cons_app, length_app. destruct (f x); simpl; lia. Qed.
Lemma held_size m : (length (held_streams m) ≤ size m)%nat.
Proof. rewrite <-waits_size. apply omap_le. Qed.
Lemma joiners_size m n : (joiners m n ≤ size m)%nat.
Proof. rewrite <-waits_size. unfold joiners. etransitivity; [apply length_filter|apply omap_le]. Qed.

Lemma waits_in m w : w ∈ waits m ↔ ∃ t, m !! t = Some w.
Proof.
  unfold waits. rewrite list_elem_of_fmap. split.
  - intros ([t w'] & -> & Hin). exists t. by apply elem_of_map_to_list.
  - intros [t Ht]. exists (t, w). split; [done|]. by apply elem_of_map_to_list.
Qed.
Lemma points_in m wp : wp ∈ points m ↔ ∃ t w, m !! t = Some w ∧ child_point w = Some wp.
Proof.
  unfold points. rewrite list_elem_of_omap. setoid_rewrite waits_in. naive_solver.
Qed.
Lemma held_in m t w f : m !! t = Some w → held_by w = Some f → f ∈ held_streams m.
Proof. intros Ht Hf. unfold held_streams. apply list_elem_of_omap. exists w. split; [|done]. apply waits_in. by exists t. Qed.

(** ** The invariant of the world, up to the order of the lists *)
Lemma holds_perm l l' f : l ≡ₚ l' → holds l f = holds l' f.
Proof. intros H. unfold holds. apply Permutation_length. by rewrite H. Qed.

Lemma procs_ok_ext infl infl' s : (∀ f, infl' f = infl f) → procs_ok infl s → procs_ok infl' s.
Proof.
  intros He [H1 H2 H3 [H4 H5] H6]. split; try done. split; [|done]. by apply (counts_ok_ext infl).
Qed.
Lemma world_ok_perm s h h' w w' : h ≡ₚ h' → w ≡ₚ w' → world_ok (World s h w) → world_ok (World s h' w').
Proof.
  intros Hh Hw [H1 H2 H3]. cbn in *. split; cbn.
  - eapply procs_ok_ext; [|exact H1]. intros f. by apply holds_perm.
  - by rewrite <-Hw.
  - intros x Hx. apply H3. by rewrite Hw.
Qed.

(** ** The invariant of threads, when a thread is made, ends, or is joined *)
Lemma running_ext m m' l : (∀ n, n ∈ l → m' !! n = m !! n) → running_count m' l = running_count m l.
Proof.
  intros He. unfold running_count. do 2 f_equal. induction l as [|n l IH]; [done|]. rewrite !filter_cons.
  assert (running m' n = running m n) as -> by (unfold running; rewrite He; [done|left]).
  rewrite IH by (intros k Hk; apply He; by right). done.
Qed.
Lemma running_count_app m l1 l2 : running_count m (l1 ++ l2) = running_count m l1 + running_count m l2.
Proof. unfold running_count. rewrite filter_app, length_app. lia. Qed.
Lemma running_count_cons m n l : running_count m (n :: l) = (if running m n then 1 else 0) + running_count m l.
Proof. unfold running_count. rewrite filter_cons. destruct (running m n); simpl; lia. Qed.
Lemma running_count_removed m n l : running m n = false → running_count m (remove_node n l) = running_count m l.
Proof.
  intros Hn. induction l as [|k l IH]; [done|]. unfold remove_node. rewrite filter_cons, running_count_cons.
  case_decide as Hk; fold (remove_node n l); [by rewrite running_count_cons, IH|].
  assert (k = n) as -> by (by destruct (decide (k = n))). by rewrite Hn, IH.
Qed.
Lemma running_spec m n : running m n = true ↔ ∃ pb, m !! n = Some pb ∧ exited pb = false.
Proof. unfold running. destruct (m !! n) as [pb|]; [|naive_solver]. destruct (exited pb) eqn:He; naive_solver. Qed.

(** Two threads of a process count twice. *)
Lemma count_two V m t u q n k : threads_ok V m → thread_in V t q n → thread_in V u q k → t ≠ u →
  ∃ l cnt, tv_lists V !! q = Some (l, cnt) ∧ 2 ≤ cnt.
Proof.
  intros Hok (_ & l & cnt & pb & Hl & Hn & Hpb & Ht & He) (_ & l' & cnt' & pb' & Hl' & Hn' & Hpb' & Hu & He') Hne.
  assert (l' = l) as -> by congruence. exists l, cnt. split; [done|].
  destruct (to_list _ _ Hok _ _ _ Hl) as [Hnd -> _].
  assert (n ≠ k) as Hnk by congruence.
  assert (NoDup [n; k]) as H2 by (repeat constructor; set_solver).
  assert ([n; k] ⊆ filter (λ n, running (tv_ptcbs V) n = true) l) as Hsub.
  { intros y [->|[->|[]%not_elem_of_nil]%elem_of_cons]%elem_of_cons; apply list_elem_of_filter;
      (split; [apply running_spec; eauto|done]). }
  pose proof (submseteq_length _ _ (NoDup_submseteq _ _ H2 Hsub)) as H. unfold running_count. simpl in H. lia.
Qed.

Section add.
Context (V V' : tview) (m : gmap tid wait) (t : tid) (q : nat) (n : ptcb_ptr) (l : list ptcb_ptr) (cnt : Z) (pb : PTCB).
Context (Hok : threads_ok V m) (Ht : is_thr t) (Hnew : tv_threads V !! t = None) (Hq : q ≠ 0%nat)
  (Hl : tv_lists V !! q = Some (l, cnt)) (Hn : n = tv_next V)
  (Hpb : pt_tcb pb = t ∧ exited pb = false ∧ detached pb = false ∧ ref_count pb = 0)
  (HT : tv_threads V' = <[t := (Z.of_nat q, Some n)]> (tv_threads V))
  (HP : tv_ptcbs V' = <[n := pb]> (tv_ptcbs V))
  (HL : tv_lists V' = <[q := (l ++ [n], cnt + 1)]> (tv_lists V))
  (HN : tv_next V' = S n)
  (Hex : ∀ u wp v o, m !! u = Some (WaitsExit wp v) → tv_threads V !! u ≠ Some (Z.of_nat q, o)).
#[local] Set Default Proof Using "Type*".

Lemma fresh_ptcb : tv_ptcbs V !! n = None.
Proof.
  destruct (tv_ptcbs V !! n) as [b|] eqn:Hb; [|done]. destruct (to_ptcb _ _ Hok _ _ Hb) as [Hlt _]. lia.
Qed.
Lemma fresh_list l' q' cnt' : tv_lists V !! q' = Some (l', cnt') → n ∉ l'.
Proof.
  intros Hl' Hin. destruct (lo_ptcb _ _ _ _ (to_list _ _ Hok _ _ _ Hl') n Hin) as (b & Hb & _).
  by rewrite fresh_ptcb in Hb.
Qed.
Lemma old_entry k : is_Some (tv_ptcbs V !! k) → tv_ptcbs V' !! k = tv_ptcbs V !! k.
Proof.
  intros [b Hb]. rewrite HP, lookup_insert_ne; [done|]. intros <-. by rewrite fresh_ptcb in Hb.
Qed.
Lemma old_list q' l' cnt' : tv_lists V !! q' = Some (l', cnt') → list_ok V' q' l' cnt'.
Proof.
  intros Hl'. destruct (to_list _ _ Hok _ _ _ Hl') as [Hnd Hc Hp]. split; [done| |].
  - rewrite (running_ext (tv_ptcbs V)); [done|]. intros k Hk. destruct (Hp k Hk) as (b & Hb & _).
    apply old_entry. by eexists.
  - intros k Hk. destruct (Hp k Hk) as (b & Hb & Hr). exists b. rewrite old_entry by (by eexists).
    split; [done|]. intros He. destruct (Hr He) as [Hthr Hv]. split; [done|].
    rewrite HT, lookup_insert_ne; [done|]. intros Heq. by rewrite <-Heq, Hnew in Hv.
Qed.
Lemma old_thread u q' k : thread_in V u q' k → thread_in V' u q' k.
Proof.
  intros (Hq' & l' & cnt' & b & Hl' & Hk & Hb & Hu & He). split; [done|].
  assert (tv_ptcbs V' !! k = Some b) as Hb' by (rewrite old_entry; [done|by eexists]).
  rewrite HL. destruct (decide (q' = q)) as [->|Hne].
  - assert (l' = l) as -> by congruence.
    exists (l ++ [n]), (cnt + 1), b. rewrite list_lookup_insert_eq by (by eapply lookup_lt_Some).
    split_and!; try done. apply elem_of_app. by left.
  - exists l', cnt', b. by rewrite list_lookup_insert_ne.
Qed.
Lemma threads_ok_add : threads_ok V' m.
Proof.
  destruct Hpb as (Hpt & Hpe & Hpd & Hpr).
  assert (joiners m n = 0%nat) as Hj.
  { destruct (joiners m n) eqn:Hj; [done|]. destruct (to_join _ _ Hok n) as [b Hb]; [lia|]. by rewrite fresh_ptcb in Hb. }
  split.
  - intros u z o Hu. rewrite HT, lookup_insert_Some. intros [[<- [= <- <-]]|[Hne Hv]].
    + exists q, n. split; [done|]. split; [done|]. split; [done|]. exists (l ++ [n]), (cnt + 1), pb.
      rewrite HL, list_lookup_insert_eq, HP, lookup_insert_eq by (by eapply lookup_lt_Some).
      split_and!; try done. apply elem_of_app. right. left.
    + destruct (to_tcb _ _ Hok u z o Hu Hv) as (q' & k & -> & -> & Hin). exists q', k.
      split_and!; try done. by apply old_thread.
  - intros q' l' cnt'. rewrite HL, list_lookup_insert_Some. intros [(<- & [= <- <-] & _)|[Hne Hl']]; [|by apply old_list].
    destruct (old_list q l cnt Hl) as [Hnd Hc Hp]. split.
    + apply NoDup_app. split; [done|]. split; [|apply NoDup_singleton].
      intros k Hk ->%list_elem_of_singleton. by eapply fresh_list.
    + rewrite running_count_app, <-Hc. f_equal. unfold running_count. simpl.
      rewrite filter_cons_True; [done|]. apply running_spec. exists pb. by rewrite HP, lookup_insert_eq.
    + intros k [Hk|Hk]%elem_of_app; [by apply Hp|]. apply list_elem_of_singleton in Hk as ->. exists pb.
      rewrite HP, lookup_insert_eq. split; [done|]. intros _. rewrite Hpt. split; [done|]. by rewrite HT, lookup_insert_eq.
  - intros k b. rewrite HN, HP, lookup_insert_Some. intros [[<- <-]|[Hne Hb]].
    + rewrite Hj. split; [lia|]. by split.
    + destruct (to_ptcb _ _ Hok _ _ Hb) as (Hlt & Hd & Hr). split; [lia|]. by split.
  - intros k Hk. rewrite old_entry; by apply (to_join _ _ Hok).
  - intros u w Hu. destruct (to_pend _ _ Hok u w Hu) as (Hthr & q' & o & Hv & Hw & He). split; [done|].
    assert (u ≠ t) as Hut by congruence.
    exists q', o. rewrite HT, lookup_insert_ne by done. split_and!; [done|done|].
    intros wp v Hwe. destruct (He wp v Hwe) as (-> & l' & Hl'). split; [done|]. rewrite HL.
    destruct (decide (q' = q)) as [->|Hne]; [|exists l'; by rewrite list_lookup_insert_ne].
    exfalso. subst w. by eapply Hex.
Qed.
End add.

(** The thread [t] of process [p], with block [n], ends. *)
Definition left_of (n : ptcb_ptr) (pb : PTCB) (l : list ptcb_ptr) : list ptcb_ptr :=
  if decide (ref_count pb = 0) then remove_node n l else l.
Section exit.
Context (V V' : tview) (m : gmap tid wait) (t : tid) (p : nat) (n : ptcb_ptr) (pb : PTCB) (v : Z).
Context (Hok : threads_ok V m) (Ht : is_thr t) (Hin : thread_in V t p n)
  (Hv : tv_threads V !! t = Some (Z.of_nat p, Some n)) (Hm : m !! t = None) (Hpb : tv_ptcbs V !! n = Some pb)
  (HT : tv_threads V' = delete t (tv_threads V))
  (HP : tv_ptcbs V' = ended_ptcbs n v pb (tv_ptcbs V))
  (HL : ∀ q l' cnt', tv_lists V' !! q = Some (l', cnt') → ∃ l cnt, tv_lists V !! q = Some (l, cnt) ∧
     l' = (left_of n pb l) ∧
     cnt' = if decide (q = p) then cnt - 1 else cnt)
  (HL' : ∀ q l cnt, tv_lists V !! q = Some (l, cnt) → tv_lists V' !! q =
     Some (left_of n pb l, if decide (q = p) then cnt - 1 else cnt))
  (HN : tv_next V' = tv_next V).
#[local] Set Default Proof Using "Type*".

Lemma ended_other k : k ≠ n → tv_ptcbs V' !! k = tv_ptcbs V !! k.
Proof.
  intros Hk. rewrite HP. unfold ended_ptcbs. destruct (decide (ref_count pb = 0)); [by rewrite lookup_delete_ne|by rewrite lookup_insert_ne].
Qed.
Lemma ended_self : running (tv_ptcbs V') n = false.
Proof.
  unfold running. rewrite HP. unfold ended_ptcbs. destruct (decide (ref_count pb = 0)); [by rewrite lookup_delete_eq|by rewrite lookup_insert_eq].
Qed.
Lemma exit_owner u q k : thread_in V u q k → u ≠ t → k ≠ n.
Proof.
  destruct Hin as (_ & _ & _ & b & _ & _ & Hb & Hbt & _). intros (_ & _ & _ & b' & _ & _ & Hb' & <- & _) Hne ->. congruence.
Qed.
Lemma others_list q l cnt : tv_lists V !! q = Some (l, cnt) → q ≠ p → n ∉ l.
Proof.
  intros Hl Hq Hnl. destruct (lo_ptcb _ _ _ _ (to_list _ _ Hok _ _ _ Hl) n Hnl) as (b & Hb & Hr).
  destruct Hin as (_ & _ & _ & b' & _ & _ & Hb' & Hbt & He). assert (b' = b) as -> by congruence.
  destruct (Hr He) as [_ Hv']. rewrite Hbt, Hv in Hv'. by simplify_eq.
Qed.
Lemma elem_left l k : k ∈ (left_of n pb l) → k ∈ l.
Proof. unfold left_of. destruct (decide (ref_count pb = 0)); [|done]. by intros [_ Hk]%elem_of_remove_node. Qed.

(** The count of running threads without [n]. *)
Lemma count_ended l : NoDup l →
  running_count (tv_ptcbs V') l = running_count (tv_ptcbs V) l - if decide (n ∈ l) then 1 else 0.
Proof.
  assert (running (tv_ptcbs V) n = true) as Hrun.
  { apply running_spec. destruct Hin as (_ & _ & _ & b & _ & _ & Hb & _ & He). by exists b. }
  intros Hnd. induction Hnd as [|k l Hk Hnd IH]; [done|]. rewrite !running_count_cons, IH.
  destruct (decide (k = n)) as [->|Hkn].
  - rewrite ended_self, Hrun, (decide_False (P := n ∈ l)) by done. rewrite decide_True by left. lia.
  - assert (running (tv_ptcbs V') k = running (tv_ptcbs V) k) as -> by (unfold running; by rewrite ended_other).
    rewrite (decide_ext (n ∈ k :: l) (n ∈ l)) by (rewrite elem_of_cons; naive_solver). lia.
Qed.
Lemma count_left l :
  NoDup l → running_count (tv_ptcbs V') (left_of n pb l)
  = running_count (tv_ptcbs V) l - if decide (n ∈ l) then 1 else 0.
Proof. intros Hnd. rewrite <-count_ended by done. unfold left_of. destruct (decide (ref_count pb = 0)); [|done]. apply running_count_removed, ended_self. Qed.

Lemma left_thread u q k : thread_in V u q k → u ≠ t → thread_in V' u q k.
Proof.
  intros Hu Hne. pose proof (exit_owner _ _ _ Hu Hne) as Hk.
  destruct Hu as (Hq & l & cnt & b & Hl & Hkl & Hb & Hub & He). split; [done|]. eexists _, _, b.
  split; [by apply HL'|]. rewrite ended_other by done. split_and!; try done.
  unfold left_of. destruct (decide (ref_count pb = 0)); [|done]. by apply elem_of_remove_node.
Qed.

Lemma threads_ok_exit : threads_ok V' m.
Proof.
  split.
  - intros u z o Hu. rewrite HT. intros [Hne Huv]%lookup_delete_Some.
    destruct (to_tcb _ _ Hok u z o Hu Huv) as (q & k & -> & -> & Hk). exists q, k.
    split; [done|]. split; [done|]. apply left_thread; [done|congruence].
  - intros q l' cnt' Hl'. destruct (HL _ _ _ Hl') as (l & cnt & Hl & -> & ->).
    destruct (to_list _ _ Hok _ _ _ Hl) as [Hnd Hc Hp]. split.
    + unfold left_of. destruct (decide (ref_count pb = 0)); [by apply NoDup_remove_node|done].
    + rewrite count_left by done. rewrite <-Hc. destruct (decide (q = p)) as [->|Hq].
      * destruct Hin as (_ & l0 & c0 & _ & Hl0 & Hnl & _). assert (l0 = l) as -> by congruence.
        by rewrite decide_True.
      * rewrite decide_False by (by eapply others_list). lia.
    + intros k Hk. pose proof (elem_left _ _ Hk) as Hkl. destruct (Hp k Hkl) as (b & Hb & Hr).
      destruct (decide (k = n)) as [->|Hkn].
      * exists (set_exited v b). assert (b = pb) as -> by congruence. split; [|done].
        rewrite HP. unfold ended_ptcbs, left_of in *. destruct (decide (ref_count pb = 0)); [|by rewrite lookup_insert_eq].
        by apply elem_of_remove_node in Hk as [? _].
      * exists b. rewrite ended_other by done. split; [done|]. intros He. destruct (Hr He) as [Hthr Hbv].
        split; [done|]. rewrite HT, lookup_delete_ne; [done|]. intros Heq. rewrite <-Heq, Hv in Hbv. simplify_eq.
  - intros k b. rewrite HN. destruct (decide (k = n)) as [->|Hkn].
    + destruct (to_ptcb _ _ Hok _ _ Hpb) as (Hlt & Hd & Hrc). rewrite HP. unfold ended_ptcbs.
      destruct (decide (ref_count pb = 0)); [by rewrite lookup_delete_eq|]. rewrite lookup_insert_eq. by intros [= <-].
    + rewrite ended_other by done. apply (to_ptcb _ _ Hok).
  - intros k Hk. destruct (to_join _ _ Hok k Hk) as [b Hb]. destruct (decide (k = n)) as [->|Hkn].
    + destruct (to_ptcb _ _ Hok _ _ Hpb) as (_ & _ & Hrc). rewrite HP. unfold ended_ptcbs.
      rewrite decide_False by lia. rewrite lookup_insert_eq. by eexists.
    + rewrite ended_other by done. by eexists.
  - intros u w Hu. assert (u ≠ t) as Hne by congruence.
    destruct (to_pend _ _ Hok u w Hu) as (Hthr & q & o & Huv & Hw & He). split; [done|].
    exists q, o. rewrite HT, lookup_delete_ne by done. split; [done|]. split; [done|].
    intros wp e Hwe. destruct (He wp e Hwe) as (-> & l & Hl). split; [done|].
    assert (q ≠ p) as Hq.
    { intros ->. destruct (to_tcb _ _ Hok u _ _ Hthr Huv) as (q & k & Hqp & _ & Hku).
      apply Nat2Z.inj in Hqp as <-. destruct (count_two _ _ _ _ _ _ _ Hok Hku Hin Hne) as (l2 & c2 & Hl2 & Hc2).
      rewrite Hl in Hl2. by simplify_eq. }
    rewrite (HL' _ _ _ Hl), (decide_False (P := q = p)) by done. by eexists.
Qed.
End exit.

(** The references to block [n] change, as the waits of the threads do. *)
Section refs.
Context (V V' : tview) (m m' : gmap tid wait) (n : ptcb_ptr) (pb : PTCB) (r : Z).
Context (Hok : threads_ok V m) (Hpb : tv_ptcbs V !! n = Some pb)
  (HT : tv_threads V' = tv_threads V) (HP : tv_ptcbs V' = <[n := set_ref_count r pb]> (tv_ptcbs V))
  (HL : tv_lists V' = tv_lists V) (HN : tv_next V' = tv_next V)
  (Hr : r = Z.of_nat (joiners m' n)) (Hj : ∀ k, k ≠ n → joiners m' k = joiners m k)
  (Hm : ∀ t w, m' !! t = Some w → m !! t = Some w ∨ pend_ok V t w).
#[local] Set Default Proof Using "Type*".

Lemma refs_entry k b : tv_ptcbs V !! k = Some b →
  ∃ b', tv_ptcbs V' !! k = Some b' ∧ pt_tcb b' = pt_tcb b ∧ exited b' = exited b.
Proof.
  intros Hb. rewrite HP. destruct (decide (k = n)) as [->|Hk].
  - rewrite lookup_insert_eq. assert (b = pb) as -> by congruence. by eexists.
  - rewrite lookup_insert_ne by done. by exists b.
Qed.
Lemma refs_pend t w : pend_ok V t w → pend_ok V' t w.
Proof. unfold pend_ok. by rewrite HT, HL. Qed.
Lemma threads_ok_refs : threads_ok V' m'.
Proof.
  split.
  - intros t z o Ht. rewrite HT. intros Hv. destruct (to_tcb _ _ Hok t z o Ht Hv) as (q & k & -> & -> & Hq & l & cnt & b & Hl & Hk & Hb & Hbt & He).
    destruct (refs_entry k b Hb) as (b' & Hb' & Hbt' & He'). exists q, k. split; [done|]. split; [done|]. split; [done|].
    exists l, cnt, b'. rewrite HL. split_and!; congruence.
  - intros q l cnt. rewrite HL. intros Hl. destruct (to_list _ _ Hok _ _ _ Hl) as [Hnd Hc Hp]. split; [done| |].
    + rewrite Hc. unfold running_count. do 2 f_equal. apply list_filter_iff. intros k. rewrite !running_spec. split.
      * intros (b & Hb & He). destruct (refs_entry k b Hb) as (b' & Hb' & _ & He'). exists b'. split; congruence.
      * intros (b' & Hb' & He'). rewrite HP, lookup_insert_Some in Hb'. destruct Hb' as [[<- <-]|[_ Hb]]; eauto.
    + intros k Hk. destruct (Hp k Hk) as (b & Hb & Hrun). destruct (refs_entry k b Hb) as (b' & Hb' & Hbt' & He').
      exists b'. rewrite HT, Hbt', He'. by split.
  - intros k b. rewrite HN, HP, lookup_insert_Some. intros [[<- <-]|[Hk Hb]].
    + destruct (to_ptcb _ _ Hok _ _ Hpb) as (Hlt & Hd & _). by split.
    + rewrite Hj by done. by apply (to_ptcb _ _ Hok).
  - intros k Hk. rewrite HP. destruct (decide (k = n)) as [->|Hkn]; [rewrite lookup_insert_eq; by eexists|].
    rewrite lookup_insert_ne by done. rewrite Hj in Hk by done. by apply (to_join _ _ Hok).
  - intros t w Ht. apply refs_pend. destruct (Hm t w Ht) as [Hw|Hw]; [by apply (to_pend _ _ Hok)|done].
Qed.
End refs.

(** A running thread counts. *)
Lemma count_one V m t q n l cnt : threads_ok V m → thread_in V t q n → tv_lists V !! q = Some (l, cnt) → 1 ≤ cnt.
Proof.
  intros Hok (_ & l' & cnt' & pb & Hl' & Hn & Hpb & _ & He) Hl. assert (l' = l) as -> by congruence.
  destruct (to_list _ _ Hok _ _ _ Hl) as [_ -> _]. unfold running_count.
  assert (n ∈ filter (λ n, running (tv_ptcbs V) n = true) l) as Hin
    by (apply list_elem_of_filter; split; [apply running_spec; eauto|done]).
  destruct (filter _ l); [by apply not_elem_of_nil in Hin|simpl; lia].
Qed.

(** The counts are small, and those of processes that are not alive are 0. *)
Lemma count_bound V m q l cnt : threads_ok V m → tv_lists V !! q = Some (l, cnt) → 0 ≤ cnt ≤ Z.of_nat (tv_next V).
Proof.
  intros Hok Hl. destruct (to_list _ _ Hok _ _ _ Hl) as [Hnd -> Hp]. unfold running_count.
  assert (l ⊆ seq 0 (tv_next V)) as Hsub.
  { intros k Hk. destruct (Hp k Hk) as (b & Hb & _). destruct (to_ptcb _ _ Hok _ _ Hb) as [Hlt _].
    apply elem_of_seq. lia. }
  pose proof (submseteq_length _ _ (NoDup_submseteq _ _ Hnd Hsub)) as H. rewrite length_seq in H.
  pose proof (length_filter (λ n, running (tv_ptcbs V) n = true) l). lia.
Qed.
Lemma count_dead V m pt q l cnt b : threads_ok V m → owners_alive V pt →
  tv_lists V !! q = Some (l, cnt) → pt !! q = Some b → pstate b ≠ ALIVE → cnt = 0.
Proof.
  intros Hok Ho Hl Hb Hst. destruct (to_list _ _ Hok _ _ _ Hl) as [_ -> Hp]. unfold running_count.
  destruct (filter _ l) as [|k r] eqn:Hf; [done|].
  assert (k ∈ filter (λ n, running (tv_ptcbs V) n = true) l) as [Hr Hk]%list_elem_of_filter by (rewrite Hf; left).
  apply running_spec in Hr as (pb & Hpb & He). destruct (Hp k Hk) as (pb' & Hpb' & Hrun).
  assert (pb' = pb) as -> by congruence. destruct (Hrun He) as [Ht Hv].
  destruct (Ho _ _ _ Ht Hv) as (b' & Hb' & Hal). congruence.
Qed.

(** The TCBs with a new one. *)
Lemma threads_of_added v v' t q n k :
  tcbs v !! t = None → tcbs v' !! t = Some k → owner_pcb k = Z.of_nat q → tcb_ptcb k = Some n →
  tcb_state k = READY → (∀ u, u ≠ t → tcbs v' !! u = tcbs v !! u) →
  threads_of v !! t = None ∧ threads_of v' = <[t := (Z.of_nat q, Some n)]> (threads_of v).
Proof.
  intros Hn Hk Ho Hp Hs Hu. split; [by rewrite threads_of_lookup, Hn|]. apply map_eq. intros u.
  rewrite threads_of_lookup. destruct (decide (u = t)) as [->|Hne].
  - rewrite Hk, lookup_insert_eq. cbn. unfold info. by rewrite Hs, decide_False, Ho, Hp.
  - by rewrite Hu, lookup_insert_ne, threads_of_lookup.
Qed.

(** ** Calls that leave the threads alone *)
Lemma threads_ok_pend V m m' :
  threads_ok V m → (∀ n, joiners m' n = joiners m n) →
  (∀ t w, m' !! t = Some w → m !! t = Some w ∨ pend_ok V t w) → threads_ok V m'.
Proof.
  intros [H1 H2 H3 H4 H5] Hj Hp. split; [done|done| | |].
  - intros n pb Hn. rewrite Hj. by apply H3.
  - intros n. rewrite Hj. by apply H4.
  - intros t w Ht. destruct (Hp t w Ht) as [Hm|Ho]; [by apply H5|done].
Qed.

Lemma owners_kept V pt pt' : owners_alive V pt → alive_kept pt pt' → owners_alive V pt'.
Proof. intros Ho Hk t q o Ht Hv. destruct (Ho t q o Ht Hv) as (b & Hb & Hal). by eapply Hk. Qed.
