(* ===== verification/SystemSteps.v ===== *)
(** * The system: the calls, one by one

    For each call, and for the rest of each call that waits: it runs, without a
    fault, and keeps the invariant of [System.v]. *)
From S2P Require Import Prelude Hoare Bios Sched SchedInv SchedSteps Kernel Devices Streams StreamInv StreamCalls StreamIO StreamProps Proc Threads Syscalls Frames ProcInv ProcExit ProcExec World Boot ProcProps ThreadProps System.
Local Open Scope Z_scope.

Section caller.
Context (x : system) (c : nat) (self : tid) (p : nat).
#[local] Set Default Proof Using "Type*".
Context (Hx : system_ok x) (Hc : can_call (sk x) c self p) (Hbd : bounded x).

Lemma caller_thr : is_thr self.
Proof. apply Hc. Qed.
Lemma caller_thread : ∃ k n, Sched.tcbs (ksched (sk x)) !! self = Some k ∧ tcb_ptcb k = Some n ∧
  threads_of (ksched (sk x)) !! self = Some (Z.of_nat p, Some n) ∧ thread_in (view (sk x)) self p n.
Proof.
  destruct (caller_live _ _ _ _ Hc) as (Ht & k & Hk & Hv).
  destruct (to_tcb _ _ (so_threads _ Hx) self _ _ Ht Hv) as (q & n & Hq & Hn & Hin).
  apply Nat2Z.inj in Hq as <-. exists k, n. rewrite Hn in Hv. done.
Qed.
Lemma caller_block : ∃ b, PT (sk x) !! p = Some b ∧ pstate b = ALIVE.
Proof.
  destruct (caller_live _ _ _ _ Hc) as (Ht & k & _ & Hv). by apply (so_alive _ Hx self p (tcb_ptcb k)).
Qed.
Lemma caller_process : in_process (sk x) p.
Proof. destruct caller_thread as (k & n & _ & _ & _ & Hp & _). split; [done|]. apply caller_block. Qed.
Lemma caller_self : is_Some (tv_threads (view (sk x)) !! self).
Proof. destruct caller_thread as (k & n & _ & _ & Hv & _). by eexists. Qed.
Lemma caller_view : view_is (view (sk x)) c self (sk x).
Proof. eapply view_is_self, Hc. Qed.
Lemma few : few_calls (as_world x).
Proof. unfold few_calls. cbn. pose proof (held_size (pend x)). destruct Hbd. lia. Qed.
Lemma few_holds : ∀ f, Z.of_nat (holds (held_streams (pend x)) f) + 1 < 2 ^ 31.
Proof. apply (few_small _ few). Qed.
Lemma caller_pend w : (∀ wp, child_point w = Some wp → waiter wp = p) →
  (∀ wp v, w = WaitsExit wp v → wp = ForAny 1 ∧ ∃ l, tv_lists (view (sk x)) !! p = Some (l, 1)) →
  pend_ok (view (sk x)) self w.
Proof.
  intros H1 H2. destruct caller_thread as (k & n & _ & _ & Hv & _). split; [apply caller_thr|].
  exists p, (Some n). by split_and!.
Qed.

(** The state of a call that keeps the view. *)
Lemma quiet_ok s' m h w :
  world_ok (World s' h w) → view s' = view (sk x) → alive_kept (PT (sk x)) (PT s') →
  h ≡ₚ held_streams m → w ≡ₚ points m → (∀ n, joiners m n = joiners (pend x) n) →
  (∀ t w, m !! t = Some w → pend x !! t = Some w ∨ pend_ok (view (sk x)) t w) →
  system_ok (System s' m).
Proof.
  intros Hw Hv Hal Hh Hp Hj Hm. split; cbn [sk pend].
  - unfold as_world. cbn. by eapply world_ok_perm.
  - rewrite Hv. by apply (threads_ok_pend _ (pend x)), Hm; [apply Hx|].
  - rewrite Hv. eapply owners_kept; [apply Hx|done].
Qed.
Lemma same_state_ok : system_ok (System (sk x) (pend x)).
Proof. by destruct x. Qed.

Lemma fr_exec_call call : keeps (view_is (view (sk x)) c self) (exec_call c call) (λ _, True).
Proof.
  pose proof caller_self as Hs. destruct call; cbn [exec_call].
  - eapply keeps_seq; [apply fr_open_stream|intros; by apply keeps_ret].
  - eapply keeps_seq; [apply fr_Close|intros; by apply keeps_ret].
  - eapply keeps_seq; [apply fr_Dup2|intros; by apply keeps_ret].
  - by apply fr_Read.
  - by apply fr_Write.
  - by apply fr_read_device.
  - by apply fr_write_device.
Qed.

Lemma stream_part call : call_ok (held_streams (pend x)) call →
  ∃ r s', exec_call c call (sk x) = Ok (r, s') ∧ view s' = view (sk x) ∧ alive_kept (PT (sk x)) (PT s') ∧
    world_ok (World s' (next_held call r (held_streams (pend x))) (points (pend x))).
Proof.
  intros Hcall.
  destruct (stream_step_ok (as_world x) c self p call (so_world _ Hx) Hc caller_process Hcall few (bd_terms _ Hbd))
    as (r & s' & Hr & Hw & Hal). cbn [wk as_world] in *.
  exists r, s'. split_and!; [done| |done|exact Hw].
  destruct (fr_exec_call call _ _ _ caller_view Hr) as [Hv _]. by apply view_is_view in Hv.
Qed.

(** The goal of each step: the call, or the rest of it, runs, and keeps the
    invariant. *)
Definition step_ok (m : KM sysret) (base : gmap tid wait) : Prop :=
  ∃ r s', m (sk x) = Ok (r, s') ∧ system_ok (System s' (after_call self r base)).

Lemma pend_other_self t w w' : pend x !! self = None → <[self := w]> (pend x) !! t = Some w' →
  (t = self ∧ w' = w) ∨ pend x !! t = Some w'.
Proof. intros Hn. rewrite lookup_insert_Some. intros [[-> ->]|[_ H]]; auto. Qed.

(** *** Streams *)
Lemma returns_ok m call : call_ok (held_streams (pend x)) call →
  exec_call c call = (r ← m; mret (IoDone r [])) →
  (∀ r, next_held call r (held_streams (pend x)) = held_streams (pend x)) →
  step_ok (Returns <$> m) (pend x).
Proof.
  intros Hcall He Hh. destruct (stream_part call Hcall) as (r & s' & Hr & Hv & Hal & Hw).
  rewrite He in Hr. apply bind_Ok in Hr as (v & s1 & Hr & [= <- <-]).
  exists (Returns v), s1. split; [by apply fmap_run|]. cbn. rewrite Hh in Hw.
  eapply quiet_ok; try done. auto.
Qed.

Section io.
Context (call : stream_call) (m : KM io_result) (ret : io_result → sysret) (w : nat → wait).
Context (Hret : ∀ n bytes, ∃ r, ret (IoDone n bytes) = r ∧ ∀ b, after_call self r b = b)
  (Hwait : ∀ f, ret (IoBlocked f) = Waits (w f))
  (Hw : ∀ f, held_by (w f) = Some f ∧ child_point (w f) = None ∧ joined_by (w f) = None).

Lemma waits_io f : pend_ok (view (sk x)) self (w f).
Proof.
  apply caller_pend; destruct (Hw f) as (_ & Hp & _); [congruence|].
  intros wp v He. rewrite He in Hp. done.
Qed.
Lemma no_join f n : one_join (w f) n = 0%nat.
Proof. unfold one_join. destruct (Hw f) as (_ & _ & ->). by rewrite decide_False. Qed.

Lemma io_start_ok : pend x !! self = None → call_ok (held_streams (pend x)) call → exec_call c call = m →
  (∀ f, next_held call (IoBlocked f) (held_streams (pend x)) = f :: held_streams (pend x)) →
  (∀ n bytes, next_held call (IoDone n bytes) (held_streams (pend x)) = held_streams (pend x)) →
  step_ok (ret <$> m) (pend x).
Proof.
  intros Hn Hcall <- Hb Hd. destruct (stream_part call Hcall) as (r & s' & Hr & Hv & Hal & Hwo).
  exists (ret r), s'. split; [by apply fmap_run|]. destruct r as [n bytes|f].
  - destruct (Hret n bytes) as (r' & -> & Ha). rewrite Ha. rewrite Hd in Hwo. eapply quiet_ok; try done. auto.
  - rewrite Hwait. cbn [after_call]. rewrite Hb in Hwo. destruct (Hw f) as (Hf & Hp & _).
    eapply quiet_ok; try done.
    + by rewrite held_insert, Hf.
    + by rewrite points_insert, Hp.
    + intros n. by rewrite joiners_insert, no_join.
    + intros t w' [[-> ->]|Ht]%pend_other_self; [right; apply waits_io|by left|done].
Qed.

Lemma io_more_ok f : pend x !! self = Some (w f) → exec_call c call = m → f ∈ held_streams (pend x) →
  call_ok (held_streams (pend x)) call →
  (∀ g, next_held call (IoBlocked g) (held_streams (pend x)) = held_streams (pend x)) →
  (∀ g s s', m s = Ok (IoBlocked g, s') → g = f) →
  (∀ n bytes, next_held call (IoDone n bytes) (held_streams (pend x)) = remove_one f (held_streams (pend x))) →
  step_ok (ret <$> m) (delete self (pend x)).
Proof.
  intros Hpe <- Hin Hcall Hb Hg Hd. destruct (stream_part call Hcall) as (r & s' & Hr & Hv & Hal & Hwo).
  destruct (Hw f) as (Hf & Hp & _).
  exists (ret r), s'. split; [by apply fmap_run|]. destruct r as [n bytes|g].
  - destruct (Hret n bytes) as (r' & -> & Ha). rewrite Ha. rewrite Hd in Hwo. eapply quiet_ok; try done.
    + apply (Permutation_cons_inv (a := f)). rewrite <-remove_one_perm by done.
      rewrite (held_delete _ _ _ Hpe), Hf. done.
    + by rewrite (points_delete _ _ _ Hpe), Hp.
    + intros k. by rewrite (joiners_delete _ _ _ _ Hpe), no_join.
    + intros t w' Ht%lookup_delete_Some. left. apply Ht.
  - rewrite (Hg g _ _ Hr), Hwait in *. cbn [after_call]. rewrite insert_delete_eq, insert_id by done.
    rewrite Hb in Hwo. eapply quiet_ok; try done. auto.
Qed.
End io.

(** *** Calls that change nothing *)
Lemma same_ok m r : m (sk x) = Ok (r, sk x) → (∀ b, after_call self r b = b) → step_ok m (pend x).
Proof. intros Hr Ha. exists r, (sk x). split; [done|]. rewrite Ha. apply same_state_ok. Qed.
Lemma GetPid_ok : step_ok (Returns <$> sys_GetPid c) (pend x).
Proof.
  eapply same_ok; [apply fmap_run; unfold sys_GetPid; by mrun ltac:(eapply CURPROC_run, Hc)|done].
Qed.
Lemma GetPPid_ok : step_ok (Returns <$> sys_GetPPid c) (pend x).
Proof.
  destruct caller_block as (b & Hb & _). eapply same_ok; [apply fmap_run; unfold sys_GetPPid|done].
  mrun ltac:(eapply CURPROC_run, Hc). by mrun ltac:(by apply get_PCB_run).
Qed.
Lemma ThreadSelf_ok : step_ok (ReturnsTid <$> sys_ThreadSelf c) (pend x).
Proof.
  eapply same_ok; [apply fmap_run; unfold sys_ThreadSelf; by mrun ltac:(eapply CURTHREAD_run, Hc)|done].
Qed.
Lemma GetTerminalDevices_ok : step_ok (Returns <$> sys_GetTerminalDevices) (pend x).
Proof.
  destruct (bd_terms _ Hbd) as [Hd _]. eapply same_ok; [apply fmap_run; unfold sys_GetTerminalDevices, device_no; mstep|done].
  rewrite Hd. by rewrite (run_some _ _ (nterm (vm (ksched (sk x))))).
Qed.

(** *** Waiting for children *)
Lemma no_points : no_child_wait x p → ∀ w, w ∈ points (pend x) → waiter w ≠ p.
Proof. intros Hn w (t & w' & Ht & Hw)%points_in. by eapply Hn. Qed.

Lemma waits_child wp : waiter wp = p → pend_ok (view (sk x)) self (WaitsChild wp).
Proof. intros Hp. apply caller_pend; [by intros w [= <-]|done]. Qed.

Lemma WaitChild_ok cpid : pend x !! self = None → allowed x self p (SYS_WaitChild cpid) →
  step_ok (child_ret <$> sys_WaitChild c cpid) (pend x).
Proof.
  intros Hn [Hno Hpid].
  destruct (wait_step_ok (as_world x) c self p cpid (so_world _ Hx) Hc caller_process (no_points Hno) Hpid)
    as (r & s' & Hr & Hw & Hal & Hwp). cbn [as_world wk wheld wwaits] in *.
  exists (child_ret r), s'. split; [by apply fmap_run|].
  assert (view s' = view (sk x)) as Hv.
  { destruct (fr_WaitChild _ _ _ caller_self cpid _ _ _ caller_view Hr) as [Hv _]. by apply view_is_view in Hv. }
  destruct r as [pid st|w]; cbn [child_ret after_call next_waits] in *.
  - eapply quiet_ok; try done. auto.
  - specialize (Hwp w eq_refl). eapply quiet_ok; try done.
    + by rewrite held_insert.
    + by rewrite points_insert.
    + intros n. by rewrite joiners_insert.
    + intros t w' [[-> ->]|Ht]%pend_other_self; [right; by apply waits_child|by left|done].
Qed.

Lemma own_point w wp : pend x !! self = Some w → child_point w = Some wp →
  waiter wp = p ∧ filter (λ w, waiter w ≠ p) (points (pend x)) ≡ₚ points (delete self (pend x)).
Proof.
  intros Hpe Hcp. destruct (to_pend _ _ (so_threads _ Hx) _ _ Hpe) as (_ & q & o & Hv & Hwp & _).
  destruct caller_thread as (k & n & _ & _ & Hv' & _).
  change (threads_of (ksched (sk x)) !! self = Some (Z.of_nat q, o)) in Hv.
  assert (q = p) as -> by (rewrite Hv in Hv'; simplify_eq; lia). specialize (Hwp wp Hcp). split; [done|].
  pose proof (w_nodup _ (so_world _ Hx)) as Hnd. cbn in Hnd.
  pose proof (points_delete _ _ _ Hpe) as Hperm. rewrite Hcp in Hperm. simpl in Hperm.
  rewrite Hperm in Hnd. rewrite fmap_cons in Hnd. apply NoDup_cons in Hnd as [Hnin _].
  assert (filter (λ w, waiter w ≠ p) (points (pend x)) ≡ₚ filter (λ w, waiter w ≠ p) (wp :: points (delete self (pend x)))) as ->
    by (by rewrite Hperm).
  rewrite filter_cons_False by tauto. rewrite filter_all; [done|].
  intros w' Hw' He. apply Hnin. apply list_elem_of_fmap. exists w'. by rewrite He.
Qed.

Lemma WaitMore_ok w wp (ret : wait_result → sysret) :
  pend x !! self = Some w → child_point w = Some wp → held_by w = None → joined_by w = None →
  ret (Waiting wp) = Waits w → (∀ pid st b, after_call self (ret (Reaped pid st)) b = b) →
  ∃ r s', wait_resume c wp (sk x) = Ok (r, s') ∧ view s' = view (sk x) ∧ alive_kept (PT (sk x)) (PT s') ∧
    system_ok (System s' (after_call self (ret r) (delete self (pend x)))).
Proof.
  intros Hpe Hcp Hh Hj Hrw Hrr. destruct (own_point w wp Hpe Hcp) as [Hwp Hperm].
  assert (wp ∈ points (pend x)) as Hin by (apply points_in; by eexists _, _).
  destruct (more_step_ok (as_world x) c self p wp (so_world _ Hx) Hc caller_process Hin Hwp)
    as (r & s' & Hr & Hw & Hal & Hres). cbn [as_world wk wheld wwaits] in *.
  assert (view s' = view (sk x)) as Hv.
  { destruct (fr_wait_resume _ _ _ caller_self wp _ _ _ caller_view Hr) as [Hv _]. by apply view_is_view in Hv. }
  exists r, s'. split_and!; try done. destruct Hres as [->|(q & st & ->)].
  - rewrite Hrw. cbn [after_call]. rewrite insert_delete_eq, insert_id by done. eapply quiet_ok; try done. auto.
  - rewrite Hrr. cbn [next_waits] in Hw. eapply quiet_ok; try done.
    + by rewrite (held_delete _ _ _ Hpe), Hh.
    + intros n. rewrite (joiners_delete _ _ _ n Hpe). unfold one_join. by rewrite Hj, decide_False.
    + intros t w' Ht%lookup_delete_Some. left. apply Ht.
Qed.

(** *** New threads *)
Lemma thread_added_ok s' q l cnt t func call argl args :
  let n := next_ptcb (sk x) in
  world_ok (World s' (held_streams (pend x)) (points (pend x))) →
  thread_of s' q n t func call argl args → Sched.tcbs (ksched (sk x)) !! t = None → is_thr t →
  (∀ u, u ≠ t → Sched.tcbs (ksched s') !! u = Sched.tcbs (ksched (sk x)) !! u) →
  (∀ k, k ≠ n → ptcbs s' !! k = ptcbs (sk x) !! k) → next_ptcb s' = S n →
  q ≠ 0%nat → lists_of (PT (sk x)) !! q = Some (l, cnt) →
  lists_of (PT s') = <[q := (l ++ [n], cnt + 1)]> (lists_of (PT (sk x))) →
  alive_kept (PT (sk x)) (PT s') → (∃ b, PT s' !! q = Some b ∧ pstate b = ALIVE) →
  (∀ u wp v o, pend x !! u = Some (WaitsExit wp v) → tv_threads (view (sk x)) !! u ≠ Some (Z.of_nat q, o)) →
  system_ok (System s' (pend x)).
Proof.
  intros n Hw [Hpb (k & Hk & Ho & Hp & _ & Hs)] Hnew Ht Hu Hpt Hnx Hq Hl HL Hal Hqa Hex.
  destruct (threads_of_added _ _ t q n k Hnew Hk Ho Hp Hs Hu) as [Hn HT].
  split; cbn [sk pend].
  - exact Hw.
  - eapply (threads_ok_add (view (sk x)) (view s') (pend x) t q n l cnt
        (MkPTCB t false false 0 None call argl args)); try done; [apply Hx|].
    cbn. apply map_eq. intros j. destruct (decide (j = n)) as [->|Hj]; [by rewrite lookup_insert_eq|].
    by rewrite lookup_insert_ne, Hpt.
  - intros u q' o Hthr. cbn. rewrite HT, lookup_insert_Some. intros [[<- [= Hqq _]]|[_ Hv]].
    + by apply Nat2Z.inj in Hqq as <-.
    + destruct (so_alive _ Hx u q' o Hthr Hv) as (b & Hb & Hst). by eapply Hal.
Qed.

Lemma lists_lookup q b : PT (sk x) !! q = Some b → lists_of (PT (sk x)) !! q = Some (thread_list b, thread_count b).
Proof. intros Hb. unfold lists_of. by rewrite list_lookup_fmap, Hb. Qed.

Lemma CreateThread_ok task argl args : pend x !! self = None →
  step_ok (ReturnsTid <$> sys_CreateThread c task argl args) (pend x).
Proof.
  intros Hn. destruct caller_block as (b & Hb & Hal). destruct caller_process as [Hp0 _].
  pose proof (w_procs _ (so_world _ Hx)) as Hpr. cbn in Hpr.
  pose proof (lists_lookup p b Hb) as Hl.
  pose proof (count_bound _ _ p _ _ (so_threads _ Hx) Hl) as Hcnt. cbn in Hcnt. pose proof (bd_ptcb _ Hbd).
  destruct (new_thread_run (sk x) p b start_thread_entry task argl args (pr_sched _ _ Hpr) Hb)
    as (v & t & Hrun & Hnew & Htcb & Hinv & Hother & _ & Hthr). set (s' := set_ksched v _) in Hrun.
  exists (ReturnsTid (OfPTCB (next_ptcb (sk x)))), s'. split.
  { apply fmap_run. unfold sys_CreateThread. mrun ltac:(eapply CURPROC_run, Hc). by mrun ltac:(exact Hrun). }
  assert (sched_live s') as Hlv.
  { split; [done|]. intros ch u Hu. destruct (pr_sched _ _ Hpr) as [_ Hw].
    destruct (Hw ch u Hu) as [k Hk]. cbn. rewrite Hother; [by eexists|]. congruence. }
  assert (∀ y e, same_process e (at_ p (add_thread (next_ptcb (sk x))) y e)) as Hsame
    by (intros y e; unfold at_; by case_decide).
  assert (alive_kept (PT (sk x)) (PT s')) as Hak.
  { intros y e He Hst. eexists. split; [unfold s'; cbn; by rewrite list_lookup_imap, He|].
    by destruct (Hsame y e) as [-> _]. }
  eapply (thread_added_ok s' p (thread_list b) (thread_count b) t); try done.
  - split; cbn [wk wheld wwaits]; [by apply (frame_procs _ Hsame _ (sk x))|apply Hx|].
    apply (waits_kept_all (PT (sk x))); [done| |apply Hx].
    intros y e z He Hst Hpa. eexists. split; [unfold s'; cbn; by rewrite list_lookup_imap, He|].
    by destruct (Hsame y e) as (-> & -> & _).
  - split; [apply lookup_insert_eq|exact Htcb].
  - intros k Hk. unfold s'. cbn. by rewrite lookup_insert_ne.
  - unfold lists_of. apply list_eq. intros y. unfold s'. cbn.
    rewrite list_lookup_fmap, list_lookup_imap. destruct (decide (y = p)) as [->|Hy].
    + rewrite Hb, list_lookup_insert_eq by (rewrite length_fmap; by eapply lookup_lt_Some). cbn.
      rewrite at_same. cbn. by rewrite u32_small by lia.
    + rewrite list_lookup_insert_ne, list_lookup_fmap by done. destruct (PT (sk x) !! y); cbn; [|done].
      by rewrite at_ne.
  - by eapply Hak.
  - intros u wp e o Hu Hv. destruct (to_pend _ _ (so_threads _ Hx) u _ Hu) as (Hut & q & o' & Hv' & _ & He).
    destruct (He wp e eq_refl) as (_ & l' & Hl').
    rewrite Hv in Hv'. injection Hv' as Hqq _. apply Nat2Z.inj in Hqq as <-.
    destruct (to_tcb _ _ (so_threads _ Hx) u _ _ Hut Hv) as (q & k & Hqp & _ & Hku). apply Nat2Z.inj in Hqp as <-.
    destruct caller_thread as (kt & m & _ & _ & _ & Hm).
    destruct (count_two _ _ _ _ _ _ _ (so_threads _ Hx) Hku Hm) as (l2 & c2 & Hl2 & Hc2); [congruence|].
    rewrite Hl' in Hl2. simplify_eq. 
Qed.

(** The block that [Exec] gets has no running thread, so that its count is right. *)
Lemma exec_lists q bq bp call argl buf n :
  PT (sk x) !! q = Some bq → pstate bq = FREE →
  lists_of (imap (exec_block p q (FIDT bp) call argl buf n) (PT (sk x))) =
  match n with
  | Some n => <[q := (thread_list bq ++ [n], thread_count bq + 1)]> (lists_of (PT (sk x)))
  | None => lists_of (PT (sk x))
  end ∧ thread_count bq = 0.
Proof.
  intros Hq Hst.
  assert (thread_count bq = 0) as H0.
  { eapply (count_dead (view (sk x)) (pend x) (PT (sk x)) q); [apply Hx..|by apply lists_lookup|done|congruence]. }
  split; [|done]. unfold lists_of. apply list_eq. intros y. rewrite list_lookup_fmap, list_lookup_imap.
  destruct (decide (y = q)) as [->|Hy].
  - rewrite Hq. destruct n as [n|]; [rewrite list_lookup_insert_eq by (rewrite length_fmap; by eapply lookup_lt_Some)|rewrite list_lookup_fmap, Hq];
      cbn; unfold exec_block; rewrite !at_same; unfold started, newborn, at_; rewrite H0; by case_decide.
  - destruct n as [n|]; [rewrite list_lookup_insert_ne by done|]; rewrite list_lookup_fmap; destruct (PT (sk x) !! y); cbn; try done;
      unfold exec_block; rewrite !(at_ne q) by done; unfold at_; by case_decide.
Qed.

Lemma Exec_ok call argl args : pend x !! self = None → args_readable argl args →
  step_ok (Returns <$> sys_Exec c call argl args) (pend x).
Proof.
  intros Hn Hargs. destruct (pcb_freelist (sk x)) as [q|] eqn:Hq.
  2: { eapply same_ok; [apply fmap_run; by apply exec_none|done]. }
  pose proof (so_world _ Hx) as Hw. pose proof (w_procs _ Hw) as Hpr. cbn in Hpr.
  destruct caller_process as (Hp0 & bp & Hp & Hal).
  pose proof (pr_free _ _ Hpr) as ([|y l] & Hch & _ & Hfl); simpl in Hch; [congruence|]. destruct Hch as (Hy & bq & Hbq & _).
  assert (y = q) as -> by congruence.
  assert (pstate bq = FREE) as Hst by (apply (Hfl q bq Hbq); left).
  destruct (exec_run _ c self p q bp bq call argl args (sk x) Hpr (cc_runs _ _ _ _ Hc) Hp Hal Hq Hbq
    Hargs few_holds) as (s' & Hr & Hfo & He).
  exists (Returns (Z.of_nat q)), s'. split; [by apply fmap_run|]. cbn [after_call].
  assert (world_ok (World s' (held_streams (pend x)) (points (pend x)))) as Hw'.
  { split; cbn [wk wheld wwaits]; [|apply Hw|].
    - by apply (exec_keeps _ p q bp bq call argl args (sk x)).
    - eapply exec_waits; try done. apply Hw. }
  pose proof (exec_alive _ _ _ _ _ _ _ _ _ Hbq Hst He) as Hak.
  destruct (exec_lists q bq bp call argl (new_buf (sk x) args) (match call with Some _ => Some (next_ptcb (sk x)) | None => None end) Hbq Hst)
    as [HL Hc0]. rewrite <-(es_PT _ _ _ _ _ _ _ _ _ He) in HL.
  destruct call as [f|].
  - destruct (es_thread _ _ _ _ _ _ _ _ _ He f eq_refl) as (t & Hnew & Hth & Hthr & Hu).
    eapply (thread_added_ok s' q (thread_list bq) (thread_count bq) t); try done.
    + apply (es_ptcbs _ _ _ _ _ _ _ _ _ He).
    + by rewrite (es_ptcb _ _ _ _ _ _ _ _ _ He).
    + intros ->. destruct (fa_init _ (pr_family _ _ Hpr) 0%nat) as (b & Hb & Hb'); [lia|]. congruence.
    + by apply lists_lookup.
    + eexists. split; [rewrite (es_PT _ _ _ _ _ _ _ _ _ He), list_lookup_imap, Hbq; reflexivity|].
      pose proof (pr_family _ _ Hpr). rewrite (E_pstate (PT (sk x)) p q bp bq) by done. by rewrite decide_True.
    + intros u wp v o Hu' Hv. destruct (to_pend _ _ (so_threads _ Hx) u _ Hu') as (Hut & _).
      destruct (so_alive _ Hx u q o Hut Hv) as (b & Hb & Hb'). congruence.
  - destruct (es_none _ _ _ _ _ _ _ _ _ He eq_refl) as [Hk Hpt].
    eapply quiet_ok; try done; [|auto]. unfold view. rewrite Hk, Hpt, HL, (es_ptcb _ _ _ _ _ _ _ _ _ He). done.
Qed.

(** *** Joining *)
Lemma join_wait_ok n : pend_ok (view (sk x)) self (WaitsJoin n).
Proof. by apply caller_pend. Qed.
Lemma one_join_eq n : one_join (WaitsJoin n) n = 1%nat.
Proof. unfold one_join. by rewrite decide_True. Qed.
Lemma one_join_ne n k : k ≠ n → one_join (WaitsJoin n) k = 0%nat.
Proof. intros Hk. unfold one_join. cbn. rewrite decide_False; congruence. Qed.

(** The references of block [n] change with the waits. *)
Lemma refs_ok s' m n pb r :
  procs_ok (holds (held_streams (pend x))) s' → PT s' = PT (sk x) → ptcbs (sk x) !! n = Some pb →
  ptcbs s' = <[n := set_ref_count r pb]> (ptcbs (sk x)) →
  threads_of (ksched s') = threads_of (ksched (sk x)) → next_ptcb s' = next_ptcb (sk x) →
  held_streams m ≡ₚ held_streams (pend x) → points m ≡ₚ points (pend x) →
  r = Z.of_nat (joiners m n) → (∀ k, k ≠ n → joiners m k = joiners (pend x) k) →
  (∀ t w, m !! t = Some w → pend x !! t = Some w ∨ pend_ok (view (sk x)) t w) →
  system_ok (System s' m).
Proof.
  intros Hpr HP Hpb Hpt HT HN Hh Hp Hr Hj Hm. split; cbn [sk pend].
  - apply (world_ok_perm s' (held_streams (pend x)) (held_streams m) (points (pend x)) (points m)); [done|done|].
    split; cbn; [done|apply Hx|]. rewrite HP. apply Hx.
  - eapply (threads_ok_refs (view (sk x)) (view s') (pend x) m n pb r); try done; [apply Hx|]. cbn. by rewrite HP.
  - rewrite HP. intros t q o. cbn. rewrite HT. apply Hx.
Qed.

Lemma ThreadJoin_ok n pb v : pend x !! self = None → ptcbs (sk x) !! n = Some pb → (exited pb = true → is_Some v) →
  step_ok (join_ret <$> sys_ThreadJoin c n v) (pend x).
Proof.
  intros Hn Hpb Hv. destruct caller_block as (b & Hb & _).
  destruct (to_ptcb _ _ (so_threads _ Hx) n pb Hpb) as (_ & _ & Href).
  pose proof (joiners_size (pend x) n). pose proof (bd_pend _ Hbd).
  destruct (join_run _ (sk x) c self p b n pb v (w_procs _ (so_world _ Hx)) Hc Hb Hpb) as [H1 _]; [lia|].
  destruct (decide (detached pb = true ∨ pt_tcb pb = self ∨ n ∉ thread_list b)) as [Hno|Hyes].
  { eapply same_ok; [by apply fmap_run|done]. }
  destruct (exited pb).
  { destruct (Hv eq_refl) as [e ->]. eapply same_ok; [by apply fmap_run|done]. }
  destruct H1 as (s' & Hr & Hpr & HP & Hpt & _ & HT & HN). exists (Waits (WaitsJoin n)), s'.
  split; [by apply (fmap_run join_ret _ _ (JoinWaits n))|]. cbn [after_call].
  eapply (refs_ok s' _ n pb); try done.
  - by rewrite held_insert.
  - by rewrite points_insert.
  - rewrite joiners_insert, one_join_eq by done. lia.
  - intros k Hk. by rewrite joiners_insert, one_join_ne.
  - intros t w [[-> ->]|Ht]%pend_other_self; [right; apply join_wait_ok|by left|done].
Qed.

Lemma JoinMore_ok n : pend x !! self = Some (WaitsJoin n) →
  step_ok (join_ret <$> join_loop c n) (delete self (pend x)).
Proof.
  intros Hpe. destruct caller_block as (b & Hb & _).
  pose proof (joiners_delete _ _ _ n Hpe) as Hj. rewrite one_join_eq in Hj.
  destruct (to_join _ _ (so_threads _ Hx) n) as [pb Hpb]; [lia|]. cbn in Hpb.
  destruct (to_ptcb _ _ (so_threads _ Hx) n pb Hpb) as (_ & Hd & Href).
  pose proof (joiners_size (pend x) n). pose proof (bd_pend _ Hbd).
  pose proof (w_procs _ (so_world _ Hx)) as Hpr. cbn in Hpr.
  destruct (exited pb) eqn:He.
  - destruct (join_run _ (sk x) c self p b n pb None Hpr Hc Hb Hpb) as [_ H2]; [lia|].
    specialize (H2 He Hd ltac:(lia)). eexists (Returns 0), _. split; [by apply (fmap_run join_ret _ _ (Joined 0))|]. cbn [after_call].
    eapply (refs_ok _ _ n pb); try done.
    + by apply (procs_ok_sched _ (sk x)); try done; apply Hpr.
    + by rewrite (held_delete _ _ _ Hpe).
    + by rewrite (points_delete _ _ _ Hpe).
    + lia.
    + intros k Hk. rewrite (joiners_delete _ _ _ k Hpe). by rewrite one_join_ne.
    + intros t w Ht%lookup_delete_Some. left. apply Ht.
  - destruct (wait_keeps _ (sk x) c self p (ExitCv n) Hpr Hc) as (s' & Hr & Hpr' & HP).
    exists (Waits (WaitsJoin n)), s'. split.
    { apply (fmap_run join_ret _ _ (JoinWaits n)). unfold join_loop. mrun ltac:(by apply get_PTCB_run).
      rewrite decide_True by done. by mrun ltac:(exact Hr). }
    cbn [after_call]. rewrite insert_delete_eq, insert_id by done.
    eapply quiet_ok; try done; [| |rewrite HP; apply alive_kept_refl|auto].
    + split; cbn; [done|apply Hx|]. rewrite HP. apply Hx.
    + destruct (fr_kernel_wait _ c self caller_self (ExitCv n) _ _ _ caller_view Hr) as [Hv _].
      by apply view_is_view in Hv.
Qed.

(** *** The end of a thread *)
Lemma alone b : PT (sk x) !! p = Some b → thread_count b = 1 →
  ∀ u o, is_thr u → threads_of (ksched (sk x)) !! u = Some (Z.of_nat p, o) → u = self.
Proof.
  intros Hb H1 u o Hu Hv. destruct (decide (u = self)) as [|Hne]; [done|].
  destruct (to_tcb _ _ (so_threads _ Hx) u _ _ Hu Hv) as (q & k & Hq & _ & Hk). apply Nat2Z.inj in Hq as <-.
  destruct caller_thread as (kt & n & _ & _ & _ & Hn).
  destruct (count_two _ _ _ _ _ _ _ (so_threads _ Hx) Hk Hn Hne) as (l & cnt & Hl & H2).
  cbn in Hl. rewrite (lists_lookup _ _ Hb) in Hl. injection Hl as <- <-. lia.
Qed.
Lemma alone_waits b : PT (sk x) !! p = Some b → thread_count b = 1 → pend x !! self = None →
  ∀ w, w ∈ points (pend x) → waiter w ≠ p.
Proof.
  intros Hb H1 Hn w (t & w' & Ht & Hw)%points_in Hwp.
  destruct (to_pend _ _ (so_threads _ Hx) t w' Ht) as (Hthr & q & o & Hv & Hq & _).
  rewrite (Hq w Hw) in Hwp. subst q. pose proof (alone b Hb H1 t o Hthr Hv). congruence.
Qed.

Section gone.
Context (b : PCB) (n : ptcb_ptr) (pb : PTCB) (v : Z) (s' : kernel).
Context (Hb : PT (sk x) !! p = Some b) (Hal : pstate b = ALIVE) (Hcnt : 1 ≤ thread_count b < 2 ^ 32)
  (Hn : pend x !! self = None) (Hinit : p = 1%nat → thread_count b = 1 → children_list b = [])
  (HP : PT s' = if decide (thread_count b = 1) then imap (exit_block p v (gone_block p n pb p b)) (imap (gone_block p n pb) (PT (sk x)))
             else imap (gone_block p n pb) (PT (sk x))).

Lemma gone_lists q : lists_of (PT s') !! q =
  (λ '(l, cnt), (left_of n pb l, if decide (q = p) then cnt - 1 else cnt)) <$> lists_of (PT (sk x)) !! q.
Proof.
  assert (lists_of (PT s') = lists_of (imap (gone_block p n pb) (PT (sk x)))) as ->.
  { rewrite HP. case_decide; [|done]. unfold lists_of. apply list_eq. intros y. rewrite !list_lookup_fmap, !list_lookup_imap.
    destruct (PT (sk x) !! y); cbn; [|done]. unfold exit_block, at_, tell, bequeath, adopt, at_. by repeat case_decide. }
  unfold lists_of. rewrite !list_lookup_fmap, list_lookup_imap. destruct (PT (sk x) !! q) as [e|] eqn:He; cbn; [|done].
  unfold gone_block. destruct (decide (q = p)) as [->|Hq].
  - assert (e = b) as -> by congruence. rewrite at_same. unfold leave, ended_list, left_of. cbn.
    destruct (decide (ref_count pb = 0)); cbn; by rewrite u32_small by lia.
  - rewrite at_ne by done. unfold ended_list, left_of. by destruct (decide (ref_count pb = 0)).
Qed.

Lemma gone_family : family_ok (imap (gone_block p n pb) (PT (sk x))).
Proof. apply (frame_family _ (gone_same p n pb)). apply (pr_family _ _ (w_procs _ (so_world _ Hx))). Qed.
Lemma gone_self : imap (gone_block p n pb) (PT (sk x)) !! p = Some (gone_block p n pb p b).
Proof. by rewrite list_lookup_imap, Hb. Qed.

Lemma gone_waits w : w ∈ points (pend x) → wait_ok (PT s') w.
Proof.
  destruct (gone_same p n pb p b) as (Hs & _ & Hch & _).
  assert (∀ w, w ∈ points (pend x) → wait_ok (imap (gone_block p n pb) (PT (sk x))) w) as Hw.
  { apply (waits_kept_all (PT (sk x))); [| |apply (w_waits _ (so_world _ Hx))].
    - intros y e He Hst. eexists. rewrite list_lookup_imap, He. split; [done|]. by destruct (gone_same p n pb y e) as [-> _].
    - intros y e z He Hst Hpa. eexists. rewrite list_lookup_imap, He. split; [done|].
      by destruct (gone_same p n pb y e) as (-> & -> & _). }
  pose proof gone_family as HF. pose proof gone_self as HS.
  rewrite HP. destruct (decide (thread_count b = 1)) as [H1|]; [|apply Hw].
  apply exit_waits; [exact HF|exact HS|by rewrite Hs|intros Hp; rewrite Hch; auto|].
  intros w' Hin. split; [auto|by eapply alone_waits].
Qed.

Lemma gone_alive q e : PT (sk x) !! q = Some e → pstate e = ALIVE → (q = p → thread_count b ≠ 1) →
  ∃ e', PT s' !! q = Some e' ∧ pstate e' = ALIVE.
Proof.
  intros He Hst Hq. destruct (gone_same p n pb q e) as (Hs & _).
  rewrite HP. destruct (decide (thread_count b = 1)) as [H1|]; eexists.
  - split; [by rewrite !list_lookup_imap, He|]. unfold exit_block. rewrite at_ne by naive_solver.
    rewrite <-Hst, <-Hs. unfold tell, bequeath, adopt, at_. by repeat case_decide.
  - split; [by rewrite list_lookup_imap, He|]. congruence.
Qed.
End gone.

Lemma thread_exit_ok v :
  pend x !! self = None →
  (p = 1%nat → ∀ b, PT (sk x) !! p = Some b → thread_count b = 1 → children_list b = []) →
  ∃ s', sys_ThreadExit c v (sk x) = Ok (tt, s') ∧ system_ok (System s' (pend x)).
Proof.
  intros Hn Hinit. destruct caller_block as (b & Hb & Hal).
  destruct caller_thread as (k & n & Hk & Htk & Hv & Hin). pose proof Hin as (_ & l & cnt & pb & Hl & Hnl & Hpb & Hpt & He).
  cbn in Hl, Hpb. rewrite (lists_lookup _ _ Hb) in Hl. injection Hl as <- <-.
  destruct (to_ptcb _ _ (so_threads _ Hx) n pb Hpb) as (_ & Hd & _).
  pose proof (count_one _ _ _ _ _ _ _ (so_threads _ Hx) Hin (lists_lookup _ _ Hb)) as H1.
  pose proof (count_bound _ _ _ _ _ (so_threads _ Hx) (lists_lookup _ _ Hb)) as H2. cbn in H2.
  pose proof (bd_ptcb _ Hbd). assert (1 ≤ thread_count b < 2 ^ 32) as Hcnt by lia.
  pose proof (w_procs _ (so_world _ Hx)) as Hpr. cbn in Hpr.
  destruct (thread_exit_run _ (sk x) c self p b k n pb v Hpr Hc Hk Htk Hpb Hd Hb Hal Hcnt ltac:(eauto) few_holds)
    as (s' & b' & k' & Hr & Hpr' & _ & _ & Hpt' & _ & _ & _ & _ & HP & HN & HT & _).
  exists s'. split; [done|]. split; cbn [sk pend].
  - split; cbn [wk wheld wwaits as_world]; [done|apply Hx|]. intros w. by eapply (gone_waits b n pb v s'); eauto.
  - eapply (threads_ok_exit (view (sk x)) (view s') (pend x) self p n pb v); try done; [apply Hx|apply caller_thr| |].
    + intros q l' cnt' Hl'. change (lists_of (PT s') !! q = Some (l', cnt')) in Hl'.
      rewrite (gone_lists b n pb v s') in Hl' by eauto. apply fmap_Some in Hl' as ([l0 c0] & Hl0 & [= -> ->]). by exists l0, c0.
    + intros q l' cnt' Hl'. change (lists_of (PT s') !! q = Some (left_of n pb l', if decide (q = p) then cnt' - 1 else cnt')).
      rewrite (gone_lists b n pb v s') by eauto. change (lists_of (PT (sk x)) !! q = Some (l', cnt')) in Hl'. by rewrite Hl'.
  - intros u q o Hu. cbn. rewrite HT. intros [Hne Huv]%lookup_delete_Some.
    destruct (so_alive _ Hx u q o Hu Huv) as (e & He' & Hst). eapply (gone_alive b n pb v s'); eauto.
    intros -> Hc1. apply Hne. symmetry. exact (alone b Hb Hc1 u o Hu Huv).
Qed.
End caller.

(** ** [Exit] *)

(** The thread waits in [Exit] instead of in [WaitChild]. *)
Lemma exit_wait_ok s' m self l v :
  system_ok (System s' (<[self := WaitsChild (ForAny 1)]> m)) → m !! self = None →
  lists_of (PT s') !! 1%nat = Some (l, 1) → system_ok (System s' (<[self := WaitsExit (ForAny 1) v]> m)).
Proof.
  intros Hx Hm Hl. set (x := System s' _) in Hx.
  assert (pend x !! self = Some (WaitsChild (ForAny 1))) as Hself by apply lookup_insert_eq.
  destruct (to_pend _ _ (so_threads _ Hx) self _ Hself) as (Hthr & q & o & Hv & Hq & _).
  specialize (Hq _ eq_refl). cbn in Hq. subst q. split; cbn [sk pend].
  - eapply world_ok_perm; [..|apply Hx]; cbn [x pend].
    + by rewrite !held_insert.
    + by rewrite !points_insert.
  - eapply (threads_ok_pend _ (pend x)); [apply Hx|intros n; unfold x; cbn; by rewrite !joiners_insert|].
    intros t w [[<- <-]|[Hne Ht]]%lookup_insert_Some.
    + right. split; [done|]. exists 1%nat, o. split; [exact Hv|]. split; [by intros wp [= <-]|].
      intros wp e [= <- _]. split; [done|]. by exists l.
    + left. unfold x. cbn. by rewrite lookup_insert_ne.
  - apply Hx.
Qed.

Section exit.
Context (c : nat) (self : tid) (v : Z).
#[local] Set Default Proof Using "Type".

(** Init's only thread, in [Exit]. *)
Record exiting (x : system) (b : PCB) : Prop := Exiting {
  ei_ok : system_ok x;
  ei_call : can_call (sk x) c self 1;
  ei_bounded : bounded x;
  ei_self : pend x !! self = None;
  ei_pcb : PT (sk x) !! 1%nat = Some b;
  ei_count : thread_count b = 1 }.

Lemma exiting_reaped x b m q k :
  can_call (sk x) c self 1 → bounded x → PT (sk x) !! 1%nat = Some b → thread_count b = 1 →
  procs_ok (holds (held_streams (pend x))) (sk x) →
  PT (sk x) !! q = Some k → pstate k = ZOMBIE → parent k = Some 1%nat →
  system_ok (System (reaped q (sk x)) m) → m !! self = None → (size m ≤ size (pend x))%nat →
  ∃ b', exiting (System (reaped q (sk x)) m) b' ∧ S (length (children_list b')) = length (children_list b).
Proof.
  intros Hc [H1 H2 H3] Hb H11 Hpr Hk Hz Hp Hok Hm Hs.
  assert (q ≠ 1%nat) as Hq1.
  { intros ->. assert (k = b) as -> by congruence. 
    destruct (fa_parent _ (pr_family _ _ Hpr) _ _ _ Hb ltac:(congruence) Hp) as (_ & e & He & Hal). congruence. }
  destruct (reap_lists (pcb_freelist (sk x)) q 1 b) as (Hch & _).
  exists (reap_block (pcb_freelist (sk x)) q 1 b). split.
  - split; try done.
    + revert Hc. apply calls_same; [done|]. intros y [e Hy]. cbn. rewrite list_lookup_imap, Hy. by eexists.
    + split; cbn; [lia|done|done].
    + cbn. by rewrite list_lookup_imap, Hb.
    + unfold reap_block. by rewrite at_ne.
  - rewrite Hch. destruct (fa_children _ (pr_family _ _ Hpr) _ _ Hb) as [Hnd Hin].
    apply length_remove_node_in; [done|]. apply Hin. exists k. split; [done|]. split; [congruence|done].
Qed.

Definition exit_runs (x : system) (m : KM exit_result) (base : gmap tid wait) : Prop :=
  ∃ r s', m (sk x) = Ok (r, s') ∧ system_ok (System s' (after_call self (exit_ret v r) base)).

Lemma exit_loop_ok fuel : ∀ x b, exiting x b → (length (children_list b) < fuel)%nat →
  exit_runs x (exit_loop fuel c v) (pend x).
Proof.
  induction fuel as [|fuel IH]; intros x b He Hlen; [lia|]. pose proof He as [Hx Hc Hbd Hn Hb H1].
  pose proof (w_procs _ (so_world _ Hx)) as Hpr. cbn in Hpr.
  assert (no_child_wait x 1) as Hno.
  { intros t w wp Ht Hw. eapply (alone_waits x c self 1); try done. apply points_in. by exists t, w. }
  destruct (WaitChild_ok x c self 1 Hx Hc Hbd NOPROC Hn ltac:(split; [exact Hno|right; unfold NOPROC; lia]))
    as (r & s0 & Hr & Hok). apply fmap_Ok in Hr as (r0 & Hr & ->).
  destruct (wait_child_run _ (sk x) c self 1 b Hpr Hc Hb NOPROC ltac:(right; unfold NOPROC; lia))
    as (r1 & s1 & Hr1 & _ & Hs). rewrite Hr in Hr1. injection Hr1 as <- <-.
  unfold wait_spec in Hs. rewrite decide_True in Hs by done.
  unfold exit_runs. cbn [exit_loop]. mrun ltac:(exact Hr).
  destruct (children_list b) as [|y l] eqn:Hch; [|destruct (exited_list b) as [|q ql]].
  - destruct Hs as [-> ->]. cbn [after_wait]. rewrite decide_False by tauto.
    destruct (thread_exit_ok x c self 1 Hx Hc Hbd v Hn) as (s' & Hr' & Hok'); [by intros; simplify_eq|].
    exists Ended, s'. split; [by mrun ltac:(exact Hr')|exact Hok'].
  - destruct Hs as (-> & HP & _). exists (ExitWaits (ForAny 1)), s0. split; [done|].
    apply (exit_wait_ok _ _ _ (thread_list b)); [exact Hok|done|]. unfold lists_of. by rewrite HP, list_lookup_fmap, Hb, <-H1.
  - destruct Hs as (k & Hk & Hp & Hz & -> & ->). cbn [after_wait]. rewrite decide_True by (unfold NOPROC; lia).
    destruct (exiting_reaped x b (pend x) q k Hc Hbd Hb H1 Hpr Hk Hz Hp Hok Hn ltac:(done)) as (b' & He' & Hlen').
    apply (IH _ b' He'). rewrite Hch in Hlen'. simpl in *. lia.
Qed.
Lemma turns_run s b : can_call s c self 1 → PT s !! 1%nat = Some b → exit_turns c s = Ok (S (length (children_list b)), s).
Proof.
  intros Hc Hb. unfold exit_turns. mrun ltac:(eapply CURPROC_run, Hc). by mrun ltac:(by apply get_PCB_run).
Qed.

Lemma Exit_ok x p : system_ok x → can_call (sk x) c self p → bounded x → pend x !! self = None →
  allowed x self p (SYS_Exit v) → exit_runs x (sys_Exit c v) (pend x).
Proof.
  intros Hx Hc Hbd Hn Hal.
  assert (sys_GetPid c (sk x) = Ok (Z.of_nat p, sk x)) as Hpid by (unfold sys_GetPid; by mrun ltac:(eapply CURPROC_run, Hc)).
  unfold exit_runs, sys_Exit. mrun ltac:(exact Hpid). destruct (decide (p = 1%nat)) as [->|Hp].
  - destruct (caller_block x c self 1 Hx Hc Hbd) as (b & Hb & _). rewrite decide_True by done.
    mrun ltac:(by eapply turns_run). apply (exit_loop_ok _ x b); [|lia]. split; try done. by apply Hal.
  - rewrite decide_False by lia. destruct (thread_exit_ok x c self p Hx Hc Hbd v Hn) as (s' & Hr & Hok); [by intros|].
    exists Ended, s'. split; [by mrun ltac:(exact Hr)|exact Hok].
Qed.

Lemma ExitMore_ok x p w : system_ok x → can_call (sk x) c self p → bounded x → pend x !! self = Some (WaitsExit w v) →
  exit_runs x (exit_resume c w v) (delete self (pend x)).
Proof.
  intros Hx Hc Hbd Hpe. pose proof (w_procs _ (so_world _ Hx)) as Hpr. cbn in Hpr.
  destruct (to_pend _ _ (so_threads _ Hx) _ _ Hpe) as (Hthr & q & o & Hv & Hq & He).
  destruct (He w v eq_refl) as (-> & l & Hl). specialize (Hq _ eq_refl). cbn in Hq. subst q.
  assert (p = 1%nat) as ->.
  { destruct (caller_thread x c self p Hx Hc Hbd) as (k & n & _ & _ & Hv' & _). cbn in Hv. rewrite Hv in Hv'. by simplify_eq. }
  destruct (caller_block x c self 1 Hx Hc Hbd) as (b & Hb & _).
  cbn in Hl. unfold lists_of in Hl. rewrite list_lookup_fmap, Hb in Hl. injection Hl as _ H1.
  destruct (WaitMore_ok x c self 1 Hx Hc Hbd (WaitsExit (ForAny 1) v) (ForAny 1)
    (λ r, match r with Reaped pid st => ReturnsChild pid st | Waiting w => Waits (WaitsExit w v) end)
    Hpe eq_refl eq_refl eq_refl eq_refl ltac:(done)) as (r & s0 & Hr & _ & _ & Hok).
  unfold exit_runs, exit_resume. mrun ltac:(by eapply turns_run). mrun ltac:(exact Hr).
  destruct (any_run _ (sk x) c self 1 b Hpr Hc Hb) as (r1 & s1 & Hr1 & _ & Hs).
  change (wait_resume c (ForAny 1) (sk x) = Ok (r1, s1)) in Hr1. rewrite Hr in Hr1. injection Hr1 as <- <-.
  destruct (exited_list b) as [|q ql].
  - destruct Hs as (-> & _). exists (ExitWaits (ForAny 1)), s0. by split.
  - destruct Hs as (k & Hk & Hp & Hz & -> & ->). cbn [after_wait]. rewrite decide_True by (unfold NOPROC; lia).
    assert (size (delete self (pend x)) ≤ size (pend x))%nat as Hsz by (rewrite map_size_delete, Hpe; lia).
    destruct (exiting_reaped x b (delete self (pend x)) q k Hc Hbd Hb H1 Hpr Hk Hz Hp Hok (lookup_delete_eq _ _) Hsz)
      as (b' & He' & Hlen').
    apply (exit_loop_ok _ _ b' He'). lia.
Qed.
End exit.
