(* ===== verification/SystemProps.v ===== *)
(** * The system runs without faults

    Every call and every rest of a call runs and keeps the invariant of [System.v];
    the boot establishes it. *)
From S2P Require Import Prelude Hoare Bios Sched SchedInv SchedSteps SchedProps Kernel Devices Streams StreamInv StreamCalls StreamIO StreamProps Proc Threads Syscalls Frames ProcInv ProcExit ProcExec World Boot ProcProps ThreadProps SchedMoves System SystemSteps.
Local Open Scope Z_scope.

(** ** Every step *)
Lemma blocked_on c f o dir t s g s' : io_end c f o dir t s = Ok (IoBlocked g, s') → g = f.
Proof.
  unfold io_end. destruct t; intros H; repeat (apply bind_Ok in H as (? & ? & _ & H)); try done;
    by injection H as <- _.
Qed.
Lemma read_blocked c f size l s g s' : read_device c f size l s = Ok (IoBlocked g, s') → g = f.
Proof. unfold read_device. intros H. do 3 (apply bind_Ok in H as (? & ? & _ & H)). by eapply blocked_on. Qed.
Lemma write_blocked c f buf size n s g s' : write_device c f buf size n s = Ok (IoBlocked g, s') → g = f.
Proof. unfold write_device. intros H. do 3 (apply bind_Ok in H as (? & ? & _ & H)). by eapply blocked_on. Qed.

Section step.
Context (x : system) (c : nat) (h : host) (self : tid) (p : nat).
#[local] Set Default Proof Using "Type*".
Context (Hx : system_ok x) (Hc : can_call (sk x) c self p) (Hbd : bounded x).

Lemma no_reply v : pend x !! self = None → step_ok x self (mret (Returns v)) (pend x).
Proof. intros Hn. exists (Returns v), (sk x). split; [done|]. by destruct x. Qed.

Lemma call_step_ok call : pend x !! self = None → allowed x self p call →
  step_ok x self (sys_call c h call) (pend x).
Proof.
  intros Hn Ha. destruct call; cbn [sys_call]; try by apply no_reply.
  - by apply (Exec_ok x c self p).
  - destruct (Exit_ok c self exitval x p Hx Hc Hbd Hn Ha) as (r & s' & Hr & Hok).
    exists (exit_ret exitval r), s'. split; [by apply fmap_run|done].
  - by apply (GetPid_ok x c self p).
  - by apply (GetPPid_ok x c self p).
  - by apply (WaitChild_ok x c self p).
  - by apply (CreateThread_ok x c self p).
  - by apply (ThreadSelf_ok x c self p).
  - destruct Ha as (n & pb & -> & Hpb & Hv).
    destruct (ThreadJoin_ok x c self p Hx Hc Hbd n pb exitval Hn Hpb Hv) as (r & s' & Hr & Hok).
    exists r, s'. by split.
  - done.
  - destruct (thread_exit_ok x c self p Hx Hc Hbd exitval Hn) as (s' & Hr & Hok).
    { intros Hp b Hb. by apply Ha. }
    exists NoReturn, s'. split; [by mrun ltac:(exact Hr)|done].
  - by apply (GetTerminalDevices_ok x c self p).
  - by apply (returns_ok x c self p Hx Hc Hbd _ (OpenStream DEV_SERIAL termno)).
  - by apply (returns_ok x c self p Hx Hc Hbd _ (OpenStream DEV_NULL 0)).
  - apply (io_start_ok x c self p Hx Hc Hbd (Read fd size (avail h)) _ _ (λ f, WaitsRead f size)); try done.
    intros n bytes. by eexists.
  - apply (io_start_ok x c self p Hx Hc Hbd (Write fd buf size (room h)) _ _ (λ f, WaitsWrite f buf size)); try done.
    intros n bytes. by eexists.
  - by apply (returns_ok x c self p Hx Hc Hbd _ (Close fd)).
  - by apply (returns_ok x c self p Hx Hc Hbd _ (Dup2 oldfd newfd)).
Qed.

Lemma resume_step_ok w : pend x !! self = Some w → step_ok x self (sys_resume c h w) (delete self (pend x)).
Proof.
  intros Hpe. destruct w as [w|w v|n|f size|f buf size]; cbn [sys_resume].
  - destruct (WaitMore_ok x c self p Hx Hc Hbd _ w child_ret Hpe eq_refl eq_refl eq_refl eq_refl ltac:(done))
      as (r & s' & Hr & _ & _ & Hok). exists (child_ret r), s'. split; [by apply fmap_run|done].
  - destruct (ExitMore_ok c self v x p w Hx Hc Hbd Hpe) as (r & s' & Hr & Hok).
    exists (exit_ret v r), s'. split; [by apply fmap_run|done].
  - by apply (JoinMore_ok x c self p).
  - pose proof (held_in _ _ _ f Hpe eq_refl) as Hin.
    apply (io_more_ok x c self p Hx Hc Hbd (ReadOn f size (avail h)) _ _ (λ f, WaitsRead f size)) with f; try done.
    + intros n bytes. by eexists.
    + intros g s s'. apply read_blocked.
  - pose proof (held_in _ _ _ f Hpe eq_refl) as Hin.
    apply (io_more_ok x c self p Hx Hc Hbd (WriteOn f buf size (room h)) _ _ (λ f, WaitsWrite f buf size)) with f; try done.
    + intros n bytes. by eexists.
    + intros g s s'. apply write_blocked.
Qed.
End step.

Lemma schedule_ok x v l : system_ok x → let s' := set_ksched v (set_waiting l (sk x)) in
  sched_live s' → (∀ t, is_thr t → threads_of v !! t = threads_of (ksched (sk x)) !! t) →
  system_ok (System s' (pend x)).
Proof.
  intros [Hw Ht Ha] s' Hl Hv. split; cbn [sk pend].
  - destruct Hw as [Hpr Hnd Hww]. split; cbn; [|done|done]. by apply (procs_ok_sched _ (sk x)).
  - destruct Ht as [H1 H2 H3 H4 H5]. split; try done.
    + intros t z o Hthr Htv. apply H1; [done|]. cbn in *. by rewrite <-Hv.
    + intros q lq cnt Hq. destruct (H2 q lq cnt Hq) as [Hnd Hc Hp]. split; [done|done|].
      intros n Hn. destruct (Hp n Hn) as (pb & Hpb & Hr). exists pb. split; [done|]. intros He.
      destruct (Hr He) as [Hthr Htv]. split; [done|]. cbn in *. by rewrite Hv.
    + intros t w Htw. destruct (H5 t w Htw) as (Hthr & q & o & Htv & Hq). split; [done|]. exists q, o.
      split; [|done]. cbn in *. by rewrite Hv.
  - intros t q o Hthr Htv. apply (Ha t q o Hthr). cbn in *. by rewrite <-Hv.
Qed.

Lemma system_step_ok x y : system_ok x → system_step x y → system_ok y.
Proof.
  intros Hx [c h self p call r s' Hc Hn Ha Hbd Hr|c h self p w r s' Hc Hpe Hbd Hr|v l s' Hl Hv].
  - destruct (call_step_ok x c h self p Hx Hc Hbd call Hn Ha) as (r' & s'' & Hr' & Hok).
    rewrite Hr in Hr'. by simplify_eq.
  - destruct (resume_step_ok x c h self p Hx Hc Hbd w Hpe) as (r' & s'' & Hr' & Hok).
    rewrite Hr in Hr'. by simplify_eq.
  - by apply schedule_ok.
Qed.

(** ** The boot *)

(** No thread was made yet. *)
Record unthreaded (s : kernel) : Prop := Unthreaded {
  ut_tcbs : ∀ t, is_thr t → Sched.tcbs (ksched s) !! t = None;
  ut_ptcbs : ptcbs s = ∅ }.

Lemma joiners_empty n : joiners ∅ n = 0%nat.
Proof. unfold joiners, waits. by rewrite map_to_list_empty. Qed.

Lemma unthreaded_ok s : unthreaded s → no_threads s → threads_ok (view s) ∅.
Proof.
  intros [Ht Hp] Hn. split; cbn.
  - intros t z o Hthr. by rewrite threads_of_lookup, Ht.
  - intros q l cnt. unfold lists_of. rewrite list_lookup_fmap_Some. intros (b & [= -> ->] & Hb).
    destruct (Hn q b Hb) as [-> ->]. split; [constructor|done|by intros n ?%not_elem_of_nil].
  - intros n pb. by rewrite Hp, lookup_empty.
  - intros n. rewrite joiners_empty. lia.
  - intros t w. by rewrite lookup_empty.
Qed.

Lemma boot_threads n nf s0 s1 s2 f argl args :
  powered_on n nf s0 → unthreaded s0 → args_readable argl args →
  boot_tables 0 n nf s0 = Ok (tt, s1) → start_init 0 (Some f) argl args s1 = Ok (tt, s2) →
  system_ok (System s2 ∅).
Proof.
  intros Hp [Hu1 Hu2] Hargs Hr1 Hr2. pose proof (boot_world n nf s0 s1 s2 f argl args Hp Hargs Hr1 Hr2) as Hw.
  destruct (boot_tables_run n nf s0 Hp) as (s1' & Hr1' & Hst & Hfo & Hl & Hn & Hb & H0 & _ & Hno & Ht1 & Hp1 & Hn1).
  rewrite Hr1 in Hr1'. injection Hr1' as <-. destruct Hp as [_ Hsz _ _ _ _].
  destruct (start_init_run n f argl args s1 Hst Hfo Hl Hn ltac:(lia) Hb H0 Hargs)
    as (s2' & bq & Hr2' & _ & Hbq & Hf). rewrite Hr2 in Hr2'. injection Hr2' as <-.
  destruct (fs_thread _ _ _ _ _ _ _ Hf f eq_refl) as (t & [Hpb (k & Hk & Ho & Hkp & _ & Hs)] & Hnew & Hthr & Hu & Hpt & Hnx).
  assert (unthreaded s1) as Hu1'.
  { split; [|by rewrite Hp1]. intros u Hthru. rewrite Ht1. by apply Hu1. }
  pose proof (unthreaded_ok s1 Hu1' Hno) as Hok.
  destruct (threads_of_added _ _ t 1 (next_ptcb s1) k Hnew Hk Ho Hkp Hs Hu) as [HTn HT].
  destruct (Hno 1%nat bq Hbq) as [Hl1 Hc1].
  assert (lists_of (PT s1) !! 1%nat = Some ([], 0)) as Hlk
    by (unfold lists_of; by rewrite list_lookup_fmap, Hbq, <-Hl1, <-Hc1).
  split; cbn [sk pend]; [exact Hw| |].
  - eapply (threads_ok_add (view s1) (view s2) ∅ t 1 (next_ptcb s1) [] 0
      (MkPTCB t false false 0 None (Some f) argl (args_ptr args))); try done.
    + cbn. apply map_eq. intros j. destruct (decide (j = next_ptcb s1)) as [->|Hj]; [by rewrite lookup_insert_eq|].
      by rewrite lookup_insert_ne, Hpt.
    + cbn. rewrite (fs_PT _ _ _ _ _ _ _ Hf). unfold lists_of. apply list_eq. intros y.
      rewrite list_lookup_fmap, list_lookup_imap. destruct (decide (y = 1%nat)) as [->|Hy].
      * rewrite Hbq, list_lookup_insert_eq by (rewrite length_fmap; by eapply lookup_lt_Some).
        cbn. unfold first_block. rewrite at_same. cbn. by rewrite Hl1.
      * rewrite list_lookup_insert_ne, list_lookup_fmap by done. destruct (PT s1 !! y); cbn; [|done].
        unfold first_block. by rewrite at_ne.
  - intros u q o Hthru. cbn. rewrite HT, lookup_insert_Some. intros [[_ [= Hq _]]|[_ Hv]].
    + assert (q = 1%nat) as -> by lia.
      eexists. split; [by rewrite (fs_PT _ _ _ _ _ _ _ Hf), list_lookup_imap, Hbq|].
      unfold first_block. by rewrite at_same.
    + by rewrite threads_of_lookup, (ut_tcbs _ Hu1' u Hthru) in Hv.
Qed.

(** ** The theorem *)

(** The TCBs, the PTCBs and the lists of the processes agree. *)
Record threads_agree (s : kernel) : Prop := ThreadsAgree {
  ta_count : ∀ p b, PT s !! p = Some b → NoDup (thread_list b) ∧
    thread_count b = running_count (ptcbs s) (thread_list b);
  ta_live : ∀ t k, is_thr t → Sched.tcbs (ksched s) !! t = Some k → tcb_state k ≠ EXITED →
    ∃ p b n pb, owner_pcb k = Z.of_nat p ∧ PT s !! p = Some b ∧ pstate b = ALIVE ∧ n ∈ thread_list b ∧
      tcb_ptcb k = Some n ∧ ptcbs s !! n = Some pb ∧ pt_tcb pb = t ∧ exited pb = false;
  ta_listed : ∀ p b n, PT s !! p = Some b → n ∈ thread_list b → ∃ pb, ptcbs s !! n = Some pb ∧
    (exited pb = false → ∃ k, Sched.tcbs (ksched s) !! pt_tcb pb = Some k ∧ tcb_state k ≠ EXITED ∧
       owner_pcb k = Z.of_nat p ∧ tcb_ptcb k = Some n) }.

Lemma threads_of_Some v t z o : threads_of v !! t = Some (z, o) →
  ∃ k, tcbs v !! t = Some k ∧ tcb_state k ≠ EXITED ∧ owner_pcb k = z ∧ tcb_ptcb k = o.
Proof.
  rewrite threads_of_lookup. destruct (tcbs v !! t) as [k|]; [|done]. cbn. unfold info.
  case_decide; [done|]. intros [= <- <-]. by exists k.
Qed.

Lemma system_agrees x : system_ok x → threads_agree (sk x).
Proof.
  intros [_ Ht Ha].
  assert (∀ p b, PT (sk x) !! p = Some b → list_ok (view (sk x)) p (thread_list b) (thread_count b)) as Hlist.
  { intros p b Hb. apply (to_list _ _ Ht). cbn. unfold lists_of. by rewrite list_lookup_fmap, Hb. }
  split.
  - intros p b Hb. destruct (Hlist p b Hb) as [Hnd Hc _]. by split.
  - intros t k Hthr Hk Hst.
    assert (tv_threads (view (sk x)) !! t = Some (owner_pcb k, tcb_ptcb k)) as Hv.
    { cbn. rewrite threads_of_lookup, Hk. cbn. unfold info. by rewrite decide_False. }
    destruct (to_tcb _ _ Ht t _ _ Hthr Hv) as (p & n & Hp & Hn & Hp0 & l & cnt & pb & Hl & Hin & Hpb & Hpt & He).
    rewrite Hp in Hv. destruct (Ha t p _ Hthr Hv) as (b & Hb & Hal).
    cbn in Hl. unfold lists_of in Hl. rewrite list_lookup_fmap, Hb in Hl. injection Hl as <- <-.
    exists p, b, n, pb. done.
  - intros p b n Hb Hn. destruct (Hlist p b Hb) as [_ _ Hp]. destruct (Hp n Hn) as (pb & Hpb & Hr).
    exists pb. split; [done|]. intros He. destruct (Hr He) as [Hthr Hv].
    apply threads_of_Some in Hv as (k & Hk & Hst & Ho & Hkp). by exists k.
Qed.

(** The scheduler's own operations are steps; threads that still exist wait on. *)
Lemma move_step x ms o : sched_ok (Config (ksched (sk x)) ms) → own_move o → guard o (Config (ksched (sk x)) ms) →
  ∃ v, exec o (ksched (sk x)) = Ok (tt, v) ∧
    system_step x (System (set_ksched v (set_waiting (filter (λ w, is_Some (Sched.tcbs v !! w.2)) (waiting (sk x))) (sk x))) (pend x)).
Proof.
  intros Hok Ho Hg. destruct (exec_ok _ o Hok Hg) as (v & Hr & [pl Hi]). exists v. split; [exact Hr|].
  apply do_schedule.
  - split; [by eexists _, pl|]. intros ch t Ht. cbn in Ht. by apply list_elem_of_filter in Ht as [Ht _].
  - exact (moves_known _ o v Hok Ho Hg Hr).
Qed.

(** C1 (safety). The whole kernel runs without a fault and stays consistent, as long
    as the calls are used as [allowed] says: no thread is detached; what
    [CreateThread] returned is joined while its block exists, with a pointer for the
    exit value that is not null if the thread has exited; at most one thread of a
    process waits for children; init ends with [Exit] in its only thread, or with
    [ThreadExit] without children; [Exec] gets a buffer that it can read, and
    [WaitChild] a number inside of the process table or from [MAX_PROC] on; and fewer
    than 2^31 threads are made.  From boot, after any sequence of steps, where a step
    is such a call by a thread of any process, the rest of a call that waited, or a
    move of the scheduler: children, exited lists, the free list, argument buffers and
    reference counts are right; the count of each process is that of its threads that
    have not ended, every live thread belongs to a live process, whose list has its
    block, and every block in a list is that of its thread.  Every call that a thread
    makes next, and the rest of every call that waits, runs to its end or to its next
    wait without an invalid access or a failed assertion; so does every operation that
    the scheduler can be at, and it is such a step. *)
Theorem system_safe n nf s0 s1 s2 f argl args y :
  powered_on n nf s0 → unthreaded s0 → args_readable argl args →
  boot_tables 0 n nf s0 = Ok (tt, s1) → start_init 0 (Some f) argl args s1 = Ok (tt, s2) →
  reachable system_step (System s2 ∅) y →
  family_ok (PT (sk y)) ∧ freelist_ok (PT (sk y)) (pcb_freelist (sk y)) ∧ args_ok (sk y) ∧
  files_ok (holds (held_streams (pend y))) (sk y) ∧ threads_agree (sk y) ∧
  (∀ c h self p call, can_call (sk y) c self p → bounded y → pend y !! self = None →
     allowed y self p call → ∃ r s', sys_call c h call (sk y) = Ok (r, s')) ∧
  (∀ c h self p w, can_call (sk y) c self p → bounded y → pend y !! self = Some w →
     ∃ r s', sys_resume c h w (sk y) = Ok (r, s')) ∧
  (∀ ms o, sched_ok (Config (ksched (sk y)) ms) → own_move o → guard o (Config (ksched (sk y)) ms) →
     ∃ v l, exec o (ksched (sk y)) = Ok (tt, v) ∧
       system_step y (System (set_ksched v (set_waiting l (sk y))) (pend y))).
Proof.
  intros Hp Hu Hargs Hr1 Hr2 Hreach.
  pose proof (boot_threads n nf s0 s1 s2 f argl args Hp Hu Hargs Hr1 Hr2) as Hx.
  assert (system_ok y) as Hy by exact (reachable_invariant _ _ _ _ Hx system_step_ok Hreach).
  pose proof (w_procs _ (so_world _ Hy)) as [H1 H2 H3 H4 _].
  split_and!; [exact H1|exact H2|exact H3|exact H4|by apply system_agrees|..].
  - intros c h self p call Hc Hbd Hn Ha.
    destruct (call_step_ok y c h self p Hy Hc Hbd call Hn Ha) as (r & s' & Hr & _). by exists r, s'.
  - intros c h self p w Hc Hbd Hw.
    destruct (resume_step_ok y c h self p Hy Hc Hbd w Hw) as (r & s' & Hr & _). by exists r, s'.
  - intros ms o Hok Ho Hg. destruct (move_step y ms o Hok Ho Hg) as (v & Hr & Hst). by eexists v, _.
Qed.

(** Init opens the null device, and may then make a thread. *)
Definition demo_start : kernel := demo_power (st (SchedProps.boot demo_tty)).
Definition demo_s1 : kernel := final (boot_tables 0 5 3) demo_start.
Definition demo_s2 : kernel := final (start_init 0 (Some 5%nat) 3 demo_args) demo_s1.
Definition demo_init (x : system) : system :=
  System (set_ksched (demo_on 1 (Some 0%nat)) (set_waiting [] (sk x))) (pend x).
Definition demo_y1 : system := demo_init (System demo_s2 ∅).
Definition demo_y2 : system := demo_init (System (final (sys_call 0 (Host [] 0) SYS_OpenNull) (sk demo_y1)) ∅).

Lemma demo_start_powered : powered_on 5 3 demo_start.
Proof.
  split; [reflexivity| |reflexivity|reflexivity| |].
  - split; [lia|]. vm_compute. discriminate.
  - vm_compute. by eexists.
  - split; [|by intros ch t ?%not_elem_of_nil].
    assert (halted_ok demo_tty) as Hh by (destruct demo_running_ok as [pl Hi]; exact (proj1 (i_vm _ _ _ Hi))).
    destruct (boot_ok demo_tty Hh) as [pl Hi]. by eexists _, pl.
Qed.
Lemma demo_start_unthreaded : unthreaded demo_start.
Proof. split; [|reflexivity]. intros t _. apply lookup_empty. Qed.

Lemma demo_start_runs :
  boot_tables 0 5 3 demo_start = Ok (tt, demo_s1) ∧
  start_init 0 (Some 5%nat) 3 demo_args demo_s1 = Ok (tt, demo_s2).
Proof.
  destruct (boot_runs 5 3 demo_start 5%nat 3 demo_args demo_start_powered ltac:(vm_compute; split; discriminate))
    as (s1 & s2 & H1 & H2).
  assert (demo_s1 = s1) as Ht by (unfold demo_s1, final; by rewrite H1).
  split; [by rewrite Ht|]. unfold demo_s2, final. rewrite Ht. by rewrite H2.
Qed.

(** Init's thread is the only one, and is scheduled again. *)
Lemma demo_init_step x : threads_of (demo_on 1 (Some 0%nat)) = <[Idle 0 := (0, None)]> (threads_of (ksched (sk x))) →
  system_step x (demo_init x).
Proof.
  intros Ht. apply do_schedule; [by eapply (demo_on_live 1 (Some 0%nat))|]. intros t Hthr. rewrite Ht.
  destruct t as [d|d]; [done|]. by rewrite lookup_insert_ne.
Qed.
Lemma demo_init_call x b : PT (sk x) !! 1%nat = Some b → can_call (sk (demo_init x)) 0 (Thr 0) 1.
Proof. intros Hb. apply (demo_on_call 1 (Some 0%nat)); [reflexivity|]. by exists b. Qed.

Lemma demo_y_reach : reachable system_step (System demo_s2 ∅) demo_y2.
Proof.
  eapply reach_step; [eapply reach_step; [eapply reach_step; [apply reach_refl|apply (demo_init_step (System demo_s2 ∅))]|]|
    apply demo_init_step].
  - vm_compute. reflexivity.
  - apply (do_call demo_y1 0 (Host [] 0) (Thr 0) 1 SYS_OpenNull (Returns 0)).
    + eapply demo_init_call. vm_compute. reflexivity.
    + reflexivity.
    + exact I.
    + split; [vm_compute; reflexivity|vm_compute; reflexivity|]. split; [vm_compute; reflexivity|].
      intros [|t] Ht; [|vm_compute in Ht; lia]. eexists. split; [vm_compute; reflexivity|]. done.
    + vm_compute. reflexivity.
  - vm_compute. reflexivity.
Qed.

Lemma system_safe_witness :
  threads_agree (sk demo_y2) ∧
  ∃ r s', sys_call 0 (Host [] 0) (SYS_CreateThread (Some 9%nat) 0 0) (sk demo_y2) = Ok (r, s').
Proof.
  destruct (system_safe 5 3 demo_start demo_s1 demo_s2 5%nat 3 demo_args demo_y2 demo_start_powered
    demo_start_unthreaded ltac:(vm_compute; split; discriminate) (proj1 demo_start_runs) (proj2 demo_start_runs)
    demo_y_reach) as (_ & _ & _ & _ & Ht & Hc & _).
  split; [exact Ht|]. apply (Hc 0%nat (Host [] 0) (Thr 0) 1%nat).
  - eapply demo_init_call. vm_compute. reflexivity.
  - split; [vm_compute; reflexivity|vm_compute; reflexivity|]. split; [vm_compute; reflexivity|].
    intros [|t] Hlt; [|vm_compute in Hlt; lia]. eexists. split; [vm_compute; reflexivity|]. done.
  - reflexivity.
  - exact I.
Defined.
