(* ===== verification/Args.v ===== *)
(** * Argument buffers (util.h) and the start of programs (tinyoslib.c)

    [argvlen], [argvpack], [argscount] and [argvunpack] turn a vector of strings into
    a buffer and back; [Execute] sends a program and its arguments through [Exec],
    and [exec_wrapper] takes them out again in the new process. *)
From S2P Require Import Prelude Bios Sched SchedInv Kernel Devices Streams StreamInv StreamIO StreamProps Proc Threads ProcInv ProcExit ProcExec ProcProps.
Local Open Scope Z_scope.

(** ** Strings and buffers

    A string is the list of its bytes, without the terminating zero; a buffer is the
    list of its bytes. *)
Abbreviation cstring := (list Z) (only parsing).
Abbreviation buffer := (list Z) (only parsing).

Definition argvlen (argv : list cstring) : nat :=
  foldr (λ s l, (length s + 1 + l)%nat) 0%nat argv.

(** [*pos = c], in a buffer. *)
Definition store (pos : nat) (c : Z) : M buffer unit :=
  b ← get;
  if decide (pos < length b)%nat then modify (<[pos := c]>) else raise OutOfBounds.

(** [while(( *pos++ = *s++ )) argl++;] *)
Fixpoint pack_string (s : cstring) (pos : nat) (argl : Z) : M buffer (nat * Z) :=
  match s with
  | [] => store pos 0 ;; mret (S pos, argl)
  | c :: s => store pos c ;; pack_string s (S pos) (i32 (argl + 1))
  end.
Fixpoint pack_strings (argv : list cstring) (pos : nat) (argl : Z) : M buffer Z :=
  match argv with
  | [] => mret argl
  | s :: argv => '(pos, argl) ← pack_string s pos argl; pack_strings argv pos argl
  end.
(** [argvpack(args + pos, argc, argv)] *)
Definition argvpack (pos : nat) (argv : list cstring) : M buffer Z :=
  argl ← pack_strings argv pos 0; mret (u64 (argl + Z.of_nat (length argv))).

(** [argscount(argl, args)]: reading stops the program beyond the end of the buffer. *)
Fixpoint count_zeros (argl : nat) (args : buffer) (n : Z) : outcome Z :=
  match argl, args with
  | O, _ => Ok n
  | S _, [] => Fault OutOfBounds
  | S argl, c :: args => count_zeros argl args (if decide (c = 0) then i32 (n + 1) else n)
  end.
Definition argscount (argl : Z) (args : buffer) : outcome Z := count_zeros (Z.to_nat argl) args 0.

(** [while( *a++);]: the string that is skipped, and the rest of the buffer. *)
Fixpoint skip_string (args : buffer) : outcome (cstring * buffer) :=
  match args with
  | [] => Fault OutOfBounds
  | c :: args =>
      if decide (c = 0) then Ok ([], args)
      else match skip_string args with Ok (s, rest) => Ok (c :: s, rest) | Fault f => Fault f end
  end.
(** [argvunpack(argc, argv, argl, args)]: the strings that the pointers [argv] point
    to, and what is not unpacked. *)
Fixpoint argvunpack (argc : nat) (args : buffer) : outcome (list cstring * buffer) :=
  match argc with
  | O => Ok ([], args)
  | S argc =>
      match skip_string args with
      | Ok (s, rest) =>
          match argvunpack argc rest with
          | Ok (argv, rest) => Ok (s :: argv, rest)
          | Fault f => Fault f
          end
      | Fault f => Fault f
      end
  end.

(** ** Programs (tinyoslib.c) *)

(** The bytes of a pointer in memory. *)
Fixpoint ptr_bytes (n : nat) (p : Z) : buffer :=
  match n with O => [] | S n => p mod 256 :: ptr_bytes n (p / 256) end.
Fixpoint bytes_ptr (b : buffer) : Z :=
  match b with [] => 0 | x :: b => x + 256 * bytes_ptr b end.
Definition sizeof_ptr : nat := 8.
Definition load_ptr (b : buffer) : outcome Z :=
  if decide (sizeof_ptr ≤ length b)%nat then Ok (bytes_ptr (take sizeof_ptr b)) else Fault OutOfBounds.

(** What [exec_wrapper(argl, args)] calls. *)
Definition exec_wrapper (argl : Z) (args : buffer) : outcome (Z * list cstring) :=
  match load_ptr args with
  | Fault f => Fault f
  | Ok prog =>
      let argl := argl - Z.of_nat sizeof_ptr in
      let args := drop sizeof_ptr args in
      match argscount argl args with
      | Fault f => Fault f
      | Ok argc =>
          match argvunpack (Z.to_nat argc) args with
          | Fault f => Fault f
          | Ok (argv, _) => Ok (prog, argv)
          end
      end
  end.

Definition PROCINFO_MAX_ARGS_SIZE : Z := 128.
Record procinfo := ProcInfo {
  pi_pid : Z; pi_ppid : Z; pi_alive : Z; pi_thread_count : Z; pi_main_task : Task; pi_argl : Z; pi_args : buffer }.

(** [ParseProcInfo(pinfo, prog, argc, argv)]: the result, the strings stored in
    [argv] (if that is not null; the comparison is unsigned), and [*prog] (if that is not null), which was
    [prog] before: [memcpy] writes the parameter, not what it points to. *)
Definition ParseProcInfo (wrapper : Task) (pinfo : procinfo) (prog : option Z) (argc : option Z)
  : outcome (Z * list cstring * option Z) :=
  if decide (pi_main_task pinfo ≠ wrapper) then Ok (-1, [], prog)
  else if decide (PROCINFO_MAX_ARGS_SIZE < pi_argl pinfo) then Ok (-1, [], prog)
  else
    match (match prog with Some _ => load_ptr (pi_args pinfo) | None => Ok 0 end) with
    | Fault f => Fault f
    | Ok _ =>
        let argl := pi_argl pinfo - Z.of_nat sizeof_ptr in
        let args := drop sizeof_ptr (pi_args pinfo) in
        match argscount argl args with
        | Fault f => Fault f
        | Ok n =>
            match argc with
            | None => Ok (n, [], prog)
            | Some argc =>
                match argvunpack (Z.to_nat (if decide (argc < 0 ∨ n < argc) then n else argc)) args with
                | Fault f => Fault f
                | Ok (argv, _) => Ok (n, argv, prog)
                end
            end
        end
    end.

(** The buffer that [Execute] makes: its length, and the bytes. *)
Definition Execute_args (prog : Z) (argv : list cstring) : outcome (Z * buffer) :=
  let argl := (argvlen argv + sizeof_ptr)%nat in
  let args := ptr_bytes sizeof_ptr prog ++ replicate (argl - sizeof_ptr) 0 in
  match argvpack sizeof_ptr argv args with
  | Fault f => Fault f
  | Ok (_, args) => Ok (i32 (Z.of_nat argl), args)
  end.

(** [Execute(prog, argc, argv)], by a thread on core [c] whose stack has the buffer
    at [ptr]; [wrapper] is the address of [exec_wrapper]. *)
Definition Execute (c : nat) (wrapper : nat) (ptr : Z) (prog : Z) (argv : list cstring) : KM Z :=
  match Execute_args prog argv with
  | Fault f => raise f
  | Ok (argl, args) => sys_Exec c (Some wrapper) argl (Some (ptr, args))
  end.

(** ** Packing *)
Definition flat (argv : list cstring) : buffer := concat ((λ s, s ++ [0]) <$> argv).

Lemma flat_cons s argv : flat (s :: argv) = s ++ 0 :: flat argv.
Proof. unfold flat. rewrite fmap_cons. simpl. by rewrite <-app_assoc. Qed.

Lemma length_flat argv : length (flat argv) = argvlen argv.
Proof.
  induction argv as [|s argv IH]; [done|]. rewrite flat_cons, length_app. simpl. rewrite IH. unfold argvlen. simpl. lia.
Qed.

Lemma store_run pos c b : (pos < length b)%nat → store pos c b = Ok (tt, take pos b ++ c :: drop (S pos) b).
Proof.
  intros Hp. unfold store. mstep. rewrite decide_True by done. unfold modify.
  by rewrite insert_take_drop by done.
Qed.

Lemma pack_string_run s : ∀ pos argl b,
  (pos + length s < length b)%nat → 0 ≤ argl → argl + Z.of_nat (length s) < 2 ^ 31 →
  pack_string s pos argl b = Ok ((S (pos + length s), argl + Z.of_nat (length s)),
    take pos b ++ s ++ 0 :: drop (S (pos + length s)) b).
Proof.
  induction s as [|c s IH]; intros pos argl b Hlen Ha Hb; cbn [pack_string length] in *.
  - mrun ltac:(apply store_run; lia). unfold mret, M_ret. by rewrite !Nat.add_0_r, Z.add_0_r.
  - mrun ltac:(apply store_run; lia).
    assert (length (take pos b) = pos) as Hpos by (rewrite length_take; lia).
    set (b1 := take pos b ++ c :: drop (S pos) b).
    assert (length b1 = length b) as Hb1 by (unfold b1; rewrite length_app; simpl; rewrite length_drop; lia).
    rewrite i32_small by lia. rewrite IH; [|lia..].
    assert (take (S pos) b1 = take pos b ++ [c]) as ->.
    { unfold b1. change (c :: drop (S pos) b) with ([c] ++ drop (S pos) b).
      rewrite app_assoc, take_app_length'; [done|]. rewrite length_app. simpl. lia. }
    assert (drop (S (S pos + length s)) b1 = drop (S (pos + S (length s))) b) as ->.
    { unfold b1. rewrite drop_app_ge by lia. rewrite Hpos.
      replace (S (S pos + length s) - pos)%nat with (S (S (length s))) by lia.
      cbn [drop]. rewrite drop_drop. f_equal; lia. }
    rewrite <-app_assoc. replace (pos + S (length s))%nat with (S pos + length s)%nat by lia.
    by replace (argl + Z.of_nat (S (length s))) with (argl + 1 + Z.of_nat (length s)) by lia.
Qed.

Lemma pack_strings_run argv : ∀ pos argl b,
  (pos + argvlen argv ≤ length b)%nat → 0 ≤ argl → argl + Z.of_nat (argvlen argv) < 2 ^ 31 →
  pack_strings argv pos argl b = Ok (argl + Z.of_nat (argvlen argv) - Z.of_nat (length argv),
    take pos b ++ flat argv ++ drop (pos + argvlen argv) b).
Proof.
  induction argv as [|s argv IH]; intros pos argl b Hlen Ha Hb; cbn [pack_strings].
  - cbn. rewrite !Nat.add_0_r. unfold mret, M_ret. rewrite take_drop. do 2 f_equal. lia.
  - unfold argvlen in Hlen, Hb. cbn [foldr] in Hlen, Hb. fold (argvlen argv) in Hlen, Hb.
    mrun ltac:(apply pack_string_run; lia). cbv beta iota.
    set (p1 := S (pos + length s)). set (b1 := take pos b ++ s ++ 0 :: drop p1 b).
    assert (length (take pos b) = pos) as Hpos by (rewrite length_take; lia).
    assert (length b1 = length b) as Hb1.
    { unfold b1, p1. rewrite !length_app. simpl. rewrite length_drop. lia. }
    rewrite IH; [|unfold p1; lia..].
    assert (b1 = (take pos b ++ s ++ [0]) ++ drop p1 b) as Heq by (unfold b1; by rewrite <-!app_assoc).
    assert (length (take pos b ++ s ++ [0]) = p1) as Hl1 by (unfold p1; rewrite !length_app; simpl; lia).
    rewrite Heq. rewrite take_app_length' by done. rewrite drop_app_ge by lia.
    rewrite drop_drop, flat_cons, <-!app_assoc. simpl app. rewrite Hl1.
    unfold argvlen. cbn [foldr]. fold (argvlen argv).
    do 2 f_equal; [cbn [length]; lia|]. do 5 f_equal. unfold p1. lia.
Qed.

(** ** Unpacking *)
Definition no_zeros (s : cstring) : Prop := ∀ c, c ∈ s → c ≠ 0.

Lemma skip_string_run s rest : no_zeros s → skip_string (s ++ 0 :: rest) = Ok (s, rest).
Proof.
  induction s as [|c s IH]; intros Hs; cbn [app skip_string].
  - by rewrite decide_True.
  - rewrite decide_False by (apply Hs; left). by rewrite IH by (intros x Hx; apply Hs; by right).
Qed.

Lemma argvunpack_run argv rest :
  (∀ s, s ∈ argv → no_zeros s) → argvunpack (length argv) (flat argv ++ rest) = Ok (argv, rest).
Proof.
  induction argv as [|s argv IH]; intros Hs; [done|]. rewrite flat_cons. cbn [length argvunpack].
  rewrite <-app_assoc. simpl app. rewrite skip_string_run by (apply Hs; left).
  by rewrite IH by (intros x Hx; apply Hs; by right).
Qed.

Lemma count_string s rest : ∀ n k,
  no_zeros s → count_zeros (length s + n) (s ++ rest) k = count_zeros n rest k.
Proof.
  induction s as [|c s IH]; intros n k Hs; [done|]. cbn [length app Nat.add count_zeros].
  rewrite decide_False by (apply Hs; left). apply IH. intros x Hx. apply Hs. by right.
Qed.

Lemma argscount_run argv rest : ∀ k,
  (∀ s, s ∈ argv → no_zeros s) → 0 ≤ k → k + Z.of_nat (length argv) < 2 ^ 31 →
  count_zeros (argvlen argv) (flat argv ++ rest) k = Ok (k + Z.of_nat (length argv)).
Proof.
  induction argv as [|s argv IH]; intros k Hs Hk Hn; cbn [length] in *.
  - cbn. f_equal. lia.
  - rewrite flat_cons, <-app_assoc. unfold argvlen. cbn [foldr]. fold (argvlen argv).
    replace (length s + 1 + argvlen argv)%nat with (length s + S (argvlen argv))%nat by lia.
    rewrite count_string by (apply Hs; left). simpl app. cbn [count_zeros]. rewrite decide_True by done.
    rewrite i32_small by lia. rewrite IH; [f_equal; lia|intros x Hx; apply Hs; by right|lia|lia].
Qed.

Lemma argvpack_run argv pos b :
  (pos + argvlen argv ≤ length b)%nat → Z.of_nat (argvlen argv) < 2 ^ 31 →
  argvpack pos argv b = Ok (Z.of_nat (argvlen argv), take pos b ++ flat argv ++ drop (pos + argvlen argv) b).
Proof.
  intros Hb Hn. unfold argvpack. mrun ltac:(apply pack_strings_run; lia).
  unfold mret, M_ret. rewrite u64_small; [do 2 f_equal; lia|].
  assert (length argv ≤ argvlen argv)%nat; [|lia]. clear. induction argv; simpl in *; unfold argvlen in *; simpl; lia.
Qed.

(** Packing and unpacking strings.  [argvpack] fills exactly
    [argvlen] bytes of a buffer that has as many, leaves the others, and returns
    that number; [argscount] finds the number of strings again, and [argvunpack] the
    strings, in order, up to the first byte that was not written. *)
Theorem args_roundtrip argv pos b :
  (∀ s, s ∈ argv → no_zeros s) → (pos + argvlen argv ≤ length b)%nat →
  Z.of_nat (argvlen argv) < 2 ^ 31 →
  ∃ b', argvpack pos argv b = Ok (Z.of_nat (argvlen argv), b') ∧ length b' = length b ∧
    take pos b' = take pos b ∧ drop (pos + argvlen argv) b' = drop (pos + argvlen argv) b ∧
    argscount (Z.of_nat (argvlen argv)) (drop pos b') = Ok (Z.of_nat (length argv)) ∧
    argvunpack (length argv) (drop pos b') = Ok (argv, drop (pos + argvlen argv) b').
Proof.
  intros Hs Hb Hn. eexists. split; [by apply argvpack_run|].
  assert (length (take pos b) = pos) as Hpos by (rewrite length_take; lia).
  assert (length argv ≤ argvlen argv)%nat as Hle.
  { clear. induction argv; simpl in *; unfold argvlen in *; simpl; lia. }
  assert (drop (pos + argvlen argv) (take pos b ++ flat argv ++ drop (pos + argvlen argv) b)
    = drop (pos + argvlen argv) b) as Hd.
  { rewrite app_assoc, drop_app_length'; [done|]. rewrite length_app, Hpos, length_flat. lia. }
  rewrite Hd. split_and!; [..|done| |].
  - rewrite !length_app, Hpos, length_flat, length_drop. lia.
  - by rewrite take_app_length'.
  - rewrite drop_app_length' by done. unfold argscount. rewrite Nat2Z.id.
    rewrite argscount_run by (done || lia). done.
  - rewrite drop_app_length' by done. by apply argvunpack_run.
Qed.

Lemma args_roundtrip_witness :
  ∃ b', argvpack 1 [[108; 115]; []; [45]] (replicate 8 7) = Ok (6, b') ∧
    argvunpack 3 (drop 1 b') = Ok ([[108; 115]; []; [45]], [7]).
Proof.
  destruct (args_roundtrip [[108; 115]; []; [45]] 1 (replicate 8 7)) as (b' & Hr & _ & _ & Hd & _ & Hu).
  - intros s Hs c Hc ->. repeat (apply elem_of_cons in Hs as [->|Hs]); [..|by apply not_elem_of_nil in Hs];
      repeat (apply elem_of_cons in Hc as [Hc|Hc]; [discriminate|]); by apply not_elem_of_nil in Hc.
  - simpl. lia.
  - reflexivity.
  - exists b'. split; [exact Hr|]. etransitivity; [exact Hu|]. rewrite Hd. reflexivity.
Defined.

(** ** Starting a program *)
Lemma length_ptr_bytes n : ∀ p, length (ptr_bytes n p) = n.
Proof. induction n as [|n IH]; intros p; simpl; [done|]. by rewrite IH. Qed.

Lemma bytes_ptr_bytes n : ∀ p, 0 ≤ p < 256 ^ Z.of_nat n → bytes_ptr (ptr_bytes n p) = p.
Proof.
  induction n as [|n IH]; intros p Hp.
  - change (256 ^ Z.of_nat 0) with 1 in Hp. simpl. lia.
  - cbn [ptr_bytes bytes_ptr]. rewrite IH.
    + pose proof (Z.div_mod p 256). lia.
    + rewrite Nat2Z.inj_succ, Z.pow_succ_r in Hp by lia. split; [apply Z.div_pos; lia|].
      apply Z.div_lt_upper_bound; lia.
Qed.

Lemma Execute_args_run prog argv :
  Z.of_nat (argvlen argv) + 8 < 2 ^ 31 →
  Execute_args prog argv = Ok (Z.of_nat (argvlen argv + 8), ptr_bytes 8 prog ++ flat argv).
Proof.
  intros Hn. unfold Execute_args, sizeof_ptr. replace (argvlen argv + 8 - 8)%nat with (argvlen argv) by lia.
  rewrite argvpack_run; [|rewrite length_app, length_ptr_bytes, length_replicate; lia|lia].
  rewrite i32_small by lia. rewrite take_app_length' by (by rewrite length_ptr_bytes).
  rewrite drop_ge by (rewrite length_app, length_ptr_bytes, length_replicate; lia). by rewrite app_nil_r.
Qed.

Lemma exec_wrapper_run prog argv :
  0 ≤ prog < 2 ^ 64 → (∀ s, s ∈ argv → no_zeros s) → Z.of_nat (argvlen argv) + 8 < 2 ^ 31 →
  exec_wrapper (Z.of_nat (argvlen argv + 8)) (ptr_bytes 8 prog ++ flat argv) = Ok (prog, argv).
Proof.
  intros Hp Hs Hn. unfold exec_wrapper, load_ptr, sizeof_ptr.
  assert (length (ptr_bytes 8 prog) = 8%nat) as H8 by apply length_ptr_bytes.
  assert (length argv ≤ argvlen argv)%nat as Hle.
  { clear. induction argv; simpl in *; unfold argvlen in *; simpl; lia. }
  rewrite decide_True by (rewrite length_app, H8; lia). rewrite take_app_length', drop_app_length' by done.
  rewrite bytes_ptr_bytes by done. rewrite <-(app_nil_r (flat argv)). unfold argscount.
  replace (Z.to_nat (Z.of_nat (argvlen argv + 8) - Z.of_nat 8)) with (argvlen argv) by lia.
  rewrite argscount_run by (done || lia). rewrite Z.add_0_l, Nat2Z.id. by rewrite argvunpack_run.
Qed.

(** C17 (roundtrip). [Execute] delivers a program and its arguments.  When a block is
    free, [Execute] makes a living child of the caller with one thread: a new one,
    that is ready, is of this process, and is to run [start_main_thread].  Whenever a
    core runs a thread of the process, and its block still has the task and the
    arguments that it has now, [start_main_thread] calls [exec_wrapper] with the
    process's own copy of the buffer; and [exec_wrapper] takes from it the program,
    the number of arguments and every argument as they were passed. *)
Theorem Execute_delivers infl s c self p b q wrapper ptr prog argv :
  procs_ok infl s → runs_in s c self p → PT s !! p = Some b → pstate b = ALIVE →
  (∀ f, Z.of_nat (infl f) + 1 < 2 ^ 31) → pcb_freelist s = Some q →
  0 ≤ prog < 2 ^ 64 → (∀ a, a ∈ argv → no_zeros a) → Z.of_nat (argvlen argv) + 8 < 2 ^ 31 →
  let argl := Z.of_nat (argvlen argv + 8) in
  ∃ s' k t a args, Execute c wrapper ptr prog argv s = Ok (Z.of_nat q, s') ∧
    PT s' !! q = Some k ∧ pstate k = ALIVE ∧ parent k = Some p ∧
    thread_count k = 1 ∧ next_ptcb s ∈ thread_list k ∧
    Sched.tcbs (ksched s) !! t = None ∧
    thread_of s' q (next_ptcb s) t start_main_thread_entry (Some wrapper) argl ptr ∧
    kbufs s' !! a = Some args ∧ exec_wrapper argl args = Ok (prog, argv) ∧
    ∀ s2 d u k2, runs_in s2 d u q → PT s2 !! q = Some k2 →
      (main_task k2, pargl k2, pargs k2) = (main_task k, pargl k, pargs k) →
      start_main_thread d s2 = Ok ((Some wrapper, argl, Some a), s2).
Proof.
  intros Hpr Hr Hb Hal Hsm Hq Hp Hs Hn argl. unfold Execute. rewrite Execute_args_run by done. fold argl. set (args := ptr_bytes 8 prog ++ flat argv).
  assert (length args = Z.to_nat argl) as Hlen.
  { unfold args, argl. rewrite length_app, length_ptr_bytes, length_flat. lia. }
  assert (args_readable argl (Some (ptr, args))) as Hread.
  { unfold args_readable. rewrite Hlen. unfold argl. lia. }
  pose proof (pr_free _ _ Hpr) as (l & Hch & _ & _). rewrite Hq in Hch.
  destruct l as [|y l]; [done|]. destruct Hch as ([= <-] & k & Hk & _).
  destruct (exec_run infl c self p q b k (Some wrapper) argl (Some (ptr, args)) s Hpr Hr Hb Hal Hq Hk Hread Hsm)
    as (s' & Hrun & _ & [HP _ _ Hkb _ _ Hth _ _ _ _]).
  destruct (Hth _ eq_refl) as (t & Ht & Hto & _).
  assert (PT s' !! q = Some (exec_block p q (FIDT b) (Some wrapper) argl (Some (next_buf s)) (Some (next_ptcb s)) q k))
    as Hq' by (by rewrite HP, list_lookup_imap, Hk).
  set (k' := exec_block _ _ _ _ _ _ _ _ k) in Hq'.
  assert (p ≠ q) as Hpq.
  { intros ->. pose proof (pr_free _ _ Hpr) as ([|y ch] & Hch & _ & Hfl); simpl in Hch; [congruence|].
    assert (pstate b = FREE) as Hf; [|congruence]. apply (Hfl q b Hb). destruct Hch as [Hy _].
    replace y with q by congruence. left. }
  assert (k' = started (Some (next_ptcb s)) (newborn p (FIDT b) (Some wrapper) argl (Some (next_buf s)) k)) as Hk'
    by (unfold k', exec_block; by rewrite !at_same, at_ne by done).
  exists s', k', t, (next_buf s), args. split; [exact Hrun|]. split; [exact Hq'|]. rewrite Hk'.
  do 3 (split; [done|]). split; [simpl; apply elem_of_app; right; left|]. split; [done|]. split; [done|]. split; [|split].
  - rewrite Hkb. cbn [new_kbufs]. rewrite <-Hlen, firstn_all. apply lookup_insert_eq.
  - by apply exec_wrapper_run.
  - intros s2 d u k2 Hdu Hk2 [= H1 H2 H3]. unfold start_main_thread. mrun ltac:(by eapply CURPROC_run).
    mrun ltac:(by apply get_PCB_run). by rewrite H1, H2, H3.
Qed.

(** Process 3 is made, and its thread runs. *)
Lemma Execute_delivers_witness :
  ∃ s' a, Execute 0 77 4096 4210688 [[108; 115]; [45; 108]] demo_init = Ok (3, s') ∧
    start_main_thread 0 (set_ksched (demo_on 3 (Some 2%nat)) s') =
      Ok ((Some 77%nat, 14, Some a), set_ksched (demo_on 3 (Some 2%nat)) s').
Proof.
  destruct (Execute_delivers (holds []) demo_init 0 (Thr 0) 1 (block demo_init 1) 3 77 4096 4210688
    [[108; 115]; [45; 108]] demo_init_ok demo_init_runs ltac:(vm_compute; reflexivity) ltac:(vm_compute; reflexivity)
    no_holds ltac:(vm_compute; reflexivity)) as (s' & k & t & a & args & Hr & Hk & _ & _ & _ & _ & _ & Hth & _ & _ & Hstart).
  - split; [discriminate|reflexivity].
  - intros s Hs c Hc ->. repeat (apply elem_of_cons in Hs as [->|Hs]); [..|by apply not_elem_of_nil in Hs];
      repeat (apply elem_of_cons in Hc as [Hc|Hc]; [discriminate|]); by apply not_elem_of_nil in Hc.
  - reflexivity.
  - exists s', a. split; [exact Hr|]. set (s2 := set_ksched _ s').
    assert (runs_in s2 0 (Thr 0) 3) as Hr2 by (apply (demo_on_call 3 (Some 2%nat)); [reflexivity|by exists k]).
    exact (Hstart s2 0%nat (Thr 0) k Hr2 Hk eq_refl).
Defined.
