(* ===== verification/Stdio.v ===== *)
(** * The streams of the C library on file ids (tinyoslib.c)

    [fidopen] makes a stream of the C library whose functions are [Read] and [Write]
    of a file id; the id is in a block of its own, the cookie.  The library's
    variables [stdin] and [stdout] are shared by all processes; [tinyos_replace_stdio]
    and [tinyos_restore_stdio] switch them to such streams and back. *)
From S2P Require Import Prelude.
Local Open Scope Z_scope.

(** ** The library

    [heap]: the cookies that are allocated.  [fopencookie] and [fclose] of the library
    allocate and free a stream; [fclose] calls the close function. *)
Record cfile := CFile { cookie : nat; writes : bool }.
Record clib := CLib {
  heap : gmap nat Z; files : gmap nat cfile; next_block : nat;
  stdin : nat; stdout : nat; saved_in : option nat; saved_out : option nat }.
Definition set_heap h n s := CLib h (files s) n (stdin s) (stdout s) (saved_in s) (saved_out s).
Definition set_files f n s := CLib (heap s) f n (stdin s) (stdout s) (saved_in s) (saved_out s).
Definition set_std i o si so s := CLib (heap s) (files s) (next_block s) i o si so.

Definition malloc_fid (fid : Z) : M clib nat :=
  s ← get; modify (set_heap (<[next_block s := fid]> (heap s)) (S (next_block s))) ;; mret (next_block s).
Definition load_fid (c : nat) : M clib Z := s ← get; get_some UseAfterFree (heap s !! c).

(** ** The functions of the cookie

    [Read] and [Write] are the system calls of [W]; a failed [Write] has written
    nothing. *)
Section cookie_functions.
Context {W : Type} (Read : Z → Z → M W (Z * list Z)) (Write : Z → list Z → Z → M W Z).
Definition on_lib {A} : M clib A → M (clib * W) A := zoom fst (λ l s, (l, snd s)).
Definition on_system {A} : M W A → M (clib * W) A := zoom snd (λ w s, (fst s, w)).

Definition tinyos_fid_read (c : nat) (size : Z) : M (clib * W) (Z * list Z) :=
  fid ← on_lib (load_fid c); on_system (Read fid size).
Definition tinyos_fid_write (c : nat) (buf : list Z) (size : Z) : M (clib * W) Z :=
  fid ← on_lib (load_fid c);
  ret ← on_system (Write fid buf size);
  mret (if decide (ret < 0) then 0 else ret).
End cookie_functions.

Definition tinyos_fid_close (c : nat) : M clib unit :=
  load_fid c ;; s ← get; modify (set_heap (delete c (heap s)) (next_block s)).

Definition fidopen (fid : Z) (writes : bool) : M clib nat :=
  fidloc ← malloc_fid fid;
  s ← get;
  modify (set_files (<[next_block s := CFile fidloc writes]> (files s)) (S (next_block s))) ;;
  mret (next_block s).
Definition fclose (f : nat) : M clib unit :=
  s ← get;
  k ← get_some UseAfterFree (files s !! f);
  tinyos_fid_close (cookie k) ;;
  s ← get;
  modify (set_files (delete f (files s)) (next_block s)).

Definition get_std_stream (fid : Z) (writes : bool) : M clib nat := fidopen fid writes.

(** ** Switching the standard streams *)
Definition tinyos_replace_stdio : M clib unit :=
  s ← get;
  c_assert (bool_decide (saved_in s = None)) ;;
  c_assert (bool_decide (saved_out s = None)) ;;
  termin ← get_std_stream 0 false;
  termout ← get_std_stream 1 true;
  modify (λ s, set_std termin termout (Some (stdin s)) (Some (stdout s)) s).

Definition tinyos_restore_stdio : M clib unit :=
  s ← get;
  match saved_out s with
  | None => mret tt
  | Some out =>
      fclose (stdin s) ;;
      fclose (stdout s) ;;
      i ← get_some NullDeref (saved_in s);
      modify (set_std i out None None)
  end.

(** ** What they promise *)

(** Blocks that are not allocated yet are not used. *)
Definition clib_ok (s : clib) : Prop :=
  ∀ n, (next_block s ≤ n)%nat → heap s !! n = None ∧ files s !! n = None.

(** The stream is on file id [fid]. *)
Definition opens (s : clib) (f : nat) (fid : Z) (w : bool) : Prop :=
  ∃ c, files s !! f = Some (CFile c w) ∧ heap s !! c = Some fid.

Lemma fclose_run s f c w fid :
  files s !! f = Some (CFile c w) → heap s !! c = Some fid →
  fclose f s = Ok (tt, CLib (delete c (heap s)) (delete f (files s)) (next_block s)
    (stdin s) (stdout s) (saved_in s) (saved_out s)).
Proof.
  intros Hf Hc. unfold fclose. mstep. rewrite run_some with (a := CFile c w) by done.
  unfold tinyos_fid_close, load_fid. unfold_monad. cbn. by rewrite Hc.
Qed.

(** What [n] and [n + 2] are given is taken back in the same order. *)
Lemma two_blocks {A} (m : gmap nat A) a b x y :
  a ≠ b → m !! a = None → m !! b = None → delete b (delete a (<[b := y]> (<[a := x]> m))) = m.
Proof.
  intros Hab Ha Hb. apply map_eq. intros i. destruct (decide (i = b)) as [->|]; [by rewrite lookup_delete_eq|].
  rewrite lookup_delete_ne by done. destruct (decide (i = a)) as [->|]; [by rewrite lookup_delete_eq|].
  by rewrite lookup_delete_ne, !lookup_insert_ne.
Qed.

(** Switching and switching back.  With nothing saved, [tinyos_replace_stdio] makes
    [stdin] a stream of file id 0 and [stdout] one of file id 1, and may not be called
    again; [tinyos_restore_stdio] then restores both variables and frees everything
    that the first call allocated.  Without anything saved it does nothing. *)
Theorem replace_restore s :
  clib_ok s → saved_in s = None → saved_out s = None →
  ∃ s1 s2, tinyos_replace_stdio s = Ok (tt, s1) ∧ opens s1 (stdin s1) 0 false ∧ opens s1 (stdout s1) 1 true ∧
    tinyos_replace_stdio s1 = Fault AssertFailed ∧
    tinyos_restore_stdio s1 = Ok (tt, s2) ∧ s2 = set_heap (heap s) (next_block s2) s ∧
    tinyos_restore_stdio s = Ok (tt, s).
Proof.
  intros Hok Hi Ho. set (n := next_block s).
  destruct (Hok n) as [Hh0 _]; [unfold n; lia|]. destruct (Hok (S (S n))) as [Hh2 _]; [unfold n; lia|].
  destruct (Hok (S n)) as [_ Hf1]; [unfold n; lia|]. destruct (Hok (S (S (S n)))) as [_ Hf3]; [unfold n; lia|].
  set (h := <[S (S n) := 1]> (<[n := 0]> (heap s))).
  set (f := <[S (S (S n)) := CFile (S (S n)) true]> (<[S n := CFile n false]> (files s))).
  set (s1 := CLib h f (S (S (S (S n)))) (S n) (S (S (S n))) (Some (stdin s)) (Some (stdout s))).
  assert (opens s1 (S n) 0 false) as H0.
  { exists n. unfold s1, f, h. cbn. rewrite lookup_insert_ne, lookup_insert_eq by lia.
    by rewrite lookup_insert_ne, lookup_insert_eq by lia. }
  assert (opens s1 (S (S (S n))) 1 true) as H1 by (exists (S (S n)); split; apply lookup_insert_eq).
  exists s1, (set_heap (heap s) (S (S (S (S n)))) s). split_and!; try done.
  - unfold tinyos_replace_stdio. mstep. rewrite Hi, Ho. reflexivity.
  - unfold tinyos_restore_stdio. mstep. cbn [saved_out s1].
    destruct H0 as (c0 & Hc0 & Hv0). mrun ltac:(by eapply fclose_run). cbn [stdin stdout saved_in saved_out s1] in *.
    assert (c0 = n) as -> by (unfold s1, f in Hc0; cbn in Hc0; rewrite lookup_insert_ne, lookup_insert_eq in Hc0 by lia; congruence).
    mrun ltac:(eapply (fclose_run _ _ (S (S n)) true 1); cbn;
      [rewrite lookup_delete_ne by lia; apply lookup_insert_eq|rewrite lookup_delete_ne by lia; apply lookup_insert_eq]).
    mstep. cbn. unfold set_std, set_heap. cbn. f_equal. f_equal. unfold h, f. rewrite Hi, Ho.
    by rewrite !two_blocks by (done || lia).
  - unfold tinyos_restore_stdio. mstep. by rewrite Ho.
Qed.

(** The library when the system starts. *)
Definition clib_start : clib := CLib ∅ ∅ 2 0 1 None None.
Example stdio_switches : ∃ s1, tinyos_replace_stdio clib_start = Ok (tt, s1) ∧ (stdin s1, stdout s1) = (3, 5)%nat.
Proof. eexists. split; vm_compute; reflexivity. Qed.

(** A stream reads and writes the file id that it was opened with, and shows a failed
    write as one that wrote nothing. *)
Theorem fidopen_streams {W} (Read : Z → Z → M W (Z * list Z)) (Write : Z → list Z → Z → M W Z) fid w s x :
  clib_ok s → ∃ f c s', fidopen fid w s = Ok (f, s') ∧ files s' !! f = Some (CFile c w) ∧ clib_ok s' ∧
    (∀ size, tinyos_fid_read Read c size (s', x) = match Read fid size x with Ok (r, x') => Ok (r, (s', x')) | Fault e => Fault e end) ∧
    (∀ buf size, tinyos_fid_write Write c buf size (s', x) =
       match Write fid buf size x with Ok (r, x') => Ok (Z.max 0 r, (s', x')) | Fault e => Fault e end).
Proof.
  intros Hok. set (n := next_block s).
  set (s' := CLib (<[n := fid]> (heap s)) (<[S n := CFile n w]> (files s)) (S (S n)) (stdin s) (stdout s) (saved_in s) (saved_out s)).
  assert (load_fid n s' = Ok (fid, s')) as Hl by (unfold load_fid; unfold_monad; cbn; by rewrite lookup_insert_eq).
  assert (on_lib (W := W) (load_fid n) (s', x) = Ok (fid, (s', x))) as Hlib by (unfold on_lib, zoom; cbn [fst]; by rewrite Hl).
  exists (S n), n, s'. split; [reflexivity|]. split; [apply lookup_insert_eq|]. split; [|split].
  - intros k Hk. unfold s' in *. cbn in *. rewrite !lookup_insert_ne by lia. apply Hok. unfold n in *. lia.
  - intros size. unfold tinyos_fid_read. mrun ltac:(exact Hlib). unfold on_system, zoom. cbn [snd fst].
    by destruct (Read fid size x) as [[r x']|e].
  - intros buf size. unfold tinyos_fid_write. mrun ltac:(exact Hlib).
    destruct (Write fid buf size x) as [[r x']|e] eqn:Hw.
    + rewrite bind_run with (a := r) (s' := (s', x')); [|unfold on_system, zoom; cbn [snd fst]; by rewrite Hw].
      assert ((if decide (r < 0) then 0 else r) = Z.max 0 r) as -> by (case_decide; lia). reflexivity.
    + apply bind_fault. unfold on_system, zoom. cbn [snd fst]. by rewrite Hw.
Qed.
