(* ===== verification/Exceptions.v ===== *)
(** * Exceptions (util.h, util.c)

    [TRY_WITH], [ON_ERROR], [FINALLY] and [raise_exception].  A frame stands for an
    active [TRY_WITH] block; a jump to its [jmp_buf] unwinds the frame again, in
    [__exc_try].  What a handler does is a parameter: a number to record, and
    whether it raises an exception at its end. *)
From S2P Require Import Prelude.
Local Open Scope Z_scope.

(** ** The stack of frames *)
Record exception_handler := Handler { handler : nat; raises : bool }.
Record exception_stack_frame := Frame {
  catchers : list exception_handler; finalizers : list exception_handler }.
Abbreviation exception_context := (list exception_stack_frame) (only parsing).

(** [TRY_WITH], up to its body. *)
Definition try_with (context : exception_context) : exception_context := Frame [] [] :: context.
(** [ON_ERROR] and [FINALLY], in the block of the top frame. *)
Definition on_error (h : exception_handler) (context : exception_context) : outcome exception_context :=
  match context with
  | f :: context => Ok (Frame (h :: catchers f) (finalizers f) :: context)
  | [] => Fault NullDeref
  end.
Definition finally (h : exception_handler) (context : exception_context) : outcome exception_context :=
  match context with
  | f :: context => Ok (Frame (catchers f) (h :: finalizers f) :: context)
  | [] => Fault NullDeref
  end.

(** ** Unwinding *)

(** A call of a handler, with the error code it gets. *)
Definition call : Type := nat * Z.

(** A loop over handlers, each popped before it is called: when one raises, the
    handlers that are rest. *)
Fixpoint run_handlers (hs : list exception_handler) (errcode : Z)
  : list call * option (list exception_handler) :=
  match hs with
  | [] => ([], None)
  | h :: hs =>
      if raises h then ([(handler h, errcode)], Some hs)
      else let '(tr, rest) := run_handlers hs errcode in ((handler h, errcode) :: tr, rest)
  end.

Definition prefix (tr : list call) (o : outcome (list call * exception_context))
  : outcome (list call * exception_context) :=
  match o with Ok (tr', context) => Ok (tr ++ tr', context) | Fault f => Fault f end.

(** [exception_unwind(context, errcode)], with the jumps out of it: the calls, and
    the frames that are left where the program goes on, after the [TRY_WITH] block
    of the last frame that was popped.  [raise_exception] without a frame
    returns. *)
Fixpoint exception_unwind (fuel : nat) (context : exception_context) (errcode : Z)
  : outcome (list call * exception_context) :=
  match fuel with
  | O => Fault OutOfFuel
  | S fuel =>
      match context with
      | [] => Fault NullDeref
      | f :: below =>
          let captured := match catchers f with [] => false | _ => true end in
          match run_handlers (catchers f) errcode with
          | (tr, Some cs) => prefix tr (exception_unwind fuel (Frame cs (finalizers f) :: below) 1)
          | (tr, None) =>
              match run_handlers (finalizers f) errcode with
              | (tr', Some fs) => prefix (tr ++ tr') (exception_unwind fuel (Frame [] fs :: below) 1)
              | (tr', None) =>
                  if decide (errcode ≠ 0 ∧ captured = false) then
                    match below with
                    | [] => Ok (tr ++ tr', [])
                    | _ => prefix (tr ++ tr') (exception_unwind fuel below 1)
                    end
                  else Ok (tr ++ tr', below)
              end
          end
      end
  end.

(** As many turns as there are handlers and frames. *)
Definition unwind_turns (context : exception_context) : nat :=
  foldr (λ f n, (length (catchers f) + length (finalizers f) + 1 + n)%nat) 0%nat context.

(** [raise_exception(context)] in the body of the top frame: [longjmp], and
    [__exc_try] with a code that is not 0. *)
Definition raise_exception (context : exception_context) : outcome (list call * exception_context) :=
  match context with
  | [] => Ok ([], [])
  | _ => exception_unwind (unwind_turns context) context 1
  end.

(** [__exc_exit_try(context)], at the end of the body. *)
Definition exc_exit_try (context : exception_context) : outcome (list call * exception_context) :=
  match context with
  | [] => Fault NullDeref
  | f :: below =>
      let context := Frame [] (finalizers f) :: below in
      exception_unwind (unwind_turns context) context 0
  end.

(** ** What unwinding promises *)

(** All handlers are called, in order; the code is [errcode] up to the first that
    raises, and 1 from there on. *)
Fixpoint calls_of (hs : list exception_handler) (errcode : Z) : list call :=
  match hs with
  | [] => []
  | h :: hs => (handler h, errcode) :: calls_of hs (if raises h then 1 else errcode)
  end.
Definition handlers_of (f : exception_stack_frame) : list exception_handler := catchers f ++ finalizers f.

(** A frame lets an exception go on when it has no catcher (and there is one), when
    its last catcher raises, or when a finalizer raises. *)
Definition propagates (f : exception_stack_frame) (errcode : Z) : bool :=
  existsb raises (finalizers f) ||
  match last (catchers f) with Some h => raises h | None => negb (bool_decide (errcode = 0)) end.

Fixpoint unwind_spec (context : exception_context) (errcode : Z) : list call * exception_context :=
  match context with
  | [] => ([], [])
  | f :: below =>
      let tr := calls_of (handlers_of f) errcode in
      if propagates f errcode
      then let '(tr', rest) := unwind_spec below 1 in (tr ++ tr', rest)
      else (tr, below)
  end.

(** ** Proofs *)
Lemma run_handlers_all hs e tr :
  run_handlers hs e = (tr, None) →
  existsb raises hs = false ∧ tr = calls_of hs e ∧ ∀ hs', calls_of (hs ++ hs') e = tr ++ calls_of hs' e.
Proof.
  revert tr. induction hs as [|h hs IH]; intros tr; cbn [run_handlers].
  - intros [= <-]. done.
  - destruct (raises h) eqn:Hr; [done|]. destruct (run_handlers hs e) as [tr' [?|]] eqn:He; intros [= <-].
    destruct (IH tr' eq_refl) as (Hx & -> & Hc). simpl. rewrite Hr. split_and!; [done|done|].
    intros hs'. simpl. by rewrite Hc.
Qed.

Lemma run_handlers_raised hs e tr rest :
  run_handlers hs e = (tr, Some rest) →
  ∃ pre h, hs = pre ++ h :: rest ∧ raises h = true ∧
    ∀ hs', calls_of (hs ++ hs') e = tr ++ calls_of (rest ++ hs') 1.
Proof.
  revert tr. induction hs as [|h hs IH]; intros tr; cbn [run_handlers]; [done|].
  destruct (raises h) eqn:Hr.
  - intros [= <- <-]. exists [], h. split_and!; [done|done|]. intros hs'. simpl. by rewrite Hr.
  - destruct (run_handlers hs e) as [tr' [l|]] eqn:He; intros [= <- <-].
    destruct (IH tr' eq_refl) as (pre & h' & -> & Hh' & Hc). exists (h :: pre), h'.
    split_and!; [done|done|]. intros hs'. simpl. by rewrite Hr, Hc.
Qed.

Lemma last_raised (pre rest : list exception_handler) h :
  raises h = true →
  match last (pre ++ h :: rest) with Some h => raises h | None => false end =
  match last rest with Some h => raises h | None => true end.
Proof.
  intros Hh. rewrite last_app_cons. destruct rest as [|x rest]; [done|]. rewrite last_cons_cons.
  destruct (last (x :: rest)) eqn:Hl; [done|]. by apply last_None in Hl.
Qed.

Lemma existsb_app' (l1 l2 : list exception_handler) :
  existsb raises (l1 ++ l2) = existsb raises l1 || existsb raises l2.
Proof. apply existsb_app. Qed.

Lemma propagates_catch pre h cs fs e :
  raises h = true → propagates (Frame (pre ++ h :: cs) fs) e = propagates (Frame cs fs) 1.
Proof.
  intros Hh. unfold propagates. simpl. f_equal. pose proof (last_raised pre cs h Hh) as Hl.
  destruct (last (pre ++ h :: cs)) eqn:Hx.
  - rewrite Hl. by destruct (last cs).
  - apply last_None in Hx. by destruct pre.
Qed.

Lemma propagates_final pre h cs fs e :
  raises h = true → propagates (Frame cs (pre ++ h :: fs)) e = true ∧ propagates (Frame [] fs) 1 = true.
Proof.
  intros Hh. unfold propagates. simpl. rewrite existsb_app'. simpl. rewrite Hh.
  split; [by rewrite orb_true_r|by rewrite orb_true_r].
Qed.

Lemma unwind_run fuel : ∀ f below e,
  (unwind_turns (f :: below) ≤ fuel)%nat →
  exception_unwind fuel (f :: below) e = Ok (unwind_spec (f :: below) e).
Proof.
  induction fuel as [|fuel IH]; intros [cs fs] below e Hf; unfold unwind_turns in Hf; cbn [foldr catchers finalizers] in Hf; fold (unwind_turns below) in Hf; [lia|].
  cbn [exception_unwind catchers finalizers]. cbn [unwind_spec].
  destruct (run_handlers cs e) as [tr [rest|]] eqn:Hcs.
  - destruct (run_handlers_raised _ _ _ _ Hcs) as (pre & h & -> & Hh & Hc).
    rewrite IH by (unfold unwind_turns; cbn [foldr catchers finalizers]; fold (unwind_turns below); rewrite length_app in Hf; simpl in *; lia).
    cbn [unwind_spec prefix]. rewrite (propagates_catch pre h) by done.
    unfold handlers_of. cbn [catchers finalizers]. rewrite Hc.
    destruct (propagates _ _); [|done]. destruct (unwind_spec below 1). by rewrite <-app_assoc.
  - destruct (run_handlers_all _ _ _ Hcs) as (Hx & _ & Hc).
    destruct (run_handlers fs e) as [tr' [rest|]] eqn:Hfs.
    + destruct (run_handlers_raised _ _ _ _ Hfs) as (pre & h & -> & Hh & Hc').
      rewrite IH by (unfold unwind_turns; cbn [foldr catchers finalizers]; fold (unwind_turns below); rewrite length_app in Hf; simpl in *; lia).
      cbn [unwind_spec prefix]. destruct (propagates_final pre h cs rest e Hh) as [-> ->].
      unfold handlers_of. cbn [catchers finalizers app]. rewrite Hc.
      specialize (Hc' []). rewrite !app_nil_r in Hc'. rewrite Hc'.
      destruct (unwind_spec below 1). by rewrite <-!app_assoc.
    + destruct (run_handlers_all _ _ _ Hfs) as (Hx' & -> & _).
      unfold handlers_of, propagates. cbn [catchers finalizers]. rewrite Hc, Hx'. simpl orb.
      assert (match last cs with Some h => raises h | None => negb (bool_decide (e = 0)) end
        = bool_decide (e ≠ 0 ∧ match cs with [] => false | _ => true end = false)) as ->.
      { destruct (last cs) as [h|] eqn:Hl.
        - apply last_Some in Hl as [cs' ->]. rewrite existsb_app' in Hx. simpl in Hx.
          apply orb_false_iff in Hx as [_ Hx]. apply orb_false_iff in Hx as [-> _].
          symmetry. apply bool_decide_false. intros [_ ?]. by destruct cs'.
        - apply last_None in Hl as ->. destruct (decide (e = 0)).
          + rewrite bool_decide_true, bool_decide_false by tauto. done.
          + rewrite bool_decide_false, bool_decide_true by tauto. done. }
      case_decide as Hd; [rewrite bool_decide_true by done|by rewrite bool_decide_false by done].
      destruct below as [|g below]; [simpl; by rewrite app_nil_r|].
      rewrite IH by (simpl in *; lia). cbn [prefix]. by destruct (unwind_spec (g :: below) 1).
Qed.

Lemma calls_of_handlers hs : ∀ e, (calls_of hs e).*1 = handler <$> hs.
Proof. induction hs as [|h hs IH]; intros e; [done|]. simpl. by rewrite IH. Qed.

Lemma unwind_spec_frames below : ∀ f e,
  ∃ k, let context := f :: below in
    (k ≤ length below)%nat ∧ (unwind_spec context e).2 = drop (S k) context ∧
    (unwind_spec context e).1.*1 = handler <$> concat (handlers_of <$> take (S k) context) ∧
    (∀ i g, context !! i = Some g → (i < k)%nat → propagates g (if decide (i = 0%nat) then e else 1) = true) ∧
    ((k < length below)%nat →
       ∃ g, context !! k = Some g ∧ propagates g (if decide (k = 0%nat) then e else 1) = false).
Proof.
  induction below as [|g below IH]; intros f e; cbn zeta.
  - exists 0%nat. split; [done|]. cbn [unwind_spec]. destruct (propagates f e); simpl.
    + split; [done|]. rewrite !app_nil_r, calls_of_handlers. split; [done|]. split; [lia|lia].
    + split; [done|]. rewrite app_nil_r, calls_of_handlers. split; [done|]. split; lia.
  - cbn [unwind_spec]. destruct (propagates f e) eqn:Hp.
    + destruct (IH g 1) as (k & Hk & Hl & Hc & Hpr & Hst). exists (S k).
      cbn [unwind_spec] in Hl, Hc.
      destruct (if propagates g 1 then let '(tr', rest) := unwind_spec below 1 in (calls_of (handlers_of g) 1 ++ tr', rest)
        else (calls_of (handlers_of g) 1, below)) as [tr rest]. simpl in Hl, Hc |- *.
      split; [lia|]. split; [done|]. split; [by rewrite !fmap_app, calls_of_handlers, Hc, fmap_app|]. split.
      * intros [|i] h Hi Hlt; simpl in Hi; [by simplify_eq|].
        specialize (Hpr i h Hi ltac:(lia)). by destruct (decide (i = 0%nat)).
      * intros Hlt. destruct (Hst ltac:(lia)) as (h & Hh & Hf). exists h. split; [done|].
        by destruct (decide (k = 0%nat)).
    + exists 0%nat. simpl. split; [lia|]. split; [done|]. rewrite app_nil_r, calls_of_handlers.
      split; [done|]. split; [lia|]. intros _. by exists f.
Qed.

(** C28 (equivalence). Unwinding does what [unwind_spec] says, although handlers may
    raise exceptions themselves and restart it.  It terminates, within as many turns
    as there are handlers and frames.  Of every frame that is popped, all catchers
    and then all finalizers are called, each once; of the others, none.  The
    exception is passed on by every popped frame but the last, and stops at the
    first frame that does not propagate it, or when no frame is left. *)
Theorem unwinding_is_spec f below :
  let context := f :: below in
  raise_exception context = Ok (unwind_spec context 1) ∧
  exc_exit_try context = Ok (unwind_spec (Frame [] (finalizers f) :: below) 0) ∧
  ∃ k, (k ≤ length below)%nat ∧ (unwind_spec context 1).2 = drop (S k) context ∧
    (unwind_spec context 1).1.*1 = handler <$> concat (handlers_of <$> take (S k) context) ∧
    (∀ i g, context !! i = Some g → (i < k)%nat → propagates g 1 = true) ∧
    ((k < length below)%nat → ∃ g, context !! k = Some g ∧ propagates g 1 = false).
Proof.
  cbn zeta. split; [by apply unwind_run|]. split; [by apply unwind_run|].
  destruct (unwind_spec_frames below f 1) as (k & Hk & Hl & Hc & Hp & Hst). exists k.
  split_and!; try done.
  - intros i g Hi Hlt. specialize (Hp i g Hi Hlt). by destruct (decide (i = 0%nat)).
  - intros Hlt. destruct (Hst Hlt) as (g & Hg & Hf). exists g. split; [done|].
    by destruct (decide (k = 0%nat)).
Qed.

(** Two handlers in an inner block, of which the catcher raises; one in the outer. *)
Example raise_in_catcher :
  raise_exception [Frame [Handler 1 true] [Handler 2 false]; Frame [Handler 3 false] []; Frame [] [Handler 4 false]]
  = Ok ([(1%nat, 1); (2%nat, 1); (3%nat, 1)], [Frame [] [Handler 4 false]]).
Proof. reflexivity. Qed.
