(* ===== verification/Symposium.v ===== *)
(** * Dining philosophers (symposium.c)

    A philosopher holds the monitor's mutex in each of its critical sections, so one
    section is one step; [Cond_Wait] ends a section, and its return starts the next.
    [CondVar.v] has the mutex and the condition variables. *)
From S2P Require Import Prelude.
From stdpp Require Import list relations.

(** ** The monitor *)
Inductive PHIL := NOTHERE | THINKING | HUNGRY | EATING.
#[export] Instance PHIL_eq_dec : EqDecision PHIL.
Proof. solve_decision. Defined.

Definition LEFT (i N : nat) : nat := (i + 1) mod N.
Definition RIGHT (i N : nat) : nat := (i + N - 1) mod N.

(** [fibo], which thinking and eating compute. *)
Fixpoint fibo (n : nat) : Z :=
  match n with
  | O => 0
  | S m => match m with O => 1 | S k => u32 (fibo m + fibo k) end
  end.

Abbreviation TM := (M (list PHIL)).
Definition get_state (i : nat) : TM PHIL := st ← get; get_some OutOfBounds (st !! i).
Definition set_state (i : nat) (p : PHIL) : TM unit :=
  get_state i ;; modify (λ st, <[i := p]> st).

(** The result tells whether [hungry[i]] is signalled. *)
Definition trytoeat (N i : nat) : TM bool :=
  p ← get_state i;
  l ← get_state (LEFT i N);
  r ← get_state (RIGHT i N);
  if decide (p = HUNGRY ∧ l ≠ EATING ∧ r ≠ EATING) then set_state i EATING ;; mret true
  else mret false.

(** ** The philosopher

    Where it is: [Waiting j true] is asleep in [Cond_Wait], [Waiting j false] was
    signalled; [j] bites are eaten. *)
Inductive place := Outside | Thinking (j : nat) | Waiting (j : nat) (asleep : bool) | Eating (j : nat) | Gone.
#[export] Instance place_eq_dec : EqDecision place.
Proof. solve_decision. Defined.

(** The loop around [Cond_Wait], up to its next call: does the philosopher wait? *)
Definition wait_loop (i : nat) : TM bool :=
  p ← get_state i;
  if decide (p = HUNGRY) then mret true else c_assert (bool_decide (p = EATING)) ;; mret false.

Definition signal_if (b : bool) (i : nat) : list nat := if b then [i] else [].

(** The critical section of [SymposiumTable_philosopher] that starts at a place:
    where the philosopher is afterwards, and whom it has signalled. *)
Definition critical_section (N bites i : nat) (q : place) : TM (place * list nat) :=
  match q with
  | Outside => set_state i THINKING ;; mret (Thinking 0, [])
  | Thinking j =>
      if decide (j < bites) then
        set_state i HUNGRY ;;
        b ← trytoeat N i;
        w ← wait_loop i;
        mret (if w : bool then Waiting j true else Eating j, signal_if b i)
      else set_state i NOTHERE ;; mret (Gone, [])
  | Waiting j _ => w ← wait_loop i; mret (if w : bool then Waiting j true else Eating j, [])
  | Eating j =>
      set_state i THINKING ;;
      a ← trytoeat N (LEFT i N);
      b ← trytoeat N (RIGHT i N);
      mret (Thinking (S j), signal_if a (LEFT i N) ++ signal_if b (RIGHT i N))
  | Gone => mret (Gone, [])
  end.

(** [Cond_Signal(&hungry[i])] *)
Definition signal (i : nat) (ps : list place) : list place :=
  match ps !! i with Some (Waiting j true) => <[i := Waiting j false]> ps | _ => ps end.

Record SymposiumTable := Table { state : list PHIL; places : list place }.

(** [SymposiumTable_init], with [N] philosophers about to run. *)
Definition SymposiumTable_init (N : nat) : SymposiumTable := Table (replicate N NOTHERE) (replicate N Outside).

Definition may_step (q : place) : bool :=
  match q with Waiting _ true | Gone => false | _ => true end.

Inductive symposium_step (N bites : nat) (x : SymposiumTable) : SymposiumTable → Prop :=
  | philosopher_step i q q' sigs st' :
      places x !! i = Some q → may_step q = true →
      critical_section N bites i q (state x) = Ok ((q', sigs), st') →
      symposium_step N bites x (Table st' (foldl (λ ps k, signal k ps) (<[i := q']> (places x)) sigs)).

(** ** The invariant *)
Section symposium.
Context (N bites : nat).

Definition neighbour (i k : nat) : Prop := k = LEFT i N ∨ k = RIGHT i N.
Definition safe (st : list PHIL) : Prop :=
  ∀ i k, i < N → neighbour i k → k ≠ i → st !! i = Some EATING → st !! k ≠ Some EATING.
(** The hungry ones, but for those of [E], have a neighbour that eats. *)
Definition served (E : list nat) (st : list PHIL) : Prop :=
  ∀ i, i < N → st !! i = Some HUNGRY → i ∉ E → ∃ k, neighbour i k ∧ k ≠ i ∧ st !! k = Some EATING.

Definition agree (q : place) (p : PHIL) : Prop :=
  match q with
  | Outside | Gone => p = NOTHERE
  | Thinking j => p = THINKING ∧ j ≤ bites
  | Waiting j a => p = (if a then HUNGRY else EATING) ∧ j < bites
  | Eating j => p = EATING ∧ j < bites
  end.

Record symposium_ok (x : SymposiumTable) : Prop := SymposiumOk {
  so_state : length (state x) = N;
  so_places : length (places x) = N;
  so_agree : ∀ i q p, places x !! i = Some q → state x !! i = Some p → agree q p;
  so_safe : safe (state x);
  so_served : served [] (state x) }.

Lemma LEFT_eq i : i < N → LEFT i N = if decide (S i = N) then 0 else S i.
Proof.
  intros Hi. unfold LEFT. case_decide as H.
  - replace (i + 1) with N by lia. apply Nat.Div0.mod_same.
  - rewrite Nat.mod_small by lia. lia.
Qed.
Lemma RIGHT_eq i : i < N → RIGHT i N = if decide (i = 0) then N - 1 else i - 1.
Proof.
  intros Hi. unfold RIGHT. case_decide as H.
  - subst. rewrite Nat.mod_small by lia. lia.
  - replace (i + N - 1) with (i - 1 + 1 * N) by lia. rewrite Nat.Div0.mod_add, Nat.mod_small by lia. done.
Qed.

Lemma neighbour_lt i k : i < N → neighbour i k → k < N.
Proof. intros Hi [->| ->]; [rewrite LEFT_eq by done|rewrite RIGHT_eq by done]; case_decide; lia. Qed.
Lemma neighbour_sym i k : i < N → neighbour i k → neighbour k i.
Proof.
  intros Hi Hk. assert (k < N) by (by eapply neighbour_lt). unfold neighbour in *.
  rewrite LEFT_eq, RIGHT_eq in Hk by done. rewrite LEFT_eq, RIGHT_eq by done.
  repeat case_decide; lia.
Qed.

Lemma get_state_run i p st : st !! i = Some p → get_state i st = Ok (p, st).
Proof. intros H. unfold get_state. unfold_monad. by rewrite H. Qed.
Lemma set_state_run i p q st : st !! i = Some q → set_state i p st = Ok (tt, <[i := p]> st).
Proof. intros H. unfold set_state. by mrun ltac:(by apply get_state_run). Qed.

Lemma insert_at (st : list PHIL) i p k : i < length st →
  <[i := p]> st !! k = if decide (k = i) then Some p else st !! k.
Proof.
  intros Hi. case_decide; subst; [by apply list_lookup_insert_eq|by apply list_lookup_insert_ne].
Qed.

(** A philosopher that does not eat afterwards. *)
Lemma safe_calm st i p : safe st → i < length st → p ≠ EATING → safe (<[i := p]> st).
Proof.
  intros Hs Hi Hp j k Hj Hn Hne. rewrite !insert_at by done.
  repeat case_decide; subst; try congruence. by apply Hs.
Qed.

Lemma trytoeat_run E st i :
  length st = N → i < N → safe st → served (i :: E) st →
  ∃ b st', trytoeat N i st = Ok (b, st') ∧ length st' = N ∧ safe st' ∧ served E st' ∧
    if b : bool then st !! i = Some HUNGRY ∧ st' = <[i := EATING]> st else st' = st.
Proof.
  intros Hlen Hi Hs Hf. unfold trytoeat.
  assert (∀ k, k < N → ∃ p, st !! k = Some p) as Hget
    by (intros k Hk; apply lookup_lt_is_Some_2; lia).
  destruct (Hget i Hi) as [p Hp].
  destruct (Hget (LEFT i N)) as [l Hl]; [by eapply neighbour_lt; [|left]|].
  destruct (Hget (RIGHT i N)) as [r Hr]; [by eapply neighbour_lt; [|right]|].
  mrun ltac:(by apply get_state_run). mrun ltac:(by apply get_state_run). mrun ltac:(by apply get_state_run).
  destruct (decide (p = HUNGRY ∧ l ≠ EATING ∧ r ≠ EATING)) as [(-> & Hle & Hre)|Hno].
  - mrun ltac:(by eapply set_state_run). exists true, (<[i := EATING]> st). split; [done|].
    rewrite length_insert. split_and!; try done.
    + intros j k Hj Hn Hne. rewrite !insert_at by lia.
      assert (∀ m, neighbour i m → st !! m ≠ Some EATING) as Hnb by (intros m [->| ->]; congruence).
      repeat case_decide; subst; try congruence.
      * intros _. by apply Hnb.
      * intros Hj'. destruct (Hnb j); [by apply neighbour_sym|done].
      * by apply Hs.
    + intros j Hj. rewrite insert_at by lia. case_decide; [done|]. intros Hjh HjE.
      destruct (Hf j Hj Hjh) as (k & Hn & Hne & Hk); [by rewrite not_elem_of_cons|].
      exists k. split_and!; [done|done|]. rewrite insert_at by lia. case_decide; [done|]. done.
  - exists false, st. split_and!; try done.
    intros j Hj Hjh HjE. destruct (decide (j = i)) as [->|Hji].
    + assert (p = HUNGRY) as -> by congruence.
      destruct (decide (l = EATING)) as [->|Hle]; [|destruct (decide (r = EATING)) as [->|Hre]; [|tauto]].
      * exists (LEFT i N). split_and!; [by left| |done]. intros He. rewrite He in Hl. congruence.
      * exists (RIGHT i N). split_and!; [by right| |done]. intros He. rewrite He in Hr. congruence.
    + apply Hf; [done|done|]. by rewrite not_elem_of_cons.
Qed.

(** ** Steps *)
Definition agree_all (st : list PHIL) (ps : list place) : Prop :=
  ∀ i q p, ps !! i = Some q → st !! i = Some p → agree q p.

Lemma agree_set st ps i q p :
  length st = N → length ps = N → i < N → agree_all st ps → agree q p →
  agree_all (<[i := p]> st) (<[i := q]> ps).
Proof.
  intros Hst Hps Hi Ha Hq k q' p'. rewrite !list_lookup_insert.
  repeat case_decide; intros; simplify_eq; try done; try lia. by eapply Ha.
Qed.

Lemma agree_signal st ps k :
  length st = N → length ps = N → k < N → agree_all st ps → st !! k = Some HUNGRY →
  agree_all (<[k := EATING]> st) (signal k ps).
Proof.
  intros Hst Hps Hk Ha Hh. destruct (lookup_lt_is_Some_2 ps k) as [q Hq]; [lia|].
  pose proof (Ha k q HUNGRY Hq Hh) as Hag. unfold signal. rewrite Hq.
  destruct q as [|j|j []|j|]; simpl in Hag; try congruence; destruct Hag as [? Hj]; try congruence.
  by apply agree_set.
Qed.

Lemma length_signal k ps : length (signal k ps) = length ps.
Proof. unfold signal. repeat case_match; try done. apply length_insert. Qed.

(** [trytoeat], with its signal. *)
Lemma try_run E st ps i :
  length st = N → length ps = N → i < N → safe st → served (i :: E) st → agree_all st ps →
  ∃ b st', trytoeat N i st = Ok (b, st') ∧ length st' = N ∧ safe st' ∧ served E st' ∧
    let ps' := foldl (λ ps k, signal k ps) ps (signal_if b i) in
    length ps' = N ∧ agree_all st' ps'.
Proof.
  intros Hst Hps Hi Hs Hf Ha.
  destruct (trytoeat_run E st i Hst Hi Hs Hf) as (b & st' & Hr & Hlen & Hs' & Hf' & Hb).
  exists b, st'. do 4 (split; [done|]). destruct b; cbn.
  - destruct Hb as [Hh ->]. rewrite length_signal. split; [done|]. by apply agree_signal.
  - subst st'. done.
Qed.

Lemma wait_loop_run i st p :
  st !! i = Some p → p = HUNGRY ∨ p = EATING → wait_loop i st = Ok (bool_decide (p = HUNGRY), st).
Proof.
  intros Hp Hor. unfold wait_loop. mrun ltac:(by apply get_state_run).
  by destruct Hor as [-> | ->].
Qed.

Definition weight (q : place) : nat :=
  match q with
  | Outside => 3 * bites + 2
  | Thinking j => 3 * (bites - j) + 1
  | Waiting j _ => 3 * (bites - j)
  | Eating j => 3 * (bites - j) - 1
  | Gone => 0
  end.

(** What a critical section comes to. *)
Definition section_post (i : nat) (q : place) (ps : list place) (r : place * list nat) (st' : list PHIL) : Prop :=
  weight r.1 < weight q ∧
  symposium_ok (Table st' (foldl (λ ps k, signal k ps) (<[i := r.1]> ps) r.2)).

Lemma calm_served st i p : served [] st → i < length st → st !! i ≠ Some EATING → p ≠ HUNGRY →
  served [] (<[i := p]> st).
Proof.
  intros Hf Hi He Hp j Hj. rewrite insert_at by done. case_decide; [congruence|]. intros Hh HE.
  destruct (Hf j Hj Hh HE) as (k & Hn & Hne & Hk). exists k. split_and!; [done|done|].
  rewrite insert_at by done. case_decide; [congruence|done].
Qed.

(** A philosopher that stops being hungry or eating changes its own place only. *)
Lemma quiet_section x i q p q' p' :
  symposium_ok x → places x !! i = Some q → state x !! i = Some p → p ≠ EATING → p' ≠ EATING →
  p' ≠ HUNGRY → agree q' p' → weight q' < weight q →
  section_post i q (places x) (q', []) (<[i := p']> (state x)).
Proof.
  intros [Hst Hps Ha Hs Hf] Hq Hp Hpe Hpe' Hph Hag Hw.
  pose proof (lookup_lt_Some _ _ _ Hp) as Hi. split; [done|]. split; simpl.
  - by rewrite length_insert.
  - by rewrite length_insert.
  - apply agree_set; try done. lia.
  - by apply safe_calm.
  - apply calm_served; try done. congruence.
Qed.

Lemma hungry_section x i j :
  symposium_ok x → places x !! i = Some (Thinking j) → j < bites →
  ∃ r st', critical_section N bites i (Thinking j) (state x) = Ok (r, st') ∧
    section_post i (Thinking j) (places x) r st'.
Proof.
  intros [Hst Hps Ha Hs Hf] Hq Hj. pose proof (lookup_lt_Some _ _ _ Hq) as Hi.
  destruct (lookup_lt_is_Some_2 (state x) i) as [p Hp]; [lia|].
  pose proof (Ha i _ p Hq Hp) as [-> _]. unfold critical_section. rewrite decide_True by done.
  mrun ltac:(by eapply set_state_run). set (st1 := <[i := HUNGRY]> (state x)).
  assert (length st1 = N) as Hst1 by (unfold st1; by rewrite length_insert).
  assert (safe st1) as Hs1 by (apply safe_calm; [done|lia|done]).
  assert (served [i] st1) as Hf1.
  { intros k Hk. unfold st1. rewrite insert_at by lia. case_decide; [subst; intros _ []; left|].
    intros Hh _. destruct (Hf k Hk Hh) as (m & Hn & Hne & Hm); [by intros ?%not_elem_of_nil|].
    exists m. split_and!; [done|done|]. rewrite insert_at by lia. case_decide; [congruence|done]. }
  destruct (trytoeat_run [] st1 i Hst1 ltac:(lia) Hs1 Hf1) as (b & st' & Hr & Hlen & Hs' & Hf' & Hb).
  mrun ltac:(exact Hr).
  assert (st' !! i = Some (if b then EATING else HUNGRY)) as Hi'.
  { destruct b; [destruct Hb as [_ ->]|subst st']; [apply list_lookup_insert_eq; lia|].
    unfold st1. apply list_lookup_insert_eq. lia. }
  assert (st' = <[i := if b then EATING else HUNGRY]> (state x)) as Heq.
  { destruct b; [destruct Hb as [_ ->]|by subst st']. unfold st1. by rewrite list_insert_insert_eq. }
  mrun ltac:(eapply wait_loop_run; [exact Hi'|destruct b; auto]).
  eexists _, _. split; [reflexivity|]. split; [destruct b; simpl; lia|].
  assert (agree_all st' (<[i := if b then Eating j else Waiting j true]> (places x))) as Hag.
  { rewrite Heq. apply agree_set; try done; [lia|]. by destruct b. }
  destruct b; simpl in *.
  - unfold signal. rewrite list_lookup_insert_eq by lia.
    split; simpl; [done|by rewrite length_insert|exact Hag|done|done].
  - split; simpl; [done|by rewrite length_insert|exact Hag|done|done].
Qed.

Lemma finish_section x i j :
  symposium_ok x → places x !! i = Some (Eating j) →
  ∃ r st', critical_section N bites i (Eating j) (state x) = Ok (r, st') ∧
    section_post i (Eating j) (places x) r st'.
Proof.
  intros [Hst Hps Ha Hs Hf] Hq. pose proof (lookup_lt_Some _ _ _ Hq) as Hi. rewrite Hps in Hi.
  destruct (lookup_lt_is_Some_2 (state x) i) as [p Hp]; [lia|].
  pose proof (Ha i _ p Hq Hp) as [-> Hj]. unfold critical_section.
  mrun ltac:(by eapply set_state_run). set (st1 := <[i := THINKING]> (state x)).
  set (ps1 := <[i := Thinking (S j)]> (places x)).
  assert (length st1 = N) as Hst1 by (unfold st1; by rewrite length_insert).
  assert (length ps1 = N) as Hps1 by (unfold ps1; by rewrite length_insert).
  assert (safe st1) as Hs1 by (apply safe_calm; [done|lia|done]).
  assert (agree_all st1 ps1) as Ha1 by (apply agree_set; try done; simpl; lia).
  assert (LEFT i N < N) as HL by (eapply neighbour_lt; [exact Hi|by left]).
  assert (RIGHT i N < N) as HR by (eapply neighbour_lt; [exact Hi|by right]).
  assert (served [LEFT i N; RIGHT i N] st1) as Hf1.
  { intros k Hk. unfold st1. rewrite insert_at by lia. case_decide; [done|]. intros Hh HE.
    destruct (Hf k Hk Hh) as (m & Hn & Hne & Hm); [by intros ?%not_elem_of_nil|].
    exists m. split_and!; [done|done|]. rewrite insert_at by lia. case_decide; [|done].
    subst m. destruct HE. apply neighbour_sym in Hn as [->| ->]; [left|right; left|done]. }
  destruct (try_run [RIGHT i N] st1 ps1 (LEFT i N) Hst1 Hps1 HL Hs1 Hf1 Ha1)
    as (a & st2 & Hr2 & Hst2 & Hs2 & Hf2 & Hps2 & Ha2). mrun ltac:(exact Hr2).
  set (ps2 := foldl (λ ps k, signal k ps) ps1 (signal_if a (LEFT i N))) in *.
  destruct (try_run [] st2 ps2 (RIGHT i N) Hst2 Hps2 HR Hs2 Hf2 Ha2)
    as (b & st3 & Hr3 & Hst3 & Hs3 & Hf3 & Hps3 & Ha3). mrun ltac:(exact Hr3).
  eexists _, _. split; [reflexivity|]. split; [simpl; lia|]. cbn [fst snd]. fold ps1.
  rewrite foldl_app. fold ps2. by split.
Qed.

Lemma section_run x i q :
  symposium_ok x → places x !! i = Some q → may_step q = true →
  ∃ r st', critical_section N bites i q (state x) = Ok (r, st') ∧ section_post i q (places x) r st'.
Proof.
  intros Hx Hq Hmay. pose proof Hx as [Hst Hps Ha Hs Hf].
  pose proof (lookup_lt_Some _ _ _ Hq) as Hi.
  destruct (lookup_lt_is_Some_2 (state x) i) as [p Hp]; [lia|].
  pose proof (Ha i q p Hq Hp) as Hag. destruct q as [|j|j a|j|]; simpl in Hag; try done.
  - subst p. unfold critical_section. mrun ltac:(by eapply set_state_run).
    eexists _, _. split; [reflexivity|]. eapply quiet_section; try done; simpl; [split; [done|]|]; lia.
  - destruct (decide (j < bites)); [by apply hungry_section|]. destruct Hag as [-> Hj].
    unfold critical_section. rewrite decide_False by done. mrun ltac:(by eapply set_state_run).
    eexists _, _. split; [reflexivity|]. eapply quiet_section; try done; simpl; lia.
  - destruct a; [done|]. destruct Hag as [-> Hj]. unfold critical_section.
    mrun ltac:(eapply wait_loop_run; [exact Hp|by right]). eexists _, _. split; [reflexivity|].
    split; [simpl; lia|]. split; simpl; [done|by rewrite length_insert| |done|done].
    rewrite <-(list_insert_id (state x) i EATING) by done. by apply agree_set; try lia.
  - by apply finish_section.
Qed.
End symposium.

(** ** Progress *)
Section progress.
Context (N bites : nat).

Lemma init_ok : symposium_ok N bites (SymposiumTable_init N).
Proof.
  assert (∀ i p, replicate N NOTHERE !! i = Some p → p = NOTHERE) as Hn
    by (by intros i p [-> _]%lookup_replicate).
  split; simpl; try by rewrite length_replicate.
  - intros i q p [-> _]%lookup_replicate Hp. by apply Hn in Hp.
  - intros i k _ _ _ Hi. by apply Hn in Hi.
  - intros i _ Hi. by apply Hn in Hi.
Qed.

Lemma step_section x y :
  symposium_ok N bites x → symposium_step N bites x y →
  ∃ i q r st', places x !! i = Some q ∧ section_post N bites i q (places x) r st' ∧
    y = Table st' (foldl (λ ps k, signal k ps) (<[i := r.1]> (places x)) r.2).
Proof.
  intros Hx [i q q' sigs st' Hq Hmay Hr]. destruct (section_run N bites x i q Hx Hq Hmay) as (r & st & Hr' & Hpost).
  rewrite Hr in Hr'. simplify_eq. by exists i, q, (q', sigs), st.
Qed.

Lemma step_ok x y : symposium_ok N bites x → symposium_step N bites x y → symposium_ok N bites y.
Proof. intros Hx Hs. by destruct (step_section x y Hx Hs) as (i & q & r & st' & _ & [_ Hok] & ->). Qed.

Lemma symposium_reach_ok y :
  reachable (symposium_step N bites) (SymposiumTable_init N) y → symposium_ok N bites y.
Proof. apply reachable_invariant; [apply init_ok|apply step_ok]. Qed.

Definition total (ps : list place) : nat := sum_list (weight bites <$> ps).

Lemma total_insert ps : ∀ i q q',
  ps !! i = Some q → total (<[i := q']> ps) + weight bites q = total ps + weight bites q'.
Proof.
  unfold total. induction ps as [|p ps IH]; intros [|i] q q' Hq; try done.
  - injection Hq as ->. simpl. lia.
  - specialize (IH i q q' Hq). change (<[S i:=q']> (p :: ps)) with (p :: <[i:=q']> ps).
    rewrite !fmap_cons. cbn [sum_list]. lia.
Qed.

Lemma total_signal k ps : total (signal k ps) = total ps.
Proof.
  unfold signal. destruct (ps !! k) as [[|j|j []|j|]|] eqn:Hk; try done.
  pose proof (total_insert ps k _ (Waiting j false) Hk) as H. cbv beta iota.
  unfold weight in H. lia.
Qed.
Lemma total_signals sigs : ∀ ps, total (foldl (λ ps k, signal k ps) ps sigs) = total ps.
Proof. induction sigs as [|k sigs IH]; intros ps; [done|]. simpl. by rewrite IH, total_signal. Qed.

Lemma step_total x y :
  symposium_ok N bites x → symposium_step N bites x y → total (places y) < total (places x).
Proof.
  intros Hx Hs. destruct (step_section x y Hx Hs) as (i & q & r & st' & Hq & [Hw _] & ->). simpl.
  rewrite total_signals. pose proof (total_insert (places x) i q r.1 Hq). lia.
Qed.

Lemma steps_total n : ∀ x y,
  symposium_ok N bites x → nsteps (symposium_step N bites) n x y → n + total (places y) ≤ total (places x).
Proof.
  induction n as [|n IH]; intros x y Hx Hs; inversion Hs; subst; [lia|].
  pose proof (step_total x _ Hx H0). pose proof (step_ok x _ Hx H0) as Hz.
  pose proof (IH _ _ Hz H1). lia.
Qed.

Lemma nsteps_reach n : ∀ x y,
  nsteps (symposium_step N bites) n x y → symposium_ok N bites x → symposium_ok N bites y.
Proof.
  induction n as [|n IH]; intros x y Hs Hx; inversion Hs; subst; [done|].
  eapply IH; [done|]. by eapply step_ok.
Qed.

(** A philosopher that sleeps has a neighbour that can go on. *)
Lemma progress x :
  symposium_ok N bites x → (∃ i q, places x !! i = Some q ∧ q ≠ Gone) → ∃ y, symposium_step N bites x y.
Proof.
  intros Hx (i & q & Hq & Hne). pose proof Hx as [Hst Hps Ha Hs Hf].
  assert (∀ k p, places x !! k = Some p → may_step p = true → ∃ y, symposium_step N bites x y) as Hgo.
  { intros k p Hp Hmay. destruct (section_run N bites x k p Hx Hp Hmay) as ([q' sigs] & st' & Hr & _).
    eexists. by eapply philosopher_step. }
  destruct (may_step q) eqn:Hmay; [by eapply Hgo|].
  destruct q as [|j|j []|j|]; try done. pose proof (lookup_lt_Some _ _ _ Hq) as Hi. rewrite Hps in Hi.
  destruct (lookup_lt_is_Some_2 (state x) i) as [p Hp]; [lia|].
  destruct (Ha i _ p Hq Hp) as [-> _].
  destruct (Hf i Hi Hp) as (k & Hn & _ & Hk); [by intros ?%not_elem_of_nil|].
  destruct (lookup_lt_is_Some_2 (places x) k) as [qk Hqk]; [apply lookup_lt_Some in Hk; lia|].
  pose proof (Ha k qk EATING Hqk Hk) as Hag.
  apply (Hgo k qk Hqk). destruct qk as [|j'|j' []|j'|]; simpl in Hag; try done; by destruct Hag.
Qed.
End progress.

(** C20 (safety). At the table, whatever the order in which the philosophers enter
    the monitor: no two neighbours eat at the same time; a philosopher that is
    hungry has a neighbour that eats, so that nobody is kept from eating whom the
    forks allow; the array tells where each philosopher is; and no critical section
    that starts fails an assertion or leaves the arrays. *)
Theorem symposium_safe N bites y :
  reachable (symposium_step N bites) (SymposiumTable_init N) y →
  (∀ i k, i < N → k = LEFT i N ∨ k = RIGHT i N → k ≠ i →
     state y !! i = Some EATING → state y !! k ≠ Some EATING) ∧
  (∀ i, i < N → state y !! i = Some HUNGRY →
     ∃ k, (k = LEFT i N ∨ k = RIGHT i N) ∧ k ≠ i ∧ state y !! k = Some EATING) ∧
  (∀ i j a, places y !! i = Some (Waiting j a) → state y !! i = Some (if a then HUNGRY else EATING)) ∧
  (∀ i q, places y !! i = Some q → may_step q = true →
     ∃ r st', critical_section N bites i q (state y) = Ok (r, st')).
Proof.
  intros Hy. pose proof (symposium_reach_ok N bites y Hy) as Hok. pose proof Hok as [Hst Hps Ha Hs Hf].
  split_and!.
  - intros i k Hi Hn Hne. by apply Hs.
  - intros i Hi Hh. destruct (Hf i Hi Hh) as (k & Hn & Hne & Hk); [by intros ?%not_elem_of_nil|].
    by exists k.
  - intros i j a Hq. destruct (lookup_lt_is_Some_2 (state y) i) as [p Hp].
    { apply lookup_lt_Some in Hq. lia. }
    by destruct (Ha i _ p Hq Hp) as [-> _].
  - intros i q Hq Hmay. destruct (section_run N bites y i q Hok Hq Hmay) as (r & st' & Hr & _).
    by exists r, st'.
Qed.

(** C21 (termination). A symposium ends.  No run has more than [3 * bites + 2]
    critical sections per philosopher; and while somebody has not left the table,
    some philosopher can enter the monitor: there is no deadlock, and no wake-up is
    lost. *)
Theorem symposium_ends N bites n y :
  nsteps (symposium_step N bites) n (SymposiumTable_init N) y →
  n ≤ N * (3 * bites + 2) ∧
  ((∀ q, q ∈ places y → q = Gone) ∨ ∃ z, symposium_step N bites y z).
Proof.
  intros Hn. pose proof (init_ok N bites) as Hi. pose proof (nsteps_reach N bites n _ _ Hn Hi) as Hy. split.
  - pose proof (steps_total N bites n _ _ Hi Hn) as Ht.
    assert (total bites (places (SymposiumTable_init N)) = N * (3 * bites + 2)) as Hinit; [|lia].
    unfold total, SymposiumTable_init. cbn [places]. clear. induction N as [|N IH]; [done|].
    rewrite replicate_S, fmap_cons.
    cbn [sum_list weight]. rewrite IH. unfold id. lia.
  - destruct (decide (Forall (λ q, q = Gone) (places y))) as [Hall|Hno].
    + left. intros q Hq. by rewrite Forall_forall in Hall; apply Hall.
    + right. apply not_Forall_Exists in Hno; [|apply _]. apply Exists_exists in Hno as (q & Hq & Hne).
      apply list_elem_of_lookup in Hq as [i Hq]. apply (progress N bites); [done|]. by exists i, q.
Qed.

(** ** Witnesses

    Philosopher [i] runs its next critical section. *)
Definition run_section (N bites i : nat) (x : SymposiumTable) : SymposiumTable :=
  match places x !! i with
  | Some q =>
      match critical_section N bites i q (state x) with
      | Ok ((q', sigs), st') => Table st' (foldl (λ ps k, signal k ps) (<[i := q']> (places x)) sigs)
      | Fault _ => x
      end
  | None => x
  end.

Definition can_run (N bites i : nat) (x : SymposiumTable) : bool :=
  match places x !! i with
  | Some q => may_step q && match critical_section N bites i q (state x) with Ok _ => true | Fault _ => false end
  | None => false
  end.

Lemma run_section_step N bites i x :
  can_run N bites i x = true → symposium_step N bites x (run_section N bites i x).
Proof.
  unfold can_run, run_section. destruct (places x !! i) as [q|] eqn:Hq; [|done].
  intros [Hmay Hr]%andb_prop. destruct (critical_section N bites i q (state x)) as [[[q' sigs] st']|] eqn:He; [|done].
  by eapply philosopher_step.
Qed.

(** Two neighbours of three have come; the first eats and the second waits. *)
Definition demo_table : SymposiumTable :=
  run_section 3 1 1 (run_section 3 1 0 (run_section 3 1 1 (run_section 3 1 0 (SymposiumTable_init 3)))).

Lemma demo_table_steps : nsteps (symposium_step 3 1) 4 (SymposiumTable_init 3) demo_table.
Proof.
  unfold demo_table. repeat (eapply nsteps_r; [|by apply run_section_step]). apply nsteps_O.
Qed.

Lemma symposium_safe_witness :
  places demo_table = [Eating 0; Waiting 0 true; Outside] ∧
  ∃ k, (k = LEFT 1 3 ∨ k = RIGHT 1 3) ∧ k ≠ 1 ∧ state demo_table !! k = Some EATING.
Proof.
  split; [reflexivity|].
  assert (reachable (symposium_step 3 1) (SymposiumTable_init 3) demo_table) as Hy.
  { unfold demo_table. repeat (eapply reach_step; [|by apply run_section_step]). apply reach_refl. }
  apply (proj1 (proj2 (symposium_safe 3 1 demo_table Hy)) 1); [lia|reflexivity].
Defined.

Lemma symposium_ends_witness :
  4 ≤ 3 * (3 * 1 + 2) ∧ ((∀ q, q ∈ places demo_table → q = Gone) ∨ ∃ z, symposium_step 3 1 demo_table z).
Proof. exact (symposium_ends 3 1 4 demo_table demo_table_steps). Defined.
