(* ===== verification/Console.v ===== *)
(** * What the programs of the shell use of the C library

    Bytes and decimal numbers, [atoi], the character classes, and an interface
    [Console] of the stream functions that the programs call, with the laws that the
    proofs rely on; a terminal implements it.  [fidopen] opens a stream without a
    buffer (tinyoslib.c), so that a call of [fgetc] is one [Read] of a byte and what
    is printed is written at once. *)
From stdpp Require Export strings.
From stdpp Require Import pretty.
From S2P Require Import Prelude.
Local Open Scope Z_scope.

(** ** Text *)
Definition text (s : string) : list Z :=
  (λ a, Z.of_N (Ascii.N_of_ascii a)) <$> String.list_ascii_of_string s.
#[global] Arguments text _%_string.
Definition NEWLINE : Z := 10.
(** [%d] and [%zu], and a width, as in [%6zu]. *)
Definition dec (z : Z) : list Z := text (pretty z).
Definition pad (width : nat) (l : list Z) : list Z := replicate (width - length l) 32 ++ l.
(** [%-15s] *)
Definition pad_right (width : nat) (l : list Z) : list Z := l ++ replicate (width - length l) 32.

(** A byte in a [char], which is signed; and [EOF], which a [char] can hold. *)
Definition to_char (b : Z) : Z := if decide (b < 128) then b else b - 256.
Definition EOF : Z := -1.
Definition toupper (c : Z) : Z := if decide (97 ≤ c ≤ 122) then c - 32 else c.
Definition tolower (c : Z) : Z := if decide (65 ≤ c ≤ 90) then c + 32 else c.
Definition isblank (c : Z) : bool := bool_decide (c = 32 ∨ c = 9).
Definition isspace (c : Z) : bool := bool_decide (c = 32 ∨ 9 ≤ c ≤ 13).
Definition isdigit (c : Z) : bool := bool_decide (48 ≤ c ≤ 57).

Fixpoint skip_spaces (l : list Z) : list Z :=
  match l with c :: l' => if isspace c then skip_spaces l' else l | [] => [] end.
Fixpoint digits (l : list Z) (acc : Z) : Z :=
  match l with c :: l => if isdigit c then digits l (acc * 10 + (c - 48)) else acc | [] => acc end.
(** A number that is too large for a [long] is its bound. *)
Definition to_long (z : Z) : Z := Z.max (- 2 ^ 63) (Z.min (2 ^ 63 - 1) z).
Definition atoi (s : list Z) : Z :=
  i32 (to_long
    match skip_spaces s with
    | c :: l => if decide (c = 45) then - digits l 0 else if decide (c = 43) then digits l 0 else digits (c :: l) 0
    | [] => 0
    end).

(** ** Streams *)

(** What [getline] comes to; [GotError eintr]: the error flag is set, and [errno] is
    [EINTR] or not. *)
Inductive line_result := GotLine (l : list Z) | GotEof | GotError (eintr : bool).

(** [fgetc(f)], [fputs(s, f)] and [getline(.., f)] on the stream of a file id, and
    [printf(s)]. *)
Class Console (W : Type) := {
  fgetc : Z → M W (option Z);
  fputs : Z → list Z → M W unit;
  getline : Z → M W line_result;
  printf : list Z → M W unit }.

(** [unread]: the bytes of file id 0 up to its end; [shown]: the bytes written to
    file id 1. *)
Class ConsoleLaws (W : Type) `{Console W} := {
  unread : W → list Z;
  shown : W → list Z;
  unread_bytes w : Forall (λ b, 0 ≤ b < 256) (unread w);
  fgetc_law w : ∃ w', fgetc 0 w = Ok (head (unread w), w') ∧ unread w' = tail (unread w) ∧ shown w' = shown w;
  fputs_law w l : ∃ w', fputs 1 l w = Ok (tt, w') ∧ unread w' = unread w ∧ shown w' = shown w ++ l;
  getline_law w : ∃ r w', getline 1 w = Ok (r, w') ∧ unread w' = unread w ∧ shown w' = shown w;
  printf_law w l : ∃ w', printf l w = Ok (tt, w') ∧ unread w' = unread w ∧ shown w' = shown w ++ l }.

(** [fputc(c, f)] *)
Definition fputc {W} `{Console W} (c fid : Z) : M W unit := fputs fid [c mod 256].

(** [while((c=fgetc(fin))!=EOF) body] *)
Fixpoint getc_loop {W X} `{Console W} (fuel : nat) (fin : Z) (body : X → Z → M W X) (x : X) : M W X :=
  match fuel with
  | O => raise OutOfFuel
  | S fuel =>
      b ← fgetc fin;
      let c := match b with Some b => to_char b | None => EOF end in
      if decide (c = EOF) then mret x
      else x ← body x c; getc_loop fuel fin body x
  end.

(** ** A terminal with its input typed ahead *)
Record tty := Tty { typed : list Z; screen : list Z; keys : list (list Z) }.
#[export] Instance tty_console : Console tty := {
  fgetc fid t :=
    if decide (fid = 0) then
      Ok (head ((λ b, b mod 256) <$> typed t), Tty (tail (typed t)) (screen t) (keys t))
    else Ok (None, t);
  fputs fid l t := Ok (tt, if decide (fid = 1) then Tty (typed t) (screen t ++ l) (keys t) else t);
  getline fid t :=
    match keys t with
    | [] => Ok (GotEof, t)
    | l :: ks => Ok (GotLine l, Tty (typed t) (screen t) ks)
    end;
  printf l t := Ok (tt, Tty (typed t) (screen t ++ l) (keys t)) }.

#[export] Instance tty_laws : ConsoleLaws tty.
Proof.
  refine (Build_ConsoleLaws tty _ (λ t, (λ b, b mod 256) <$> typed t) screen _ _ _ _ _).
  - intros t. apply Forall_fmap, Forall_true. intros b. simpl. apply Z.mod_pos_bound. reflexivity.
  - intros [[|b l] sc ks]; (eexists; split_and!; reflexivity).
  - intros t l. eexists. split_and!; reflexivity.
  - intros [ty sc [|k ks]]; (eexists _, _; split_and!; reflexivity).
  - intros t l. eexists. split_and!; reflexivity.
Defined.

(** ** Reading to the end *)

(** The bytes before the end, which is the first byte that reads as [EOF]. *)
Fixpoint contents (l : list Z) : list Z :=
  match l with b :: l => if decide (b = 255) then [] else b :: contents l | [] => [] end.

(** A program that goes from state to state and prints, character by character. *)
Fixpoint transduce {X} (step : X → Z → X * list Z) (x : X) (cs : list Z) : X * list Z :=
  match cs with
  | [] => (x, [])
  | c :: cs => let '(x, out) := step x c in let '(x, outs) := transduce step x cs in (x, out ++ outs)
  end.

Lemma transduce_silent {X} (f : X → Z → X) cs : ∀ x,
  transduce (λ x c, (f x c, [])) x cs = (foldl f x cs, []).
Proof. induction cs as [|c cs IH]; intros x; [done|]. cbn. by rewrite IH. Qed.

Lemma contents_text l : 255 ∉ l → contents l = l.
Proof.
  induction l as [|b l IH]; intros H; [done|]. apply not_elem_of_cons in H as [Hb Hl]. simpl.
  rewrite decide_False by congruence. by rewrite IH.
Qed.

Lemma contents_app l1 l2 : 255 ∉ l1 → contents (l1 ++ 255 :: l2) = l1.
Proof.
  induction l1 as [|b l IH]; intros H; [done|]. apply not_elem_of_cons in H as [Hb Hl]. simpl.
  rewrite !decide_False by congruence. by rewrite IH.
Qed.

Definition is_byte (b : Z) : Prop := 0 ≤ b < 256.
Lemma contents_bytes l : Forall is_byte l → Forall is_byte (contents l).
Proof. induction 1 as [|b l Hb Hl IH]; simpl; [done|]. case_decide; by constructor. Qed.
Lemma length_contents l : (length (contents l) ≤ length l)%nat.
Proof. induction l as [|b l IH]; simpl; [done|]. case_decide; simpl; lia. Qed.
Lemma to_char_mod b : is_byte b → to_char b mod 256 = b.
Proof.
  unfold is_byte, to_char. intros Hb. case_decide; [by rewrite Z.mod_small by lia|].
  replace (b - 256) with (b + -1 * 256) by lia. by rewrite Z.mod_add, Z.mod_small by lia.
Qed.
Lemma to_char_eq b k : is_byte b → 0 ≤ k < 128 → to_char b = k ↔ b = k.
Proof. unfold is_byte, to_char. intros. case_decide; lia. Qed.

Section console.
Context {W : Type} `{ConsoleLaws W}.

(** The operation adds [out] to what is shown. *)
Definition shows {A} (m : M W A) (a : A) (out : list Z) : Prop :=
  ∀ w, ∃ w', m w = Ok (a, w') ∧ unread w' = unread w ∧ shown w' = shown w ++ out.

Lemma shows_ret {A} (a : A) : shows (mret a) a [].
Proof. intros w. exists w. by rewrite app_nil_r. Qed.
Lemma shows_bind {A B} (m : M W A) (k : A → M W B) a b o1 o2 :
  shows m a o1 → shows (k a) b o2 → shows (m ≫= k) b (o1 ++ o2).
Proof.
  intros Hm Hk w. destruct (Hm w) as (w1 & H1 & Hu1 & Hs1). destruct (Hk w1) as (w2 & H2 & Hu2 & Hs2).
  exists w2. rewrite (bind_run _ _ _ _ _ H1), Hu2, Hs2, Hs1, app_assoc. done.
Qed.
Lemma shows_then {A B} (m : M W A) (k : A → M W B) a b o :
  shows m a o → shows (k a) b [] → shows (m ≫= k) b o.
Proof. intros Hm Hk. rewrite <-(app_nil_r o). by eapply shows_bind. Qed.
Lemma shows_fputs l : shows (fputs 1 l) tt l.
Proof. intros w. apply fputs_law. Qed.
Lemma shows_printf l : shows (printf l) tt l.
Proof. intros w. apply printf_law. Qed.
Lemma shows_fputc c : shows (fputc c 1) tt [c mod 256].
Proof. apply shows_fputs. Qed.

Lemma getc_loop_run {X} (body : X → Z → M W X) (step : X → Z → X * list Z) :
  (∀ x c, shows (body x c) (step x c).1 (step x c).2) →
  ∀ fuel x w, (length (unread w) < fuel)%nat →
  ∃ w', getc_loop fuel 0 body x w = Ok ((transduce step x (to_char <$> contents (unread w))).1, w') ∧
    shown w' = shown w ++ (transduce step x (to_char <$> contents (unread w))).2.
Proof.
  intros Hbody fuel. induction fuel as [|fuel IH]; intros x w Hf; [lia|]. cbn [getc_loop].
  destruct (fgetc_law w) as (w1 & H1 & Hu1 & Hs1). rewrite (bind_run _ _ _ _ _ H1).
  pose proof (unread_bytes w) as Hby.
  destruct (unread w) as [|b l]; cbn [head contents transduce tail length fmap list_fmap] in *.
  { rewrite decide_True by done. exists w1. by rewrite app_nil_r. }
  apply Forall_cons in Hby as [Hb _]. assert (to_char b = EOF ↔ b = 255) as Hiff.
  { unfold to_char, EOF. case_decide; lia. }
  destruct (decide (b = 255)) as [->|Hne].
  { rewrite decide_True by done. exists w1. cbn. by rewrite app_nil_r. }
  rewrite decide_False by naive_solver. cbn [transduce fmap list_fmap].
  destruct (Hbody x (to_char b) w1) as (w2 & H2 & Hu2 & Hs2). rewrite (bind_run _ _ _ _ _ H2).
  destruct (step x (to_char b)) as [x1 o1] eqn:Hst. cbn [fst snd] in *.
  destruct (IH x1 w2) as (w3 & H3 & Hs3); [rewrite Hu2, Hu1; lia|].
  rewrite Hu2, Hu1 in H3, Hs3. exists w3. rewrite H3, Hs3, Hs2, Hs1.
  destruct (transduce step x1 (to_char <$> contents l)) as [x2 o2]. cbn. by rewrite app_assoc.
Qed.
End console.

(** ** Decimal numbers can be read back *)
Lemma digits_pretty x : ∀ s, digits (text (pretty_N_go x s)) 0 = digits (text s) (Z.of_N x).
Proof.
  induction (N.lt_wf_0 x) as [x _ IH]. intros s. destruct (decide (x = 0%N)) as [->|Hx].
  - by rewrite pretty_N_go_0.
  - rewrite pretty_N_go_step by lia. rewrite IH by (apply N.div_lt; lia).
    unfold text. cbn [String.list_ascii_of_string fmap list_fmap digits].
    assert (x mod 10 < 10)%N as Hm by (apply N.mod_lt; lia).
    assert (Z.of_N (Ascii.N_of_ascii (pretty_N_char (x mod 10))) = 48 + Z.of_N (x mod 10)) as ->.
    { unfold pretty_N_char. destruct (x mod 10)%N as [|p]; [done|].
      do 4 (try destruct p as [p|p|]); try done; lia. }
    unfold isdigit. rewrite bool_decide_true by (revert Hm; generalize (x mod 10)%N; lia).
    f_equal. pose proof (N.div_mod x 10). lia.
Qed.

Lemma skip_spaces_digit c l : isdigit c = true → skip_spaces (c :: l) = c :: l.
Proof.
  intros H%bool_decide_eq_true_1. simpl. unfold isspace. by rewrite bool_decide_false by lia.
Qed.

Lemma pretty_go_digit x : (0 < x)%N → ∀ s, ∃ c l, text (pretty_N_go x s) = c :: l ∧ isdigit c = true.
Proof.
  induction (N.lt_wf_0 x) as [x _ IH]. intros Hx s. rewrite pretty_N_go_step by lia.
  destruct (decide (x < 10)%N) as [Hlt|Hge].
  - rewrite (N.div_small x 10) by done. rewrite pretty_N_go_0. rewrite N.mod_small by done.
    exists (48 + Z.of_N x), (text s). unfold text. cbn [String.list_ascii_of_string fmap list_fmap].
    split; [|apply bool_decide_eq_true_2; lia]. f_equal.
    unfold pretty_N_char. destruct x as [|p]; [lia|]. do 4 (try destruct p as [p|p|]); try done; lia.
  - apply IH; [apply N.div_lt; lia|]. apply N.div_str_pos. lia.
Qed.

Lemma digits_dec z : 0 ≤ z → ∃ c l, dec z = c :: l ∧ isdigit c = true ∧ digits (dec z) 0 = z.
Proof.
  intros Hz. destruct z as [|p|p]; [|clear Hz|lia].
  - exists 48, []. done.
  - destruct (pretty_go_digit (N.pos p) ltac:(lia) "") as (c & l & Hc & Hd).
    assert (dec (Z.pos p) = text (pretty_N_go (N.pos p) "")) as Hdec.
    { unfold dec, pretty, pretty_Z, pretty, pretty_positive, pretty, pretty_N. by rewrite decide_False by lia. }
    exists c, l. rewrite Hdec. split_and!; [done|done|]. by rewrite digits_pretty.
Qed.

Lemma atoi_dec z : 0 ≤ z < 2 ^ 31 → atoi (dec z) = z.
Proof.
  intros Hz. destruct (digits_dec z) as (c & l & Hc & Hd & Hv); [lia|]. unfold atoi.
  rewrite Hc, skip_spaces_digit by done. rewrite Hc in Hv. pose proof Hd as Hd'%bool_decide_eq_true_1.
  rewrite !decide_False by lia. rewrite Hv. unfold to_long. rewrite i32_small; lia.
Qed.
