(* ===== verification/Filters.v ===== *)
(** * The filters of the shell (tinyos_shell.c)

    [cap], [lcase], [lenum], [more], [wc] and [echo], over any implementation of the
    stream functions of [Console.v].  A program is a function of its arguments, the
    name first, and returns its exit status; [fuel] bounds the loop over the input,
    and more than the length of the input is enough. *)
From S2P Require Import Prelude Console.
Local Open Scope Z_scope.

(** [getint(n)] *)
Definition getint (argv : list (list Z)) (n : nat) : Z := atoi (default [] (argv !! n)).

Section filters.
Context {W : Type} `{Console W}.

Definition Capitalize (fuel : nat) : M W Z :=
  getc_loop fuel 0 (λ _ c, fputc (toupper c) 1) tt ;; mret 0.
Definition LowerCase (fuel : nat) : M W Z :=
  getc_loop fuel 0 (λ _ c, fputc (tolower c) 1) tt ;; mret 0.

Fixpoint echo_loop (i : nat) (args : list (list Z)) : M W unit :=
  match args with
  | [] => mret tt
  | a :: args => when (1 <? i)%nat (fputs 1 [32]) ;; fputs 1 a ;; echo_loop (S i) args
  end.
Definition Echo (argv : list (list Z)) : M W Z :=
  echo_loop 1 (tail argv) ;; fputs 1 [NEWLINE] ;; mret 0.

(** The body of the loop of [LineEnum] and [More], with the variables [atend] and
    [count]; [start count] is what it does at the start of a line. *)
Definition line_body (start : Z → M W unit) (x : bool * Z) (c : Z) : M W (bool * Z) :=
  x ← (if x.1 : bool then let count := u64 (x.2 + 1) in start count ;; mret (false, count) else mret x);
  fputc c 1 ;;
  mret (if decide (c = NEWLINE) then true else x.1, x.2).

Definition line_number (count : Z) : list Z := pad 6 (dec count) ++ text ": ".
Definition LineEnum (fuel : nat) : M W Z :=
  getc_loop fuel 0 (line_body (λ count, fputs 1 (line_number count))) (true, 0) ;; mret 0.

Definition page_size (argv : list (list Z)) : Z :=
  if decide (2 ≤ length argv)%nat then getint argv 1 else 25.
Definition press_enter : list Z := text "press enter to continue:".
(** [page] is converted to the type of [count]. *)
Definition more_start (page count : Z) : M W unit :=
  if decide (u64 page = 0) then raise DivByZero
  else if decide (count mod u64 page = 0) then fputs 1 press_enter ;; getline 1 ;; mret tt
  else mret tt.
Definition More (fuel : nat) (argv : list (list Z)) : M W Z :=
  getc_loop fuel 0 (line_body (more_start (page_size argv))) (true, 0) ;; mret 0.

Record wc_state := Wc { nchar : Z; nword : Z; nline : Z; wspace : bool }.
Definition wc_step (x : wc_state) (c : Z) : wc_state :=
  let x := Wc (u64 (nchar x + 1)) (nword x) (nline x) (wspace x) in
  let x := if wspace x && negb (isblank c) then Wc (nchar x) (u64 (nword x + 1)) (nline x) false else x in
  let x := if decide (c = NEWLINE) then Wc (nchar x) (nword x) (u64 (nline x + 1)) true else x in
  if isblank c then Wc (nchar x) (nword x) (nline x) true else x.
Definition WordCount (fuel : nat) : M W Z :=
  x ← getc_loop fuel 0 (λ x c, mret (wc_step x c)) (Wc 0 0 0 true);
  printf (pad 8 (dec (nline x)) ++ [32] ++ pad 8 (dec (nword x)) ++ [32] ++ pad 8 (dec (nchar x)) ++ [NEWLINE]) ;;
  mret 0.
End filters.

(** ** Reference definitions *)

(** A text as its lines, each with its newline; the last one may lack it. *)
Fixpoint lines (l : list Z) : list (list Z) :=
  match l with
  | [] => []
  | c :: l =>
      if decide (c = NEWLINE) then [c] :: lines l
      else match lines l with [] => [[c]] | ln :: lns => (c :: ln) :: lns end
  end.
(** Line [n] has [pre n] before it. *)
Fixpoint numbered (pre : Z → list Z) (n : Z) (lns : list (list Z)) : list Z :=
  match lns with [] => [] | ln :: lns => pre n ++ ln ++ numbered pre (n + 1) lns end.

Definition prompt (page n : Z) : list Z := if decide (n mod u64 page = 0) then press_enter else [].

(** The characters that satisfy [P] and come after a blank or a newline; [p] comes
    before the first one. *)
Definition separator (c : Z) : bool := isblank c || bool_decide (c = NEWLINE).
Definition starts_after (p : Z) (P : Z → bool) (l : list Z) : nat :=
  length (filter (λ x, separator x.1 && P x.2) (zip (p :: l) l)).
Definition words (l : list Z) : nat := starts_after NEWLINE (λ c, negb (separator c)) l.
Definition stray_newlines (l : list Z) : nat := starts_after NEWLINE (λ c, bool_decide (c = NEWLINE)) l.
Definition newlines (l : list Z) : nat := length (filter (λ c, c = NEWLINE) l).

(** ** Lines *)
Definition num_step (pre : Z → list Z) (x : bool * Z) (c : Z) : (bool * Z) * list Z :=
  let n := if x.1 : bool then u64 (x.2 + 1) else x.2 in
  ((bool_decide (c = NEWLINE), n), (if x.1 : bool then pre n else []) ++ [c mod 256]).

Lemma lines_length l : (length (lines l) ≤ length l)%nat.
Proof.
  induction l as [|c l IH]; simpl; [done|]. case_decide; [simpl; lia|].
  destruct (lines l); simpl in *; lia.
Qed.

Lemma num_run pre l : ∀ b n, Forall is_byte l → 0 ≤ n → n + Z.of_nat (length l) < 2 ^ 64 →
  (transduce (num_step pre) (b, n) (to_char <$> l)).2 =
    if b then numbered pre (n + 1) (lines l)
    else match lines l with [] => [] | ln :: lns => ln ++ numbered pre (n + 1) lns end.
Proof.
  induction l as [|c l IH]; intros b n Hl Hn Hlen; [by destruct b|].
  apply Forall_cons in Hl as [Hc Hl]. cbn [fmap list_fmap transduce length lines] in *.
  set (m := if b : bool then u64 (n + 1) else n).
  assert (m = if b : bool then n + 1 else n) as Hm.
  { unfold m. destruct b; [|done]. rewrite u64_small; lia. }
  assert (num_step pre (b, n) (to_char c)
    = ((bool_decide (c = NEWLINE), m), (if b : bool then pre m else []) ++ [c])) as ->.
  { unfold num_step. cbn [fst snd]. fold m. rewrite to_char_mod by done. do 2 f_equal.
    unfold NEWLINE. apply bool_decide_ext. by rewrite to_char_eq by (done || lia). }
  specialize (IH (bool_decide (c = NEWLINE)) m Hl ltac:(destruct b; lia) ltac:(destruct b; lia)).
  destruct (transduce (num_step pre) (bool_decide (c = NEWLINE), m) (to_char <$> l)) as [x out].
  cbn [snd] in *. subst out. rewrite Hm. destruct (decide (c = NEWLINE)) as [->|Hc10].
  - rewrite bool_decide_true by done. destruct b; cbn [numbered]; rewrite <-?app_assoc; done.
  - rewrite bool_decide_false by done. destruct (lines l) as [|ln lns]; destruct b; cbn [numbered];
      rewrite <-?app_assoc; done.
Qed.

(** The body of a loop that numbers lines: what it does at the start of a line, and
    the rest of it. *)
Section line_filters.
Context {W : Type} `{ConsoleLaws W}.

Lemma line_body_shows pre (x : bool * Z) c (start : Z → M W unit) :
  (∀ n, shows (start n) tt (pre n)) →
  shows (line_body start x c) (num_step pre x c).1 (num_step pre x c).2.
Proof.
  intros Hs. unfold num_step, line_body. destruct x as [b n]; cbn [fst snd].
  apply (shows_bind _ _ (false, if b then u64 (n + 1) else n)).
  - destruct b; [|apply shows_ret]. eapply shows_then; [apply Hs|apply shows_ret].
  - eapply shows_then; [apply shows_fputc|]. cbn [fst snd].
    case_decide; [rewrite bool_decide_true by done|rewrite bool_decide_false by done]; apply shows_ret.
Qed.

Lemma more_start_shows page n : u64 page ≠ 0 → shows (more_start page n) tt (prompt page n).
Proof.
  intros Hp. unfold more_start, prompt. rewrite decide_False by done. case_decide; [|apply shows_ret].
  eapply shows_then; [apply shows_fputs|]. intros w. destruct (getline_law w) as (r & w' & Hr & Hu & Hsh).
  exists w'. rewrite (bind_run _ _ _ _ _ Hr), app_nil_r. done.
Qed.

Lemma numbering_run pre start (w : W) fuel :
  (∀ n, shows (start n) tt (pre n)) →
  (length (unread w) < fuel)%nat → Z.of_nat (length (unread w)) < 2 ^ 64 - 1 →
  ∃ w', (getc_loop fuel 0 (line_body start) (true, 0) ;; mret 0) w = Ok (0, w') ∧
    shown w' = shown w ++ numbered pre 1 (lines (contents (unread w))).
Proof.
  intros Hb Hf Hlen. destruct (getc_loop_run _ _ (λ x c, line_body_shows pre x c start Hb) fuel (true, 0) w Hf) as (w' & Hr & Hs).
  exists w'. rewrite (bind_run _ _ _ _ _ Hr). split; [done|]. rewrite Hs, num_run; [done| |lia|].
  - apply contents_bytes, unread_bytes.
  - pose proof (length_contents (unread w)). lia.
Qed.
End line_filters.

Lemma concat_lines l : concat (lines l) = l.
Proof.
  induction l as [|c l IH]; simpl; [done|]. case_decide; simpl; [by rewrite IH|].
  destruct (lines l) as [|ln lns]; simpl in *; by rewrite <-IH.
Qed.

Lemma i32_range z : - 2 ^ 31 ≤ i32 z < 2 ^ 31.
Proof. unfold i32. pose proof (Z.mod_pos_bound (z + 2 ^ 31) (2 ^ 32)). lia. Qed.

Lemma u64_int_zero z : - 2 ^ 31 ≤ z < 2 ^ 31 → u64 z = 0 ↔ z = 0.
Proof.
  intros Hz. unfold u64. destruct (decide (0 ≤ z)); [rewrite Z.mod_small by lia; lia|].
  replace z with (z + 2 ^ 64 + -1 * 2 ^ 64) by lia. rewrite Z.mod_add, Z.mod_small by lia. lia.
Qed.

Lemma page_size_zero argv : u64 (page_size argv) = 0 ↔ page_size argv = 0.
Proof.
  apply u64_int_zero. unfold page_size. case_decide; [apply i32_range|done].
Qed.

(** The line filters.  [lenum] copies its input with the number of
    each line before it, and [more] copies it with a prompt before each line whose
    number is a multiple of the page, up to the first byte 0xFF; nothing is
    lost or reordered.  [more 0] divides by zero at the first character. *)
Theorem line_filters_spec {W} `{ConsoleLaws W} fuel argv w :
  (length (unread w) < fuel)%nat → Z.of_nat (length (unread w)) < 2 ^ 64 - 1 →
  let lns := lines (contents (unread w)) in
  concat lns = contents (unread w) ∧
  (∃ w', LineEnum fuel w = Ok (0, w') ∧ shown w' = shown w ++ numbered line_number 1 lns) ∧
  (page_size argv ≠ 0 → ∃ w', More fuel argv w = Ok (0, w') ∧
     shown w' = shown w ++ numbered (prompt (page_size argv)) 1 lns) ∧
  (page_size argv = 0 → lns ≠ [] → More fuel argv w = Fault DivByZero).
Proof.
  intros Hf Hlen lns. split_and!.
  - apply concat_lines.
  - apply numbering_run; [intros n; apply shows_fputs|done..].
  - intros Hp. apply numbering_run; [intros n; apply more_start_shows; by rewrite page_size_zero|done..].
  - intros Hp Hl. assert (head (unread w) ≠ None ∧ head (unread w) ≠ Some 255) as [Hn H255].
    { subst lns. destruct (unread w) as [|b l]; [done|]. split; [done|]. intros [= ->]. by apply Hl. }
    destruct fuel as [|fuel]; [lia|]. unfold More. cbn [getc_loop].
    destruct (fgetc_law w) as (w1 & H1 & _). mstep. rewrite (bind_run _ _ _ _ _ H1).
    destruct (head (unread w)) as [b|] eqn:Hb; [|done].
    rewrite decide_False.
    + unfold line_body, more_start. cbn [fst]. rewrite decide_True by (by apply page_size_zero). done.
    + pose proof (unread_bytes w) as Hby. destruct (unread w) as [|b' l]; [done|]. injection Hb as ->.
      apply Forall_cons in Hby as [Hb _]. unfold to_char, EOF. case_decide; [lia|]. intros ?.
      apply H255. f_equal. lia.
Qed.

Lemma line_filters_spec_witness :
  ∃ t1 t2, LineEnum 9 (Tty (text "ab" ++ [10] ++ text "c") [] []) = Ok (0, t1) ∧
    screen t1 = text "     1: ab" ++ [10] ++ text "     2: c" ∧
    More 9 [text "more"; text "0"] (Tty (text "ab") [] []) = Fault DivByZero ∧
    More 9 [text "more"; text "2"] (Tty (text "ab" ++ [10] ++ text "c") [] []) = Ok (0, t2) ∧
    screen t2 = text "ab" ++ [10] ++ press_enter ++ text "c".
Proof.
  destruct (line_filters_spec 9 [text "more"; text "2"] (Tty (text "ab" ++ [10] ++ text "c") [] [])
    ltac:(apply Nat.ltb_lt; reflexivity) ltac:(reflexivity)) as (_ & (t1 & H1 & Hs1) & H2 & _).
  destruct H2 as (t2 & H2 & Hs2); [discriminate|].
  destruct (line_filters_spec 9 [text "more"; text "0"] (Tty (text "ab") [] [])
    ltac:(apply Nat.ltb_lt; reflexivity) ltac:(reflexivity)) as (_ & _ & _ & H3).
  exists t1, t2. split_and!; [exact H1|exact Hs1|apply H3; [reflexivity|discriminate]|exact H2|exact Hs2].
Defined.

(** ** Counting *)
Lemma isblank_char c : is_byte c → isblank (to_char c) = isblank c.
Proof.
  intros Hc. unfold isblank. apply bool_decide_ext. rewrite !to_char_eq by (done || lia). done.
Qed.

Lemma starts_after_cons p P c l :
  starts_after p P (c :: l) = ((if separator p && P c then 1 else 0) + starts_after c P l)%nat.
Proof.
  unfold starts_after. cbn [zip zip_with]. destruct (separator p && P c) eqn:Hb.
  - rewrite filter_cons_True by (cbn [fst snd]; by rewrite Hb). done.
  - rewrite filter_cons_False by (cbn [fst snd]; rewrite Hb; by intros []). done.
Qed.

Lemma starts_split l : ∀ p,
  starts_after p (λ c, negb (isblank c)) l
  = (starts_after p (λ c, negb (separator c)) l + starts_after p (λ c, bool_decide (c = NEWLINE)) l)%nat.
Proof.
  induction l as [|c l IH]; intros p; [done|]. rewrite !starts_after_cons, IH.
  assert (isblank c && bool_decide (c = NEWLINE) = false).
  { case_bool_decide as Hc; [subst c; done|apply andb_false_r]. }
  assert (separator c = isblank c || bool_decide (c = NEWLINE)) as -> by done.
  destruct (separator p), (isblank c), (bool_decide (c = NEWLINE)); simpl in *; first [lia|congruence].
Qed.

Lemma wc_run l : ∀ x p, Forall is_byte l → wspace x = separator p →
  0 ≤ nchar x ∧ 0 ≤ nword x ∧ 0 ≤ nline x →
  nchar x + Z.of_nat (length l) < 2 ^ 64 → nword x + Z.of_nat (length l) < 2 ^ 64 →
  nline x + Z.of_nat (length l) < 2 ^ 64 →
  ∃ ws, foldl wc_step x (to_char <$> l) =
    Wc (nchar x + Z.of_nat (length l))
      (nword x + Z.of_nat (starts_after p (λ c, negb (isblank c)) l))
      (nline x + Z.of_nat (newlines l)) ws.
Proof.
  induction l as [|c l IH]; intros x p Hl Hp Hpos H1 H2 H3.
  - exists (wspace x). cbn. rewrite !Z.add_0_r. by destruct x.
  - apply Forall_cons in Hl as [Hc Hl]. cbn [fmap list_fmap foldl length] in *.
    set (n1 := if separator p && negb (isblank c) then 1 else 0).
    set (n2 := if decide (c = NEWLINE) then 1 else 0).
    assert (wc_step x (to_char c) = Wc (nchar x + 1) (nword x + n1) (nline x + n2) (separator c)) as ->.
    { assert (to_char c = NEWLINE ↔ c = NEWLINE) as Hnl by (apply to_char_eq; [done|unfold NEWLINE; lia]).
      unfold wc_step. rewrite (isblank_char c), (decide_ext _ _ _ _ Hnl) by done. cbn [nchar nword nline wspace].
      rewrite Hp. unfold n1, n2.
      destruct (separator p) eqn:?, (isblank c) eqn:Hb, (decide (c = NEWLINE)) as [Hd|Hd]; cbn;
        rewrite ?Z.add_0_r, ?u64_small by lia; try done;
        unfold separator; by rewrite Hb, ?(bool_decide_true _ Hd), ?(bool_decide_false _ Hd). }
    destruct (IH (Wc (nchar x + 1) (nword x + n1) (nline x + n2) (separator c)) c) as [ws ->];
      cbn [nchar nword nline wspace]; [done|done|unfold n1, n2; repeat case_match; lia..|]. exists ws.
    assert (starts_after p (λ c, negb (isblank c)) (c :: l)
      = (Z.to_nat n1 + starts_after c (λ c, negb (isblank c)) l)%nat) as ->.
    { rewrite starts_after_cons. unfold n1. by case_match. }
    assert (newlines (c :: l) = (Z.to_nat n2 + newlines l)%nat) as ->.
    { unfold newlines, n2. case_decide; [by rewrite filter_cons_True|by rewrite filter_cons_False]. }
    f_equal; unfold n1, n2; repeat case_match; lia.
Qed.

(** C29 (equivalence). [wc] counts the bytes and the newlines of its input up to the
    first byte 0xFF.  Its number of words is that of the words, plus the number of
    newlines that come first, or after a blank or another newline: each empty line
    counts as a word. *)
Theorem WordCount_spec {W} `{ConsoleLaws W} fuel w :
  (length (unread w) < fuel)%nat → Z.of_nat (length (unread w)) < 2 ^ 64 →
  let l := contents (unread w) in
  ∃ w', WordCount fuel w = Ok (0, w') ∧
    shown w' = shown w ++ pad 8 (dec (Z.of_nat (newlines l))) ++ [32]
      ++ pad 8 (dec (Z.of_nat (words l + stray_newlines l))) ++ [32]
      ++ pad 8 (dec (Z.of_nat (length l))) ++ [NEWLINE].
Proof.
  intros Hf Hlen l. set (step := λ x c, (wc_step x c, @nil Z)).
  destruct (getc_loop_run (λ x c, mret (wc_step x c)) step (λ x c, shows_ret _) fuel (Wc 0 0 0 true) w Hf)
    as (w1 & Hr & Hs). unfold step in Hr, Hs.
  rewrite transduce_silent in Hr, Hs. cbn [fst snd] in Hr, Hs. rewrite app_nil_r in Hs.
  pose proof (length_contents (unread w)) as Hle. fold l in Hle, Hr, Hs.
  destruct (wc_run l (Wc 0 0 0 true) NEWLINE) as [ws Hx]; cbn [nchar nword nline wspace];
    [apply contents_bytes, unread_bytes|done|unfold l in *; lia..|]. cbn [nchar nword nline] in Hx. rewrite Hx in Hr.
  destruct (printf_law w1 (pad 8 (dec (Z.of_nat (newlines l))) ++ [32]
      ++ pad 8 (dec (Z.of_nat (words l + stray_newlines l))) ++ [32]
      ++ pad 8 (dec (Z.of_nat (length l))) ++ [NEWLINE])) as (w2 & Hr2 & _ & Hs2).
  exists w2. unfold WordCount. rewrite (bind_run _ _ _ _ _ Hr). cbn [nchar nword nline].
  rewrite !Z.add_0_l, starts_split. fold (words l) (stray_newlines l).
  rewrite (bind_run _ _ _ _ _ Hr2). split; [done|]. by rewrite Hs2, Hs.
Qed.

Lemma WordCount_spec_witness :
  ∃ t, WordCount 9 (Tty (text "a b" ++ [10; 10]) [] []) = Ok (0, t) ∧
    screen t = text "       2        3        5" ++ [10].
Proof.
  destruct (WordCount_spec 9 (Tty (text "a b" ++ [10; 10]) [] [])) as (t & Hr & Hs);
    [apply Nat.ltb_lt; reflexivity|reflexivity|].
  exists t. split; [exact Hr|exact Hs].
Defined.

(** ** Case, and [echo] *)
Lemma case_byte (f : Z → Z) c : (∀ c, 128 ≤ c ∨ c < 0 → f c = c) → (∀ c, 0 ≤ c < 128 → 0 ≤ f c < 256) →
  is_byte c → f (to_char c) mod 256 = f c.
Proof.
  unfold is_byte, to_char. intros Hf Hr Hc. case_decide.
  - apply Z.mod_small. apply Hr. lia.
  - rewrite !Hf by lia. replace (c - 256) with (c + -1 * 256) by lia. by rewrite Z.mod_add, Z.mod_small by lia.
Qed.

Lemma map_filter_run {W} `{ConsoleLaws W} f fuel w :
  (∀ c, is_byte c → f (to_char c) mod 256 = f c) → (length (unread w) < fuel)%nat →
  ∃ w', (getc_loop fuel 0 (λ _ c, fputc (f c) 1) tt ;; mret 0) w = Ok (0, w') ∧
    shown w' = shown w ++ (f <$> contents (unread w)).
Proof.
  intros Hc Hf. destruct (getc_loop_run (λ _ c, fputc (f c) 1) (λ _ c, (tt, [f c mod 256]))
    (λ _ c, shows_fputc (f c)) fuel tt w Hf) as (w' & Hr & Hs).
  exists w'. rewrite (bind_run _ _ _ _ _ Hr), Hs. split; [done|]. f_equal.
  pose proof (contents_bytes _ (unread_bytes w)) as Hb.
  clear Hr Hs. induction Hb as [|c l Hc' Hl IH]; [done|].
  rewrite !fmap_cons. cbn [transduce]. rewrite Hc by done.
  destruct (transduce _ tt (to_char <$> l)) as [[] o] eqn:Ho. cbn in IH |- *. by rewrite IH.
Qed.

(** [cap] and [lcase] copy their input with the case changed, up to the first byte
    0xFF, which reads as the end of the input. *)
Lemma case_filters_spec {W} `{ConsoleLaws W} fuel w :
  (length (unread w) < fuel)%nat →
  (∃ w', Capitalize fuel w = Ok (0, w') ∧ shown w' = shown w ++ (toupper <$> contents (unread w))) ∧
  (∃ w', LowerCase fuel w = Ok (0, w') ∧ shown w' = shown w ++ (tolower <$> contents (unread w))).
Proof.
  intros Hf. split; apply map_filter_run; try done; intros c Hc; apply case_byte; try done;
    intros d Hd; unfold toupper, tolower; case_decide; lia.
Qed.

Fixpoint join (args : list (list Z)) : list Z :=
  match args with [] => [] | a :: args => [32] ++ a ++ join args end.

Lemma echo_loop_shows {W} `{ConsoleLaws W} args : ∀ i, (1 < i)%nat → shows (echo_loop i args) tt (join args).
Proof.
  induction args as [|a args IH]; intros i Hi; [apply shows_ret|]. cbn [echo_loop join].
  rewrite (proj2 (Nat.ltb_lt 1 i)) by done. eapply shows_bind; [apply shows_fputs|].
  eapply shows_bind; [apply shows_fputs|]. apply IH. lia.
Qed.

(** [echo] prints its arguments with a blank between them. *)
Lemma Echo_spec {W} `{ConsoleLaws W} argv : shows (Echo argv) 0 (tail (join (tail argv)) ++ [NEWLINE]).
Proof.
  unfold Echo. destruct (tail argv) as [|a args].
  - eapply shows_bind; [apply shows_ret|]. eapply shows_then; [apply shows_fputs|apply shows_ret].
  - eapply shows_bind.
    + cbn [echo_loop join app tail]. rewrite <-(app_nil_l (a ++ _)). eapply shows_bind; [apply shows_ret|].
      eapply shows_bind; [apply shows_fputs|]. apply echo_loop_shows. lia.
    + eapply shows_then; [apply shows_fputs|apply shows_ret].
Qed.
