(* ===== verification/Commands.v ===== *)
(** * The commands of the shell (tinyos_shell.c)

    The interface to the system that the programs use, the table of commands, and
    the commands that take numbers: [hanoi], [fibo], [repeat], [runterm], [ls] and
    [help].  Filters are in [Filters.v], the command line in [Shell.v]. *)
From S2P Require Import Prelude Kernel Console Filters Symposium.
Local Open Scope Z_scope.

(** ** The system, as programs see it (tinyos.h, tinyoslib.h) *)

(** The functions of type [Program]: those of the table, and [rsrv_process]. *)
Inductive Program :=
  | HelpMessage_prog | ListPrograms_prog | SystemInfo_prog | RunTerm_prog | Shell_prog
  | Repeat_prog | Fibonacci_prog | Capitalize_prog | LowerCase_prog | WordCount_prog
  | LineEnum_prog | More_prog | Symposium_proc_prog | Symposium_thr_prog | Hanoi_prog
  | RemoteServer_prog | RemoteClient_prog | Echo_prog | rsrv_process_prog.
#[export] Instance Program_eq_dec : EqDecision Program.
Proof. solve_decision. Defined.

(** [Pipe] stores the two file ids of its pipe, reading and writing, if it succeeds. *)
Class Files (W : Type) := {
  GetTerminalDevices : M W Z;
  OpenTerminal : Z → M W Z;
  OpenNull : M W Z;
  Dup2 : Z → Z → M W Z;
  Close : Z → M W Z;
  Pipe : M W (option (Z * Z)) }.
Class Spawn (W : Type) := { Execute : Program → list (list Z) → M W Z }.
(** The result of [WaitChild], and the exit status that it stores if it succeeds. *)
Class Waits (W : Type) := { WaitChild : Z → M W (Z * option Z) }.

(** ** The table *)
Record command := Command {
  cmdname : list Z; prog : Program; nargs : Z; help : list Z }.
Definition cmd (name : string) (p : Program) (n : Z) (h : string) : option command :=
  Some (Command (text name) p n (text h)).
#[global] Arguments cmd _%_string _ _ _%_string.

(** The entry with a null name is [None]. *)
Definition COMMANDS : list (option command) := [
  cmd "help" HelpMessage_prog 0 "A help message.";
  cmd "ls" ListPrograms_prog 0 "List available programs programs.";
  cmd "sysinfo" SystemInfo_prog 0 "Print some basic info about the current system.";
  cmd "runterm" RunTerm_prog 2 "runterm <term> <prog>  <args...> : execute '<prog> <args...>' on terminal <term>.";
  cmd "sh" Shell_prog 0 "Run a shell.";
  cmd "repeat" Repeat_prog 2 "repeat <n> <prog> <args...>: execute '<prog> <args...>' <n> times.";
  cmd "fibo" Fibonacci_prog 1 "Compute a fibonacci number.";
  cmd "cap" Capitalize_prog 0 "Copy stdin to stdout, capitalizing all letters";
  cmd "lcase" LowerCase_prog 0 "Copy stdin to stdout, lower-casing all letters";
  cmd "wc" WordCount_prog 0 "Count and print lines, words and chars of stdin";
  cmd "lenum" LineEnum_prog 0 "Copy stdin to stdout, adding line numbers";
  cmd "more" More_prog 0 "more [<n>] (default: <n>=20). Read the input <n> lines at a time.";
  cmd "symposium" Symposium_proc_prog 2 "Dining Philosophers(processes): symposium  <philosophers> <bites>";
  cmd "symp_thr" Symposium_thr_prog 2 "Dining Philosophers(threads): symp_thr  <philosophers> <bites>";
  cmd "hanoi" Hanoi_prog 1 "The towers of Hanoi.";
  cmd "rserver" RemoteServer_prog 0 "A server for remote execution.";
  cmd "rcli" RemoteClient_prog 1 "Remote client: rcli <cmd> [<args...>].";
  cmd "echo" Echo_prog 0 "echo [<args...>], send the <args...> to stdout";
  None ].

(** [while(COMMANDS[c++].cmdname);] *)
Fixpoint count_programs (l : list (option command)) (c : Z) : outcome Z :=
  match l with
  | [] => Fault OutOfBounds
  | o :: l => match o with Some _ => count_programs l (c + 1) | None => Ok (c + 1) end
  end.
Definition programs : outcome Z := count_programs COMMANDS 0.

Fixpoint find_command (l : list (option command)) (c : Z) (name : list Z) : Z :=
  match l with
  | Some k :: l => if decide (cmdname k = name) then c else find_command l (c + 1) name
  | _ => -1
  end.
Definition getprog_byname (name : list Z) : Z := find_command COMMANDS 0 name.
(** [getprog(n)] *)
Definition getprog (argv : list (list Z)) (n : nat) : Z := getprog_byname (default [] (argv !! n)).
(** [COMMANDS[c].prog] *)
Definition prog_at (c : Z) : option Program := k ← COMMANDS !! Z.to_nat c; prog <$> k.

Section commands.
Context {W : Type} `{Console W}.

(** [checkargs(argno)], before the rest of a program. *)
Definition checkargs (argno : nat) (argv : list (list Z)) (rest : M W Z) : M W Z :=
  if decide (length argv ≤ argno)%nat then
    printf (text "Insufficient arguments. " ++ dec (Z.of_nat argno) ++ text " expected, "
      ++ dec (Z.of_nat (length argv) - 1) ++ text " given." ++ [NEWLINE]) ;;
    mret (-1)
  else rest.

Definition HelpMessage : M W Z :=
  printf (text "This is a simple shell for tinyos." ++ [NEWLINE; NEWLINE]
    ++ text "You can run some simple commands. Every command takes a" ++ [NEWLINE]
    ++ text "only **integer** arguments. The list of commands and the" ++ [NEWLINE]
    ++ text "number of arguments for each command is shown by" ++ [NEWLINE]
    ++ text "typing 'ls'. " ++ [NEWLINE; NEWLINE]
    ++ text "When you are tired of playing, type 'exit' to quit." ++ [NEWLINE]) ;;
  mret 0.

Fixpoint list_loop (l : list (option command)) (c : Z) : M W unit :=
  match l with
  | Some k :: l =>
      printf (pad 3 (dec c) ++ text "  " ++ pad_right 20 (cmdname k) ++ text " " ++ pad 2 (dec (nargs k))
        ++ text "   " ++ help k ++ [NEWLINE]) ;;
      list_loop l (c + 1)
  | _ => mret tt
  end.
Definition ListPrograms : M W Z :=
  printf (text "no.  " ++ pad_right 15 (text "Command") ++ text " no.of.args   help " ++ [NEWLINE]) ;;
  printf (text "---------------------------------------------------" ++ [NEWLINE]) ;;
  list_loop COMMANDS 0 ;;
  mret 0.

Definition move_line (m : Z * Z) : list Z :=
  text "Move the top disk from tile " ++ pad 2 (dec m.1) ++ text " to tile " ++ pad 2 (dec m.2) ++ [NEWLINE].
Fixpoint hanoi (n : nat) (a b c : Z) : M W unit :=
  match n with
  | O => mret tt
  | S n => hanoi n a c b ;; printf (move_line (a, b)) ;; hanoi n c b a
  end.
Definition hanoi_title (n : Z) : list Z :=
  text "We shall move " ++ dec n ++ text " disks from tile 1 to tile 2 via tile 3." ++ [NEWLINE].
Definition Hanoi (argv : list (list Z)) : M W Z :=
  checkargs 1 argv
    (let n := getint argv 1 in
     let MAXN := 15 in
     if decide (n < 1 ∨ MAXN < n) then
       printf (text "The argument must be between 1 and " ++ dec MAXN ++ text "." ++ [NEWLINE]) ;; mret n
     else
       printf (hanoi_title n) ;;
       hanoi (Z.to_nat n) 1 2 3 ;;
       mret 0).

(** The argument of [fibo] is unsigned, and its result is printed as an [int]. *)
Definition Fibonacci (argv : list (list Z)) : M W Z :=
  checkargs 1 argv
    (let n := getint argv 1 in
     printf (text "Fibonacci(" ++ dec n ++ text ")=" ++ dec (i32 (fibo (Z.to_nat (u32 n)))) ++ [NEWLINE]) ;;
     mret 0).

Context `{Files W, Spawn W, Waits W}.

(** [while(times--)]; below the least [int], where C leaves it undefined, it wraps. *)
Fixpoint repeat_loop (fuel : nat) (times : Z) (p : Program) (av : list (list Z)) : M W unit :=
  match fuel with
  | O => raise OutOfFuel
  | S fuel =>
      if decide (times = 0) then mret tt
      else Execute p av ;; WaitChild NOPROC ;; repeat_loop fuel (i32 (times - 1)) p av
  end.
Definition Repeat (fuel : nat) (argv : list (list Z)) : M W Z :=
  checkargs 2 argv
    (let times := getint argv 1 in
     let c := getprog argv 2 in
     if decide (c < 0) then
       printf (text "Program not found. See 'ls' for program names." ++ [NEWLINE]) ;; mret c
     else
       when (bool_decide (times < 0))
         (printf (text "Cannot execute a negative number of times!" ++ [NEWLINE])) ;;
       p ← get_some OutOfBounds (prog_at c);
       repeat_loop fuel times p (drop 2 argv) ;;
       mret 0).

Definition RunTerm (argv : list (list Z)) : M W Z :=
  checkargs 2 argv
    (let term := getint argv 1 in
     let c := getprog argv 2 in
     bad ← (if decide (term < 0) then mret true
            else n ← GetTerminalDevices; mret (bool_decide (n ≤ u32 term)));
     if bad : bool then
       printf (text "The terminal provided is not valid: " ++ dec term ++ [NEWLINE]) ;; mret 1
     else if decide (c < 0) then
       printf (text "The program provided is not valid: " ++ default [] (argv !! 2%nat) ++ [NEWLINE]) ;; mret 2
     else
       termfid ← OpenTerminal term;
       when (bool_decide (termfid ≠ 0)) (Dup2 termfid 0 ;; Close termfid ;; mret tt) ;;
       Dup2 0 1 ;;
       p ← get_some OutOfBounds (prog_at c);
       Execute p (drop 2 argv)).
End commands.

(** ** The table can be searched *)
Lemma programs_counts_terminator : programs = Ok 19.
Proof. reflexivity. Qed.

Lemma find_command_found l : ∀ c name i, find_command l c name = i → i ≠ -1 → 0 ≤ c →
  c ≤ i ∧ ∃ k, l !! Z.to_nat (i - c) = Some (Some k) ∧ cmdname k = name.
Proof.
  induction l as [|[k|] l IH]; intros c name i Hf Hi Hc; cbn [find_command] in Hf; [congruence| |congruence].
  case_decide as Hn.
  - subst. split; [lia|]. exists k. rewrite Z.sub_diag. done.
  - destruct (IH (c + 1) name i Hf Hi) as (Hle & k' & Hk & Hn'); [lia|]. split; [lia|]. exists k'.
    split; [|done]. replace (Z.to_nat (i - c)) with (S (Z.to_nat (i - (c + 1)))) by lia. done.
Qed.

Lemma getprog_found name c :
  getprog_byname name = c → 0 ≤ c → ∃ k, COMMANDS !! Z.to_nat c = Some (Some k) ∧ cmdname k = name.
Proof.
  intros Hf Hc. destruct (find_command_found COMMANDS 0 name c) as (_ & k & Hk & Hn); [done|lia|done|].
  exists k. by rewrite Z.sub_0_r in Hk.
Qed.

(** ** The towers of Hanoi

    The moves that are printed, and the rules of the game: the disks on each tile, by
    size, from the top. *)
Fixpoint hanoi_moves (n : nat) (a b c : Z) : list (Z * Z) :=
  match n with
  | O => []
  | S n => hanoi_moves n a c b ++ (a, b) :: hanoi_moves n c b a
  end.

Definition move_disk (m : Z * Z) (t : gmap Z (list nat)) : option (gmap Z (list nat)) :=
  match t !! m.1, t !! m.2 with
  | Some (d :: from), Some to =>
      if decide (Forall (λ e, d < e)%nat to) then Some (<[m.2 := d :: to]> (<[m.1 := from]> t)) else None
  | _, _ => None
  end.
Fixpoint play (ms : list (Z * Z)) (t : gmap Z (list nat)) : option (gmap Z (list nat)) :=
  match ms with [] => Some t | m :: ms => t ← move_disk m t; play ms t end.

(** Two maps over the three tiles agree at [i]. *)
Ltac by_keys i a b c :=
  destruct (decide (i = a)) as [?|]; [|destruct (decide (i = b)) as [?|]; [|destruct (decide (i = c)) as [?|]]];
  subst; by simplify_map_eq.

Lemma play_app ms1 ms2 t : play (ms1 ++ ms2) t = t ← play ms1 t; play ms2 t.
Proof.
  revert t. induction ms1 as [|m ms IH]; intros t; [done|]. simpl. destruct (move_disk m t); simpl; [apply IH|done].
Qed.

Lemma hanoi_play n : ∀ a b c t la lb lc,
  a ≠ b → b ≠ c → a ≠ c →
  t !! a = Some (seq 1 n ++ la) → t !! b = Some lb → t !! c = Some lc →
  Forall (λ e, n < e)%nat la → Forall (λ e, n < e)%nat lb → Forall (λ e, n < e)%nat lc →
  play (hanoi_moves n a b c) t = Some (<[a := la]> (<[b := seq 1 n ++ lb]> t)).
Proof.
  induction n as [|n IH]; intros a b c t la lb lc Hab Hbc Hac Ha Hb Hc Fa Fb Fc.
  - cbn. f_equal. apply map_eq. intros i. by_keys i a b c.
  - cbn [hanoi_moves]. rewrite play_app.
    assert (∀ l, Forall (λ e, S n < e)%nat l → Forall (λ e, n < e)%nat l) as Hw
      by (intros l Hl; eapply Forall_impl; [exact Hl|cbn; intros; lia]).
    rewrite (IH a c b t (S n :: la) lc lb); [|congruence..| |done|done|constructor; [lia|auto]|auto|auto].
    2: { rewrite Ha, seq_S, <-app_assoc. done. }
    cbn [mbind option_bind play]. unfold move_disk. cbn [fst snd]. simplify_map_eq.
    rewrite (IH c b a _ lc (S n :: lb) la); [|congruence..| | | |auto|constructor; [lia|auto]|auto]; [|by simplify_map_eq..].
    f_equal. apply map_eq. intros i.
    change (1%nat :: seq 2 n ++ lb) with (seq 1 (S n) ++ lb).
    rewrite seq_S, <-app_assoc. cbn [app].
    by_keys i a b c.
Qed.

Lemma hanoi_count n : ∀ a b c, Z.of_nat (length (hanoi_moves n a b c)) = 2 ^ Z.of_nat n - 1.
Proof.
  induction n as [|n IH]; intros a b c; [done|]. cbn [hanoi_moves]. rewrite length_app. cbn [length].
  rewrite !Nat2Z.inj_add, (Nat2Z.inj_succ (length _)), !IH, Nat2Z.inj_succ, Z.pow_succ_r by lia. lia.
Qed.

Lemma hanoi_shows {W} `{ConsoleLaws W} n : ∀ a b c, shows (hanoi n a b c) tt (concat (move_line <$> hanoi_moves n a b c)).
Proof.
  induction n as [|n IH]; intros a b c; [apply shows_ret|]. cbn [hanoi hanoi_moves].
  rewrite fmap_app, concat_app. eapply shows_bind; [apply IH|]. cbn [fmap list_fmap concat].
  eapply shows_bind; [apply shows_printf|apply IH].
Qed.

(** [hanoi] solves the puzzle.  For an argument from 1 to 15 the
    program prints a line for each move of a list that never puts a disk on a
    smaller one, takes all disks from tile 1 to tile 2, and has 2^n - 1 moves; any
    other number is refused, and is the exit status. *)
Theorem Hanoi_solves {W} `{ConsoleLaws W} argv :
  (2 ≤ length argv)%nat →
  let n := getint argv 1 in
  (1 ≤ n ≤ 15 → ∃ ms,
     shows (Hanoi argv) 0 (hanoi_title n ++ concat (move_line <$> ms)) ∧
     Z.of_nat (length ms) = 2 ^ n - 1 ∧
     play ms (<[1 := seq 1 (Z.to_nat n)]> (<[2 := []]> {[3 := []]})) =
       Some (<[1 := []]> (<[2 := seq 1 (Z.to_nat n)]> {[3 := []]}))) ∧
  (¬ 1 ≤ n ≤ 15 → ∃ out, shows (Hanoi argv) n out).
Proof.
  intros Hargc n. split.
  - intros Hn. exists (hanoi_moves (Z.to_nat n) 1 2 3). split_and!.
    + unfold Hanoi, checkargs. rewrite decide_False by lia. fold n. cbv zeta. rewrite decide_False by lia.
      eapply shows_bind; [apply shows_printf|].
      eapply shows_then; [apply hanoi_shows|apply shows_ret].
    + rewrite hanoi_count. f_equal. f_equal. lia.
    + rewrite (hanoi_play _ 1 2 3 _ [] [] []); [| | | |by simplify_map_eq/=; rewrite app_nil_r|by simplify_map_eq..|done|done|done];
        try done. rewrite !app_nil_r. f_equal.
  - intros Hn. eexists. unfold Hanoi, checkargs. rewrite decide_False by lia. fold n. cbv zeta.
    rewrite decide_True by lia. eapply shows_then; [apply shows_printf|apply shows_ret].
Qed.

Lemma Hanoi_solves_witness :
  (∃ t, Hanoi [text "hanoi"; text "1"] (Tty [] [] []) = Ok (0, t)) ∧
  (∃ t, Hanoi [text "hanoi"; text "-1"] (Tty [] [] []) = Ok (-1, t)).
Proof.
  split.
  - destruct (Hanoi_solves (W := tty) [text "hanoi"; text "1"]) as [H1 _]; [apply Nat.leb_le; reflexivity|].
    destruct H1 as (ms & Hs & _); [split; discriminate|]. destruct (Hs (Tty [] [] [])) as (t & Ht & _). by exists t.
  - destruct (Hanoi_solves (W := tty) [text "hanoi"; text "-1"]) as [_ H1]; [apply Nat.leb_le; reflexivity|].
    destruct H1 as (out & Hs); [intros [H _]; by apply H|]. destruct (Hs (Tty [] [] [])) as (t & Ht & _). by exists t.
Defined.

(** ** Repeating a command

    What [Repeat] needs of the system: programs are started and waited for, and the
    others leave the list of the started ones alone. *)
Class StartLaws (W : Type) `{Console W, Spawn W, Waits W} := {
  started : W → list (Program * list (list Z));
  execute_law p av w : ∃ pid w', Execute p av w = Ok (pid, w') ∧ started w' = started w ++ [(p, av)];
  wait_law pid w : ∃ r w', WaitChild pid w = Ok (r, w') ∧ started w' = started w;
  printf_start_law l w : ∃ w', printf l w = Ok (tt, w') ∧ started w' = started w }.

(** A terminal, with a record of the programs that are started; they end at once. *)
Record desk := Desk { desk_tty : tty; desk_started : list (Program * list (list Z)) }.
Definition set_tty (t : tty) (d : desk) : desk := Desk t (desk_started d).
#[export] Instance desk_console : Console desk := {
  fgetc fid := zoom desk_tty set_tty (fgetc fid);
  fputs fid l := zoom desk_tty set_tty (fputs fid l);
  getline fid := zoom desk_tty set_tty (getline fid);
  printf l := zoom desk_tty set_tty (printf l) }.
#[export] Instance desk_spawn : Spawn desk := {
  Execute p av d := Ok (Z.of_nat (2 + length (desk_started d)), Desk (desk_tty d) (desk_started d ++ [(p, av)])) }.
#[export] Instance desk_waits : Waits desk := { WaitChild pid d := Ok ((pid, Some 0), d) }.
#[export] Instance desk_start_laws : StartLaws desk.
Proof.
  refine (Build_StartLaws desk _ _ _ desk_started _ _ _).
  - intros p av d. eexists _, _. split; reflexivity.
  - intros pid d. eexists _, _. split; reflexivity.
  - intros l d. eexists. split; reflexivity.
Defined.

Lemma u32_i32 z : u32 (i32 z) = u32 z.
Proof.
  unfold u32, i32. rewrite Zminus_mod, Z.mod_mod, <-Zminus_mod by lia. f_equal. lia.
Qed.
Lemma u32_minus_one z : u32 z ≠ 0 → u32 (z - 1) = u32 z - 1.
Proof.
  unfold u32. intros Hz. pose proof (Z.mod_pos_bound z (2 ^ 32) ltac:(lia)).
  rewrite Zminus_mod, (Z.mod_small 1) by lia. rewrite Z.mod_small; lia.
Qed.

Section repeat.
Context {W : Type} `{StartLaws W}.

Lemma repeat_loop_run fuel : ∀ times p av w,
  - 2 ^ 31 ≤ times < 2 ^ 31 → (Z.to_nat (u32 times) < fuel)%nat →
  ∃ w', repeat_loop fuel times p av w = Ok (tt, w') ∧
    started w' = started w ++ replicate (Z.to_nat (u32 times)) (p, av).
Proof.
  induction fuel as [|fuel IH]; intros times p av w Ht Hf; [lia|]. cbn [repeat_loop].
  destruct (decide (times = 0)) as [->|Hne]; [exists w; by rewrite app_nil_r|].
  assert (u32 times ≠ 0) as Hu.
  { unfold u32. destruct (decide (0 ≤ times)); [rewrite Z.mod_small; lia|].
    replace times with (times + 2 ^ 32 + -1 * 2 ^ 32) by lia. rewrite Z.mod_add, Z.mod_small by lia. lia. }
  pose proof (u32_range times) as Hr.
  destruct (execute_law p av w) as (pid & w1 & Hr1 & Hs1). rewrite (bind_run _ _ _ _ _ Hr1).
  destruct (wait_law NOPROC w1) as (r & w2 & Hr2 & Hs2). rewrite (bind_run _ _ _ _ _ Hr2).
  assert (u32 (i32 (times - 1)) = u32 times - 1) as Hp by (by rewrite u32_i32, u32_minus_one).
  destruct (IH (i32 (times - 1)) p av w2) as (w3 & Hr3 & Hs3); [apply i32_range|rewrite Hp; lia|].
  exists w3. split; [exact Hr3|]. rewrite Hs3, Hs2, Hs1, Hp, <-app_assoc. f_equal.
  replace (Z.to_nat (u32 times)) with (S (Z.to_nat (u32 times - 1))) by lia. done.
Qed.
End repeat.

(** C39 (bounds). [repeat] starts its program, with the rest of the arguments, as
    many times as its first argument says, taken as an unsigned number: for a
    negative number it prints an error, and then starts the program 2^32 + n
    times. *)
Theorem Repeat_counts {W} `{StartLaws W} fuel argv w c p :
  (2 < length argv)%nat → getprog argv 2 = c → 0 ≤ c → prog_at c = Some p →
  (Z.to_nat (u32 (getint argv 1)) < fuel)%nat →
  ∃ w', Repeat fuel argv w = Ok (0, w') ∧
    started w' = started w ++ replicate (Z.to_nat (u32 (getint argv 1))) (p, drop 2 argv).
Proof.
  intros Hargc Hg Hc Hp Hf. unfold Repeat, checkargs. rewrite decide_False by lia. cbv zeta.
  rewrite Hg. rewrite decide_False by lia.
  set (times := getint argv 1) in *.
  assert (∃ w1, (when (bool_decide (times < 0))
    (printf (text "Cannot execute a negative number of times!" ++ [NEWLINE]))) w = Ok (tt, w1) ∧ started w1 = started w)
    as (w1 & Hr1 & Hs1).
  { case_bool_decide; [apply printf_start_law|by exists w]. }
  rewrite (bind_run _ _ _ _ _ Hr1). rewrite run_some with (a := p) by done.
  destruct (repeat_loop_run fuel times p (drop 2 argv) w1) as (w2 & Hr2 & Hs2); [apply i32_range|done|].
  exists w2. rewrite (bind_run _ _ _ _ _ Hr2). split; [done|]. by rewrite Hs2, Hs1.
Qed.

Lemma Repeat_counts_witness :
  ∃ d, Repeat 4 [text "repeat"; text "3"; text "ls"] (Desk (Tty [] [] []) []) = Ok (0, d) ∧
    desk_started d = replicate 3 (ListPrograms_prog, [text "ls"]).
Proof.
  destruct (Repeat_counts 4 [text "repeat"; text "3"; text "ls"] (Desk (Tty [] [] []) []) 1 ListPrograms_prog)
    as (d & Hr & Hs); [apply Nat.ltb_lt; reflexivity|reflexivity|discriminate|reflexivity|apply Nat.ltb_lt; reflexivity|].
  exists d. split; [exact Hr|exact Hs].
Defined.
