(* ===== verification/Shell.v ===== *)
(** * The command line (tinyos_shell.c)

    [Shell] reads lines, breaks them up and runs them; [process_line] splits a line
    into the fragments of a pipeline, checks them, and starts a process for each;
    [boot_shell] and [main] start the shells. *)
From S2P Require Import Prelude Kernel Console Filters Commands.
Local Open Scope Z_scope.

(** ** The fragments of a pipeline

    The arrays [Vargc] and [Vargv] of [process_line], of length [argc]; an entry that
    was not written is [None], and [Vargv[i]] is an index into [argv]. *)
Record fragments := Fragments { Vargc : list (option Z); Vargv : list (option nat); frag : nat }.
Abbreviation FM := (M fragments).

Definition bar : list Z := text "|".
Definition get_vargc (i : nat) : FM Z :=
  s ← get; o ← get_some OutOfBounds (Vargc s !! i); get_some Indeterminate o.
Definition set_vargc (i : nat) (n : Z) : FM unit :=
  s ← get; get_some OutOfBounds (Vargc s !! i) ;;
  modify (λ s, Fragments (<[i := Some n]> (Vargc s)) (Vargv s) (frag s)).
Definition set_vargv (i j : nat) : FM unit :=
  s ← get; get_some OutOfBounds (Vargv s !! i) ;;
  modify (λ s, Fragments (Vargc s) (<[i := Some j]> (Vargv s)) (frag s)).
Definition set_frag (i : nat) : FM unit := modify (λ s, Fragments (Vargc s) (Vargv s) i).

(** The body of the loop over the arguments. *)
Definition split_arg (i : nat) (arg : list Z) : FM unit :=
  f ← gets frag;
  if decide (arg ≠ bar) then
    n ← get_vargc f;
    set_vargc f (i32 (n + 1)) ;;
    when (bool_decide (i32 (n + 1) = 1)) (set_vargv f i)
  else set_frag (S f) ;; set_vargc (S f) 0.
Fixpoint split_loop (i : nat) (argv : list (list Z)) : FM unit :=
  match argv with
  | [] => mret tt
  | arg :: argv => split_arg i arg ;; split_loop (S i) argv
  end.
Definition split_line (argv : list (list Z)) : FM unit :=
  set_vargc 0 0 ;; split_loop 0 argv ;; f ← gets frag; set_frag (S f).

(** What the check of the fragments prints. *)
Inductive line_error := EmptyFragment | CommandNotFound (name : list Z).
Definition error_line (e : line_error) : list Z :=
  match e with
  | EmptyFragment => text "Error: a pipeline fragment was empty." ++ [NEWLINE]
  | CommandNotFound name => text "Command not found: '" ++ name ++ text "'" ++ [NEWLINE]
  end.

(** Fragment [i]: its arguments, [Vargc[i]] of them at [Vargv[i]]. *)
Definition fragment_args (argv : list (list Z)) (i : nat) : FM (list (list Z)) :=
  n ← get_vargc i;
  if decide (n = 0) then mret []
  else
    s ← get;
    o ← get_some OutOfBounds (Vargv s !! i);
    j ← get_some Indeterminate o;
    mret (take (Z.to_nat n) (drop j argv)).

(** The loop that checks [count] fragments from [i] on: an error, or the command and
    the arguments of each.  The search for the command is [getprog_byname] written
    out again. *)
Fixpoint check_loop (argv : list (list Z)) (i count : nat) : FM (line_error + list (Z * list (list Z))) :=
  match count with
  | O => mret (inr [])
  | S count =>
      args ← fragment_args argv i;
      match args with
      | [] => mret (inl EmptyFragment)
      | name :: _ =>
          let c := getprog_byname name in
          if decide (c < 0) then mret (inl (CommandNotFound name))
          else
            r ← check_loop argv (S i) count;
            mret (match r with inl e => inl e | inr l => inr ((c, args) :: l) end)
      end
  end.

Definition parse_line (argv : list (list Z)) : outcome (line_error + list (Z * list (list Z))) :=
  let argc := length argv in
  match (split_line argv ;; f ← gets frag; check_loop argv 0 f)
          (Fragments (replicate argc None) (replicate argc None) 0) with
  | Ok (r, _) => Ok r
  | Fault f => Fault f
  end.

(** ** Running a line *)
Section run.
Context {W : Type} `{Console W, Files W, Spawn W}.

Definition savefid (fsaved : Z) : M W Z :=
  savior ← OpenNull;
  c_assert (bool_decide (savior ≠ NOFILE)) ;;
  Dup2 fsaved savior ;;
  mret savior.

(** The pipeline; [pipe] is the variable of that name, and the result is [child]. *)
Fixpoint start_loop (savein saveout : Z) (pipe : Z * Z) (frags : list (Z * list (list Z))) : M W (list Z) :=
  match frags with
  | [] => mret []
  | (comd, args) :: rest =>
      let more := match rest with [] => false | _ => true end in
      pipe ← (if more : bool then
                r ← Pipe; let pipe := default pipe r in
                Dup2 pipe.2 1 ;; Close pipe.2 ;; mret pipe
              else Dup2 saveout 1 ;; Close saveout ;; mret pipe);
      p ← get_some OutOfBounds (prog_at comd);
      child ← Execute p args;
      (if more : bool then Dup2 pipe.1 0 ;; Close pipe.1 else Dup2 savein 0 ;; Close savein) ;;
      children ← start_loop savein saveout pipe rest;
      mret (child :: children)
  end.
Definition start_pipeline (pipe : Z * Z) (frags : list (Z * list (list Z))) : M W (list Z) :=
  savein ← savefid 0;
  saveout ← savefid 1;
  start_loop savein saveout pipe frags.

Context `{Waits W}.

(** The wait for the children; [exitval] is only written when [WaitChild] succeeds. *)
Fixpoint wait_loop (children : list Z) (frags : list (Z * list (list Z))) : M W unit :=
  match children, frags with
  | child :: children, (_, args) :: frags =>
      r ← WaitChild child;
      exitval ← get_some Indeterminate r.2;
      when (bool_decide (exitval ≠ 0))
        (printf (default [] (head args) ++ text " exited with status " ++ dec exitval ++ [NEWLINE])) ;;
      wait_loop children frags
  | _, _ => mret tt
  end.

Definition process_line (pipe : Z * Z) (argv : list (list Z)) : M W Z :=
  match parse_line argv with
  | Fault f => raise f
  | Ok (inl e) => printf (error_line e) ;; mret 0
  | Ok (inr frags) =>
      children ← start_pipeline pipe frags;
      wait_loop children frags ;;
      mret 1
  end.

Definition process_builtin (argv : list (list Z)) : M W Z :=
  if decide (head argv = Some (text "?")) then
    printf (text "Type 'help' for help, 'exit' to quit." ++ [NEWLINE]) ;; mret 1
  else mret 0.
End run.

(** ** Breaking up a line

    [strtok_r] with the delimiters of the shell: a token and what follows the
    delimiter after it, or nothing. *)
Definition is_delim (c : Z) : bool := bool_decide (c = 32 ∨ c = 10 ∨ c = 9).
Fixpoint skip_delims (s : list Z) : list Z :=
  match s with c :: s' => if is_delim c then skip_delims s' else s | [] => [] end.
Fixpoint token (s : list Z) : list Z * list Z :=
  match s with
  | [] => ([], [])
  | c :: s => if is_delim c then ([], s) else let '(t, rest) := token s in (c :: t, rest)
  end.
Definition strtok_r (s : list Z) : option (list Z * list Z) :=
  match skip_delims s with [] => None | s => Some (token s) end.
Fixpoint break_up (n : nat) (s : list Z) : list (list Z) :=
  match n with
  | O => []
  | S n => match strtok_r s with None => [] | Some (t, rest) => t :: break_up n rest end
  end.
Definition ARGN : nat := 128.

(** The string in a buffer ends at the first zero; and what is left of it when its
    first token was cut off. *)
Fixpoint c_string (l : list Z) : list Z :=
  match l with c :: l => if decide (c = 0) then [] else c :: c_string l | [] => [] end.
Definition cut_line (s : list Z) : list Z :=
  match strtok_r s with
  | None => s
  | Some (t, _) => take (length s - length (skip_delims s)) s ++ t
  end.

(** ** The shell *)
Section shell.
Context {W : Type} `{Console W, Files W, Spawn W, Waits W}.

(** [getline], again while it was interrupted. *)
Fixpoint read_line (fuel : nat) : M W line_result :=
  match fuel with
  | O => raise OutOfFuel
  | S fuel =>
      r ← getline 0;
      match r with GotError true => read_line fuel | _ => mret r end
  end.

(** The turns of the loop; [cmdline] is the string in the buffer, [None] before
    anything was stored there.  [pipe] is what the variable of [process_line]
    holds at first. *)
Fixpoint shell_loop (fuel : nat) (pipe : Z * Z) (cmdline : option (list Z)) : M W Z :=
  match fuel with
  | O => raise OutOfFuel
  | S fuel' =>
      fputs 1 (text "% ") ;;
      r ← read_line fuel;
      match r with
      | GotEof => fputs 1 (text "Exiting" ++ [NEWLINE]) ;; mret 0
      | _ =>
          line ← get_some Indeterminate (match r with GotLine l => Some (c_string l) | _ => cmdline end);
          let argv := break_up (ARGN - 1) line in
          let cmdline := Some (cut_line line) in
          match argv with
          | [] => shell_loop fuel' pipe cmdline
          | name :: _ =>
              if decide (name = text "exit") then
                mret (if decide (2 ≤ length argv)%nat then getint argv 1 else 0)
              else
                b ← process_builtin argv;
                (if decide (b ≠ 0) then mret tt else process_line pipe argv ;; mret tt) ;;
                shell_loop fuel' pipe cmdline
          end
      end
  end.
Definition Shell (fuel : nat) (pipe : Z * Z) : M W Z :=
  fputs 1 (text "Starting tinyos shell" ++ [NEWLINE] ++ text "Type 'help' for help, 'exit' to quit." ++ [NEWLINE]) ;;
  shell_loop fuel pipe None.

(** ** Starting the shells

    [switch_stdio] and [restore_stdio] are [tinyos_replace_stdio] and
    [tinyos_restore_stdio], and [pseudo_console] is [tinyos_pseudo_console]. *)
Context (switch_stdio restore_stdio pseudo_console : M W unit).

(** [while(WaitChild(NOPROC, NULL)!=NOPROC);] *)
Fixpoint wait_all (fuel : nat) : M W unit :=
  match fuel with
  | O => raise OutOfFuel
  | S fuel => r ← WaitChild NOPROC; if decide (r.1 ≠ NOPROC) then wait_all fuel else mret tt
  end.

Definition open_as (term fid : Z) : M W unit :=
  fd ← OpenTerminal term;
  when (bool_decide (fd ≠ fid)) (Dup2 fd fid ;; Close fd ;; mret tt).
Definition start_shell : M W unit :=
  p ← get_some OutOfBounds (prog_at (getprog_byname (text "sh")));
  Execute p [text "sh"] ;; mret tt.
Definition terminal_shell (i : nat) : M W unit :=
  open_as (Z.of_nat i) 0 ;; open_as (Z.of_nat i) 1 ;; start_shell ;; Close 0 ;; mret tt.
Definition console_shell : M W unit := Close 0 ;; Close 1 ;; pseudo_console ;; start_shell.

Definition boot_shell (fuel : nat) : M W Z :=
  n ← GetTerminalDevices;
  let nshells := if decide (0 < n) then n else 1 in
  switch_stdio ;;
  (if decide (n ≠ 0) then for_each (seq 0 (Z.to_nat nshells)) terminal_shell
   else for_each (seq 0 (Z.to_nat nshells)) (λ _, console_shell)) ;;
  wait_all fuel ;;
  restore_stdio ;;
  mret 0.
End shell.

(** [main]: the numbers of cores and terminals that it boots with, or the exit with
    [usage]. *)
Definition main (argv : list (list Z)) : option (Z * Z) :=
  if decide (length argv ≠ 3)%nat then None else Some (u32 (getint argv 1), u32 (getint argv 2)).

(** ** What parsing promises *)

(** The arguments between the bars. *)
Fixpoint segments (argv : list (list Z)) : list (list (list Z)) :=
  match argv with
  | [] => [[]]
  | a :: argv =>
      if decide (a = bar) then [] :: segments argv
      else match segments argv with [] => [[a]] | s :: ss => (a :: s) :: ss end
  end.
(** The first segment that is not a command decides the error. *)
Fixpoint check_segments (ss : list (list (list Z))) : line_error + list (Z * list (list Z)) :=
  match ss with
  | [] => inr []
  | [] :: _ => inl EmptyFragment
  | (name :: args) :: ss =>
      if decide (getprog_byname name < 0) then inl (CommandNotFound name)
      else match check_segments ss with
           | inl e => inl e
           | inr l => inr ((getprog_byname name, name :: args) :: l)
           end
  end.
Definition bars (argv : list (list Z)) : nat := length (filter (λ a, a = bar) argv).

Lemma segments_snoc l a : ∃ ss s, segments l = ss ++ [s] ∧
  segments (l ++ [a]) = if decide (a = bar) then ss ++ [s; []] else ss ++ [s ++ [a]].
Proof.
  induction l as [|x l (ss & s & Hl & Ha)].
  - exists [], []. split; [done|]. simpl. by case_decide.
  - cbn [app segments]. rewrite Ha, Hl. destruct (decide (x = bar)) as [->|Hx].
    + exists ([] :: ss), s. split; [done|]. by case_decide.
    + destruct ss as [|s0 ss].
      * exists [], (x :: s). split; [done|]. by case_decide.
      * exists ((x :: s0) :: ss), s. split; [done|]. by case_decide.
Qed.

Lemma length_segments l : length (segments l) = S (bars l).
Proof.
  unfold bars. induction l as [|x l IH]; [done|]. cbn [segments]. destruct (decide (x = bar)) as [->|Hx].
  - rewrite filter_cons_True by done. simpl. by rewrite IH.
  - rewrite filter_cons_False by done. destruct (segments l); [done|]. exact IH.
Qed.

Lemma bars_le l : (bars l ≤ length l)%nat.
Proof. unfold bars. apply length_filter. Qed.
Lemma bars_app l1 l2 : bars (l1 ++ l2) = (bars l1 + bars l2)%nat.
Proof. unfold bars. by rewrite filter_app, length_app. Qed.

(** The segments of the arguments that are read are in the arrays. *)
Definition written (s : fragments) (done : list (list Z)) (j : nat) (seg : list (list Z)) (last : bool) : Prop :=
  Vargc s !! j = Some (Some (Z.of_nat (length seg))) ∧
  (seg ≠ [] → ∃ st, Vargv s !! j = Some (Some st) ∧ take (length seg) (drop st done) = seg ∧
    (if last then st + length seg = length done else st + length seg ≤ length done)%nat).
Record split_ok (argc : nat) (done : list (list Z)) (s : fragments) : Prop := SplitOk {
  sp_argc : length (Vargc s) = argc;
  sp_argv : length (Vargv s) = argc;
  sp_frag : S (frag s) = length (segments done);
  sp_written j seg : segments done !! j = Some seg → written s done j seg (bool_decide (S j = length (segments done))) }.

Lemma written_grow s done a j seg last :
  written s done j seg last → written s (done ++ [a]) j seg false.
Proof.
  intros [Hc Hv]. split; [done|]. intros Hne. destruct (Hv Hne) as (st & Hst & Ht & Hl). exists st.
  assert (st + length seg ≤ length done)%nat as Hle by (destruct last; lia).
  split_and!; [done| |rewrite length_app; lia].
  rewrite drop_app_le by lia. rewrite take_app_le; [done|]. rewrite length_drop. lia.
Qed.

Lemma set_vargc_run i n s : (i < length (Vargc s))%nat →
  set_vargc i n s = Ok (tt, Fragments (<[i := Some n]> (Vargc s)) (Vargv s) (frag s)).
Proof.
  intros Hi. unfold set_vargc. mstep. destruct (lookup_lt_is_Some_2 (Vargc s) i Hi) as [x Hx].
  by rewrite run_some with (a := x).
Qed.
Lemma set_vargv_run i j s : (i < length (Vargv s))%nat →
  set_vargv i j s = Ok (tt, Fragments (Vargc s) (<[i := Some j]> (Vargv s)) (frag s)).
Proof.
  intros Hi. unfold set_vargv. mstep. destruct (lookup_lt_is_Some_2 (Vargv s) i Hi) as [x Hx].
  by rewrite run_some with (a := x).
Qed.

Lemma written_other s done j seg l i x o f :
  i ≠ j → written s done j seg l →
  written (Fragments (<[i := x]> (Vargc s)) (match o with Some y => <[i := Some y]> (Vargv s) | None => Vargv s end) f)
    done j seg l.
Proof.
  intros Hij [Hc Hv]. unfold written. cbn [Vargc Vargv]. rewrite list_lookup_insert_ne by done.
  split; [done|]. intros Hne. destruct o; [|auto]. rewrite list_lookup_insert_ne by done. auto.
Qed.

Lemma split_bar argc done s :
  split_ok argc done s → (S (frag s) < argc)%nat →
  ∃ s', split_arg (length done) bar s = Ok (tt, s') ∧ split_ok argc (done ++ [bar]) s'.
Proof.
  intros [Hc Hv Hf Hw] Hlt. destruct (segments_snoc done bar) as (ss & seg & Hss & Hsb).
  rewrite decide_True in Hsb by done. rewrite Hss, length_app in Hf. cbn [length] in Hf.
  eexists. split.
  - unfold split_arg. mstep. rewrite decide_False by tauto. unfold set_frag. mstep.
    apply set_vargc_run. cbn [Vargc]. lia.
  - cbn [Vargc Vargv frag]. split; cbn [Vargc Vargv frag];
      [by rewrite length_insert|done|rewrite Hsb, length_app; simpl; lia|].
    intros j sg. rewrite Hsb. replace (ss ++ [seg; []]) with ((ss ++ [seg]) ++ [[]]) by (by rewrite <-app_assoc).
    intros [Hj|[Hj Hsg]]%lookup_app_Some.
    + assert (j < length (ss ++ [seg]))%nat as Hjl by (by apply lookup_lt_Some in Hj).
      rewrite bool_decide_false by (rewrite !length_app in *; simpl in *; lia).
      rewrite <-Hss in Hj. apply (written_other s _ _ _ _ _ _ None).
      * rewrite length_app in Hjl. simpl in Hjl. lia.
      * eapply written_grow. by apply Hw.
    + rewrite length_app in Hj, Hsg. cbn [length] in Hj, Hsg.
      destruct (j - (length ss + 1))%nat as [|k] eqn:Hk; [|by destruct k]. injection Hsg as <-.
      split; [|done]. cbn [Vargc]. replace j with (S (frag s)) by lia. rewrite list_lookup_insert_eq; [done|lia].
Qed.

Lemma split_word argc done a s :
  split_ok argc done s → a ≠ bar → (length done < argc)%nat → Z.of_nat argc < 2 ^ 31 →
  ∃ s', split_arg (length done) a s = Ok (tt, s') ∧ split_ok argc (done ++ [a]) s'.
Proof.
  intros [Hc Hv Hf Hw] Ha Hlt Hsm. destruct (segments_snoc done a) as (ss & seg & Hss & Hsb).
  rewrite decide_False in Hsb by done. rewrite Hss, length_app in Hf. cbn [length] in Hf.
  assert (frag s = length ss) as Hfr by lia.
  assert (frag s < argc)%nat as Hfa.
  { pose proof (length_segments done) as Hb. rewrite Hss, length_app in Hb. cbn in Hb.
    pose proof (bars_le done). lia. }
  assert (written s done (frag s) seg true) as [Hcs Hvs].
  { rewrite <-(bool_decide_true (S (frag s) = length (segments done))) by (rewrite Hss, length_app; simpl; lia).
    apply Hw. rewrite Hss, Hfr. by apply list_lookup_middle. }
  assert (length seg < argc)%nat as Hsl.
  { destruct seg as [|x sg]; [simpl; lia|]. destruct (Hvs ltac:(done)) as (st & _ & _ & Hl). lia. }
  set (o := match seg with [] => Some (length done) | _ => None end).
  set (s' := Fragments (<[frag s := Some (Z.of_nat (length seg) + 1)]> (Vargc s))
    (match o with Some y => <[frag s := Some y]> (Vargv s) | None => Vargv s end) (frag s)).
  exists s'. split.
  - unfold split_arg. mstep. rewrite decide_True by done. unfold get_vargc. mstep.
    rewrite run_some with (a := Some (Z.of_nat (length seg))) by done. rewrite run_ret || idtac.
    cbn [get_some]. mstep. rewrite i32_small by lia. mrun ltac:(apply set_vargc_run; lia).
    destruct seg as [|x sg]; cbn [length].
    + rewrite bool_decide_true by done. cbn [when]. rewrite set_vargv_run; [done|]. cbn. lia.
    + rewrite bool_decide_false by lia. done.
  - split; cbn [Vargc Vargv frag s'];
      [by rewrite length_insert|unfold o; by destruct seg; rewrite ?length_insert|rewrite Hsb, length_app; simpl; lia|].
    intros j sg. rewrite Hsb. intros [Hj|[Hj Hsg]]%lookup_app_Some.
    + assert (j < length ss)%nat as Hjl by (by apply lookup_lt_Some in Hj).
      rewrite bool_decide_false by (rewrite length_app; simpl; lia).
      apply written_other; [lia|]. eapply written_grow. apply Hw. rewrite Hss. by apply lookup_app_l_Some.
    + destruct (j - length ss)%nat as [|k] eqn:Hk; [|by destruct k]. injection Hsg as <-.
      assert (j = frag s) as -> by lia. rewrite bool_decide_true by (rewrite length_app; simpl; lia).
      split; cbn [Vargc Vargv s'].
      * rewrite list_lookup_insert_eq by lia. rewrite length_app. simpl. do 2 f_equal. lia.
      * intros _. unfold o. destruct seg as [|x sg].
        -- exists (length done). rewrite list_lookup_insert_eq by lia.
           split_and!; [done|by rewrite drop_app_length|rewrite !length_app; simpl; lia].
        -- destruct (Hvs ltac:(done)) as (st & Hst & Ht & Hl). exists st. split_and!; [done| |rewrite !length_app; lia].
           rewrite drop_app_le by lia. rewrite (take_ge (drop st done)) in Ht by (rewrite length_drop; lia).
           rewrite Ht, take_ge; [done|]. rewrite !length_app. lia.
Qed.

(** The next argument is a word, or a bar for which there is room. *)
Lemma split_next argc done a s :
  split_ok argc done s → (length done < argc)%nat → Z.of_nat argc < 2 ^ 31 → (bars (done ++ [a]) < argc)%nat →
  ∃ s', split_arg (length done) a s = Ok (tt, s') ∧ split_ok argc (done ++ [a]) s'.
Proof.
  intros Hok Hlt Hsm Hb. destruct (decide (a = bar)) as [->|Hne]; [|by apply split_word].
  apply split_bar; [done|]. pose proof (sp_frag _ _ _ Hok) as Hf. rewrite length_segments in Hf.
  rewrite bars_app in Hb. unfold bars at 2 in Hb. rewrite filter_cons_True in Hb by done. simpl in Hb. lia.
Qed.

Lemma split_loop_run argc rest : ∀ done s,
  split_ok argc done s → (length done + length rest ≤ argc)%nat → Z.of_nat argc < 2 ^ 31 →
  (bars (done ++ rest) < argc)%nat →
  ∃ s', split_loop (length done) rest s = Ok (tt, s') ∧ split_ok argc (done ++ rest) s'.
Proof.
  induction rest as [|a rest IH]; intros done s Hok Hlen Hsm Hb; cbn [split_loop length] in *.
  - exists s. rewrite app_nil_r. done.
  - destruct (split_next argc done a s) as (s1 & H1 & Hok1); [done|lia|done| |].
    { rewrite (bars_app _ (a :: rest)) in Hb. rewrite bars_app. unfold bars in *. rewrite filter_cons in Hb. 
      rewrite filter_cons, filter_nil. case_decide; simpl in *; lia. }
    rewrite (bind_run _ _ _ _ _ H1). destruct (IH (done ++ [a]) s1) as (s2 & H2 & Hok2); [done| |done| |].
    + rewrite length_app. simpl. lia.
    + by rewrite <-app_assoc.
    + exists s2. rewrite length_app, Nat.add_1_r in H2. rewrite <-app_assoc in Hok2. done.
Qed.

Definition all_written (argv : list (list Z)) (s : fragments) : Prop :=
  ∀ j seg, segments argv !! j = Some seg → ∃ last, written s argv j seg last.

Lemma fragment_args_run argv s i seg :
  all_written argv s → segments argv !! i = Some seg → fragment_args argv i s = Ok (seg, s).
Proof.
  intros Hok Hi. destruct (Hok i seg Hi) as (last & Hc & Hv). unfold fragment_args, get_vargc. mstep.
  rewrite run_some with (a := Some (Z.of_nat (length seg))) by done. cbn [get_some]. mstep.
  destruct seg as [|x sg]; [done|]. rewrite decide_False by (simpl; lia).
  destruct (Hv ltac:(done)) as (st & Hst & Ht & _). mstep.
  rewrite run_some with (a := Some st) by done. cbn [get_some]. mstep. rewrite Nat2Z.id, Ht. done.
Qed.

Lemma check_loop_run argv s : ∀ count i,
  all_written argv s → (i + count = length (segments argv))%nat →
  check_loop argv i count s = Ok (check_segments (drop i (segments argv)), s).
Proof.
  induction count as [|count IH]; intros i Hok Hi; cbn [check_loop].
  - rewrite drop_ge by lia. done.
  - destruct (lookup_lt_is_Some_2 (segments argv) i) as [seg Hseg]; [lia|].
    mrun ltac:(by eapply fragment_args_run). rewrite (drop_S _ _ _ Hseg). cbn [check_segments].
    destruct seg as [|name args]; [done|]. case_decide; [done|].
    mrun ltac:(apply IH; [done|lia]). done.
Qed.

Lemma split_start (argv : list (list Z)) : argv ≠ [] →
  split_ok (length argv) [] (Fragments (<[0%nat := Some 0]> (replicate (length argv) None)) (replicate (length argv) None) 0).
Proof.
  intros Hne. split; cbn; [by rewrite length_insert, length_replicate|by rewrite length_replicate|done|].
  intros [|j] seg; cbn; [|done]. intros [= <-]. split; [|done]. cbn.
  rewrite list_lookup_insert_eq; [done|]. rewrite length_replicate. destruct argv; simpl; [done|lia].
Qed.

Lemma bars_lt (argv : list (list Z)) : (∃ a, a ∈ argv ∧ a ≠ bar) → (bars argv < length argv)%nat.
Proof.
  intros (a & (l1 & l2 & ->)%list_elem_of_split & Ha). rewrite bars_app, length_app. unfold bars at 2.
  rewrite filter_cons_False by done. pose proof (bars_le l1). pose proof (bars_le l2). unfold bars in *. simpl. lia.
Qed.

Lemma split_bars_fault k argc : ∀ j s,
  split_ok argc (replicate j bar) s → (j + k = argc)%nat → (0 < k)%nat →
  split_loop j (replicate k bar) s = Fault OutOfBounds.
Proof.
  induction k as [|k IH]; intros j s Hok Hj Hk; [lia|]. cbn [replicate split_loop].
  assert (S (frag s) = S j) as Hf.
  { rewrite (sp_frag _ _ _ Hok), length_segments. f_equal. clear. unfold bars. 
    induction j as [|j IH]; [done|]. cbn [replicate]. rewrite filter_cons_True by done. simpl. by rewrite IH. }
  destruct (decide (k = 0)%nat) as [->|Hk0].
  - apply bind_fault. unfold split_arg. mstep. rewrite decide_False by tauto. unfold set_frag. mstep.
    unfold set_vargc. mstep. cbn [Vargc]. rewrite (lookup_ge_None_2 (Vargc s)); [done|].
    rewrite (sp_argc _ _ _ Hok). lia.
  - destruct (split_bar argc (replicate j bar) s Hok) as (s1 & H1 & Hok1); [lia|].
    rewrite length_replicate in H1. rewrite (bind_run _ _ _ _ _ H1). apply IH; [|lia|lia].
    by rewrite replicate_S_end.
Qed.

Fixpoint join_bars (ss : list (list (list Z))) : list (list Z) :=
  match ss with [] => [] | [s] => s | s :: ss => s ++ bar :: join_bars ss end.

Lemma join_segments argv : join_bars (segments argv) = argv ∧ ∀ s, s ∈ segments argv → bar ∉ s.
Proof.
  induction argv as [|a argv [IHj IHb]]; [split; [done|]|].
  - intros s ->%list_elem_of_singleton. apply not_elem_of_nil.
  - cbn [segments]. destruct (segments argv) as [|s ss] eqn:Hs; [|case_decide as Ha].
    + pose proof (length_segments argv) as Hl. by rewrite Hs in Hl.
    + subst a. split; [change (bar :: join_bars (s :: ss) = bar :: argv); by rewrite IHj|].
      intros s' [->|Hs']%elem_of_cons; [apply not_elem_of_nil|by apply IHb].
    + split.
      * destruct ss as [|s1 ss]; cbn [join_bars app] in *; by rewrite <-IHj.
      * intros s' [->|Hs']%elem_of_cons; [|apply IHb; by right].
        intros [?|Hin]%elem_of_cons; [congruence|]. revert Hin. apply IHb. left.
Qed.

(** C26 (equivalence). Parsing a command line.  When some argument is not a bar, the
    loops over the arrays of [process_line] compute what the definition over the
    segments between the bars says: the first segment that is empty or whose name is
    not in the table is the error, and otherwise each fragment gets its command and
    exactly its arguments.  A line of bars only writes beyond the end of [Vargc]. *)
Theorem parse_line_spec argv :
  Z.of_nat (length argv) < 2 ^ 31 → argv ≠ [] →
  join_bars (segments argv) = argv ∧ (∀ s, s ∈ segments argv → bar ∉ s) ∧
  ((∃ a, a ∈ argv ∧ a ≠ bar) → parse_line argv = Ok (check_segments (segments argv))) ∧
  ((∀ a, a ∈ argv → a = bar) → parse_line argv = Fault OutOfBounds).
Proof.
  intros Hsm Hne. destruct (join_segments argv) as [Hj Hb]. split_and!; [done|done|..].
  - intros Hw%bars_lt. unfold parse_line, split_line.
    destruct (split_loop_run (length argv) argv [] _ (split_start argv Hne)) as (s & Hrun & Hok); [simpl; lia|done|done|].
    rewrite !run_assoc. erewrite bind_run by (apply set_vargc_run; cbn; rewrite length_replicate; destruct argv; simpl; [done|lia]).
    cbn [Vargc Vargv frag]. rewrite run_assoc. rewrite (bind_run _ _ _ _ _ Hrun). mstep. unfold set_frag. mstep.
    cbn [frag]. cbn [app] in Hok. pose proof (sp_frag _ _ _ Hok) as Hf.
    rewrite check_loop_run; [by rewrite drop_0| |by rewrite Hf].
    intros j seg Hjs. destruct (sp_written _ _ _ Hok j seg Hjs) as [Hc Hv].
    eexists. split; [exact Hc|exact Hv].
  - intros Hall. assert (argv = replicate (length argv) bar) as Heq by (symmetry; apply replicate_as_Forall_2; [done|]; apply Forall_forall; naive_solver).
    unfold parse_line, split_line. rewrite !run_assoc.
    erewrite bind_run by (apply set_vargc_run; cbn; rewrite length_replicate; destruct argv; simpl; [done|lia]).
    cbn [Vargc Vargv frag]. rewrite run_assoc.
    rewrite (bind_fault _ _ _ OutOfBounds); [done|].
    rewrite Heq at 1. apply (split_bars_fault _ (length argv)); [by apply split_start|done|]. destruct argv; simpl; [done|lia].
Qed.

Lemma parse_line_spec_witness :
  parse_line [text "ls"; bar; text "more"; text "9"] = Ok (inr [(1, [text "ls"]); (11, [text "more"; text "9"])]) ∧
  parse_line [bar; bar] = Fault OutOfBounds.
Proof.
  destruct (parse_line_spec [text "ls"; bar; text "more"; text "9"]) as (_ & _ & H1 & _); [reflexivity|discriminate|].
  destruct (parse_line_spec [bar; bar]) as (_ & _ & _ & H2); [reflexivity|discriminate|].
  split.
  - rewrite H1; [reflexivity|]. exists (text "ls"). split; [left|discriminate].
  - apply H2. intros a Ha. by repeat (apply elem_of_cons in Ha as [->|Ha]); [..|by apply not_elem_of_nil in Ha].
Defined.

(** ** Words of a line *)
Definition is_word (w : list Z) : Prop := w ≠ [] ∧ Forall (λ c, is_delim c = false) w.
Definition is_gap (s : list Z) : Prop := Forall (λ c, is_delim c = true) s.

(** A line: each word after its gap, and a gap at the end. *)
Definition spaced (ws : list (list Z * list Z)) (rest : list Z) : list Z :=
  foldr (λ x l, x.1 ++ x.2 ++ l) rest ws.
Definition well_spaced (ws : list (list Z * list Z)) (rest : list Z) : Prop :=
  Forall (λ x, is_gap x.1 ∧ is_word x.2) ws ∧ Forall (λ x, x.1 ≠ []) (tail ws) ∧ is_gap rest.

Lemma skip_gap s l : is_gap s → skip_delims (s ++ l) = skip_delims l.
Proof. induction 1 as [|c s Hc Hs IH]; [done|]. simpl. by rewrite Hc. Qed.
Lemma skip_word w l : is_word w → skip_delims (w ++ l) = w ++ l.
Proof. intros [Hne Hw]. destruct Hw as [|c w Hc Hw]; [done|]. simpl. by rewrite Hc. Qed.
Lemma token_word w l : Forall (λ c, is_delim c = false) w →
  token (w ++ l) = match l with [] => (w, []) | c :: l' => if is_delim c then (w, l') else (w ++ (token l).1, (token l).2) end.
Proof.
  induction 1 as [|c w Hc Hw IH]; simpl.
  - destruct l as [|c l]; [done|]. simpl. destruct (is_delim c); [done|]. by destruct (token l).
  - rewrite Hc, IH. destruct l as [|d l]; [done|]. by destruct (is_delim d).
Qed.

Lemma strtok_spaced sep w l : is_gap sep → is_word w → match l with [] => True | c :: _ => is_delim c = true end →
  strtok_r (sep ++ w ++ l) = Some (w, tail l).
Proof.
  intros Hs Hw Hl. unfold strtok_r. rewrite skip_gap, skip_word by done. destruct Hw as [Hne Hw].
  destruct (w ++ l) eqn:Heq; [by destruct w|]. rewrite <-Heq, token_word by done.
  destruct l as [|c l]; [done|]. by rewrite Hl.
Qed.

Lemma strtok_gap s : is_gap s → strtok_r s = None.
Proof. intros Hs. unfold strtok_r. rewrite <-(app_nil_r s), skip_gap by done. done. Qed.

Lemma spaced_head ws rest : Forall (λ x, is_gap x.1 ∧ is_word x.2) ws → Forall (λ x, x.1 ≠ []) ws → is_gap rest →
  match spaced ws rest with [] => True | c :: _ => is_delim c = true end.
Proof.
  intros Hg Hn Hr. destruct ws as [|[sep w] ws]; cbn.
  - by destruct Hr.
  - apply Forall_cons in Hg as [[Hs _] _], Hn as [Hne _]. cbn in *. destruct Hs; done.
Qed.

Lemma tail_spaced ws rest : well_spaced ws rest → ws ≠ [] → Forall (λ x, x.1 ≠ []) ws →
  ∃ ws', tail (spaced ws rest) = spaced ws' rest ∧ ws'.*2 = ws.*2 ∧ well_spaced ws' rest.
Proof.
  intros (Hg & Ht & Hr) Hne Hn. destruct ws as [|[sep w] ws]; [done|].
  apply Forall_cons in Hg as [[Hs Hw] Hg], Hn as [Hsn Hn]. cbn in *. destruct sep as [|c sep]; [done|].
  apply Forall_cons in Hs as [_ Hs]. exists ((sep, w) :: ws). split_and!; [done|done|].
  split_and!; [by constructor|done|done].
Qed.

Lemma break_up_spaced n : ∀ ws rest, well_spaced ws rest → break_up n (spaced ws rest) = take n ws.*2.
Proof.
  induction n as [|n IH]; intros ws rest Hws; [done|]. pose proof Hws as (Hg & Ht & Hr). cbn [break_up].
  destruct ws as [|[sep w] ws]; [cbn; by rewrite strtok_gap|].
  apply Forall_cons in Hg as [[Hs Hw] Hg]. cbn [spaced foldr fst snd]. fold (spaced ws rest).
  rewrite strtok_spaced; [|done|done|by apply spaced_head]. cbn [fmap list_fmap take snd]. f_equal.
  destruct ws as [|x ws].
  - apply (IH [] (tail rest)). split_and!; [done|done|]. unfold is_gap. by destruct Hr; [constructor|].
  - destruct (tail_spaced (x :: ws) rest) as (ws' & -> & <- & Hws'); [|done|done|by apply IH].
    split_and!; [done|by apply Forall_cons in Ht as [_ ?]|done].
Qed.

(** Breaking up a line.  The words of a line come out in order and
    as they are, whatever blanks, tabs and newlines surround them; from the 128th on
    they are lost without an error. *)
Theorem break_up_words ws rest :
  well_spaced ws rest → break_up (ARGN - 1) (spaced ws rest) = take 127 ws.*2.
Proof. apply break_up_spaced. Qed.

Lemma break_up_words_witness :
  break_up (ARGN - 1) (text " ls  -l" ++ [10]) = [text "ls"; text "-l"].
Proof.
  apply (break_up_words [([32], text "ls"); ([32; 32], text "-l")] [10]).
  split_and!; repeat constructor; try discriminate.
Defined.

(** The buffer, after the line was broken up, has the first word only. *)
Lemma cut_line_word ws rest sep w :
  well_spaced ((sep, w) :: ws) rest → cut_line (spaced ((sep, w) :: ws) rest) = sep ++ w.
Proof.
  intros (Hg & Ht & Hr). apply Forall_cons in Hg as [[Hs Hw] Hg]. cbn in Ht.
  unfold cut_line. cbn [spaced foldr fst snd]. fold (spaced ws rest).
  rewrite strtok_spaced; [|done|done|by apply spaced_head]. f_equal.
  rewrite skip_gap, skip_word by done. rewrite length_app, Nat.add_sub. by rewrite take_app_length.
Qed.

(** ** A shell whose input fails *)
Section input_error.
Context {W : Type} `{Console W, Files W, Spawn W, Waits W}.

Definition run_words (pipe : Z * Z) (argv : list (list Z)) : M W unit :=
  b ← process_builtin argv;
  if decide (b ≠ 0) then mret tt else process_line pipe argv ;; mret tt.

Lemma one_word sep word : is_gap sep → is_word word →
  break_up (ARGN - 1) (sep ++ word) = [word] ∧ cut_line (sep ++ word) = sep ++ word.
Proof.
  intros Hs Hw. assert (well_spaced [(sep, word)] []) as Hws by (split_and!; [constructor; [split; [exact Hs|exact Hw]|constructor]|constructor|constructor]).
  assert (spaced [(sep, word)] [] = sep ++ word) as Heq by (cbn; by rewrite app_nil_r).
  rewrite <-Heq. split; [by rewrite (break_up_spaced _ _ _ Hws)|]. by rewrite (cut_line_word _ _ _ _ Hws), Heq.
Qed.

Lemma error_turn n pipe sep word w :
  (∀ w, ∃ w', getline 0 w = Ok (GotError false, w')) → is_gap sep → is_word word → word ≠ text "exit" →
  shell_loop (S n) pipe (Some (sep ++ word)) w =
    (fputs 1 (text "% ") ;; getline 0 ;; run_words pipe [word] ;; shell_loop n pipe (Some (sep ++ word))) w.
Proof.
  intros Hread Hs Hw Hne. destruct (one_word sep word Hs Hw) as [Hb Hc].
  cbn [shell_loop read_line].
  destruct (fputs 1 (text "% ") w) as [[[] w1]|f] eqn:Hf; [|by rewrite !(bind_fault _ _ _ _ Hf)].
  rewrite !(bind_run _ _ _ _ _ Hf), ?run_assoc.
  destruct (Hread w1) as (w2 & Hg). rewrite !(bind_run _ _ _ _ _ Hg). mstep.
  cbn [get_some]. mstep. rewrite Hb, Hc. cbv zeta. rewrite decide_False by done. unfold run_words. by rewrite run_assoc.
Qed.
End input_error.

(** The shell does not stop when its input fails.  When [getline] fails
    with an error other than an interruption, the loop goes on with the buffer of the
    line before: every turn runs the first word of that line again, and the loop
    never ends by itself. *)
Theorem Shell_error_loop {W} `{Console W, Files W, Spawn W, Waits W} pipe sep word :
  (∀ w, ∃ w', getline 0 w = Ok (GotError false, w')) → is_gap sep → is_word word → word ≠ text "exit" →
  (∀ n w, shell_loop (S n) pipe (Some (sep ++ word)) w =
     (fputs 1 (text "% ") ;; getline 0 ;; run_words pipe [word] ;; shell_loop n pipe (Some (sep ++ word))) w) ∧
  (∀ n w r w', shell_loop n pipe (Some (sep ++ word)) w ≠ Ok (r, w')).
Proof.
  intros Hread Hs Hw Hne. assert (∀ n w, _) as Hturn by (intros n w; by apply (error_turn n pipe sep word w)).
  split; [exact Hturn|]. induction n as [|n IH]; intros w r w'; [done|]. rewrite Hturn. intros Hrun.
  inv_bind Hrun. inv_bind Hrun. inv_bind Hrun. by apply IH in Hrun.
Qed.

(** A terminal that is closed. *)
Record broken := Broken { broken_desk : desk }.
Definition set_broken_desk (d : desk) (b : broken) : broken := Broken d.
#[export] Instance broken_console : Console broken := {
  fgetc fid := mret None;
  fputs fid l := zoom broken_desk set_broken_desk (fputs fid l);
  getline fid := mret (GotError false);
  printf l := zoom broken_desk set_broken_desk (printf l) }.
#[export] Instance broken_spawn : Spawn broken := { Execute p av := zoom broken_desk set_broken_desk (Execute p av) }.
#[export] Instance broken_waits : Waits broken := { WaitChild pid := mret (pid, Some 0) }.
#[export] Instance broken_files : Files broken := {
  GetTerminalDevices := mret 0; OpenTerminal _ := mret NOFILE; OpenNull := mret 3; Dup2 _ _ := mret 0;
  Close _ := mret 0; Pipe := mret None }.

Lemma Shell_error_loop_witness :
  let w := Broken (Desk (Tty [] [] []) []) in shell_loop 5 (0, 0) (Some (text "ls")) w ≠ Ok (0, w).
Proof.
  apply (Shell_error_loop (W := broken) (0, 0) [] (text "ls")).
  - intros w. exists w. reflexivity.
  - constructor.
  - split; [discriminate|repeat constructor].
  - discriminate.
Defined.
