(* ===== verification/Remote.v ===== *)
(** * The remote server and its client (tinyos_shell.c)

    The log of the server, the messages of its protocol, the thread that accepts
    connections, the thread of a connection, the process that runs a command, the
    console of the server, and the client.  The functions are over an interface to
    sockets and threads; a section with the mutex of the server is a step. *)
From S2P Require Import Prelude Kernel Args Console Filters Commands Shell.
Local Open Scope Z_scope.

(** ** The system calls *)

(** [Read] returns its result and the bytes; [CreateThread] gets the argument of the
    client thread. *)
Class Sockets (W : Type) := {
  Socket : Z → M W Z;
  Listen : Z → M W Z;
  Accept : Z → M W Z;
  Connect : Z → Z → Z → M W Z;
  ShutDown : Z → Z → M W Z;
  Read : Z → Z → M W (Z * list Z);
  Write : Z → list Z → M W Z;
  CreateClient : Z → M W Z;
  CreateListener : Z → M W Z;
  ThreadDetach : Z → M W Z;
  ThreadJoin : Z → M W Z }.

Definition REMOTE_SERVER_DEFAULT_PORT : Z := 20.
Definition NOPORT : Z := 0.
Definition SHUTDOWN_WRITE : Z := 2.

(** ** The state of the server *)
Record rs_globals := RsGlobals {
  quit : bool;
  port : Z;
  listener : option Z;
  listener_socket : option Z;
  active_conn : Z;
  total_conn : Z;
  conn_id_counter : Z;
  log : list (Z * list Z);
  logcount : Z }.

(** The globals of the server, in the memory of its threads; the fields that are not
    initialised are [None]. *)
Class Globals (W : Type) := { GS : W → rs_globals; set_GS : rs_globals → W → W }.

Section server.
Context {W : Type} `{Console W, Files W, Spawn W, Waits W, Sockets W, Globals W}.

Definition get_GS : M W rs_globals := gets GS.
Definition upd_GS (f : rs_globals → rs_globals) : M W unit := modify (λ w, set_GS (f (GS w)) w).

(** ** The log *)
Definition set_log (l : list (Z * list Z)) (n : Z) (g : rs_globals) : rs_globals :=
  RsGlobals (quit g) (port g) (listener g) (listener_socket g) (active_conn g) (total_conn g)
    (conn_id_counter g) l n.
Definition log_init : M W unit := upd_GS (set_log [] 0).
Definition log_message (msg : list Z) : M W unit :=
  upd_GS (λ g, let n := u64 (logcount g + 1) in set_log (log g ++ [(n, msg)]) n g).
Definition log_line (r : Z * list Z) : list Z := pad 6 (dec (i32 r.1)) ++ text ": " ++ r.2 ++ [NEWLINE].
Definition log_print : M W unit := g ← get_GS; for_each (log g) (λ r, printf (log_line r)).
Definition log_truncate : M W unit := upd_GS (λ g, set_log [] (logcount g) g).

(** ** Messages *)

(** The result is the buffer, if all of it was received. *)
Fixpoint recv_loop (fuel : nat) (sock len : Z) (buf : list Z) : M W (option (list Z)) :=
  match fuel with
  | O => raise OutOfFuel
  | S fuel =>
      if decide (Z.of_nat (length buf) < len) then
        r ← Read sock (len - Z.of_nat (length buf));
        if decide (r.1 < 1) then mret None
        else recv_loop fuel sock len (buf ++ r.2)
      else mret (if decide (Z.of_nat (length buf) = len) then Some buf else None)
  end.
Definition recv_message (sock len : Z) : M W (option (list Z)) := recv_loop (S (Z.to_nat len)) sock len [].

(** The number of bytes that are written; [send_message] tells whether the process
    goes on, and does not end with [Exit(1)]. *)
Fixpoint send_loop (fuel : nat) (sock : Z) (buf : list Z) (count : Z) : M W Z :=
  match fuel with
  | O => raise OutOfFuel
  | S fuel =>
      if decide (count < Z.of_nat (length buf)) then
        rc ← Write sock (drop (Z.to_nat count) buf);
        if decide (rc < 1) then mret count else send_loop fuel sock buf (count + rc)
      else mret count
  end.
Definition send_message (sock : Z) (buf : list Z) : M W bool :=
  count ← send_loop (S (length buf)) sock buf 0;
  if decide (count ≠ Z.of_nat (length buf)) then
    printf (text "In client: I/O error writing " ++ dec (Z.of_nat (length buf)) ++ text " bytes ("
      ++ dec count ++ text " written)" ++ [NEWLINE]) ;; mret false
  else mret true.

(** ** The server *)
Definition set_conns (active total ids : Z) (g : rs_globals) : rs_globals :=
  RsGlobals (quit g) (port g) (listener g) (listener_socket g) active total ids (log g) (logcount g).
Definition set_listener_socket (s : Z) (g : rs_globals) : rs_globals :=
  RsGlobals (quit g) (port g) (listener g) (Some s) (active_conn g) (total_conn g)
    (conn_id_counter g) (log g) (logcount g).

(** A turn of the accept loop; the result tells whether the thread goes on. *)
Definition accept_turn (port lsock : Z) : M W bool :=
  sock ← Accept lsock;
  if decide (sock = NOFILE) then
    g ← get_GS;
    if quit g then mret false
    else
      log_message (text "listener(port=" ++ dec port ++ text "): failed to accept!" ++ [NEWLINE]) ;;
      mret true
  else
    upd_GS (λ g, set_conns (u64 (active_conn g + 1)) (u64 (total_conn g + 1)) (conn_id_counter g) g) ;;
    t ← CreateClient sock;
    ThreadDetach t ;;
    mret true.
Fixpoint accept_loop (fuel : nat) (port lsock : Z) : M W Z :=
  match fuel with
  | O => raise OutOfFuel
  | S fuel => b ← accept_turn port lsock; if b : bool then accept_loop fuel port lsock else mret 0
  end.
Definition rsrv_listener_thread (fuel : nat) (port : Z) : M W Z :=
  lsock ← Socket port;
  rc ← Listen lsock;
  if decide (rc = -1) then
    printf (text "Cannot listen to the given port: " ++ dec port ++ [NEWLINE]) ;; mret (-1)
  else
    upd_GS (set_listener_socket lsock) ;;
    accept_loop fuel port lsock.

(** The process that runs a command with a socket for its streams. *)
Definition rsrv_process (argv : list (list Z)) : M W Z :=
  checkargs 2 argv
    (let sock := getint argv 1 in
     c_assert (bool_decide (sock ≠ 0 ∧ sock ≠ 1)) ;;
     Dup2 sock 0 ;;
     Dup2 sock 1 ;;
     Close sock ;;
     let c := getprog argv 2 in
     if decide (c = -1) then
       printf (text "Error in remote process: Command " ++ default [] (argv !! 2%nat) ++ text " is not found" ++ [NEWLINE]) ;;
       mret (-1)
     else
       p ← get_some OutOfBounds (prog_at c);
       pid ← Execute p (drop 2 argv);
       r ← WaitChild pid;
       get_some Indeterminate r.2).

(** The request of a client, as the arguments of [rsrv_process]; [None] if it cannot
    be received. *)
Definition receive_request (sock : Z) : M W (option (list (list Z))) :=
  m ← recv_message sock 4;
  match m with
  | None => mret None
  | Some b =>
      let argl := i32 (bytes_ptr b) in
      c_assert (bool_decide (0 < argl ≤ 2048)) ;;
      m ← recv_message sock argl;
      match m with
      | None => mret None
      | Some args =>
          match argscount argl args with
          | Fault f => raise f
          | Ok argc =>
              match argvunpack (Z.to_nat argc) args with
              | Fault f => raise f
              | Ok (argv, _) => mret (Some (text "rsrv_process" :: dec sock :: argv))
              end
          end
      end
  end.

Definition client_line (id : Z) : list Z := text "Client[" ++ pad 6 (dec id) ++ text "]: ".
Definition cliend_line (id : Z) : list Z := text "Cliend[" ++ pad 6 (dec id) ++ text "]: ".

(** The thread of a connection. *)
Definition rsrv_client (sock : Z) : M W Z :=
  upd_GS (λ g, set_conns (active_conn g) (total_conn g) (u64 (conn_id_counter g + 1)) g) ;;
  g ← get_GS;
  let id := conn_id_counter g in
  log_message (client_line id ++ text "started") ;;
  r ← receive_request sock;
  (match r with
   | None => log_message (cliend_line id ++ text "error in receiving request, aborting")
   | Some argv =>
       pid ← Execute rsrv_process_prog argv;
       Close sock ;;
       r ← WaitChild pid;
       exitstatus ← get_some Indeterminate r.2;
       log_message (client_line id ++ text "finished with status " ++ dec exitstatus)
   end) ;;
  upd_GS (λ g, set_conns (u64 (active_conn g - 1)) (total_conn g) (conn_id_counter g) g) ;;
  mret 0.

(** ** The console of the server *)
Definition set_quit (g : rs_globals) : rs_globals :=
  RsGlobals true (port g) (listener g) (listener_socket g) (active_conn g) (total_conn g)
    (conn_id_counter g) (log g) (logcount g).

(** Where the console goes after a line: on, or to the end, first waiting for the
    connections. *)
Inductive console_next := Continue | WaitConnections.
Definition server_help : list Z :=
  text "Commands: " ++ [NEWLINE] ++ text "q: quit the server" ++ [NEWLINE] ++ text "h: print this help" ++ [NEWLINE]
  ++ text "s: show statistics" ++ [NEWLINE] ++ text "l: show the log" ++ [NEWLINE].
Definition server_command (line : list Z) : M W console_next :=
  if decide (line = text "q" ++ [NEWLINE]) then
    upd_GS set_quit ;;
    printf (text "Quitting" ++ [NEWLINE]) ;;
    g ← get_GS;
    s ← get_some Indeterminate (listener_socket g);
    Close s ;;
    t ← get_some Indeterminate (listener g);
    ThreadJoin t ;;
    mret WaitConnections
  else if decide (line = text "s" ++ [NEWLINE]) then
    g ← get_GS;
    printf (text "Connections: active=" ++ pad 4 (dec (active_conn g)) ++ text " total="
      ++ pad 4 (dec (total_conn g)) ++ [NEWLINE]) ;; mret Continue
  else if decide (line = text "h" ++ [NEWLINE]) then printf server_help ;; mret Continue
  else if decide (line = text "l" ++ [NEWLINE]) then log_print ;; mret Continue
  else if decide (line = [NEWLINE]) then mret Continue
  else printf (text "Unknown command: '" ++ line ++ text "'" ++ [NEWLINE]) ;; mret Continue.

(** The loop around [Cond_Wait], up to its next call, and what follows it. *)
Definition wait_connections : M W bool :=
  g ← get_GS;
  if decide (0 < active_conn g) then
    printf (text "Waiting " ++ dec (active_conn g) ++ text " connections ..." ++ [NEWLINE]) ;; mret true
  else log_truncate ;; mret false.

Definition server_globals : rs_globals := RsGlobals false REMOTE_SERVER_DEFAULT_PORT None None 0 0 0 [] 0.
Definition set_listener (t : Z) (g : rs_globals) : rs_globals :=
  RsGlobals (quit g) (port g) (Some t) (listener_socket g) (active_conn g) (total_conn g)
    (conn_id_counter g) (log g) (logcount g).
(** [RemoteServer], up to its loop. *)
Definition server_start : M W unit :=
  upd_GS (λ _, server_globals) ;;
  log_init ;;
  g ← get_GS;
  t ← CreateListener (port g);
  upd_GS (set_listener t).

(** The loop of the console: whether the server quits, and waits for the connections,
    or its input ended. *)
Fixpoint console_loop (fuel : nat) (linebuff : option (list Z)) : M W bool :=
  match fuel with
  | O => raise OutOfFuel
  | S fuel' =>
      printf (text "Type h for help, or a command: ") ;;
      r ← read_line fuel;
      match r with
      | GotEof => mret false
      | _ =>
          line ← get_some Indeterminate (match r with GotLine l => Some (c_string l) | _ => linebuff end);
          n ← server_command line;
          match n with Continue => console_loop fuel' (Some line) | WaitConnections => mret true end
      end
  end.

(** ** The client *)

(** The message of the client, and whether it is sent. *)
Definition send_request (sock : Z) (argv : list (list Z)) : M W bool :=
  let argl := argvlen argv in
  match argvpack 0 argv (replicate argl 0) with
  | Fault f => raise f
  | Ok (_, args) =>
      sent ← send_message sock (ptr_bytes 4 (Z.of_nat argl));
      if negb sent then mret false else send_message sock args
  end.

(** The copy of what the server sends; the process ends with [Exit(1)] when a message
    cannot be sent. *)
Definition RemoteClient (fuel : nat) (argv : list (list Z)) : M W Z :=
  checkargs 1 argv
    (sock ← Socket NOPORT;
     rc ← Connect sock REMOTE_SERVER_DEFAULT_PORT 1000;
     if decide (rc = -1) then printf (text "Could not connect to the server" ++ [NEWLINE]) ;; mret (-1)
     else
       c_assert (bool_decide (sock ≠ NOFILE)) ;;
       sent ← send_request sock (tail argv);
       if negb sent then mret 1
       else
         ShutDown sock SHUTDOWN_WRITE ;;
         getc_loop fuel sock (λ _ c, fputc c 1) tt ;;
         mret 0).
End server.

(** ** The protocol

    What the two ends of a connection promise, [cs] at the client and [ss] at the
    server: [Write] takes some of the bytes, and [Read] returns some of those that
    were written and not read yet, in order; at the end it returns nothing. *)
Class ChannelLaws (W : Type) `{Sockets W} (cs ss : Z) := {
  in_flight : W → list Z;
  write_law l w : l ≠ [] → ∃ n w', (0 < n ≤ length l)%nat ∧ Write cs l w = Ok (Z.of_nat n, w') ∧
    in_flight w' = in_flight w ++ take n l;
  read_law len w : 0 < len → in_flight w ≠ [] → ∃ n w', (0 < n ≤ length (in_flight w))%nat ∧ Z.of_nat n ≤ len ∧
    Read ss len w = Ok ((Z.of_nat n, take n (in_flight w)), w') ∧ in_flight w' = drop n (in_flight w);
  read_end len w : 0 < len → in_flight w = [] → ∃ w', Read ss len w = Ok ((0, []), w') ∧ in_flight w' = [] }.

Section protocol.
Context {W : Type} `{Console W, Files W, Spawn W, Waits W, !Sockets W, Globals W} (cs ss : Z) `{!ChannelLaws W cs ss}.

Lemma send_loop_run fuel : ∀ buf k w, (k ≤ length buf)%nat → (length buf - k < fuel)%nat →
  ∃ w', send_loop fuel cs buf (Z.of_nat k) w = Ok (Z.of_nat (length buf), w') ∧
    in_flight w' = in_flight w ++ drop k buf.
Proof.
  induction fuel as [|fuel IH]; intros buf k w Hk Hf; [lia|]. cbn [send_loop].
  case_decide as Hlt.
  - rewrite Nat2Z.id. destruct (write_law (drop k buf) w) as (n & w1 & Hn & Hw1 & Hi1).
    { intros Hd. apply (f_equal length) in Hd. rewrite length_drop in Hd. simpl in Hd. lia. }
    rewrite length_drop in Hn. rewrite (bind_run _ _ _ _ _ Hw1). rewrite decide_False by lia.
    rewrite <-Nat2Z.inj_add. destruct (IH buf (k + n)%nat w1) as (w2 & Hw2 & Hi2); [lia|lia|].
    exists w2. split; [done|]. rewrite Hi2, Hi1, <-app_assoc. f_equal. rewrite <-drop_drop. apply take_drop.
  - exists w. assert (k = length buf) as -> by lia. rewrite drop_all, app_nil_r. done.
Qed.

Lemma send_message_run buf w :
  ∃ w', send_message cs buf w = Ok (true, w') ∧ in_flight w' = in_flight w ++ buf.
Proof.
  destruct (send_loop_run (S (length buf)) buf 0 w) as (w' & Hr & Hi); [lia|lia|]. exists w'.
  unfold send_message. rewrite (bind_run _ _ _ _ _ Hr). rewrite decide_False by tauto. done.
Qed.

Lemma recv_loop_run fuel : ∀ len buf msg rest w,
  in_flight w = msg ++ rest → Z.of_nat (length buf + length msg) = len → (length msg < fuel)%nat →
  ∃ w', recv_loop fuel ss len buf w = Ok (Some (buf ++ msg), w') ∧ in_flight w' = rest.
Proof.
  induction fuel as [|fuel IH]; intros len buf msg rest w Hi Hl Hf; [lia|]. cbn [recv_loop].
  case_decide as Hlt.
  - destruct (read_law (len - Z.of_nat (length buf)) w) as (n & w1 & Hn & Hnl & Hw1 & Hi1); [lia| |].
    { rewrite Hi. destruct msg; [simpl in *; lia|done]. }
    rewrite (bind_run _ _ _ _ _ Hw1). cbn [fst snd]. rewrite decide_False by lia.
    rewrite Hi in *. assert (n ≤ length msg)%nat as Hnm by lia. rewrite take_app_le by done.
    rewrite drop_app_le in Hi1 by done.
    destruct (IH len (buf ++ take n msg) (drop n msg) rest w1 Hi1) as (w2 & Hw2 & Hi2).
    + rewrite length_app, length_take, length_drop. lia.
    + rewrite length_drop. lia.
    + exists w2. rewrite <-app_assoc, take_drop in Hw2. done.
  - destruct msg; [|simpl in *; lia]. rewrite decide_True by (simpl in *; lia). exists w. rewrite app_nil_r. done.
Qed.

Lemma recv_message_run msg rest w :
  in_flight w = msg ++ rest →
  ∃ w', recv_message ss (Z.of_nat (length msg)) w = Ok (Some msg, w') ∧ in_flight w' = rest.
Proof. intros Hi. apply (recv_loop_run _ _ [] msg rest w Hi); [done|]. rewrite Nat2Z.id. lia. Qed.

Lemma recv_loop_short fuel : ∀ len buf w,
  Z.of_nat (length buf + length (in_flight w)) < len → (length (in_flight w) < fuel)%nat →
  ∃ w', recv_loop fuel ss len buf w = Ok (None, w').
Proof.
  induction fuel as [|fuel IH]; intros len buf w Hl Hf; [lia|]. cbn [recv_loop]. rewrite decide_True by lia.
  destruct (decide (in_flight w = [])) as [He|He].
  - destruct (read_end (len - Z.of_nat (length buf)) w) as (w1 & Hw1 & _); [lia|done|].
    rewrite (bind_run _ _ _ _ _ Hw1). exists w1. done.
  - destruct (read_law (len - Z.of_nat (length buf)) w) as (n & w1 & Hn & Hnl & Hw1 & Hi1); [lia|done|].
    rewrite (bind_run _ _ _ _ _ Hw1). cbn [fst snd]. rewrite decide_False by lia.
    apply IH; rewrite Hi1, ?length_app, ?length_take, length_drop; lia.
Qed.
End protocol.

(** C27 (roundtrip). A request of the remote client arrives.  However [Read] and
    [Write] cut the bytes up, the server gets from the connection exactly the
    arguments of the client, after the name and the number of its own socket, which
    [rsrv_process] reads back; nothing is left over.  A request that ends early, in
    the four bytes of its length or in the arguments that the length announces, is
    refused, and one of more than 2048 bytes fails the assertion in the server. *)
Theorem request_roundtrip {W} `{Console W, Files W, Spawn W, Waits W, !Sockets W, Globals W} cs ss `{!ChannelLaws W cs ss} argv w :
  argv ≠ [] → (∀ a, a ∈ argv → no_zeros a) → Z.of_nat (argvlen argv) < 2 ^ 31 → 0 ≤ ss < 2 ^ 31 → in_flight w = [] →
  ∃ w1, send_request cs argv w = Ok (true, w1) ∧
    (Z.of_nat (argvlen argv) ≤ 2048 →
       ∃ w2, let rargv := text "rsrv_process" :: dec ss :: argv in
         receive_request ss w1 = Ok (Some rargv, w2) ∧ in_flight w2 = [] ∧
         getint rargv 1 = ss ∧ drop 2 rargv = argv) ∧
    (2048 < Z.of_nat (argvlen argv) → receive_request ss w1 = Fault AssertFailed) ∧
    (∀ w, (length (in_flight w) < 4)%nat → ∃ w', receive_request ss w = Ok (None, w')) ∧
    (∀ w head args, in_flight w = head ++ args → length head = 4%nat →
       let n := i32 (bytes_ptr head) in 0 < n ≤ 2048 → Z.of_nat (length args) < n →
       ∃ w', receive_request ss w = Ok (None, w')).
Proof.
  intros Hne Hz Hsm Hss Hi. set (argl := argvlen argv).
  destruct (send_message_run cs ss (ptr_bytes 4 (Z.of_nat argl)) w) as (w0 & Hs0 & Hi0).
  destruct (send_message_run cs ss (flat argv) w0) as (w1 & Hs1 & Hi1).
  exists w1. rewrite Hi in Hi0. cbn [app] in Hi0. rewrite Hi0 in Hi1.
  assert (length (ptr_bytes 4 (Z.of_nat argl)) = 4%nat) as Hl4 by apply length_ptr_bytes.
  assert (0 < argl)%nat as Hpos by (unfold argl; destruct argv; [done|cbn; lia]).
  destruct (recv_message_run cs ss (ptr_bytes 4 (Z.of_nat argl)) (flat argv) w1 Hi1) as (w2 & Hr2 & Hi2).
  rewrite Hl4 in Hr2. change (Z.of_nat 4) with 4 in Hr2.
  assert (i32 (bytes_ptr (ptr_bytes 4 (Z.of_nat argl))) = Z.of_nat argl) as Hint.
  { rewrite bytes_ptr_bytes by (split; [lia|]; change (256 ^ Z.of_nat 4) with (2 ^ 32); lia). apply i32_small. lia. }
  split_and!.
  - unfold send_request. fold argl. rewrite (argvpack_run argv 0 (replicate argl 0)); [|rewrite length_replicate; unfold argl; lia|done].
    cbn [take app]. rewrite drop_ge by (rewrite length_replicate; unfold argl; lia). rewrite app_nil_r.
    rewrite (bind_run _ _ _ _ _ Hs0). exact Hs1.
  - intros Hmax. destruct (recv_message_run cs ss (flat argv) [] w2) as (w3 & Hr3 & Hi3); [by rewrite app_nil_r|].
    exists w3. cbv zeta. split_and!; [|done|by apply atoi_dec|done].
    unfold receive_request. rewrite (bind_run _ _ _ _ _ Hr2). rewrite Hint. rewrite length_flat in Hr3. fold argl in Hr3.
    rewrite run_assert by (apply bool_decide_true; lia). rewrite (bind_run _ _ _ _ _ Hr3).
    unfold argscount. rewrite Nat2Z.id. rewrite <-(app_nil_r (flat argv)). unfold argl.
    assert (length argv ≤ argvlen argv)%nat as Hle.
    { clear. induction argv; simpl in *; unfold argvlen in *; simpl; lia. }
    rewrite argscount_run by (done || unfold argl in *; lia). rewrite Z.add_0_l, Nat2Z.id, argvunpack_run by done. done.
  - intros Hmax. unfold receive_request. rewrite (bind_run _ _ _ _ _ Hr2). rewrite Hint.
    rewrite bool_decide_false by lia. done.
  - intros v Hv. destruct (recv_loop_short cs ss (S (Z.to_nat 4)) 4 [] v) as (v' & Hrv); [simpl; lia|simpl; lia|].
    exists v'. unfold receive_request, recv_message. by rewrite (bind_run _ _ _ _ _ Hrv).
  - intros v head args Hv Hl n Hn Hargs. destruct (recv_message_run cs ss head args v Hv) as (v1 & Hr1 & Hv1).
    rewrite Hl in Hr1. change (Z.of_nat 4) with 4 in Hr1.
    destruct (recv_loop_short cs ss (S (Z.to_nat n)) n [] v1) as (v2 & Hr3); [rewrite Hv1; simpl; lia|rewrite Hv1; lia|].
    exists v2. unfold receive_request. rewrite (bind_run _ _ _ _ _ Hr1). fold n.
    rewrite run_assert by (by apply bool_decide_true). unfold recv_message. by rewrite (bind_run _ _ _ _ _ Hr3).
Qed.

(** A connection that writes at most three bytes and reads at most two at a time. *)
Record wire := Wire { wire_bytes : list Z; wire_desk : desk; wire_globals : rs_globals }.
Definition set_wire_desk (d : desk) (x : wire) : wire := Wire (wire_bytes x) d (wire_globals x).
#[export] Instance wire_console : Console wire := {
  fgetc fid := zoom wire_desk set_wire_desk (fgetc fid);
  fputs fid l := zoom wire_desk set_wire_desk (fputs fid l);
  getline fid := zoom wire_desk set_wire_desk (getline fid);
  printf l := zoom wire_desk set_wire_desk (printf l) }.
#[export] Instance wire_spawn : Spawn wire := { Execute p av := zoom wire_desk set_wire_desk (Execute p av) }.
#[export] Instance wire_waits : Waits wire := { WaitChild pid := mret (pid, Some 0) }.
#[export] Instance wire_files : Files wire := {
  GetTerminalDevices := mret 0; OpenTerminal _ := mret NOFILE; OpenNull := mret 3; Dup2 _ _ := mret 0;
  Close _ := mret 0; Pipe := mret None }.
#[export] Instance wire_gs : Globals wire := {
  GS := wire_globals; set_GS g x := Wire (wire_bytes x) (wire_desk x) g }.
#[export] Instance wire_sockets : Sockets wire := {
  Socket _ := mret 3; Listen _ := mret 0; Accept _ := mret NOFILE; Connect _ _ _ := mret 0; ShutDown _ _ := mret 0;
  Read _ len x :=
    let n := Nat.min (Z.to_nat len) 2 in
    let l := take n (wire_bytes x) in
    Ok ((Z.of_nat (length l), l), Wire (drop n (wire_bytes x)) (wire_desk x) (wire_globals x));
  Write _ l x :=
    let l := take 3 l in Ok (Z.of_nat (length l), Wire (wire_bytes x ++ l) (wire_desk x) (wire_globals x));
  CreateClient _ := mret 1; CreateListener _ := mret 1; ThreadDetach _ := mret 0; ThreadJoin _ := mret 0 }.

Lemma take_upto {A} n (l : list A) : take (Nat.min n (length l)) l = take n l.
Proof. destruct (decide (length l ≤ n)%nat); [by rewrite Nat.min_r, !take_ge by lia|by rewrite Nat.min_l by lia]. Qed.
Lemma drop_upto {A} n (l : list A) : drop (Nat.min n (length l)) l = drop n l.
Proof. destruct (decide (length l ≤ n)%nat); [by rewrite Nat.min_r, !drop_ge by lia|by rewrite Nat.min_l by lia]. Qed.

#[export] Instance wire_laws cs ss : ChannelLaws wire cs ss.
Proof.
  refine (Build_ChannelLaws wire _ cs ss wire_bytes _ _ _).
  - intros l x Hl. exists (Nat.min 3 (length l)), (Wire (wire_bytes x ++ take 3 l) (wire_desk x) (wire_globals x)).
    rewrite take_upto. split_and!; [destruct l; simpl; [done|lia]|lia| |done].
    cbn [Write wire_sockets]. by rewrite length_take.
  - intros len [b d g] Hlen Hb. cbn in Hb. set (n := Nat.min (Z.to_nat len) 2).
    exists (Nat.min n (length b)), (Wire (drop n b) d g). cbn [wire_bytes].
    assert (0 < length b)%nat by (destruct b; [done|simpl; lia]).
    rewrite take_upto, drop_upto. split_and!; [lia|lia|lia| |done].
    cbn [Read wire_sockets wire_bytes wire_desk wire_globals]. fold n. by rewrite length_take.
  - intros len [b d g] Hlen Hb. cbn in Hb. subst b. eexists. cbn. rewrite take_nil, drop_nil. done.
Defined.

Lemma request_roundtrip_witness :
  ∃ x1 x2, send_request 3 [text "ls"; text "-l"] (Wire [] (Desk (Tty [] [] []) []) server_globals) = Ok (true, x1) ∧
    receive_request 5 x1 = Ok (Some [text "rsrv_process"; text "5"; text "ls"; text "-l"], x2).
Proof.
  destruct (request_roundtrip (W := wire) 3 5 [text "ls"; text "-l"] (Wire [] (Desk (Tty [] [] []) []) server_globals))
    as (x1 & H1 & H2 & _).
  - discriminate.
  - intros a Ha c Hc ->. repeat (apply elem_of_cons in Ha as [->|Ha]); [..|by apply not_elem_of_nil in Ha];
      repeat (apply elem_of_cons in Hc as [Hc|Hc]; [discriminate|]); by apply not_elem_of_nil in Hc.
  - reflexivity.
  - split; [discriminate|reflexivity].
  - reflexivity.
  - destruct H2 as (x2 & H2 & _); [discriminate|]. exists x1, x2. split; [exact H1|exact H2].
Defined.

(** ** The log numbers its messages *)
Section log.
Context {W : Type} `{Globals W}.
Context (GS_law : ∀ g w, GS (set_GS g w) = g).

Definition log_ok (msgs : list (list Z)) (w : W) : Prop :=
  log (GS w) = imap (λ i m, (Z.of_nat i + 1, m)) msgs ∧ logcount (GS w) = Z.of_nat (length msgs).

Lemma log_init_run w : ∃ w', log_init w = Ok (tt, w') ∧ log_ok [] w'.
Proof using GS_law. eexists. split; [reflexivity|]. unfold log_ok. rewrite GS_law. done. Qed.

Lemma log_message_run msgs m w : log_ok msgs w → Z.of_nat (length msgs) + 1 < 2 ^ 64 →
  ∃ w', log_message m w = Ok (tt, w') ∧ log_ok (msgs ++ [m]) w'.
Proof using GS_law.
  intros [Hl Hn] Hb. eexists. split; [reflexivity|]. unfold log_ok. rewrite GS_law. cbn.
  rewrite Hl, Hn, imap_app, length_app, u64_small by lia. cbn. rewrite Nat.add_0_r. split; [done|lia].
Qed.
End log.
