(* ===== verification/Programs.v ===== *)
(** * The commands sysinfo, symposium and symp_thr (tinyos_shell.c, symposium.c, mtask.c)

    The commands that look at the system, and those that invite philosophers: to
    processes or to threads; and the standalone symposium.  What the philosophers do
    is in [Symposium.v]. *)
From S2P Require Import Prelude Kernel Args Console Filters Symposium Commands Shell.
Local Open Scope Z_scope.

(** ** sysinfo

    [ReadInfo f] is [Read(f, &info, sizeof(info))]: a record, or nothing at the end
    and on an error. *)
Class Info (W : Type) := {
  cpu_cores : M W Z;
  bios_serial_ports : M W Z;
  OpenInfo : M W Z;
  ReadInfo : Z → M W (option procinfo) }.

Section sysinfo.
Context {W : Type} `{Console W, Info W} (wrapper : Task).

Definition info_title : list Z :=
  pad 5 (text "PID") ++ text " " ++ pad 5 (text "PPID") ++ text " " ++ pad 6 (text "State") ++ text " "
    ++ pad 8 (text "Threads") ++ text " " ++ pad 20 (text "Main program") ++ [NEWLINE].
(** The name that is printed, from the result of [ParseProcInfo] and its strings. *)
Definition info_name (info : procinfo) (r : Z * list cstring * option Z) : outcome cstring :=
  let '(argc, argv, _) := r in
  if decide (1 ≤ argc) then match argv with name :: _ => Ok name | [] => Fault Indeterminate end
  else if decide (argc = -1) then Ok (if decide (pi_pid info = 1) then text "init" else text "-")
  else Ok (text "-").
Definition info_row (info : procinfo) : outcome (list Z) :=
  match ParseProcInfo wrapper info (Some 0) (Some 10) with
  | Fault f => Fault f
  | Ok r =>
      match info_name info r with
      | Fault f => Fault f
      | Ok name =>
          Ok (pad 5 (dec (pi_pid info)) ++ text " " ++ pad 5 (dec (pi_ppid info)) ++ text " "
            ++ pad 6 (if decide (pi_alive info ≠ 0) then text "ALIVE" else text "ZOMBIE") ++ text " "
            ++ pad 8 (dec (u32 (pi_thread_count info))) ++ text " " ++ pad 20 name ++ [NEWLINE])
      end
  end.

Fixpoint info_loop (fuel : nat) (finfo : Z) : M W unit :=
  match fuel with
  | O => raise OutOfFuel
  | S fuel =>
      o ← ReadInfo finfo;
      match o with
      | None => mret tt
      | Some info =>
          (match info_row info with Ok row => printf row | Fault f => raise f end) ;;
          info_loop fuel finfo
      end
  end.
Definition SystemInfo (fuel : nat) : M W Z :=
  n ← cpu_cores;
  printf (text "Number of cores         = " ++ dec n ++ [NEWLINE]) ;;
  t ← bios_serial_ports;
  printf (text "Number of serial devices= " ++ dec t ++ [NEWLINE]) ;;
  finfo ← OpenInfo;
  when (bool_decide (finfo ≠ NOFILE)) (printf info_title ;; info_loop fuel finfo) ;;
  printf [NEWLINE] ;;
  mret 0.
End sysinfo.

(** ** symposium and symp_thr *)
Definition FBASE : Z := 35.
Definition FGAP : Z := 10.
Record symposium_t := Symp { sy_N : Z; sy_bites : Z; fmin : Z; fmax : Z }.

Section symposium.
(** [(int)(log((double)n)/log(.5+.5*sqrt(5.)))] *)
Context (log_phi : Z → Z).
Definition adjust_symposium (N bites dBASE dGAP : Z) : symposium_t :=
  let lo := i32 (FBASE + dBASE - log_phi (i32 (2 * N * bites))) in
  Symp N bites lo (i32 (lo + FGAP + dGAP)).
Definition symp_argproc (argv : list (list Z)) : symposium_t :=
  let dBASE := if decide (4 ≤ length argv)%nat then getint argv 3 else 0 in
  let dGAP := if decide (5 ≤ length argv)%nat then getint argv 4 else 0 in
  adjust_symposium (getint argv 1) (getint argv 2) dBASE dGAP.

(** [fiborand], of which [think] and [eat] compute a Fibonacci number; [rand]: what
    [lrand48] answers. *)
Definition fiborand (rand lo hi : Z) : outcome Z :=
  let n := i32 (hi - lo + 1) in
  if decide (n = 0) then Fault DivByZero else Ok (i32 (Z.rem rand n + lo)).

(** The calls: [Exec] of [PhilosopherProcess] and [CreateThread] of
    [PhilosopherThread] with the number of the philosopher and the table [S], waiting
    for any child, and joining a thread.  [new_table] and [free_table] are the
    allocations of [SymposiumTable_init], and their release. *)
Context {W : Type} `{Console W}.
Class Banquet := {
  new_table : symposium_t → M W nat;
  free_table : nat → M W unit;
  exec_philosopher : Z → nat → M W Z;
  thread_philosopher : Z → nat → M W Z;
  wait_child : M W Z;
  join_thread : Z → M W Z }.
Context `{Banquet}.

Fixpoint invite (n : nat) (i : Z) (start : Z → M W Z) : M W (list Z) :=
  match n with
  | O => mret []
  | S n => t ← start i; l ← invite n (i + 1) start; mret (t :: l)
  end.
Definition SymposiumOfProcesses (symp : symposium_t) : M W Z :=
  S ← new_table symp;
  let N := Z.to_nat (sy_N symp) in
  invite N 0 (λ i, exec_philosopher i S) ;;
  for_each (seq 0 N) (λ _, wait_child ;; mret tt) ;;
  free_table S ;;
  mret 0.
Definition SymposiumOfThreads (symp : symposium_t) : M W Z :=
  S ← new_table symp;
  let N := Z.to_nat (sy_N symp) in
  thread ← invite N 0 (λ i, thread_philosopher i S);
  for_each thread (λ t, join_thread t ;; mret tt) ;;
  free_table S ;;
  mret 0.
Definition Symposium_proc (argv : list (list Z)) : M W Z :=
  checkargs 2 argv (SymposiumOfProcesses (symp_argproc argv)).
Definition Symposium_thr (argv : list (list Z)) : M W Z :=
  checkargs 2 argv (SymposiumOfThreads (symp_argproc argv)).
End symposium.
#[global] Arguments Banquet : clear implicits.

(** ** The standalone symposium (mtask.c)

    [exec_symposium] is [Exec(SymposiumOfProcesses, argl, args)]; the others are those
    of [boot_shell]. *)
Module Mtask.
Section mtask.
Context {W : Type} `{Files W, Waits W} (switch_stdio restore_stdio pseudo_console : M W unit) (exec_symposium : M W Z).

Definition open_std (k : Z) : M W unit :=
  fid ← OpenTerminal 0;
  when (bool_decide (fid ≠ NOFILE) && bool_decide (fid ≠ k)) (Dup2 fid k ;; Close fid ;; mret tt).
Definition boot_symposium (fuel : nat) : M W Z :=
  switch_stdio ;;
  n ← GetTerminalDevices;
  (if decide (0 < n) then open_std 0 ;; open_std 1 else pseudo_console) ;;
  exec_symposium ;;
  Close 0 ;;
  Close 1 ;;
  wait_all fuel ;;
  restore_stdio ;;
  mret 0.
End mtask.

(** [main]: the cores, the terminals and the symposium that it boots with, or the exit
    with [usage]. *)
Definition main (log_phi : Z → Z) (argv : list (list Z)) : option (Z * Z * symposium_t) :=
  if decide (length argv ≠ 5)%nat then None
  else
    let nphil := getint argv 3 in
    let bites := getint argv 4 in
    if decide (nphil ≤ 0 ∨ MAX_PROC < nphil) then None
    else if decide (bites ≤ 0) then None
    else Some (u32 (getint argv 1), u32 (getint argv 2), adjust_symposium log_phi nphil bites 0 0).
End Mtask.

(** ** What sysinfo shows

    [records]: the records that the information stream still has. *)
Class InfoLaws (W : Type) `{ConsoleLaws W, Info W} := {
  records : W → list procinfo;
  info_file : option Z;
  ncores_law w : ∃ n, cpu_cores w = Ok (n, w);
  nports_law w : ∃ n, bios_serial_ports w = Ok (n, w);
  open_info_law w : OpenInfo w = Ok (default NOFILE info_file, w);
  info_file_law f : info_file = Some f → f ≠ NOFILE;
  read_info_law f w : ∃ w', ReadInfo f w = Ok (head (records w), w') ∧ records w' = tail (records w) ∧ shown w' = shown w;
  printf_info_law l w : ∃ w', printf l w = Ok (tt, w') ∧ records w' = records w ∧ shown w' = shown w ++ l }.

Section sysinfo_shows.
Context {W : Type} `{InfoLaws W} (wrapper : Task).

Lemma info_loop_run fuel : ∀ f w rows,
  (length (records w) < fuel)%nat → mapM (λ i, match info_row wrapper i with Ok r => Some r | Fault _ => None end) (records w) = Some rows →
  ∃ w', info_loop wrapper fuel f w = Ok (tt, w') ∧ shown w' = shown w ++ concat rows.
Proof.
  induction fuel as [|fuel IH]; intros f w rows Hf Hrows; [lia|]. cbn [info_loop].
  destruct (read_info_law f w) as (w1 & R1 & Hr1 & Hs1). mrun ltac:(exact R1).
  destruct (records w) as [|i l]; cbn [head tail length mapM] in *.
  { injection Hrows as <-. exists w1. split; [done|]. by rewrite Hs1, app_nil_r. }
  destruct (info_row wrapper i) as [row|] eqn:Hrow; [|done].
  destruct (mapM _ l) as [rows'|] eqn:Hrows'; [|done]. injection Hrows as <-.
  destruct (printf_info_law row w1) as (w2 & R2 & Hr2 & Hs2). mrun ltac:(exact R2).
  destruct (IH f w2 rows') as (w3 & R3 & Hs3); [rewrite Hr2, Hr1; lia|by rewrite Hr2, Hr1|].
  exists w3. split; [exact R3|]. cbn [concat]. by rewrite Hs3, Hs2, Hs1, <-app_assoc.
Qed.

(** [sysinfo] prints the numbers of cores and serial ports, and, if there is an
    information stream, a title and a row for each of its records, in order. *)
Theorem SystemInfo_shows fuel w rows :
  (length (records w) < fuel)%nat → mapM (λ i, match info_row wrapper i with Ok r => Some r | Fault _ => None end) (records w) = Some rows →
  ∃ n t w', SystemInfo wrapper fuel w = Ok (0, w') ∧
    shown w' = shown w ++ (text "Number of cores         = " ++ dec n ++ [NEWLINE])
      ++ (text "Number of serial devices= " ++ dec t ++ [NEWLINE])
      ++ (if decide (info_file = None) then [] else info_title ++ concat rows) ++ [NEWLINE].
Proof.
  intros Hf Hrows. unfold SystemInfo. destruct (ncores_law w) as (n & Hn). mrun ltac:(exact Hn).
  destruct (printf_info_law (text "Number of cores         = " ++ dec n ++ [NEWLINE]) w) as (w1 & R1 & Hr1 & Hs1).
  mrun ltac:(exact R1). destruct (nports_law w1) as (t & Ht). mrun ltac:(exact Ht).
  destruct (printf_info_law (text "Number of serial devices= " ++ dec t ++ [NEWLINE]) w1) as (w2 & R2 & Hr2 & Hs2).
  mrun ltac:(exact R2). mrun ltac:(apply open_info_law). exists n, t.
  assert (∃ w3, (when (bool_decide (default NOFILE info_file ≠ NOFILE)) (printf info_title ;; info_loop wrapper fuel (default NOFILE info_file))) w2
    = Ok (tt, w3) ∧ shown w3 = shown w2 ++ if decide (info_file = None) then [] else info_title ++ concat rows) as (w3 & R3 & Hs3).
  { destruct info_file as [f|] eqn:Hif; cbn [default].
    - rewrite bool_decide_true by (by apply info_file_law). cbn [when]. rewrite decide_False by done.
      destruct (printf_info_law info_title w2) as (w3 & R3 & Hr3 & Hs3). mrun ltac:(exact R3).
      destruct (info_loop_run fuel f w3 rows) as (w4 & R4 & Hs4); [by rewrite Hr3, Hr2, Hr1|by rewrite Hr3, Hr2, Hr1|].
      exists w4. split; [exact R4|]. by rewrite Hs4, Hs3, <-app_assoc.
    - rewrite bool_decide_false by (intros Hne; by apply Hne). exists w2. split; [done|]. by rewrite app_nil_r. }
  mrun ltac:(exact R3). destruct (printf_info_law [NEWLINE] w3) as (w4 & R4 & _ & Hs4). mrun ltac:(exact R4).
  exists w4. split; [done|]. rewrite Hs4, Hs3, Hs2, Hs1. by rewrite <-!app_assoc.
Qed.
End sysinfo_shows.

(** ** How long a philosopher thinks *)
Definition small (z : Z) : Prop := - 2 ^ 30 < z < 2 ^ 30.

(** A philosopher thinks for a number between [fmin] and [fmax]; the last argument of
    the commands, if it is -11, makes it divide by zero. *)
Theorem fiborand_range log_phi N bites dBASE dGAP rand :
  let symp := adjust_symposium log_phi N bites dBASE dGAP in
  small (dBASE - log_phi (i32 (2 * N * bites)) + 45) → small dBASE → small dGAP → small (fmin symp + dGAP) → 0 ≤ rand →
  (0 ≤ 10 + dGAP → ∃ n, fiborand rand (fmin symp) (fmax symp) = Ok n ∧ fmin symp ≤ n ≤ fmax symp) ∧
  (dGAP = -11 → fiborand rand (fmin symp) (fmax symp) = Fault DivByZero).
Proof.
  intros symp Hlo Hb Hg Hsum Hr. unfold small in *.
  assert (fmin symp = 35 + dBASE - log_phi (i32 (2 * N * bites))) as Hmin
    by (unfold symp, adjust_symposium, FBASE; cbn [fmin]; apply i32_small; lia).
  assert (fmax symp = fmin symp + 10 + dGAP) as Hmax.
  { unfold symp, adjust_symposium, FGAP in *. cbn [fmin fmax] in *. apply i32_small. lia. }
  unfold fiborand. rewrite Hmax, (i32_small (_ - _ + 1)) by lia. split.
  - intros H0. rewrite decide_False by lia.
    pose proof (Z.rem_bound_pos rand (fmin symp + 10 + dGAP - fmin symp + 1) Hr ltac:(lia)).
    eexists. split; [reflexivity|]. rewrite i32_small by lia. lia.
  - intros ->. by rewrite decide_True by lia.
Qed.

(** The philosophers of the standalone symposium never divide by zero. *)
Theorem mtask_thinks log_phi argv nc nt symp rand :
  Mtask.main log_phi argv = Some (nc, nt, symp) → 0 ≤ rand → (∀ z, 0 ≤ log_phi z < 2 ^ 29) →
  1 ≤ sy_N symp ≤ MAX_PROC ∧ 1 ≤ sy_bites symp ∧
  ∃ n, fiborand rand (fmin symp) (fmax symp) = Ok n ∧ fmin symp ≤ n ≤ fmax symp.
Proof.
  unfold Mtask.main. repeat case_decide; try done. intros [= _ _ <-] Hr Hlog.
  set (N := getint argv 3) in *. set (bites := getint argv 4) in *.
  pose proof (Hlog (i32 (2 * N * bites))) as Hl. split; [cbn; lia|]. split; [cbn; lia|].
  assert (fmin (adjust_symposium log_phi N bites 0 0) = 35 - log_phi (i32 (2 * N * bites))) as Hmin
    by (unfold small in *; unfold adjust_symposium, FBASE; cbn [fmin]; rewrite i32_small; lia).
  apply (fiborand_range log_phi N bites 0 0 rand); unfold small in *; rewrite ?Hmin; try lia.
Qed.

(** ** Who is invited *)
Inductive banquet_event := Seated (i : Z) (S : nat) (t : Z) | Awaited | Joined (t : Z) | Cleared (S : nat).
Class BanquetLaws (W : Type) `{Banquet W} := {
  events : W → list banquet_event;
  new_table_law symp w : ∃ S w', new_table symp w = Ok (S, w') ∧ events w' = events w;
  free_table_law S w : ∃ w', free_table S w = Ok (tt, w') ∧ events w' = events w ++ [Cleared S];
  exec_law i S w : ∃ t w', exec_philosopher i S w = Ok (t, w') ∧ events w' = events w ++ [Seated i S t];
  thread_law i S w : ∃ t w', thread_philosopher i S w = Ok (t, w') ∧ events w' = events w ++ [Seated i S t];
  wait_child_law w : ∃ r w', wait_child w = Ok (r, w') ∧ events w' = events w ++ [Awaited];
  join_thread_law t w : ∃ r w', join_thread t w = Ok (r, w') ∧ events w' = events w ++ [Joined t] }.

Section invitations.
Context {W : Type} `{BanquetLaws W}.

Lemma invite_run (start : Z → M W Z) S n :
  (∀ i w, ∃ t w', start i w = Ok (t, w') ∧ events w' = events w ++ [Seated i S t]) →
  ∀ i w, ∃ ts w', invite n i start w = Ok (ts, w') ∧ length ts = n ∧
    events w' = events w ++ imap (λ j t, Seated (i + Z.of_nat j) S t) ts.
Proof.
  intros Hstart. induction n as [|n IH]; intros i w.
  - exists [], w. split; [done|]. split; [done|]. by rewrite app_nil_r.
  - destruct (Hstart i w) as (t & w1 & R1 & He1). destruct (IH (i + 1) w1) as (ts & w2 & R2 & Hl & He2).
    exists (t :: ts), w2. cbn [invite]. mrun ltac:(exact R1). mrun ltac:(exact R2). split; [done|].
    split; [simpl; by rewrite Hl|]. rewrite He2, He1, <-app_assoc. cbn [imap app]. f_equal. f_equal; [f_equal; lia|].
    apply imap_ext. intros j t' _. cbn. f_equal. lia.
Qed.

Lemma each_run {A} (f : A → M W Z) (e : A → banquet_event) l :
  (∀ x w, ∃ r w', f x w = Ok (r, w') ∧ events w' = events w ++ [e x]) →
  ∀ w, ∃ w', for_each l (λ x, f x ;; mret tt) w = Ok (tt, w') ∧ events w' = events w ++ (e <$> l).
Proof.
  intros Hf. induction l as [|x l IH]; intros w.
  - exists w. split; [done|]. by rewrite app_nil_r.
  - destruct (Hf x w) as (r & w1 & R1 & He1). destruct (IH w1) as (w2 & R2 & He2). exists w2. cbn [for_each].
    rewrite bind_run with (a := tt) (s' := w1); [|by mrun ltac:(exact R1)]. split; [exact R2|].
    rewrite He2, He1, <-app_assoc. done.
Qed.

Lemma awaited_times n : ∀ k, (λ _ : nat, Awaited) <$> seq k n = replicate n Awaited.
Proof using Type. induction n as [|n IH]; intros k; [done|]. cbn. f_equal. apply IH. Qed.

(** A symposium of processes seats the philosophers 0 to N - 1 at one table, waits as
    many times, and clears the table; a symposium of threads joins exactly the threads
    that it created. *)
Theorem symposia_seat_all symp w :
  let N := Z.to_nat (sy_N symp) in
  (∃ S ts w', SymposiumOfProcesses symp w = Ok (0, w') ∧ length ts = N ∧
     events w' = events w ++ imap (λ j t, Seated (Z.of_nat j) S t) ts ++ replicate N Awaited ++ [Cleared S]) ∧
  (∃ S ts w', SymposiumOfThreads symp w = Ok (0, w') ∧ length ts = N ∧
     events w' = events w ++ imap (λ j t, Seated (Z.of_nat j) S t) ts ++ (Joined <$> ts) ++ [Cleared S]).
Proof.
  intros N. destruct (new_table_law symp w) as (S & w0 & R0 & He0). split.
  - destruct (invite_run (λ i, exec_philosopher i S) S N (λ i w, exec_law i S w) 0 w0) as (ts & w1 & R1 & Hl & He1).
    destruct (each_run (λ _, wait_child) (λ _, Awaited) (seq 0 N) (λ _ w, wait_child_law w) w1) as (w2 & R2 & He2).
    destruct (free_table_law S w2) as (w3 & R3 & He3). exists S, ts, w3. unfold SymposiumOfProcesses. fold N.
    mrun ltac:(exact R0). mrun ltac:(exact R1). mrun ltac:(exact R2). mrun ltac:(exact R3). split; [done|]. split; [done|].
    by rewrite He3, He2, He1, He0, awaited_times, <-!app_assoc.
  - destruct (invite_run (λ i, thread_philosopher i S) S N (λ i w, thread_law i S w) 0 w0) as (ts & w1 & R1 & Hl & He1).
    destruct (each_run join_thread Joined ts join_thread_law w1) as (w2 & R2 & He2).
    destruct (free_table_law S w2) as (w3 & R3 & He3). exists S, ts, w3. unfold SymposiumOfThreads. fold N.
    mrun ltac:(exact R0). mrun ltac:(exact R1). mrun ltac:(exact R2). mrun ltac:(exact R3). split; [done|]. split; [done|].
    by rewrite He3, He2, He1, He0, <-!app_assoc.
Qed.
End invitations.

(** ** Systems with these laws *)

(** A terminal, and an information stream with its records. *)
Record office := Office { office_tty : tty; office_records : list procinfo }.
Definition set_office (t : tty) (o : office) : office := Office t (office_records o).
#[export] Instance office_console : Console office := {
  fgetc fid := zoom office_tty set_office (fgetc fid);
  fputs fid l := zoom office_tty set_office (fputs fid l);
  getline fid := zoom office_tty set_office (getline fid);
  printf l := zoom office_tty set_office (printf l) }.
#[export] Instance office_console_laws : ConsoleLaws office.
Proof.
  refine (Build_ConsoleLaws office _ (λ o, unread (office_tty o)) (λ o, shown (office_tty o)) _ _ _ _ _).
  - intros o. apply unread_bytes.
  - intros [t r]. destruct (fgetc_law t) as (t' & Ht & Hu & Hs). exists (Office t' r).
    change (fgetc 0 (Office t r)) with (zoom office_tty set_office (fgetc 0) (Office t r)). unfold zoom.
    cbn [office_tty]. by rewrite Ht.
  - intros [t r] l. eexists. split_and!; reflexivity.
  - intros [t r]. destruct (getline_law t) as (x & t' & Ht & Hu & Hs). exists x, (Office t' r).
    change (getline 1 (Office t r)) with (zoom office_tty set_office (getline 1) (Office t r)). unfold zoom.
    cbn [office_tty]. by rewrite Ht.
  - intros [t r] l. eexists. split_and!; reflexivity.
Defined.
#[export] Instance office_info : Info office := {
  cpu_cores := mret 2;
  bios_serial_ports := mret 1;
  OpenInfo := mret 3;
  ReadInfo _ o := Ok (head (office_records o), Office (office_tty o) (tail (office_records o))) }.
#[export] Instance office_info_laws : InfoLaws office.
Proof.
  refine (Build_InfoLaws office _ _ _ office_records (Some 3) _ _ _ _ _ _).
  - intros w. eexists. reflexivity.
  - intros w. eexists. reflexivity.
  - intros w. reflexivity.
  - by intros f [= <-].
  - intros f w. eexists. split_and!; reflexivity.
  - intros l w. eexists. split_and!; reflexivity.
Defined.

Definition demo_info : procinfo :=
  ProcInfo 2 1 1 1 (Some 77%nat) 11 (ptr_bytes 8 4210688 ++ text "sh" ++ [0] ++ replicate 117 0).
Example sysinfo_row : info_row (Some 77%nat) demo_info =
  Ok (text "    2     1  ALIVE        1                   sh" ++ [NEWLINE]).
Proof. vm_compute. reflexivity. Qed.

(** The events of a symposium; threads and processes are numbered. *)
#[export] Instance guests : Banquet (list banquet_event) := {
  new_table _ := mret 0%nat;
  free_table S l := Ok (tt, l ++ [Cleared S]);
  exec_philosopher i S l := Ok (Z.of_nat (length l), l ++ [Seated i S (Z.of_nat (length l))]);
  thread_philosopher i S l := Ok (Z.of_nat (length l), l ++ [Seated i S (Z.of_nat (length l))]);
  wait_child l := Ok (NOPROC, l ++ [Awaited]);
  join_thread t l := Ok (0, l ++ [Joined t]) }.
#[export] Instance guests_laws : BanquetLaws (list banquet_event).
Proof.
  refine (Build_BanquetLaws (list banquet_event) _ id _ _ _ _ _ _); intros;
    try (eexists _, _; split; reflexivity); eexists; split; reflexivity.
Defined.
