(* ===== verification/PseudoConsole.v ===== *)
(** * The pseudo console (console.c)

    [tinyos_pseudo_console] gives the caller two streams on the standard input and
    output of the host. The functions of these streams, [stdio_ops], are in
    [Devices.v]. *)
From S2P Require Import Prelude Hoare Bios Sched SchedInv Kernel Devices Streams StreamInv StreamCalls StreamFrame.
Local Open Scope Z_scope.

Definition on_stdio (b : FCB) : FCB := MkFCB (refcount b) None (Some stdio_ops).
Definition tinyos_pseudo_console (c : nat) : KM unit :=
  r ← FCB_reserve c 2;
  match r with
  | Some ([0%nat; 1%nat], [f; g]) => upd_FCB f on_stdio ;; upd_FCB g on_stdio
  | _ => raise Fatal
  end.

(** A caller that has the ids 0 and 1 unused gets them, on two streams of the console. *)
Lemma pseudo_console_run infl s c self p b l :
  files_ok infl s → runs_in s c self p → PT s !! p = Some b → FIDT b = None :: None :: l →
  (2 ≤ length (FCB_freelist s))%nat →
  ∃ f g fl s', tinyos_pseudo_console c s = Ok (tt, s') ∧ files_ok infl s' ∧ same_rest s s' ∧
    FCB_freelist s = f :: g :: fl ∧ FCB_freelist s' = fl ∧
    PT s' = <[p := set_FIDT (Some f :: Some g :: l) b]> (PT s) ∧
    (∃ n, FT s' !! f = Some (MkFCB n None (Some stdio_ops))) ∧
    (∃ n, FT s' !! g = Some (MkFCB n None (Some stdio_ops))).
Proof.
  intros Hfo Hr Hb Hl Hfl. unfold tinyos_pseudo_console.
  destruct (reserve_run infl s c self p b 2 Hfo Hr Hb) as (r & s1 & Hr1 & Hok1 & Hs1 & Hres).
  mrun ltac:(exact Hr1). destruct r as [[fids fcbs]|].
  2:{ destruct Hres as ([Hno|Hno] & _); [rewrite Hl in Hno; unfold free_slots in Hno; simpl in Hno; lia|lia]. }
  destruct Hres as (Hff & -> & _ & Hd1 & HL1 & HP1). rewrite Hl in Hff. assert (fids = [0; 1]%nat) as -> by (destruct l; by injection Hff as <-). rewrite Hl in HP1.
  destruct (FCB_freelist s) as [|f [|g fl]] eqn:Hfree; [simpl in Hfl; lia..|]. simpl in Hd1, HL1, HP1 |- *.
  unfold connected in HP1. simpl in HP1. rewrite take_0 in *.
  assert (p < length (PT s))%nat as Hp by (by eapply lookup_lt_Some).
  assert (∀ h, h ∈ [f; g] → is_Some (FT s1 !! h)) as Hin.
  { intros h Hh. apply (fo_valid _ _ _ Hok1). assert (0 < fidt_refs (PT s1) h)%nat; [|lia]. rewrite HP1.
    rewrite !elem_of_cons in Hh. destruct Hh as [->|[->|Hh]]; [| |by apply not_elem_of_nil in Hh].
    - by eapply (fidt_refs_pos _ p _ 0); [by apply list_lookup_insert_eq|].
    - by eapply (fidt_refs_pos _ p _ 1); [by apply list_lookup_insert_eq|]. }
  destruct (Hin f) as [bf Hbf]; [left|]. destruct (Hin g) as [bg Hbg]; [right; left|].
  assert (f ≠ g) as Hfg.
  { pose proof (fo_nodup _ _ _ (proj1 Hfo)) as Hn. rewrite Hfree, app_nil_r in Hn.
    apply NoDup_cons in Hn as [Hn _]. intros ->. apply Hn. left. }
  mrun ltac:(by apply upd_FCB_run).
  destruct (set_device_ok infl f [] [g] s1 bf (on_stdio bf) Hok1 Hd1 Hbf eq_refl I) as [Hok2 Hd2].
  assert (<[f := on_stdio bf]> (FT s1) !! g = Some bg) as Hbg2 by (by rewrite list_lookup_insert_ne).
  destruct (set_device_ok infl g [] [] _ bg (on_stdio bg) Hok2 Hd2 Hbg2 eq_refl I) as [Hok3 Hd3].
  exists f, g, fl. eexists. split; [by apply upd_FCB_run|]. split; [done|].
  split; [eapply same_rest_trans; [exact Hs1|by split]|]. split; [done|]. split; [done|]. split; [done|].
  simpl. apply lookup_lt_Some in Hbf as Hf. apply lookup_lt_Some in Hbg as Hg. split; eexists.
  - rewrite list_lookup_insert_ne by done. by apply list_lookup_insert_eq.
  - apply list_lookup_insert_eq. by rewrite length_insert.
Qed.

(** [stdio_read] delivers the bytes of the first [fread] without an error, and none
    that an earlier one stored. *)
Lemma stdio_read_retries size errs avail turns :
  stdio_read size (((λ l, (l, true)) <$> errs) ++ (avail, false) :: turns) =
    Some (i32 (Z.of_nat (length (take (Z.to_nat size) avail))), take (Z.to_nat size) avail).
Proof. by induction errs. Qed.

(** The streams that are in use stay as they are. *)
Lemma ua_console {X} (pr : FCB → X) f0 d c : keeps (used_as pr f0 d) (tinyos_pseudo_console c) (λ _, True).
Proof.
  unfold tinyos_pseudo_console. eapply keeps_bind; [apply ua_reserve|]. intros r Hr. cbv beta in Hr.
  destruct r as [[[|[|?] [|[|[|?]] [|]]] [|f [|g [|]]]]|]; try by apply keeps_raise.
  specialize (Hr _ eq_refl). cbn in Hr. apply Forall_cons in Hr as [Hf [Hg _]%Forall_cons].
  eapply keeps_seq; [apply ua_upd_FCB; by left|]. intros _. apply ua_upd_FCB. by left.
Qed.
