(* ===== verification/ShellKernel.v ===== *)
(** * The command line on the kernel

    The system calls that start a pipeline, as [Streams.v] and [Proc.v] define them,
    implement the interface of [Commands.v]; the pipelines of the shell run on them. *)
From S2P Require Import Prelude Bios Sched SchedInv Kernel Devices Streams StreamInv StreamCalls StreamIO Proc ProcInv ProcExec World ProcProps.
From S2P Require Import Args Console Filters Commands Shell.
Local Open Scope Z_scope.

(** ** The system calls of core [c] *)
Section kernel_calls.
Context (c : nat).

(** [sys_Pipe] fails, and stores nothing. *)
Definition kernel_Pipe : KM (option (Z * Z)) :=
  if decide (sys_Pipe = 0) then raise Indeterminate else mret None.
#[local] Instance kernel_files : Files kernel := {
  GetTerminalDevices := sys_GetTerminalDevices;
  OpenTerminal := sys_OpenTerminal c;
  OpenNull := sys_OpenNull c;
  Dup2 := sys_Dup2 c;
  Close := sys_Close c;
  Pipe := kernel_Pipe }.

(** The addresses of [exec_wrapper], of the programs, and of a buffer on the stack. *)
Context (wrapper : nat) (ptr : Z) (addr : Program → Z).
#[local] Instance kernel_spawn : Spawn kernel := {
  Execute p argv := Args.Execute c wrapper ptr (addr p) argv }.

Definition kernel_pipeline (pipe : Z * Z) (frags : list (Z * list (list Z))) : KM (list Z) :=
  start_pipeline pipe frags.

(** ** A shell that runs in process [p], with file ids [l] *)
Context (infl : nat → nat) (self : tid) (p : nat).
Record shell_at (s : kernel) (l : list (option nat)) : Prop := ShellAt {
  sa_procs : procs_ok infl s;
  sa_runs : runs_in s c self p;
  sa_block : ∃ b, PT s !! p = Some b ∧ pstate b = ALIVE ∧ FIDT b = l }.

(** The other processes and the argument buffers stay; and the free blocks too. *)
Record others_stay (s s' : kernel) : Prop := OthersStay {
  os_procs x k : x ≠ p → PT s !! x = Some k → pstate k = ALIVE → PT s' !! x = Some k;
  os_bufs n d : kbufs s !! n = Some d → kbufs s' !! n = Some d }.
Definition free_is (s : kernel) (ch : list nat) : Prop := free_chain (PT s) (pcb_freelist s) ch ∧ NoDup ch.
Definition free_stays (s s' : kernel) : Prop := others_stay s s' ∧ ∀ ch, free_is s ch → free_is s' ch.

Lemma others_refl s : others_stay s s.
Proof. by split. Qed.
Lemma others_trans s1 s2 s3 : others_stay s1 s2 → others_stay s2 s3 → others_stay s1 s3.
Proof. intros [H1 B1] [H2 B2]. split; auto. Qed.
Lemma stays_trans s1 s2 s3 : free_stays s1 s2 → free_stays s2 s3 → free_stays s1 s3.
Proof. intros [H1 F1] [H2 F2]. split; [by eapply others_trans|auto]. Qed.

(** A call that changes the file ids of [p] only. *)
Lemma fids_move s s' l l' b :
  shell_at s l → PT s !! p = Some b → files_ok infl s' → same_rest s s' →
  PT s' = <[p := set_FIDT l' b]> (PT s) → shell_at s' l' ∧ free_stays s s'.
Proof.
  intros [[Hf Hfr Ha Hfo Hl] Hr (b' & Hb' & Hal & _)] Hb Hfo' Hs HP.
  assert (b' = b) as -> by congruence. pose proof (sr_rest _ _ Hs) as (Hpf & _ & _ & Hkb & Hw & Hnb & _).
  pose proof (sr_sched _ _ Hs) as Hk. split; [split|].
  - split.
    + rewrite HP. by apply family_fids.
    + rewrite HP, Hpf. by apply free_fids.
    + eapply args_fids; eauto.
    + done.
    + by eapply sched_live_same; [..|exact Hl].
  - by eapply runs_in_rest.
  - exists (set_FIDT l' b). split; [|done]. rewrite HP. apply list_lookup_insert_eq. by eapply lookup_lt_Some.
  - split; [split|].
    + intros x k Hx Hxk _. by rewrite HP, list_lookup_insert_ne.
    + intros n d Hn. by rewrite Hkb.
    + intros ch [Hch Hnd]. split; [|done]. rewrite Hpf, HP. eapply free_chain_ext; [|exact Hch]. intros x k _ Hxk.
      destruct (fids_new (PT s) p b l' Hb x k Hxk) as (k' & Hk' & _ & Hpar). by exists k'.
Qed.

#[local] Set Default Proof Using "Type*".
Context (Hsmall : ∀ f, Z.of_nat (infl f) + 1 < 2 ^ 31) (Hp0 : p ≠ 0%nat).

Lemma fid_at s b i : files_ok infl s → PT s !! p = Some b → (i < MAX_FILEID)%nat →
  valid_fid (Z.of_nat i) = true ∧ ∀ o, FIDT b !! i = Some o → fid_of s p (Z.of_nat i) = o.
Proof.
  intros [Hok _] Hb Hi. assert (valid_fid (Z.of_nat i) = true) as Hv.
  { unfold valid_fid. apply andb_true_iff. split; [apply Z.leb_le|apply Z.ltb_lt]; lia. }
  split; [done|]. intros o Ho. rewrite (fid_of_lookup _ _ _ _ Hb), Hv, Nat2Z.id, Ho. done.
Qed.

Lemma table_length s l i o : shell_at s l → l !! i = Some o → (i < MAX_FILEID)%nat.
Proof.
  intros [Hpr _ (b & Hb & _ & <-)] Hi%lookup_lt_Some.
  by rewrite (fo_length _ _ _ (proj1 (pr_files _ _ Hpr)) p b Hb) in Hi.
Qed.

(** [Dup2] of a stream to the id that has it, and the calls with a bad id, do
    nothing. *)
Lemma dup2_same s l i j f :
  shell_at s l → l !! i = Some (Some f) → l !! j = Some (Some f) →
  ∃ s', sys_Dup2 c (Z.of_nat i) (Z.of_nat j) s = Ok (0, s') ∧ shell_at s' l ∧ free_stays s s'.
Proof.
  intros Hs Hi Hj. pose proof (table_length _ _ _ _ Hs Hi) as Hil. pose proof (table_length _ _ _ _ Hs Hj) as Hjl.
  pose proof Hs as [Hpr Hr (b & Hb & Hal & <-)]. pose proof (pr_files _ _ Hpr) as Hfo.
  destruct (fid_at s b i Hfo Hb Hil) as [_ Hfi]. destruct (fid_at s b j Hfo Hb Hjl) as [Hvj Hfj].
  destruct (dup2_run infl s c self p b (Z.of_nat i) (Z.of_nat j) f (Some f) Hfo Hr Hb (Hfi _ Hi) Hvj (Hfj _ Hj) Hsmall)
    as (s' & Hrun & Hfo' & Hsr & HP & _).
  exists s'. split; [done|]. rewrite Nat2Z.id, (list_insert_id (FIDT b)) in HP by done.
  by eapply fids_move.
Qed.
Lemma dup2_bad s i fd : valid_fid fd = false → sys_Dup2 c fd i s = Ok (-1, s).
Proof. intros Hv. unfold sys_Dup2. by rewrite Hv. Qed.
Lemma close_bad s fd : valid_fid fd = false → sys_Close c fd s = Ok (-1, s).
Proof. intros Hv. unfold sys_Close, get_fcb. by rewrite Hv. Qed.

Lemma close_at s l i f :
  shell_at s l → l !! i = Some (Some f) →
  ∃ s', sys_Close c (Z.of_nat i) s = Ok (0, s') ∧ shell_at s' (<[i := None]> l) ∧ free_stays s s'.
Proof.
  intros Hs Hi. pose proof (table_length _ _ _ _ Hs Hi) as Hil.
  pose proof Hs as [Hpr Hr (b & Hb & Hal & <-)]. pose proof (pr_files _ _ Hpr) as Hfo.
  destruct (fid_at s b i Hfo Hb Hil) as [_ Hfi].
  destruct (close_run infl s c self p b (Z.of_nat i) f Hfo Hr Hb (Hfi _ Hi) (Hsmall f)) as (s' & Hrun & Hfo' & Hsr & HP & _).
  exists s'. split; [done|]. rewrite Nat2Z.id in HP. by eapply fids_move.
Qed.

(** ** Saving a stream *)
Lemma open_null_run s l :
  shell_at s l → terms_ok s → (0 < free_slots l)%nat → FCB_freelist s ≠ [] →
  ∃ k g s', sys_OpenNull c s = Ok (Z.of_nat k, s') ∧ find_fids 1 0 l = Some [k] ∧
    shell_at s' (<[k := Some g]> l) ∧ free_stays s s' ∧ terms_ok s' ∧
    FCB_freelist s = g :: FCB_freelist s' ∧
    ∃ b, PT s !! p = Some b ∧ FIDT b = l ∧ PT s' = <[p := set_FIDT (<[k := Some g]> l) b]> (PT s).
Proof.
  intros Hs Ht Hfree Hfl. pose proof Hs as [Hpr Hr (b & Hb & Hal & Hl)]. pose proof (pr_files _ _ Hpr) as Hfo.
  destruct (open_run infl s c self p b DEV_NULL 0 Hfo Hr Hb Ht ltac:(lia)) as (r & s1 & Hrun1 & Hfo1 & Hsr1 & Hres).
  rewrite decide_False in Hres by (rewrite Hl; cbn; intros [?|[?|?]]; [lia|done|lia]).
  destruct Hres as (k & g & fl & -> & Hff & Hfl0 & <- & HP1 & _). rewrite Hl in *.
  destruct (fids_move s s1 l (<[k := Some g]> l) b Hs Hb Hfo1 Hsr1 HP1) as [Hs1 Hk1].
  exists k, g, s1. split_and!; try done; [by eapply terms_ok_rest|by exists b].
Qed.

Lemma savefid_run s l i f :
  shell_at s l → terms_ok s → l !! i = Some (Some f) → (0 < free_slots l)%nat → FCB_freelist s ≠ [] →
  ∃ k s', savefid (Z.of_nat i) s = Ok (Z.of_nat k, s') ∧ find_fids 1 0 l = Some [k] ∧
    shell_at s' (<[k := Some f]> l) ∧ free_stays s s' ∧ terms_ok s' ∧ FCB_freelist s' ≠ [].
Proof.
  intros Hs Ht Hi Hfree Hfl. pose proof (table_length _ _ _ _ Hs Hi) as Hil.
  destruct (open_null_run s l Hs Ht Hfree Hfl)
    as (k & g & s1 & Hrun1 & Hff & Hs1 & Hk1 & Ht1 & Hfl0 & b & Hb & Hl & HP1).
  pose proof (pr_files _ _ (sa_procs _ _ Hs)) as Hfo. pose proof (pr_files _ _ (sa_procs _ _ Hs1)) as Hfo1.
  destruct (find_fids_spec _ _ _ _ Hff) as (_ & _ & Hin & _). destruct (Hin k ltac:(left)) as [_ Hkl].
  rewrite Nat.sub_0_r in Hkl. assert (i ≠ k) as Hik by congruence.
  pose proof Hs1 as [Hpr1 Hr1 (b1 & Hb1 & Hal1 & Hl1)].
  assert (l !! i = <[k := Some g]> l !! i) as Hi1 by (by rewrite list_lookup_insert_ne).
  assert (<[k := Some g]> l !! k = Some (Some g)) as Hk by (apply list_lookup_insert_eq; by eapply lookup_lt_Some).
  pose proof (table_length _ _ _ _ Hs1 Hk) as Hkm.
  destruct (fid_at s1 b1 i Hfo1 Hb1 Hil) as [_ Hfi]. destruct (fid_at s1 b1 k Hfo1 Hb1 Hkm) as [Hvk Hfk].
  rewrite Hl1 in Hfi, Hfk.
  destruct (dup2_run infl s1 c self p b1 (Z.of_nat i) (Z.of_nat k) f (Some g) Hfo1 Hr1 Hb1
    ltac:(apply Hfi; congruence) Hvk (Hfk _ Hk) Hsmall) as (s2 & Hrun2 & Hfo2 & Hsr2 & HP2 & Hfl2).
  rewrite Nat2Z.id, Hl1, list_insert_insert_eq in HP2.
  destruct (fids_move s1 s2 _ (<[k := Some f]> l) b1 Hs1 Hb1 Hfo2 Hsr2 HP2) as [Hs2 Hk2].
  exists k, s2. split_and!.
  - unfold savefid. cbn [OpenNull Dup2 kernel_files]. mrun ltac:(exact Hrun1).
    rewrite run_assert by (apply bool_decide_true; unfold NOFILE; lia). by mrun ltac:(exact Hrun2).
  - done.
  - done.
  - by eapply stays_trans.
  - by eapply terms_ok_rest.
  - assert (g ∈ FCB_freelist s) as Hg by (rewrite Hfl0; left).
    assert (Some g ≠ Some f) as Hgf.
    { intros [= ->]. destruct (fid_at s b i Hfo Hb Hil) as [_ Hx].
      destruct (fid_used s infl [] p b (Z.of_nat i) f (proj1 Hfo) Hb) as (_ & _ & _ & Hn); [apply Hx; by rewrite Hl|].
      by rewrite app_nil_r in Hn. }
    rewrite Hfl2, decide_False by done. unfold after_drop. rewrite decide_True; [by destruct (FCB_freelist s1)|].
    rewrite HP1. pose proof (reserved_refs infl s p b 1 [k] g Hfo Hb) as Href. rewrite Hl, Hfl0 in Href.
    apply Href; [done|done|left].
Qed.

(** ** Starting a process *)

(** Process [q] is alive, a child of the shell with these file ids, and its main thread
    is to run this program with these arguments. *)
Definition child_with (s : kernel) (q : nat) (l : list (option nat)) (prog : Z) (argv : list (list Z)) : Prop :=
  q ≠ p ∧ ∃ k a, PT s !! q = Some k ∧ pstate k = ALIVE ∧ parent k = Some p ∧ FIDT k = l ∧
    thread_count k = 1 ∧ main_task k = Some wrapper ∧ pargl k = Z.of_nat (argvlen argv + 8) ∧ pargs k = Some a ∧
    kbufs s !! a = Some (ptr_bytes 8 prog ++ flat argv).
(** What [Execute] returned, when the first free block was this one. *)
Definition executed (s : kernel) (free : option nat) (r : Z) (l : list (option nat)) (prog : Z) (argv : list (list Z)) : Prop :=
  match free with
  | Some q => r = Z.of_nat q ∧ child_with s q l prog argv
  | None => r = NOPROC
  end.

Lemma executed_kept s s' o r l prog argv : others_stay s s' → executed s o r l prog argv → executed s' o r l prog argv.
Proof.
  intros [Hp Hb]. destruct o as [q|]; [|done]. intros [-> (Hq & k & a & Hqk & Ha & Hpar & Hl & Hn & Hm & Hg & Hbuf & Hd)].
  split; [done|]. split; [done|]. exists k, a. split_and!; auto.
Qed.

Lemma execute_run s l ch prog argv :
  shell_at s l → free_is s ch → Z.of_nat (argvlen argv) + 8 < 2 ^ 31 →
  ∃ r s', Args.Execute c wrapper ptr prog argv s = Ok (r, s') ∧ shell_at s' l ∧ others_stay s s' ∧
    free_is s' (tail ch) ∧ executed s' (head ch) r l prog argv.
Proof.
  intros Hs [Hch Hnd] Hn. unfold Args.Execute. rewrite Execute_args_run by done.
  set (args := ptr_bytes 8 prog ++ flat argv).
  pose proof Hs as [Hpr Hr (b & Hb & Hal & Hl)]. destruct ch as [|q ch].
  - exists NOPROC, s. split; [by apply exec_none|]. split; [done|]. split; [apply others_refl|]. by split.
  - destruct Hch as (Hq & k & Hk & Hch). apply NoDup_cons in Hnd as [Hqc Hnd].
    pose proof (pr_free _ _ Hpr) as ([|y fl] & Hfc & _ & Hfl); simpl in Hfc; [congruence|].
    destruct Hfc as (Hy & _). assert (y = q) as -> by congruence.
    assert (pstate k = FREE) as Hst by (apply (Hfl q k Hk); left).
    assert (args_readable (Z.of_nat (argvlen argv + 8)) (Some (ptr, args))) as Hread.
    { unfold args_readable, args. rewrite length_app, length_ptr_bytes, length_flat. lia. }
    destruct (exec_run infl c self p q b k (Some wrapper) _ _ s Hpr Hr Hb Hal Hq Hk Hread Hsmall)
      as (s' & Hrun & Hfo & He).
    pose proof (exec_keeps infl p q b k _ _ _ s s' Hpr Hb Hal Hp0 Hq Hk Hfo He) as Hpr'.
    destruct He as [HP Hpf _ Hkb _ _ _ _ Hrun' _ _]. assert (p ≠ q) as Hpq by congruence.
    assert (∀ x e, x ≠ p → x ≠ q → PT s !! x = Some e → PT s' !! x = Some e) as Hoth.
    { intros x e Hx Hxq Hxe. rewrite HP, list_lookup_imap, Hxe. cbn. unfold exec_block, at_. by repeat case_decide. }
    exists (Z.of_nat q), s'. split; [exact Hrun|]. split; [|split; [|split; [split; [|done]|split; [done|]]]].
    + split; [done|by apply Hrun'|]. eexists. rewrite HP, list_lookup_imap, Hb. cbn. split; [done|].
      unfold exec_block, at_. repeat case_decide; try done.
    + split.
      * intros x e Hx Hxe Ha. apply Hoth; [done| |done]. congruence.
      * intros n d Hnd'. rewrite Hkb. cbn. rewrite lookup_insert_ne; [done|]. intros <-.
        by rewrite (ar_fresh _ (pr_args _ _ Hpr) (next_buf s)) in Hnd'.
    + rewrite Hpf. eapply free_chain_ext; [|exact Hch]. intros x e Hx Hxe. assert (x ≠ q) as Hxq by (by intros ->).
      rewrite HP, list_lookup_imap, Hxe. eexists. split; [reflexivity|].
      unfold exec_block. rewrite !(at_ne q) by done. unfold at_. by case_decide.
    + split; [done|]. eexists _, (next_buf s). split; [rewrite HP, list_lookup_imap, Hk; reflexivity|].
      unfold exec_block. rewrite !at_same, at_ne by done. do 7 (split; [first [reflexivity|exact Hl]|]).
      rewrite Hkb. cbn [new_kbufs]. rewrite lookup_insert_eq. f_equal. rewrite Nat2Z.id. apply firstn_all2.
      unfold args. rewrite length_app, length_ptr_bytes, length_flat. lia.
Qed.

(** ** The pipeline *)
Definition runnable (frags : list (Z * list (list Z))) : Prop :=
  Forall (λ x, (∃ P, prog_at x.1 = Some P) ∧ Z.of_nat (argvlen x.2) + 8 < 2 ^ 31) frags.

(** The fragments took the free blocks of [ch], one after the other; the last got the
    file ids [l1], and the others [l2]. *)
Definition fragments_run (s : kernel) (ch : list nat) (rs : list Z) (frags : list (Z * list (list Z)))
    (l1 l2 : list (option nat)) : Prop :=
  ∀ j comd args, frags !! j = Some (comd, args) → ∃ P r, prog_at comd = Some P ∧ rs !! j = Some r ∧
    executed s (ch !! j) r (if decide (S j = length frags) then l1 else l2) (addr P) args.

Lemma start_loop_run i o f0 f1 pipe frags : ∀ s ch l l1 l2,
  shell_at s l2 → free_is s ch → l1 = <[o := None]> l2 → l = <[i := None]> l1 →
  l2 !! 0%nat = Some (Some f0) → l2 !! 1%nat = Some (Some f1) → l2 !! i = Some (Some f0) → l2 !! o = Some (Some f1) →
  i ≠ o → o ≠ 0%nat → valid_fid pipe.1 = false → valid_fid pipe.2 = false → runnable frags → frags ≠ [] →
  ∃ rs s', start_loop (Z.of_nat i) (Z.of_nat o) pipe frags s = Ok (rs, s') ∧ length rs = length frags ∧
    shell_at s' l ∧ others_stay s s' ∧ fragments_run s' ch rs frags l1 l2.
Proof.
  induction frags as [|[comd args] rest IH]; intros s ch l l1 l2 Hs Hfr Hl1 Hl H0 H1 Hi Ho Hio Ho0 Hp1 Hp2 Hrun Hne; [done|].
  apply Forall_cons in Hrun as [[[P HP] Hlen] Hrest]. cbn [fst snd] in *. cbn [start_loop].
  destruct rest as [|x rest].
  - destruct (dup2_same s l2 o 1 f1 Hs Ho H1) as (s1 & Hr1 & Hs1 & Hk1).
    destruct (close_at s1 l2 o f1 Hs1 Ho) as (s2 & Hr2 & Hs2 & Hk2). rewrite <-Hl1 in Hs2.
    destruct (execute_run s2 l1 ch (addr P) args Hs2 (proj2 Hk2 _ (proj2 Hk1 _ Hfr)) Hlen)
      as (r & s3 & Hr3 & Hs3 & Hk3 & _ & Hch).
    assert (l1 !! i = Some (Some f0)) as Hi1 by (by rewrite Hl1, list_lookup_insert_ne).
    assert (l1 !! 0%nat = Some (Some f0)) as H01 by (by rewrite Hl1, list_lookup_insert_ne).
    destruct (dup2_same s3 l1 i 0 f0 Hs3 Hi1 H01) as (s4 & Hr4 & Hs4 & Hk4).
    destruct (close_at s4 l1 i f0 Hs4 Hi1) as (s5 & Hr5 & Hs5 & Hk5). rewrite <-Hl in Hs5.
    exists [r], s5. cbn [Dup2 Close Execute kernel_files kernel_spawn]. mstep.
    change 1 with (Z.of_nat 1) at 1. mrun ltac:(exact Hr1). mstep. mrun ltac:(exact Hr2). mstep.
    rewrite HP. cbn [get_some]. mstep. mrun ltac:(exact Hr3). mstep.
    change 0 with (Z.of_nat 0) at 1. mrun ltac:(exact Hr4). mrun ltac:(exact Hr5). mstep.
    split; [done|]. split; [done|]. split; [done|]. split.
    + eapply others_trans; [apply Hk1|]. eapply others_trans; [apply Hk2|]. eapply others_trans; [exact Hk3|].
      eapply others_trans; [apply Hk4|apply Hk5].
    + intros [|j] comd' args' Hj; [|by destruct j]. injection Hj as <- <-. exists P, r. rewrite decide_True by done.
      split; [done|]. split; [done|]. rewrite <-head_lookup.
      eapply executed_kept; [|exact Hch]. eapply others_trans; [apply Hk4|apply Hk5].
  - destruct (execute_run s l2 ch (addr P) args Hs Hfr Hlen) as (r & s1 & Hr1 & Hs1 & Hk1 & Hfr1 & Hch).
    destruct (IH s1 (tail ch) l l1 l2 Hs1 Hfr1 Hl1 Hl H0 H1 Hi Ho Hio Ho0 Hp1 Hp2 Hrest ltac:(done))
      as (rs & s2 & Hr2 & Hlr & Hs2 & Hk2 & Hrs).
    exists (r :: rs), s2. cbn [Dup2 Close Execute Pipe kernel_files kernel_spawn]. mstep.
    unfold kernel_Pipe at 1. rewrite decide_False by done. mstep. cbn [default].
    mrun ltac:(by apply dup2_bad). mstep. mrun ltac:(by apply close_bad). mstep.
    rewrite HP. cbn [get_some]. mstep. mrun ltac:(exact Hr1). mstep.
    mrun ltac:(by apply dup2_bad). mrun ltac:(by apply close_bad). mrun ltac:(exact Hr2).
    split; [done|]. split; [simpl; by rewrite Hlr|]. split; [done|]. split; [by eapply others_trans|].
    intros [|j] comd' args' Hj.
    + injection Hj as <- <-. exists P, r. rewrite decide_False by done. split; [done|]. split; [done|].
      rewrite <-head_lookup. by eapply executed_kept.
    + destruct (Hrs j comd' args' Hj) as (P' & r' & HP' & Hr' & He). exists P', r'. split; [done|]. split; [done|].
      rewrite <-lookup_tail. cbn [length] in *. case_decide; case_decide; try lia; done.
Qed.

Lemma free_slots_fill l k f : l !! k = Some None → S (free_slots (<[k := Some f]> l)) = free_slots l.
Proof using Type.
  unfold free_slots. revert k. induction l as [|x l IH]; intros [|k] Hk; try done.
  - injection Hk as ->. change (<[0%nat := Some f]> (None :: l)) with (Some f :: l).
    rewrite filter_cons_False by done. by rewrite filter_cons_True.
  - change (<[S k := Some f]> (x :: l)) with (x :: <[k := Some f]> l). destruct (decide (x = None)) as [->|Hx].
    + rewrite !filter_cons_True by done. cbn [length]. by rewrite <-(IH k Hk).
    + rewrite !filter_cons_False by done. by apply IH.
Qed.

Lemma find_one l k : find_fids 1 0 l = Some [k] → l !! k = Some None.
Proof using Type.
  intros Hf. destruct (find_fids_spec _ _ _ _ Hf) as (_ & _ & Hin & _).
  destruct (Hin k ltac:(left)) as [_ Hk]. by rewrite Nat.sub_0_r in Hk.
Qed.

Lemma pipeline_run s l ch f0 f1 pipe frags :
  shell_at s l → free_is s ch → terms_ok s → l !! 0%nat = Some (Some f0) → l !! 1%nat = Some (Some f1) →
  (2 ≤ free_slots l)%nat → FCB_freelist s ≠ [] →
  valid_fid pipe.1 = false → valid_fid pipe.2 = false → runnable frags → frags ≠ [] →
  ∃ i o rs s', kernel_pipeline pipe frags s = Ok (rs, s') ∧ length rs = length frags ∧
    l !! i = Some None ∧ l !! o = Some None ∧ i ≠ o ∧ shell_at s' l ∧
    let l1 := <[i := Some f0]> l in fragments_run s' ch rs frags l1 (<[o := Some f1]> l1).
Proof.
  intros Hs Hch Ht H0 H1 Hfree Hfl Hp1 Hp2 Hrun Hne.
  destruct (savefid_run s l 0 f0 Hs Ht H0 ltac:(lia) Hfl) as (i & s1 & Hr1 & Hi & Hs1 & Hk1 & Ht1 & Hfl1).
  apply find_one in Hi. pose proof (free_slots_fill l i f0 Hi) as Hsl.
  assert (i ≠ 0%nat) as Hi0 by congruence. assert (i ≠ 1%nat) as Hi1 by congruence.
  set (l1 := <[i := Some f0]> l) in *.
  assert (l1 !! 1%nat = Some (Some f1)) as H11 by (unfold l1; by rewrite list_lookup_insert_ne).
  assert (l1 !! 0%nat = Some (Some f0)) as H10 by (unfold l1; by rewrite list_lookup_insert_ne).
  assert (l1 !! i = Some (Some f0)) as H1i by (apply list_lookup_insert_eq; by eapply lookup_lt_Some).
  destruct (savefid_run s1 l1 1 f1 Hs1 Ht1 H11 ltac:(lia) Hfl1) as (o & s2 & Hr2 & Ho & Hs2 & Hk2 & Ht2 & Hfl2).
  apply find_one in Ho. assert (o ≠ 0%nat) as Ho0 by congruence. assert (o ≠ 1%nat) as Ho1 by congruence.
  assert (i ≠ o) as Hio by congruence. set (l2 := <[o := Some f1]> l1) in *.
  assert (l !! o = Some None) as Hlo by (unfold l1 in Ho; by rewrite list_lookup_insert_ne in Ho).
  destruct (start_loop_run i o f0 f1 pipe frags s2 ch l l1 l2 Hs2 (proj2 Hk2 _ (proj2 Hk1 _ Hch)))
    as (rs & s3 & Hr3 & Hlen & Hs3 & _ & Hfr); try done.
  - unfold l2. rewrite list_insert_insert_eq. by rewrite list_insert_id.
  - unfold l1. rewrite list_insert_insert_eq. by rewrite list_insert_id.
  - unfold l2. by rewrite list_lookup_insert_ne.
  - unfold l2. by rewrite list_lookup_insert_ne.
  - unfold l2. by rewrite list_lookup_insert_ne.
  - unfold l2. apply list_lookup_insert_eq. by eapply lookup_lt_Some.
  - exists i, o, rs, s3. split; [|done]. unfold kernel_pipeline, start_pipeline.
    change 0 with (Z.of_nat 0). mrun ltac:(exact Hr1). change 1 with (Z.of_nat 1). mrun ltac:(exact Hr2). exact Hr3.
Qed.
End kernel_calls.

(** C19 (functional). A command line on this kernel, as long as the variable [pipe],
    which the code does not initialise, holds no valid file ids.  The fragments take
    the free blocks, in the order of the free list: each is started, as a living child
    whose main thread is to run its program with its arguments, until no block is left,
    and the others get no process; the file ids of the shell are afterwards what they
    were.  Since [Pipe] fails, and the code does not test for that, the fragments are
    not connected: every process has the shell's own streams as 0 and 1, and also the
    saved copies that the shell had open at that moment. *)
Theorem pipeline_on_kernel c wrapper ptr addr infl self p s b f0 f1 pipe frags :
  procs_ok infl s → runs_in s c self p → p ≠ 0%nat → PT s !! p = Some b → pstate b = ALIVE → terms_ok s →
  (∀ f, Z.of_nat (infl f) + 1 < 2 ^ 31) →
  FIDT b !! 0%nat = Some (Some f0) → FIDT b !! 1%nat = Some (Some f1) →
  (2 ≤ free_slots (FIDT b))%nat → FCB_freelist s ≠ [] →
  valid_fid pipe.1 = false → valid_fid pipe.2 = false → runnable frags → frags ≠ [] →
  ∃ ch i o rs s', free_chain (PT s) (pcb_freelist s) ch ∧ NoDup ch ∧
    (∀ q k, PT s !! q = Some k → q ∈ ch ↔ pstate k = FREE) ∧
    kernel_pipeline c wrapper ptr addr pipe frags s = Ok (rs, s') ∧ length rs = length frags ∧
    FIDT b !! i = Some None ∧ FIDT b !! o = Some None ∧ fids_of s' p = FIDT b ∧ procs_ok infl s' ∧
    ∀ j comd args, frags !! j = Some (comd, args) →
      match ch !! j with
      | None => rs !! j = Some NOPROC
      | Some q => rs !! j = Some (Z.of_nat q) ∧
          ∃ P k a, prog_at comd = Some P ∧ PT s' !! q = Some k ∧ pstate k = ALIVE ∧ parent k = Some p ∧
            thread_count k = 1 ∧ main_task k = Some wrapper ∧ pargl k = Z.of_nat (argvlen args + 8) ∧
            pargs k = Some a ∧ kbufs s' !! a = Some (ptr_bytes 8 (addr P) ++ flat args) ∧
            FIDT k !! 0%nat = Some (Some f0) ∧ FIDT k !! 1%nat = Some (Some f1) ∧
            FIDT k = if decide (S j = length frags) then <[i := Some f0]> (FIDT b)
                     else <[o := Some f1]> (<[i := Some f0]> (FIDT b))
      end.
Proof.
  intros Hpr Hr Hp0 Hb Hal Ht Hsm H0 H1 Hfree Hfl Hp1 Hp2 Hrun Hne.
  pose proof (pr_free _ _ Hpr) as (ch & Hch & Hnd & Hfr).
  destruct (pipeline_run c wrapper ptr addr infl self p Hsm Hp0 s (FIDT b) ch f0 f1 pipe frags)
    as (i & o & rs & s' & Hrs & Hlen & Hi & Ho & Hio & Hs' & Hrf); try done; [by split; eauto|].
  exists ch, i, o, rs, s'. do 3 (split; [done|]). split; [exact Hrs|]. do 3 (split; [done|]).
  destruct Hs' as [Hpr' _ (b' & Hb' & _ & Hl)]. split; [unfold fids_of; by rewrite Hb'|]. split; [done|].
  intros j comd args Hj. destruct (Hrf j comd args Hj) as (P & r & HP & Hrj & He).
  destruct (ch !! j) as [q|]; cbn in He; [|by rewrite Hrj, He].
  destruct He as [-> (_ & k & a & Hqk & Ha & Hpk & Hfk & Hn & Hm & Hg & Hbuf & Hd)]. split; [done|].
  exists P, k, a. split_and!; try done; rewrite Hfk; case_decide;
    rewrite ?list_lookup_insert_ne by congruence; done.
Qed.

Lemma two_more {A} (l l1 : list A) x :
  (2 < length l)%nat → l = x :: l1 → l1 ≠ [] ∧ ∀ l2 y, l1 = y :: l2 → l2 ≠ [].
Proof. intros Hl ->. split; [intros ->|intros l2 y -> ->]; simpl in Hl; lia. Qed.

(** A process of the demonstration system opens two streams and becomes a shell. *)
Lemma demo_shell : ∃ s b f0 f1, procs_ok (holds []) s ∧ runs_in s 0 (Thr 0) 1 ∧ PT s !! 1%nat = Some b ∧
  pstate b = ALIVE ∧ terms_ok s ∧ FIDT b !! 0%nat = Some (Some f0) ∧ FIDT b !! 1%nat = Some (Some f1) ∧
  (2 ≤ free_slots (FIDT b))%nat ∧ FCB_freelist s ≠ [] ∧ free_chain (PT s) (pcb_freelist s) [3; 4]%nat.
Proof.
  assert (free_is demo_init [3; 4]%nat) as Hch.
  { split; [vm_compute; repeat first [split; [reflexivity|] | eexists | reflexivity]|].
    apply (bool_decide_unpack _). vm_compute. exact I. }
  assert (PT demo_init !! 1%nat = Some (ProcProps.block demo_init 1)) as Hb by (vm_compute; reflexivity).
  assert (FIDT (ProcProps.block demo_init 1) = replicate MAX_FILEID None) as Hl by (vm_compute; reflexivity).
  assert (shell_at 0 (holds []) (Thr 0) 1 demo_init (replicate MAX_FILEID None)) as Hs.
  { split; [exact demo_init_ok|exact demo_init_runs|]. exists (ProcProps.block demo_init 1).
    split; [exact Hb|]. split; [vm_compute; reflexivity|exact Hl]. }
  assert (terms_ok demo_init) as Ht.
  { split; [vm_compute; reflexivity|]. intros [|t] Ht; [|vm_compute in Ht; lia].
    eexists. split; [vm_compute; reflexivity|split; vm_compute; reflexivity]. }
  assert (2 < length (FCB_freelist demo_init))%nat as Hfl by (apply Nat.ltb_lt; vm_compute; reflexivity).
  assert (FCB_freelist demo_init ≠ []) as Hne by (intros He; rewrite He in Hfl; inversion Hfl).
  destruct (open_null_run 0 (holds []) (Thr 0) 1 no_holds ltac:(discriminate) demo_init _ Hs Ht)
    as (k & g & s1 & _ & Hk & Hs1 & Hst1 & Ht1 & Hf1 & _); [apply Nat.ltb_lt; vm_compute; reflexivity|exact Hne|].
  apply (proj2 Hst1) in Hch.
  destruct (two_more _ _ _ Hfl Hf1) as [Hne1 Hne2].
  injection Hk as <-. clear Hb Hl Hs Ht Hfl Hne Hf1.
  destruct (open_null_run 0 (holds []) (Thr 0) 1 no_holds ltac:(discriminate) s1 _ Hs1 Ht1)
    as (k & g' & s2 & _ & Hk & Hs2 & Hst2 & Ht2 & Hf2 & _); [apply Nat.ltb_lt; vm_compute; reflexivity|exact Hne1|].
  apply (proj2 Hst2) in Hch as [Hch _].
  apply Hne2 in Hf2. injection Hk as <-. destruct Hs2 as [Hpr Hr (b & Hb2 & Hal & Hl2)].
  exists s2, b, g, g'. rewrite Hl2. split; [exact Hpr|]. split; [exact Hr|]. split; [exact Hb2|]. split; [exact Hal|].
  split; [exact Ht2|]. split; [reflexivity|]. split; [reflexivity|]. split; [|split; [exact Hf2|exact Hch]].
  apply Nat.leb_le. vm_compute. reflexivity.
Qed.

Lemma free_chain_same pt l : ∀ o l', free_chain pt o l → free_chain pt o l' → l = l'.
Proof.
  induction l as [|q l IH]; intros o [|q' l']; cbn; [done|intros -> (? & _); congruence|intros (-> & _); congruence|].
  intros (-> & b & Hb & Hl) ([= <-] & b' & Hb' & Hl'). f_equal. eapply IH; [exact Hl|]. by replace (parent b) with (parent b') by congruence.
Qed.

Lemma pipeline_on_kernel_witness :
  ∃ s rs s' k, kernel_pipeline 0 77 4096 (λ _, 4210688) (-1, -1) [(1, [text "ls"]); (9, [text "wc"])] s = Ok (rs, s') ∧
    rs = [3; 4] ∧ PT s' !! 3%nat = Some k ∧ pstate k = ALIVE ∧ main_task k = Some 77%nat.
Proof.
  destruct demo_shell as (s & b & f0 & f1 & Hpr & Hr & Hb & Hal & Ht & H0 & H1 & Hfree & Hfl & Hch).
  destruct (pipeline_on_kernel 0 77 4096 (λ _, 4210688) (holds []) (Thr 0) 1 s b f0 f1 (-1, -1)
    [(1, [text "ls"]); (9, [text "wc"])] Hpr Hr ltac:(discriminate) Hb Hal Ht no_holds H0 H1 Hfree Hfl)
    as (ch & i & o & rs & s' & Hch' & _ & _ & Hrun & Hlen & _ & _ & _ & _ & Hfr).
  - reflexivity.
  - reflexivity.
  - repeat constructor; try (eexists; reflexivity); reflexivity.
  - discriminate.
  - rewrite <-(free_chain_same _ _ _ _ Hch Hch') in Hfr.
    destruct (Hfr 0%nat 1 [text "ls"] eq_refl) as (Hr0 & P & k & a & _ & Hk & Ha & _ & _ & Hm & _).
    destruct (Hfr 1%nat 9 [text "wc"] eq_refl) as (Hr1 & _).
    exists s, rs, s', k. split; [exact Hrun|]. split; [|split; [exact Hk|split; [exact Ha|exact Hm]]].
    destruct rs as [|r0 [|r1 [|]]]; [discriminate Hlen|discriminate Hlen| |discriminate Hlen].
    injection Hr0 as ->. injection Hr1 as ->. reflexivity.
Defined.
