(* ===== verification/BootShell.v ===== *)
(** * The shells of the terminals (boot_shell of tinyos_shell.c)

    [boot_shell] of [Shell.v] on the system calls of the kernel: a shell for each
    terminal, with that terminal as its standard streams. *)
From S2P Require Import Prelude Hoare Bios Sched SchedInv Kernel Devices Streams StreamInv StreamCalls StreamFrame StreamIO Proc ProcInv ProcExec World ProcProps.
From S2P Require Import Args Console Commands Shell PseudoConsole ShellKernel.
Local Open Scope Z_scope.

(** ** What the calls leave of the devices

    The object and the device of each stream, the device table, and the terminals. *)
Record devs := Devs {
  dv_streams : list (option nat * option file_ops);
  dv_devnum : list nat;
  dv_nterm : nat;
  dv_TERM : list terminal }.
Definition stream_dev (b : FCB) : option nat * option file_ops := (streamobj b, streamfunc b).
Definition devs_of (s : kernel) : devs :=
  Devs (stream_dev <$> FT s) (devnum s) (nterm (vm (ksched s))) (TERM (vm (ksched s))).

Section devices.
#[local] Set Default Proof Using "Type".
Context (D : devs).
Definition vm_devs (m : machine) : Prop := nterm m = dv_nterm D ∧ TERM m = dv_TERM D.
Definition sched_devs (v : sched) : Prop := vm_devs (vm v).
Definition kernel_devs (s : kernel) : Prop := devs_of s = D.

Lemma dv_vm {A} (m : BM A) : keeps vm_devs m (λ _, True) → keeps sched_devs (on_vm m) (λ _, True).
Proof. intros Hm. by apply (keeps_zoom _ vm_devs). Qed.
Lemma dv_restart_one : keeps vm_devs cpu_core_restart_one (λ _, True).
Proof. unfold cpu_core_restart_one, core_restart, upd_core, get_core. by keeps_go. Qed.
Hint Resolve dv_vm dv_restart_one : keeps.
Lemma dv_wakeup t : keeps sched_devs (wakeup t) (λ _, True).
Proof. unfold wakeup, sched_make_ready, sched_queue_add, upd_tcb, get_tcb. by keeps_go. Qed.
Lemma dv_spawn q f : keeps sched_devs (spawn_thread q f) (λ _, True).
Proof. unfold spawn_thread. by keeps_go. Qed.
Lemma dv_upd_tcb t f : keeps sched_devs (upd_tcb t f) (λ _, True).
Proof. unfold upd_tcb, get_tcb. by keeps_go. Qed.
Lemma dv_get_tcb t : keeps sched_devs (get_tcb t) (λ _, True).
Proof. unfold get_tcb. by keeps_go. Qed.
Lemma dv_CURTHREAD c : keeps sched_devs (CURTHREAD c) (λ _, True).
Proof. unfold CURTHREAD, get_ccb. by keeps_go. Qed.
Hint Resolve dv_wakeup dv_spawn dv_upd_tcb dv_get_tcb dv_CURTHREAD : keeps.

Lemma dv_ksched {A} (m : SM A) : keeps sched_devs m (λ _, True) → keeps kernel_devs (on_ksched m) (λ _, True).
Proof.
  intros Hm. apply (keeps_zoom _ sched_devs); [done|by intros s Hs; split; rewrite <-Hs|].
  intros s v Hs [H1 H2]. unfold kernel_devs, devs_of in *. cbn in *. by rewrite H1, H2, <-Hs.
Qed.
Hint Resolve dv_ksched : keeps.
Lemma dv_get_PCB p : keeps kernel_devs (get_PCB p) (λ _, True).
Proof. unfold get_PCB. by keeps_go. Qed.
Hint Resolve dv_get_PCB : keeps.
Lemma dv_upd_PCB p f : keeps kernel_devs (upd_PCB p f) (λ _, True).
Proof. unfold upd_PCB. by keeps_go. Qed.
Lemma dv_get_FCB f : keeps kernel_devs (get_FCB f) (λ b, dv_streams D !! f = Some (stream_dev b)).
Proof.
  unfold get_FCB. intros s b s' Hs. unfold_monad. destruct (FT s !! f) as [b'|] eqn:Hb; [|by intros [=]].
  intros [= <- <-]. split; [done|]. rewrite <-Hs. cbn. by rewrite list_lookup_fmap, Hb.
Qed.
Hint Resolve dv_get_FCB dv_upd_PCB : keeps.
Lemma dv_upd_FCB f g : (∀ b, stream_dev (g b) = stream_dev b) → keeps kernel_devs (upd_FCB f g) (λ _, True).
Proof.
  intros Hg. unfold upd_FCB. eapply keeps_bind; [apply dv_get_FCB|]. intros b Hb. apply keeps_modify; [|done].
  intros s Hs. unfold kernel_devs. rewrite <-Hs in *. unfold devs_of. cbn in *. f_equal.
  rewrite list_fmap_insert, Hg. by apply list_insert_id.
Qed.
Hint Extern 1 (keeps _ (upd_FCB _ _) _) => apply dv_upd_FCB; intros; reflexivity : keeps.
Lemma dv_CURPROC c : keeps kernel_devs (CURPROC c) (λ _, True).
Proof. unfold CURPROC. by keeps_go. Qed.
Hint Resolve dv_CURPROC : keeps.

Lemma dv_FCB_incref f : keeps kernel_devs (FCB_incref f) (λ _, True).
Proof. unfold FCB_incref. by keeps_go. Qed.
Lemma dv_FCB_decref f : keeps kernel_devs (FCB_decref f) (λ _, True).
Proof. unfold FCB_decref, release_FCB. by keeps_go. Qed.
Lemma dv_get_fcb c fd : keeps kernel_devs (get_fcb c fd) (λ _, True).
Proof. unfold get_fcb. by keeps_go. Qed.
Hint Resolve dv_FCB_incref dv_FCB_decref dv_get_fcb : keeps.
Lemma dv_Close c fd : keeps kernel_devs (sys_Close c fd) (λ _, True).
Proof. unfold sys_Close. by keeps_go. Qed.
Lemma dv_Dup2 c oldfd newfd : keeps kernel_devs (sys_Dup2 c oldfd newfd) (λ _, True).
Proof. unfold sys_Dup2. by keeps_go. Qed.
Lemma dv_acquire_PCB : keeps kernel_devs acquire_PCB (λ _, True).
Proof. unfold acquire_PCB. by keeps_go. Qed.
Lemma dv_inherit c q : keeps kernel_devs (inherit c q) (λ _, True).
Proof. unfold inherit, inherit_fid. by keeps_go. Qed.
Lemma dv_copy_args argl args : keeps kernel_devs (copy_args argl args) (λ _, True).
Proof. unfold copy_args, malloc_copy. by keeps_go. Qed.
Lemma dv_new_thread q f call argl args : keeps kernel_devs (new_thread q f call argl args) (λ _, True).
Proof. unfold new_thread. by keeps_go. Qed.
Hint Resolve dv_acquire_PCB dv_inherit dv_copy_args dv_new_thread : keeps.
Lemma dv_Exec c call argl args : keeps kernel_devs (sys_Exec c call argl args) (λ _, True).
Proof. unfold sys_Exec. by keeps_go. Qed.
End devices.

Lemma devs_same s s' m : keeps (kernel_devs (devs_of s)) m (λ _ : Z, True) → (∃ r, m s = Ok (r, s')) → devs_of s' = devs_of s.
Proof. intros Hm (r & Hr). by apply (Hm s r s'). Qed.

(** [Exec] takes no stream. *)
Lemma exec_freelist c call argl args s r s' :
  sys_Exec c call argl args s = Ok (r, s') → FCB_freelist s' = FCB_freelist s.
Proof.
  set (I s' := FCB_freelist s' = FCB_freelist s).
  assert (∀ {A} (m : SM A), keeps I (on_ksched m) (λ _, True)) as Hk by (intros A m; by apply (keeps_zoom _ (λ _, True))).
  assert (∀ q, keeps I (get_PCB q) (λ _, True)) as Hg by (intros q; unfold get_PCB; by keeps_go).
  assert (∀ q f, keeps I (upd_PCB q f) (λ _, True)) as Hu by (intros q f; unfold upd_PCB; by keeps_go).
  assert (∀ f, keeps I (FCB_incref f) (λ _, True)) as Hi by (intros f; unfold FCB_incref, upd_FCB, get_FCB; by keeps_go).
  assert (keeps I (CURPROC c) (λ _, True)) as Hc by (unfold CURPROC; by keeps_go).
  intros Hr. assert (keeps I (sys_Exec c call argl args) (λ _, True)) as He; [|by apply (He s r s')].
  unfold sys_Exec, acquire_PCB, inherit, inherit_fid, copy_args, malloc_copy, new_thread. by keeps_go.
Qed.

(** ** A process that starts shells *)
Section boot.
Context (c : nat) (wrapper : nat) (ptr : Z) (addr : Program → Z) (infl : nat → nat) (self : tid) (p : nat).
#[local] Instance boot_files : Files kernel := kernel_files c.
#[local] Instance boot_spawn : Spawn kernel := kernel_spawn c wrapper ptr addr.
#[local] Set Default Proof Using "Type*".
Local Abbreviation at_fids := (shell_at c infl self p).

(** The stream is on the device: the serial port of a terminal, or the pseudo console. *)
Definition serial_port (i : nat) : option nat * option file_ops := (Some i, Some serial_fops).
Definition the_console : option nat * option file_ops := (None, Some stdio_ops).
Definition on_device (s : kernel) (f : nat) (d : option nat * option file_ops) : Prop :=
  stream_dev <$> FT s !! f = Some d.

(** What the steps leave: the other processes, the argument buffers, the terminals,
    and the devices of the streams that are in use. *)
Record calm (s s' : kernel) : Prop := Calm {
  cm_procs x k : x ≠ p → PT s !! x = Some k → pstate k = ALIVE → PT s' !! x = Some k;
  cm_bufs n b : kbufs s !! n = Some b → kbufs s' !! n = Some b;
  cm_terms : terms_ok s → terms_ok s';
  cm_nterm : nterm (vm (ksched s')) = nterm (vm (ksched s));
  cm_devs f : f ∉ FCB_freelist s → stream_dev <$> FT s' !! f = stream_dev <$> FT s !! f }.

(** A process that runs the shell on a device. *)
Definition has_shell (s : kernel) (d : option nat * option file_ops) (q : nat) : Prop :=
  ∃ k f g n, q ≠ p ∧ PT s !! q = Some k ∧ pstate k = ALIVE ∧ parent k = Some p ∧
    FIDT k = Some f :: Some g :: replicate 14 None ∧ on_device s f d ∧ on_device s g d ∧
    main_task k = Some wrapper ∧ pargs k = Some n ∧
    kbufs s !! n = Some (ptr_bytes 8 (addr Shell_prog) ++ flat [text "sh"]).

(** A stream that a process has is not free. *)
Lemma in_use s x k i f : files_ok infl s → PT s !! x = Some k → FIDT k !! i = Some (Some f) → f ∉ FCB_freelist s.
Proof.
  intros [Hok Hdev] Hk Hi.
  assert (i < MAX_FILEID)%nat as Hlt by (rewrite <-(fo_length _ _ _ Hok x k Hk); by eapply lookup_lt_Some).
  destruct (fid_used s infl [] x k (Z.of_nat i) f Hok Hk) as (_ & _ & _ & Hn).
  - rewrite (fid_of_lookup _ _ _ _ Hk). unfold valid_fid. rewrite Nat2Z.id, Hi.
    rewrite (proj2 (Z.leb_le _ _)), (proj2 (Z.ltb_lt _ _)) by lia. done.
  - by rewrite app_nil_r in Hn.
Qed.

Lemma shell_kept s s' d q : files_ok infl s → calm s s' → has_shell s d q → has_shell s' d q.
Proof.
  intros Hfo [Hp Hb _ _ Hd] (k & f & g & n & Hq & Hk & Ha & Hpar & Hl & Hf & Hg & Hm & Hn & Hbuf).
  assert ((f ∉ FCB_freelist s) ∧ (g ∉ FCB_freelist s)) as [Hff Hgf].
  { split; [apply (in_use s q k 0)|apply (in_use s q k 1)]; try done; by rewrite Hl. }
  exists k, f, g, n. unfold on_device. rewrite (Hd f Hff), (Hd g Hgf).
  split_and!; auto.
Qed.

(** The free process blocks. *)
Definition free_blocks (s : kernel) (m : nat) : Prop :=
  ∃ l, free_chain (PT s) (pcb_freelist s) l ∧ NoDup l ∧ (m ≤ length l)%nat.

(** A call that changes the file ids of [p] only. *)
Record moved (s s' : kernel) (l l' : list (option nat)) : Prop := Moved {
  mv_at : at_fids s' l';
  mv_calm : calm s s';
  mv_free m : free_blocks s m → free_blocks s' m }.

Lemma stream_move s s' l l' b :
  at_fids s l → PT s !! p = Some b → files_ok infl s' → same_rest s s' → PT s' = <[p := set_FIDT l' b]> (PT s) →
  (∀ f, f ∉ FCB_freelist s → stream_dev <$> FT s' !! f = stream_dev <$> FT s !! f) → moved s s' l l'.
Proof.
  intros Hs Hb Hfo Hsr HP Hd. pose proof (sr_rest _ _ Hsr) as (Hpf & _ & _ & Hkb & _).
  split.
  - by destruct (fids_move c infl self p s s' l l' b Hs Hb Hfo Hsr HP).
  - split; [| |by apply terms_ok_rest|by rewrite (sr_sched _ _ Hsr)|done].
    + intros x k Hx Hk _. by rewrite HP, list_lookup_insert_ne.
    + intros n d Hn. by rewrite Hkb.
  - intros m (ch & Hch & Hnd & Hm). exists ch. split; [|done]. rewrite Hpf, HP.
    eapply free_chain_ext; [|exact Hch]. intros x k _ Hk.
    destruct (fids_new (PT s) p b l' Hb x k Hk) as (k' & Hk' & _ & Hpar). by exists k'.
Qed.

Lemma devs_kept s s' (m : KM Z) r f :
  keeps (kernel_devs (devs_of s)) m (λ _, True) → m s = Ok (r, s') →
  stream_dev <$> FT s' !! f = stream_dev <$> FT s !! f.
Proof.
  intros Hm Hr. assert (devs_of s' = devs_of s) as Hd by (eapply devs_same; eauto).
  apply (f_equal dv_streams) in Hd. cbn in Hd. by rewrite <-!list_lookup_fmap, Hd.
Qed.

(** ** The calls *)
Context (Hsmall : ∀ f, Z.of_nat (infl f) + 1 < 2 ^ 31) (Hp0 : p ≠ 0%nat).

Lemma open_terminal_run s l i :
  at_fids s l → terms_ok s → (0 < free_slots l)%nat → FCB_freelist s ≠ [] → (i < nterm (vm (ksched s)))%nat →
  ∃ k f s', sys_OpenTerminal c (Z.of_nat i) s = Ok (Z.of_nat k, s') ∧ find_fids 1 0 l = Some [k] ∧
    moved s s' l (<[k := Some f]> l) ∧ FCB_freelist s = f :: FCB_freelist s' ∧ on_device s' f (serial_port i).
Proof.
  intros Hs Ht Hfree Hfl Hi. pose proof Hs as [Hpr Hr (b & Hb & Hal & Hl)]. pose proof (pr_files _ _ Hpr) as Hfo.
  destruct (open_run infl s c self p b DEV_SERIAL (Z.of_nat i) Hfo Hr Hb Ht ltac:(lia)) as (r & s1 & Hrun & Hfo1 & Hsr1 & Hres).
  rewrite decide_False in Hres by (rewrite Hl; cbn; intros [?|[?|?]]; [lia|done|lia]).
  destruct Hres as (k & f & fl & -> & Hff & Hfl0 & <- & HP & n & Hn). rewrite Hl in *.
  exists k, f, s1. split; [exact Hrun|]. split; [done|]. split; [|split; [done|]].
  - eapply stream_move; try done. intros g Hg.
    by destruct (ua_open stream_dev g (stream_dev <$> FT s !! g) c DEV_SERIAL (Z.of_nat i) s (Z.of_nat k) s1) as [[_ Hd] _].
  - unfold on_device. rewrite Hn. cbn. by rewrite Nat2Z.id.
Qed.

Lemma fid_lookup s l i o b : at_fids s l → l !! i = Some o → PT s !! p = Some b →
  (i < MAX_FILEID)%nat ∧ valid_fid (Z.of_nat i) = true ∧ fid_of s p (Z.of_nat i) = o.
Proof.
  intros Hs Hi Hb. pose proof (table_length c infl self p Hsmall Hp0 s l i o Hs Hi) as Hlt.
  pose proof Hs as [Hpr _ (b' & Hb' & _ & Hl)]. assert (b' = b) as -> by congruence.
  destruct (fid_at infl p Hsmall Hp0 s b i (pr_files _ _ Hpr) Hb Hlt) as [Hv Hf]. split; [done|]. split; [done|].
  apply Hf. by rewrite Hl.
Qed.

Lemma dup2_move s l i j f o :
  at_fids s l → l !! i = Some (Some f) → l !! j = Some o → i ≠ j →
  ∃ s', sys_Dup2 c (Z.of_nat i) (Z.of_nat j) s = Ok (0, s') ∧ moved s s' l (<[j := Some f]> l) ∧
    (length (FCB_freelist s) ≤ length (FCB_freelist s'))%nat ∧ (∀ g, stream_dev <$> FT s' !! g = stream_dev <$> FT s !! g).
Proof.
  intros Hs Hi Hj Hij. pose proof Hs as [Hpr Hr (b & Hb & Hal & Hl)]. pose proof (pr_files _ _ Hpr) as Hfo.
  destruct (fid_lookup s l i _ b Hs Hi Hb) as (_ & _ & Hfi). destruct (fid_lookup s l j _ b Hs Hj Hb) as (_ & Hvj & Hfj).
  destruct (dup2_run infl s c self p b (Z.of_nat i) (Z.of_nat j) f o Hfo Hr Hb Hfi Hvj Hfj Hsmall)
    as (s' & Hrun & Hfo' & Hsr & HP & Hfl).
  assert (∀ g, stream_dev <$> FT s' !! g = stream_dev <$> FT s !! g) as Hd.
  { intros g. eapply devs_kept; [apply dv_Dup2|exact Hrun]. }
  exists s'. split; [exact Hrun|]. rewrite Nat2Z.id, Hl in HP. split; [by eapply stream_move|]. split; [|done].
  rewrite Hfl. unfold after_drop. case_decide; [done|]. destruct o as [g|]; [|done]. case_decide; [|done].
  rewrite length_app. lia.
Qed.

Lemma close_move s l i f :
  at_fids s l → l !! i = Some (Some f) →
  ∃ s', sys_Close c (Z.of_nat i) s = Ok (0, s') ∧ moved s s' l (<[i := None]> l) ∧
    (length (FCB_freelist s) ≤ length (FCB_freelist s'))%nat ∧ (∀ g, stream_dev <$> FT s' !! g = stream_dev <$> FT s !! g).
Proof.
  intros Hs Hi. pose proof Hs as [Hpr Hr (b & Hb & Hal & Hl)]. pose proof (pr_files _ _ Hpr) as Hfo.
  destruct (fid_lookup s l i _ b Hs Hi Hb) as (_ & _ & Hfi).
  destruct (close_run infl s c self p b (Z.of_nat i) f Hfo Hr Hb Hfi (Hsmall f)) as (s' & Hrun & Hfo' & Hsr & HP & Hfl).
  assert (∀ g, stream_dev <$> FT s' !! g = stream_dev <$> FT s !! g) as Hd.
  { intros g. eapply devs_kept; [apply dv_Close|exact Hrun]. }
  exists s'. split; [exact Hrun|]. rewrite Nat2Z.id, Hl in HP. split; [by eapply stream_move|]. split; [|done].
  rewrite Hfl. case_decide; [|done]. rewrite length_app. lia.
Qed.

Lemma close_unused s l i : at_fids s l → l !! i = Some None → sys_Close c (Z.of_nat i) s = Ok (0, s).
Proof.
  intros Hs Hi. pose proof Hs as [Hpr Hr (b & Hb & _ & Hl)].
  destruct (fid_lookup s l i _ b Hs Hi Hb) as (_ & Hv & _).
  pose proof (get_fcb_run s c self p b (Z.of_nat i) Hr Hb (fo_length _ _ _ (proj1 (pr_files _ _ Hpr)) p b Hb)) as Hg.
  rewrite Hv, Nat2Z.id, Hl, Hi in Hg. unfold sys_Close. rewrite Hv. by mrun ltac:(exact Hg).
Qed.

Lemma console_move s l :
  at_fids s (None :: None :: l) → (2 ≤ length (FCB_freelist s))%nat →
  ∃ f g s', tinyos_pseudo_console c s = Ok (tt, s') ∧ moved s s' (None :: None :: l) (Some f :: Some g :: l) ∧
    on_device s' f the_console ∧ on_device s' g the_console.
Proof.
  intros Hs Hfl. pose proof Hs as [Hpr Hr (b & Hb & Hal & Hl)]. pose proof (pr_files _ _ Hpr) as Hfo.
  destruct (pseudo_console_run infl s c self p b l Hfo Hr Hb Hl Hfl)
    as (f & g & fl & s' & Hrun & Hfo' & Hsr & _ & _ & HP & [nf Hf] & [ng Hg]).
  exists f, g, s'. split; [done|]. unfold on_device. rewrite Hf, Hg. split; [|done].
  eapply stream_move; try done. intros h Hh.
  by destruct (ua_console stream_dev h (stream_dev <$> FT s !! h) c s tt s') as [[_ Hd] _].
Qed.

(** Starting a shell while the streams are on a device. *)
Lemma exec_shell s f g d m :
  at_fids s (Some f :: Some g :: replicate 14 None) → terms_ok s → on_device s f d → on_device s g d →
  free_blocks s (S m) →
  ∃ q s', Execute Shell_prog [text "sh"] s = Ok (Z.of_nat q, s') ∧ at_fids s' (Some f :: Some g :: replicate 14 None) ∧
    calm s s' ∧ has_shell s' d q ∧ free_blocks s' m ∧ FCB_freelist s' = FCB_freelist s ∧
    (∀ h, stream_dev <$> FT s' !! h = stream_dev <$> FT s !! h).
Proof.
  intros Hs Ht Hf Hg ([|q ch] & Hch & Hnd & Hm); [simpl in Hm; lia|]. destruct Hch as (Hq & k & Hk & Hch).
  pose proof Hs as [Hpr Hr (b & Hb & Hal & Hl)]. apply NoDup_cons in Hnd as [Hqc Hnd].
  assert (pstate k = FREE) as Hst.
  { destruct (pr_free _ _ Hpr) as ([|y fl] & Hc & _ & Hfl); simpl in Hc; [congruence|].
    apply (Hfl q k Hk). destruct Hc as [Hy _]. replace y with q by congruence. left. }
  assert (p ≠ q) as Hpq by congruence. cbn [Execute boot_spawn kernel_spawn]. unfold Args.Execute.
  rewrite Execute_args_run by done. set (args := ptr_bytes 8 (addr Shell_prog) ++ flat [text "sh"]).
  set (argl := Z.of_nat _).
  assert (args_readable argl (Some (ptr, args))) as Hread.
  { unfold args_readable, args, argl. rewrite length_app, length_ptr_bytes, length_flat. lia. }
  destruct (exec_run infl c self p q b k (Some wrapper) argl (Some (ptr, args)) s Hpr Hr Hb Hal Hq Hk Hread Hsmall)
    as (s' & Hrun & Hfo & He).
  pose proof (exec_keeps infl p q b k _ _ _ s s' Hpr Hb Hal Hp0 Hq Hk Hfo He) as Hpr'.
  destruct He as [HP Hpf _ Hkb _ _ _ _ Hrun' _ _].
  assert (∀ h, stream_dev <$> FT s' !! h = stream_dev <$> FT s !! h) as Hd.
  { intros h. eapply devs_kept; [apply dv_Exec|exact Hrun]. }
  assert (devs_of s' = devs_of s) as Hdv by (eapply devs_same; [apply dv_Exec|by eexists]).
  unfold devs_of in Hdv. injection Hdv as _ Hdn Hnt HTM.
  assert (∀ x e, x ≠ p → x ≠ q → PT s !! x = Some e → PT s' !! x = Some e) as Hoth.
  { intros x e Hx Hxq Hxe. rewrite HP, list_lookup_imap, Hxe. cbn. unfold exec_block, at_. by repeat case_decide. }
  exists q, s'. split; [exact Hrun|]. split; [|split; [|split; [|split; [|split; [by eapply exec_freelist|done]]]]].
  - split; [done|by apply Hrun'|]. eexists. rewrite HP, list_lookup_imap, Hb. cbn. split; [done|].
    unfold exec_block, at_. repeat case_decide; try done.
  - split; [|by intros n e Hn; rewrite Hkb; cbn; rewrite lookup_insert_ne;
               [|intros <-; by rewrite (ar_fresh _ (pr_args _ _ Hpr) (next_buf s)) in Hn] | |done|auto].
    + intros x e Hx Hxe Ha. apply Hoth; [done| |done]. congruence.
    + intros [Hd1 Hd2]. split; rewrite ?Hdn, ?Hnt, ?HTM; done.
  - eexists _, f, g, (next_buf s). unfold on_device. rewrite !Hd. split; [done|].
    split; [rewrite HP, list_lookup_imap, Hk; reflexivity|]. unfold exec_block. rewrite !at_same, at_ne by done.
    cbn. split_and!; try done. rewrite Hkb. cbn. by rewrite lookup_insert_eq.
  - exists ch. rewrite Hpf. split; [|split; [done|simpl in Hm; lia]].
    eapply free_chain_ext; [|exact Hch]. intros x e Hx Hxe. assert (x ≠ q) as Hxq by (by intros ->).
    rewrite HP, list_lookup_imap, Hxe. eexists. split; [reflexivity|].
    unfold exec_block. rewrite !(at_ne q) by done. unfold at_. by case_decide.
Qed.

(** ** The loop *)
Definition two_streams (i o : option nat) : list (option nat) := i :: o :: replicate 14 None.

(** Shells run on the terminals before [i], and there are [m] free blocks and [r]
    free streams. *)
Record boot_inv (n : nat) (s : kernel) (l : list (option nat)) (i m r : nat) : Prop := BootInv {
  bi_at : at_fids s l;
  bi_terms : terms_ok s;
  bi_nterm : nterm (vm (ksched s)) = n;
  bi_shells j : (j < i)%nat → ∃ q, has_shell s (serial_port j) q;
  bi_free : free_blocks s m;
  bi_streams : (r ≤ length (FCB_freelist s))%nat }.

Lemma inv_moved n s s' l l' i m r r' :
  boot_inv n s l i m r → moved s s' l l' → (r' ≤ length (FCB_freelist s'))%nat → boot_inv n s' l' i m r'.
Proof.
  intros [Ha Ht Hn Hs Hf _] [Ha' Hc Hf'] Hr. split; [done|by apply (cm_terms _ _ Hc)|by rewrite (cm_nterm _ _ Hc)| |auto|done].
  intros j Hj. destruct (Hs j Hj) as (q & Hq). exists q. eapply shell_kept; [|done..].
  apply pr_files with (s := s), Ha.
Qed.

Lemma device_kept s s' l x f d : at_fids s l → l !! x = Some (Some f) → calm s s' → on_device s f d → on_device s' f d.
Proof.
  intros [Hpr _ (b & Hb & _ & Hl)] Hx Hc Hf. unfold on_device. rewrite (cm_devs _ _ Hc f); [done|].
  eapply (in_use s p b x); [apply (pr_files _ _ Hpr)|done|by rewrite Hl].
Qed.

Lemma open_first n s o i m r :
  boot_inv n s (two_streams None o) i m (S r) → (i < n)%nat →
  ∃ f s', open_as (Z.of_nat i) 0 s = Ok (tt, s') ∧ boot_inv n s' (two_streams (Some f) o) i m r ∧ on_device s' f (serial_port i).
Proof.
  intros Hi Hlt. destruct (open_terminal_run s _ i (bi_at _ _ _ _ _ _ Hi) (bi_terms _ _ _ _ _ _ Hi))
    as (k & f & s' & Hrun & Hk & Hm & Hfl & Hf).
  - unfold two_streams, free_slots. rewrite filter_cons_True by done. simpl. lia.
  - pose proof (bi_streams _ _ _ _ _ _ Hi). destruct (FCB_freelist s); simpl in *; [lia|done].
  - by rewrite (bi_nterm _ _ _ _ _ _ Hi).
  - injection Hk as <-. exists f, s'. unfold open_as. cbn [OpenTerminal boot_files kernel_files].
    mrun ltac:(exact Hrun). split; [done|]. split; [|done]. eapply inv_moved; [done|exact Hm|].
    pose proof (bi_streams _ _ _ _ _ _ Hi) as Hr. rewrite Hfl in Hr. simpl in Hr. lia.
Qed.

Lemma open_second n s f o i m r :
  boot_inv n s (two_streams (Some f) o) i m (S r) → on_device s f (serial_port i) → (i < n)%nat →
  ∃ g s', open_as (Z.of_nat i) 1 s = Ok (tt, s') ∧ boot_inv n s' (two_streams (Some f) (Some g)) i m r ∧
    on_device s' f (serial_port i) ∧ on_device s' g (serial_port i).
Proof.
  intros Hi Hf Hlt. pose proof (bi_at _ _ _ _ _ _ Hi) as Ha.
  destruct (open_terminal_run s _ i Ha (bi_terms _ _ _ _ _ _ Hi))
    as (k & g & s1 & Hrun & Hk & Hm & Hfl & Hg).
  - unfold two_streams, free_slots. rewrite filter_cons_False by done. destruct o; simpl; lia.
  - pose proof (bi_streams _ _ _ _ _ _ Hi). destruct (FCB_freelist s); simpl in *; [lia|done].
  - by rewrite (bi_nterm _ _ _ _ _ _ Hi).
  - pose proof (bi_streams _ _ _ _ _ _ Hi) as Hr. rewrite Hfl in Hr. simpl in Hr.
    assert (on_device s1 f (serial_port i)) as Hf1 by (eapply (device_kept s s1 _ 0); [done|done|apply Hm|done]).
    assert (boot_inv n s1 (<[k := Some g]> (two_streams (Some f) o)) i m r) as Hi1 by (eapply inv_moved; [done|done|lia]).
    unfold open_as. cbn [OpenTerminal Dup2 Close boot_files kernel_files].
    destruct o as [g'|]; injection Hk as <-.
    + destruct (dup2_move s1 _ 2 1 g (Some g') (bi_at _ _ _ _ _ _ Hi1) eq_refl eq_refl ltac:(done))
        as (s2 & Hr2 & Hm2 & Hl2 & Hd2).
      assert (boot_inv n s2 (<[1%nat := Some g]> (<[2%nat := Some g]> (two_streams (Some f) (Some g')))) i m r) as Hi2
        by (eapply inv_moved; [done|done|lia]).
      destruct (close_move s2 _ 2 g (bi_at _ _ _ _ _ _ Hi2) eq_refl) as (s3 & Hr3 & Hm3 & Hl3 & Hd3).
      exists g, s3. mrun ltac:(exact Hrun). cbn [when bool_decide].
      rewrite (bool_decide_true (Z.of_nat 2 ≠ 1)) by done. cbn [when].
      change 1 with (Z.of_nat 1). mrun ltac:(exact Hr2). mrun ltac:(exact Hr3). split; [done|].
      unfold on_device. rewrite !Hd3, !Hd2. split; [|done]. eapply inv_moved; [done|exact Hm3|lia].
    + exists g, s1. mrun ltac:(exact Hrun). by split.
Qed.

Lemma terminal_shell_run n s o i m r :
  boot_inv n s (two_streams None o) i (S m) (2 + r) → (i < n)%nat →
  ∃ g s', terminal_shell i s = Ok (tt, s') ∧ boot_inv n s' (two_streams None (Some g)) (S i) m r.
Proof.
  intros Hi Hlt. destruct (open_first n s o i (S m) (S r) Hi Hlt) as (f & s1 & Hr1 & Hi1 & Hf1).
  destruct (open_second n s1 f o i (S m) r Hi1 Hf1 Hlt) as (g & s2 & Hr2 & Hi2 & Hf2 & Hg2).
  destruct (exec_shell s2 f g (serial_port i) m (bi_at _ _ _ _ _ _ Hi2) (bi_terms _ _ _ _ _ _ Hi2) Hf2 Hg2 (bi_free _ _ _ _ _ _ Hi2))
    as (q & s3 & Hr3 & Ha3 & Hc3 & Hq & Hfb & Hfl & _).
  assert (boot_inv n s3 (two_streams (Some f) (Some g)) (S i) m r) as Hi3.
  { destruct Hi2 as [Ha Ht Hn Hs _ Hst]. split; [done|by apply (cm_terms _ _ Hc3)|by rewrite (cm_nterm _ _ Hc3)| |done|by rewrite Hfl].
    intros j Hj. destruct (decide (j = i)) as [->|Hne]; [by exists q|].
    destruct (Hs j ltac:(lia)) as (x & Hx). exists x. eapply shell_kept; [|done..]. apply pr_files with (s := s2), Ha. }
  destruct (close_move s3 _ 0 f (bi_at _ _ _ _ _ _ Hi3) eq_refl) as (s4 & Hr4 & Hm4 & Hl4 & _).
  exists g, s4. split.
  - unfold terminal_shell, start_shell. mrun ltac:(exact Hr1). mrun ltac:(exact Hr2).
    rewrite bind_run with (a := tt) (s' := s3); [|rewrite run_some with (a := Shell_prog) by reflexivity; by mrun ltac:(exact Hr3)].
    cbn [Close boot_files kernel_files]. change 0 with (Z.of_nat 0). by mrun ltac:(exact Hr4).
  - eapply inv_moved; [exact Hi3|exact Hm4|]. pose proof (bi_streams _ _ _ _ _ _ Hi3). lia.
Qed.

Lemma terminals_run n k : ∀ i s o r,
  boot_inv n s (two_streams None o) i k (2 * k + r) → (i + k = n)%nat →
  ∃ o' s', for_each (seq i k) terminal_shell s = Ok (tt, s') ∧ boot_inv n s' (two_streams None o') n 0 r.
Proof.
  induction k as [|k IH]; intros i s o r Hi Hn.
  - exists o, s. replace n with i by lia. split; [done|]. by rewrite Nat.add_0_r in Hn; subst.
  - destruct (terminal_shell_run n s o i k (2 * k + r)) as (g & s1 & Hr1 & Hi1); [|lia|].
    { replace (2 + (2 * k + r))%nat with (2 * S k + r)%nat by lia. done. }
    destruct (IH (S i) s1 (Some g) r Hi1 ltac:(lia)) as (o' & s2 & Hr2 & Hi2).
    exists o', s2. split; [|done]. cbn [seq for_each]. mrun ltac:(exact Hr1). exact Hr2.
Qed.

(** Without terminals there is one shell, on the console. *)
Lemma console_shell_run s :
  at_fids s (two_streams None None) → terms_ok s → free_blocks s 1 → (2 ≤ length (FCB_freelist s))%nat →
  ∃ q s', console_shell (tinyos_pseudo_console c) s = Ok (tt, s') ∧ procs_ok infl s' ∧ has_shell s' the_console q.
Proof.
  intros Hs Ht Hfb Hfl. destruct (console_move s _ Hs Hfl) as (f & g & s1 & Hr1 & [Ha Hc Hfr] & Hf & Hg).
  destruct (exec_shell s1 f g the_console 0 Ha (cm_terms _ _ Hc Ht) Hf Hg (Hfr 1%nat Hfb))
    as (q & s2 & Hr2 & Ha2 & _ & Hq & _).
  exists q, s2. split; [|split; [apply Ha2|done]]. unfold console_shell, start_shell. cbn [Close boot_files kernel_files].
  change 1 with (Z.of_nat 1). change 0 with (Z.of_nat 0).
  mrun ltac:(by apply (close_unused s (two_streams None None) 0)).
  mrun ltac:(by apply (close_unused s (two_streams None None) 1)).
  mrun ltac:(exact Hr1). rewrite run_some with (a := Shell_prog) by reflexivity. by mrun ltac:(exact Hr2).
Qed.
End boot.

Lemma has_shell_device wrapper addr p s i j q :
  has_shell wrapper addr p s i q → has_shell wrapper addr p s j q → i = j.
Proof.
  intros (k & f & g & n & _ & Hk & _ & _ & Hl & Hf & _) (k' & f' & g' & n' & _ & Hk' & _ & _ & Hl' & Hf' & _).
  unfold on_device in *. assert (k' = k) as -> by congruence. assert (f' = f) as -> by congruence. congruence.
Qed.

(** The device of the shell [i] of a system with [n] terminals. *)
Definition shell_device (n i : nat) : option nat * option file_ops :=
  if decide (n = 0%nat) then the_console else serial_port i.

(** C18 (functional). Starting the system's shells.  From a process without open
    streams, [boot_shell] comes to wait for its children in a state in which every
    terminal has a process of its own: a child of the caller that is to run the shell
    with the argument [sh], and whose streams 0 and 1, and no others, are on that
    terminal.  Where there is no terminal there is one such process, on the pseudo
    console. *)
Theorem boot_shell_terminals `{Waits kernel} c wrapper ptr addr infl self p s b restore :
  procs_ok infl s → runs_in s c self p → p ≠ 0%nat → PT s !! p = Some b → pstate b = ALIVE →
  FIDT b = replicate MAX_FILEID None → terms_ok s → (∀ f, Z.of_nat (infl f) + 1 < 2 ^ 31) →
  let n := nterm (vm (ksched s)) in
  free_blocks s (Nat.max n 1) → (2 * Nat.max n 1 ≤ length (FCB_freelist s))%nat →
  ∃ s', procs_ok infl s' ∧
    (∀ fuel, boot_shell (H0 := kernel_files c) (H1 := kernel_spawn c wrapper ptr addr) (mret tt) restore
         (tinyos_pseudo_console c) fuel s = (wait_all fuel ;; restore ;; mret 0) s') ∧
    (∀ i, (i < Nat.max n 1)%nat → ∃ q, has_shell wrapper addr p s' (shell_device n i) q ∧
       ∀ d, d ≠ shell_device n i → ¬ has_shell wrapper addr p s' d q).
Proof.
  intros Hpr Hr Hp0 Hb Hal Hl Ht Hsm n Hfb Hfl.
  assert (shell_at c infl self p s (two_streams None None)) as Ha by (split; [done|done|by exists b]).
  assert (sys_GetTerminalDevices s = Ok (Z.of_nat n, s)) as Hg.
  { unfold sys_GetTerminalDevices, device_no. destruct Ht as [Hd _]. mstep. by rewrite Hd. }
  assert (∀ s' i q, has_shell wrapper addr p s' (shell_device n i) q →
    ∃ q, has_shell wrapper addr p s' (shell_device n i) q ∧
      ∀ d, d ≠ shell_device n i → ¬ has_shell wrapper addr p s' d q) as Hone.
  { intros s' i q Hq. exists q. split; [done|]. intros d Hd Hqd. apply Hd. by eapply has_shell_device. }
  unfold boot_shell. cbn [GetTerminalDevices kernel_files]. destruct (decide (n = 0%nat)) as [Hn|Hn].
  - destruct (console_shell_run c wrapper ptr addr infl self p Hsm Hp0 s Ha Ht) as (q & s' & Hrun & Hpr' & Hq);
      [by replace 1%nat with (Nat.max n 1) by lia|lia|].
    exists s'. split; [done|]. split.
    + intros fuel. mrun ltac:(exact Hg). rewrite decide_False by lia. rewrite decide_False by lia. mstep.
      by mrun ltac:(change (Z.to_nat 1) with 1%nat; cbn [seq for_each]; by mrun ltac:(exact Hrun)).
    + intros i _. eapply Hone. unfold shell_device. rewrite decide_True by done. exact Hq.
  - destruct (terminals_run c wrapper ptr addr infl self p Hsm Hp0 n n 0 s None 0) as (o & s' & Hrun & [Ha' _ _ Hs _ _]).
    { replace (Nat.max n 1) with n in Hfb, Hfl by lia. split; [done|done|done|lia|done|lia]. }
    { done. }
    exists s'. split; [apply Ha'|]. split.
    + intros fuel. mrun ltac:(exact Hg). rewrite decide_True by lia. rewrite decide_True by lia. mstep. rewrite Nat2Z.id.
      by mrun ltac:(exact Hrun).
    + intros i Hi. destruct (Hs i ltac:(lia)) as (q & Hq). eapply Hone. unfold shell_device.
      rewrite decide_False by done. exact Hq.
Qed.

Lemma demo_free_blocks : free_blocks demo_init 1.
Proof.
  exists [3; 4]%nat. split; [|split; [|apply Nat.leb_le; reflexivity]].
  - vm_compute. repeat first [split; [reflexivity|] | eexists | reflexivity].
  - apply (bool_decide_unpack _). vm_compute. exact I.
Qed.

Lemma boot_shell_terminals_witness :
  ∃ s', procs_ok (holds []) s' ∧ ∃ q, has_shell 77 (λ _, 4210688) 1 s' (serial_port 0) q ∧ ¬ has_shell 77 (λ _, 4210688) 1 s' the_console q.
Proof.
  set (w := {| WaitChild := λ _ : Z, mret (NOPROC, None) : KM (Z * option Z) |}).
  destruct (boot_shell_terminals (H := w) 0 77 4096 (λ _, 4210688) (holds []) (Thr 0) 1 demo_init
    (ProcProps.block demo_init 1) (mret tt) demo_init_ok demo_init_runs ltac:(discriminate)) as (s' & Hpr & _ & Hs).
  - vm_compute; reflexivity.
  - vm_compute; reflexivity.
  - vm_compute; reflexivity.
  - split; [vm_compute; reflexivity|]. intros [|t] Ht; [|vm_compute in Ht; lia].
    eexists. split; [vm_compute; reflexivity|split; vm_compute; reflexivity].
  - exact no_holds.
  - exact demo_free_blocks.
  - apply Nat.leb_le. vm_compute. reflexivity.
  - exists s'. split; [exact Hpr|]. destruct (Hs 0%nat) as (q & Hq & Hn); [apply Nat.ltb_lt; vm_compute; reflexivity|].
    exists q. split; [exact Hq|]. apply Hn. discriminate.
Defined.
