(* ===== verification/Terminal.v ===== *)
(** * The terminal emulator (terminal.c)

    The program outside of the machine that carries the bytes of one terminal: from
    its own input to the keyboard pipe, and from the console pipe to its own output.
    What [poll] reports and what the reads give are arguments of each turn of the
    loop; a run is the list of its turns. *)
From S2P Require Import Prelude.
Local Open Scope Z_scope.

(** ** The code *)
Definition POLLIN : Z := 1.
Definition POLLOUT : Z := 4.
Definition POLLERR : Z := 8.
Definition POLLHUP : Z := 16.

Record pollfd := PollFd { fd : Z; events : Z; revents : Z }.
(** What the program does to the host, in order. *)
Inductive action := Read (fd : Z) (b : option Z) | Write (fd b : Z) | CloseFd (fd : Z) | Connected (con kbd : Z).
(** The variables of the file. *)
Record emu := Emu {
  INPUT_OPEN : Z; confd : Z; kbdfd : Z; fds : list pollfd; state : list Z; errst : list Z;
  trace : list action }.
Definition set_pipes con kbd s := Emu (INPUT_OPEN s) con kbd (fds s) (state s) (errst s) (trace s).
Definition set_fds v s := Emu (INPUT_OPEN s) (confd s) (kbdfd s) v (state s) (errst s) (trace s).
Definition set_ready v s := Emu (INPUT_OPEN s) (confd s) (kbdfd s) (fds s) v (errst s) (trace s).
Definition set_errst v s := Emu (INPUT_OPEN s) (confd s) (kbdfd s) (fds s) (state s) v (trace s).
Definition acts (a : action) s := Emu (INPUT_OPEN s) (confd s) (kbdfd s) (fds s) (state s) (errst s) (trace s ++ [a]).

Definition emu_start : emu :=
  Emu 1 0 0 [PollFd 0 POLLIN 0; PollFd 1 POLLOUT 0; PollFd 0 POLLOUT 0; PollFd 0 POLLIN 0]
    [0; 0; 0; 0] [0; 0; 0; 0] [].

Abbreviation TM := (M emu).
Definition fds_at (i : nat) : TM pollfd := s ← get; get_some OutOfBounds (fds s !! i).
Definition state_at (i : nat) : TM Z := s ← get; get_some OutOfBounds (state s !! i).
Definition errst_at (i : nat) : TM Z := s ← get; get_some OutOfBounds (errst s !! i).

Definition put_fd (i : nat) (v : Z) : TM unit :=
  p ← fds_at i; modify (λ s, set_fds (<[i := PollFd v (events p) (revents p)]> (fds s)) s).
Definition flip (i : nat) : TM unit := p ← fds_at i; put_fd i (- fd p - 1).
Definition ready (p : pollfd) : Z := Z.land (revents p) (events p).
Definition err (p : pollfd) : Z := Z.land (revents p) (Z.lor POLLERR POLLHUP).
Definition polled (p : pollfd) : bool := 0 <=? fd p.

(** The host's answers in a turn: [poll]'s, and the bytes of the two reads, if they
    give one. *)
Record turn := Turn { answers : list Z; key : option Z; print : option Z }.

(** [poll(fds, 4, -1)]: entries with negative ids get no events. *)
Definition poll (t : turn) : TM unit :=
  modify (λ s, set_fds (zip_with (λ p r, PollFd (fd p) (events p) (if polled p then r else 0)) (fds s) (answers t)) s).

Definition transfer_byte (from to : nat) (fromfd tofd : Z) (b : option Z) : TM unit :=
  modify (acts (Read fromfd b)) ;;
  match b with Some b => modify (acts (Write tofd b)) | None => mret tt end ;;
  flip from ;; flip to.

(** The body of the loop over [i]. *)
Definition update (i : nat) : TM unit :=
  p ← fds_at i;
  when (polled p)
    (modify (λ s, set_ready (<[i := ready p]> (state s)) s) ;;
     when (bool_decide (ready p ≠ 0)) (flip i) ;;
     p ← fds_at i;
     modify (λ s, set_errst (<[i := err p]> (errst s)) s)).

(** A turn of the loop of [io_loop]; [true]: it is left. *)
Definition io_turn (t : turn) : TM bool :=
  poll t ;;
  for_each (seq 0 4) update ;;
  s ← get;
  IN ← state_at 0; OUT ← state_at 1; KBD ← state_at 2; CON ← state_at 3;
  KBDERR ← errst_at 2; CONERR ← errst_at 3;
  let XKBD := bool_decide (IN ≠ 0 ∧ KBD ≠ 0) in
  let XCON := bool_decide (OUT ≠ 0 ∧ CON ≠ 0) in
  if negb XKBD && negb XCON && bool_decide (KBDERR ≠ 0 ∨ CONERR ≠ 0) then mret true
  else
    when XKBD (transfer_byte 0 2 0 (kbdfd s) (key t)) ;;
    when XCON (transfer_byte 3 1 (confd s) 1 (print t)) ;;
    mret false.

(** [true]: the pipes were closed; otherwise the loop goes on after the turns. *)
Fixpoint io_turns (l : list turn) : TM bool :=
  match l with
  | [] => mret false
  | t :: l => stop ← io_turn t; if (stop : bool) then mret true else io_turns l
  end.
Definition io_loop (l : list turn) : TM bool :=
  s ← get;
  put_fd 2 (kbdfd s) ;;
  put_fd 3 (confd s) ;;
  stop ← io_turns l;
  (if (stop : bool) then
     s ← get; modify (acts (CloseFd (confd s))) ;; modify (acts (CloseFd (kbdfd s)))
   else mret tt) ;;
  mret stop.

(** The connections: the ids that [open] gives for the two pipes, and the turns.
    [true]: the main loop ended. *)
Fixpoint mainloop (l : list (Z * Z * list turn)) : TM bool :=
  s ← get;
  if decide (INPUT_OPEN s = 0) then mret true
  else
    match l with
    | [] => mret false
    | (con, kbd, turns) :: l =>
        modify (set_pipes con kbd) ;;
        modify (acts (Connected con kbd)) ;;
        stop ← io_loop turns;
        if (stop : bool) then mainloop l else mret false
    end.

(** ** The reference: a relay with a flag for each end

    A flag is set when [poll] reports its end, until a byte goes through; only ends
    without a flag are polled. *)
Record relay := Relay { r_in : bool; r_out : bool; r_kbd : bool; r_con : bool; e_kbd : bool; e_con : bool }.
Definition relay_start : relay := Relay false false false false false false.
Definition reported (ev a : Z) : bool := bool_decide (Z.land a ev ≠ 0).
Definition failed (b e : bool) (a : Z) : bool := if b then e else reported (Z.lor POLLERR POLLHUP) a.
Definition carry (go : bool) (from to : Z) (b : option Z) : list action :=
  if go then Read from b :: match b with Some b => [Write to b] | None => [] end else [].

Definition answer (t : turn) (i : nat) : Z := nth i (answers t) 0.
Definition relay_turn (con kbd : Z) (t : turn) (r : relay) : bool * list action * relay :=
  let i := r_in r || reported POLLIN (answer t 0) in
  let o := r_out r || reported POLLOUT (answer t 1) in
  let k := r_kbd r || reported POLLOUT (answer t 2) in
  let n := r_con r || reported POLLIN (answer t 3) in
  let ek := failed (r_kbd r) (e_kbd r) (answer t 2) in
  let en := failed (r_con r) (e_con r) (answer t 3) in
  (negb (i && k) && negb (o && n) && (ek || en),
   carry (i && k) 0 kbd (key t) ++ carry (o && n) con 1 (print t),
   Relay (i && negb k) (o && negb n) (k && negb i) (n && negb o) ek en).
Fixpoint relay_turns (con kbd : Z) (l : list turn) (r : relay) : bool * list action * relay :=
  match l with
  | [] => (false, [], r)
  | t :: l =>
      let '(stop, a, r) := relay_turn con kbd t r in
      if stop then (true, a, r) else let '(stop, b, r) := relay_turns con kbd l r in (stop, a ++ b, r)
  end.
Definition reconnect (r : relay) : relay := Relay (r_in r) (r_out r) false false (e_kbd r) (e_con r).
Fixpoint relay_main (l : list (Z * Z * list turn)) (r : relay) : list action :=
  match l with
  | [] => []
  | (con, kbd, turns) :: l =>
      let '(stop, a, r) := relay_turns con kbd turns (reconnect r) in
      Connected con kbd :: a ++ if stop then CloseFd con :: CloseFd kbd :: relay_main l r else []
  end.

(** ** The program refines it *)
Definition slot (b : bool) (f ev x : Z) : pollfd := PollFd (if b then - f - 1 else f) ev x.
Definition on (b : bool) (z : Z) : Prop := bool_decide (z ≠ 0) = b.

(** The entry of a flag that is set is turned round, and its [state] is not 0. *)
Record agrees (s : emu) (r : relay) (xs ss es : Z * Z * Z * Z) : Prop := Agrees {
  ag_fds : fds s = let '(x0, x1, x2, x3) := xs in
    [slot (r_in r) 0 POLLIN x0; slot (r_out r) 1 POLLOUT x1; slot (r_kbd r) (kbdfd s) POLLOUT x2; slot (r_con r) (confd s) POLLIN x3];
  ag_state : state s = let '(a0, a1, a2, a3) := ss in [a0; a1; a2; a3];
  ag_errst : errst s = let '(e0, e1, e2, e3) := es in [e0; e1; e2; e3];
  ag_ids : 0 ≤ kbdfd s ∧ 0 ≤ confd s;
  ag_set : let '(a0, a1, a2, a3) := ss in
    (r_in r = true → a0 ≠ 0) ∧ (r_out r = true → a1 ≠ 0) ∧ (r_kbd r = true → a2 ≠ 0) ∧ (r_con r = true → a3 ≠ 0);
  ag_err : let '(_, _, e2, e3) := es in on (e_kbd r) e2 ∧ on (e_con r) e3 }.

Lemma slot_polled b f ev x : 0 ≤ f → polled (slot b f ev x) = negb b.
Proof. intros Hf. unfold polled, slot. destruct b; cbn; [apply Z.leb_gt|apply Z.leb_le]; lia. Qed.
Lemma slot_flip b f ev x : PollFd (- fd (slot b f ev x) - 1) ev x = slot (negb b) f ev x.
Proof. unfold slot. f_equal. destruct b; cbn; lia. Qed.

Lemma fds_at_run s i p : fds s !! i = Some p → fds_at i s = Ok (p, s).
Proof. intros Hp. unfold fds_at. rewrite run_get, Hp. done. Qed.
Lemma put_fd_run s i p v : fds s !! i = Some p →
  put_fd i v s = Ok (tt, set_fds (<[i := PollFd v (events p) (revents p)]> (fds s)) s).
Proof. intros Hp. unfold put_fd. by mrun ltac:(by apply fds_at_run). Qed.
Lemma flip_run s i b f ev x : fds s !! i = Some (slot b f ev x) →
  flip i s = Ok (tt, set_fds (<[i := slot (negb b) f ev x]> (fds s)) s).
Proof.
  intros Hp. unfold flip. mrun ltac:(by apply fds_at_run). erewrite put_fd_run by done.
  by rewrite <-slot_flip.
Qed.

Definition updated (i : nat) (b : bool) (f ev x a e : Z) (s : emu) : emu :=
  if b then s
  else set_errst (<[i := Z.land x (Z.lor POLLERR POLLHUP)]> (errst s))
    (set_ready (<[i := Z.land x ev]> (state s))
      (set_fds (<[i := slot (reported ev x) f ev x]> (fds s)) s)).
Lemma update_run s i b f ev x a e :
  0 ≤ f → fds s !! i = Some (slot b f ev x) → update i s = Ok (tt, updated i b f ev x a e s).
Proof.
  intros Hf Hp. unfold update, updated. mrun ltac:(by apply fds_at_run). rewrite slot_polled by done.
  destruct b; [done|]. cbn [when negb]. mstep. unfold ready at 1 2. cbn [slot revents events fd].
  change (slot false f ev x) with (PollFd f ev x) in *.
  set (s1 := set_ready _ s). unfold reported. change (events (PollFd f ev x)) with ev. change (revents (PollFd f ev x)) with x.
  destruct (bool_decide (Z.land x ev ≠ 0)) eqn:Hr; cbn [when].
  - assert (fds s1 !! i = Some (slot false f ev x)) as Hp1 by exact Hp.
    mrun ltac:(by eapply flip_run). cbn [negb].
    erewrite bind_run by (apply fds_at_run, list_lookup_insert_eq, (lookup_lt_Some _ _ _ Hp)). done.
  - rewrite run_ret. erewrite bind_run by (apply fds_at_run; exact Hp). unfold s1, modify, set_errst, set_ready, set_fds. cbn.
    by rewrite (list_insert_id (fds s) i (slot false f ev x)) by exact Hp.
Qed.

(** [updated] of the four entries, at once. *)
Lemma updates_run s r xs ss es : agrees s r xs ss es →
  let '(x0, x1, x2, x3) := xs in
  let i := r_in r || reported POLLIN x0 in let o := r_out r || reported POLLOUT x1 in
  let k := r_kbd r || reported POLLOUT x2 in let n := r_con r || reported POLLIN x3 in
  ∃ s' ss' es', for_each (seq 0 4) update s = Ok (tt, s') ∧
    agrees s' (Relay i o k n (failed (r_kbd r) (e_kbd r) x2) (failed (r_con r) (e_con r) x3)) xs ss' es' ∧
    (let '(a0, a1, a2, a3) := ss' in on i a0 ∧ on o a1 ∧ on k a2 ∧ on n a3) ∧
    trace s' = trace s ∧ confd s' = confd s ∧ kbdfd s' = kbdfd s ∧ INPUT_OPEN s' = INPUT_OPEN s.
Proof.
  destruct xs as [[[x0 x1] x2] x3], ss as [[[a0 a1] a2] a3], es as [[[e0 e1] e2] e3].
  intros [Hf Hs He [Hk Hc] (H0 & H1 & H2 & H3) [Hek Hec]]. cbv zeta.
  destruct s as [io con kbd l st er tr]. cbn in *. subst l st er.
  unfold seq. cbn [for_each].
  erewrite bind_run by (apply (update_run _ 0 (r_in r) 0 POLLIN x0 a0 e0); [lia|done]).
  erewrite bind_run by (apply (update_run _ 1 (r_out r) 1 POLLOUT x1 a1 e1); [lia|by unfold updated; destruct (r_in r)]).
  erewrite bind_run by (apply (update_run _ 2 (r_kbd r) kbd POLLOUT x2 a2 e2); [lia|by unfold updated; destruct (r_in r), (r_out r)]).
  erewrite bind_run by (apply (update_run _ 3 (r_con r) con POLLIN x3 a3 e3); [lia|by unfold updated; destruct (r_in r), (r_out r), (r_kbd r)]).
  set (f := λ (b : bool) (ev x a : Z), if b then a else Z.land x ev).
  assert (∀ b ev x a, (b = true → a ≠ 0) → on (b || reported ev x) (f b ev x a)) as Hon.
  { intros b ev x a Ha. unfold on, f. destruct b; [|done]. by apply bool_decide_eq_true_2, Ha. }
  assert (∀ b e x e', on e e' → on (failed b e x) (f b (Z.lor POLLERR POLLHUP) x e')) as Hfa by (by intros []).
  eexists _, (f (r_in r) POLLIN x0 a0, f (r_out r) POLLOUT x1 a1, f (r_kbd r) POLLOUT x2 a2, f (r_con r) POLLIN x3 a3),
    (f (r_in r) (Z.lor POLLERR POLLHUP) x0 e0, f (r_out r) (Z.lor POLLERR POLLHUP) x1 e1,
     f (r_kbd r) (Z.lor POLLERR POLLHUP) x2 e2, f (r_con r) (Z.lor POLLERR POLLHUP) x3 e3).
  split; [reflexivity|]. split; [|split; [by split_and!; apply Hon|by unfold updated; destruct (r_in r), (r_out r), (r_kbd r), (r_con r)]].
  split; cbn.
  - unfold updated. by destruct (r_in r), (r_out r), (r_kbd r), (r_con r).
  - unfold updated, f. by destruct (r_in r), (r_out r), (r_kbd r), (r_con r).
  - unfold updated, f. by destruct (r_in r), (r_out r), (r_kbd r), (r_con r).
  - unfold updated. by destruct (r_in r), (r_out r), (r_kbd r), (r_con r).
  - assert (∀ b a, on b a → b = true → a ≠ 0) as Hz by (by intros b a <- ?%bool_decide_eq_true).
    split_and!; apply Hz, Hon; done.
  - by split; apply Hfa.
Qed.

Lemma poll_run s r xs ss es t : agrees s r xs ss es → length (answers t) = 4%nat →
  ∃ s', poll t s = Ok (tt, s') ∧ trace s' = trace s ∧ confd s' = confd s ∧ kbdfd s' = kbdfd s ∧ INPUT_OPEN s' = INPUT_OPEN s ∧
    agrees s' r (if r_in r then 0 else answer t 0, if r_out r then 0 else answer t 1,
                 if r_kbd r then 0 else answer t 2, if r_con r then 0 else answer t 3) ss es.
Proof.
  destruct t as [l ky pr]. cbn. intros [Hf Hs He [Hk Hc] Hset Herr] Hl.
  destruct l as [|b0 [|b1 [|b2 [|b3 [|? ?]]]]]; try done. destruct xs as [[[x0 x1] x2] x3].
  eexists. split; [reflexivity|]. do 4 (split; [done|]). split; try done. cbn. rewrite Hf. cbn.
  rewrite !slot_polled by lia. unfold slot, answer. cbn. by destruct (r_in r), (r_out r), (r_kbd r), (r_con r).
Qed.

(** The ends that a byte goes through are turned back. *)
Lemma transfer_run s from to ffd tfd b f1 ev1 x1 f2 ev2 x2 :
  fds s !! from = Some (slot true f1 ev1 x1) → fds s !! to = Some (slot true f2 ev2 x2) → from ≠ to →
  transfer_byte from to ffd tfd b s = Ok (tt, Emu (INPUT_OPEN s) (confd s) (kbdfd s)
    (<[to := slot false f2 ev2 x2]> (<[from := slot false f1 ev1 x1]> (fds s))) (state s) (errst s)
    (trace s ++ carry true ffd tfd b)).
Proof.
  intros Hf Ht Hne. unfold transfer_byte. rewrite run_modify.
  assert (∃ s1, match b with Some b => modify (acts (Write tfd b)) | None => mret tt end (acts (Read ffd b) s) = Ok (tt, s1) ∧
    s1 = Emu (INPUT_OPEN s) (confd s) (kbdfd s) (fds s) (state s) (errst s) (trace s ++ carry true ffd tfd b)) as (s1 & Hr & ->).
  { destruct b; eexists; (split; [reflexivity|]); unfold acts; cbn; [by rewrite <-app_assoc|done]. }
  erewrite bind_run by exact Hr. erewrite bind_run by (eapply flip_run; exact Hf). cbn [negb].
  erewrite (flip_run _ to) by (cbn; rewrite list_lookup_insert_ne by done; exact Ht). done.
Qed.

Lemma on_and b c y z : on b y → on c z → bool_decide (y ≠ 0 ∧ z ≠ 0) = b && c.
Proof. unfold on. intros <- <-. by repeat case_bool_decide; intuition. Qed.
Lemma on_or b c y z : on b y → on c z → bool_decide (y ≠ 0 ∨ z ≠ 0) = b || c.
Proof. unfold on. intros <- <-. by repeat case_bool_decide; intuition. Qed.

Lemma transfers_run s r xs ss es (go1 go2 : bool) t :
  agrees s r xs ss es → (go1 = true → r_in r = true ∧ r_kbd r = true) → (go2 = true → r_out r = true ∧ r_con r = true) →
  ∃ s', (when go1 (transfer_byte 0 2 0 (kbdfd s) (key t)) ;; when go2 (transfer_byte 3 1 (confd s) 1 (print t)) ;; mret false) s = Ok (false, s') ∧
    agrees s' (Relay (r_in r && negb go1) (r_out r && negb go2) (r_kbd r && negb go1) (r_con r && negb go2) (e_kbd r) (e_con r)) xs ss es ∧
    trace s' = trace s ++ carry go1 0 (kbdfd s) (key t) ++ carry go2 (confd s) 1 (print t) ∧
    confd s' = confd s ∧ kbdfd s' = kbdfd s ∧ INPUT_OPEN s' = INPUT_OPEN s.
Proof.
  destruct s as [io con kbd l st er tr], r as [i o k n ek en], xs as [[[x0 x1] x2] x3], ss as [[[a0 a1] a2] a3].
  intros [Hf Hs He Hids Hset Herr] H1 H2. cbn in *. subst l.
  destruct go1; [destruct (H1 eq_refl) as [-> ->]|]; (destruct go2; [destruct (H2 eq_refl) as [-> ->]|]); cbn [when carry];
    rewrite ?run_ret.
  - erewrite bind_run by (by eapply (transfer_run _ 0 2)). erewrite bind_run by (by eapply (transfer_run _ 3 1)).
    eexists. split; [reflexivity|]. split; [split; cbn; naive_solver|]. cbn. by rewrite <-app_assoc.
  - erewrite bind_run by (by eapply (transfer_run _ 0 2)). rewrite run_ret.
    eexists. split; [reflexivity|]. split; [split; cbn; rewrite ?andb_true_r; naive_solver|]. cbn. by rewrite app_nil_r.
  - erewrite bind_run by (by eapply (transfer_run _ 3 1)).
    eexists. split; [reflexivity|]. split; [split; cbn; rewrite ?andb_true_r; naive_solver|]. done.
  - eexists. split; [reflexivity|]. split; [split; cbn; rewrite ?andb_true_r; done|]. cbn. by rewrite app_nil_r.
Qed.

(** The program agrees with the relay [r], whatever is left in the entries. *)
Definition refines (s : emu) (r : relay) : Prop := ∃ xs ss es, agrees s r xs ss es.

Lemma io_turn_run s r t : refines s r → length (answers t) = 4%nat →
  let '(stop, a, r') := relay_turn (confd s) (kbdfd s) t r in
  ∃ s', io_turn t s = Ok (stop, s') ∧ refines s' r' ∧ trace s' = trace s ++ a ∧
    confd s' = confd s ∧ kbdfd s' = kbdfd s ∧ INPUT_OPEN s' = INPUT_OPEN s.
Proof.
  intros (xs & ss & es & Ha) Hl. unfold relay_turn, io_turn.
  destruct (poll_run s r xs ss es t Ha Hl) as (s1 & Hr1 & Ht1 & Hc1 & Hk1 & Hi1 & Ha1).
  erewrite bind_run by exact Hr1.
  destruct (updates_run s1 r _ ss es Ha1) as (s2 & ss2 & es2 & Hr2 & Ha2 & Hon & Ht2 & Hc2 & Hk2 & Hi2).
  erewrite bind_run by exact Hr2. rewrite run_get.
  assert (∀ b ev a, b || reported ev (if b then 0 else a) = b || reported ev a) as Hb by (by intros []).
  assert (∀ b e a, failed b e (if b then 0 else a) = failed b e a) as Hfl by (by intros []).
  rewrite !Hb, !Hfl in Ha2. rewrite !Hb in Hon.
  set (i := r_in r || _) in *. set (o := r_out r || _) in *. set (k := r_kbd r || _) in *. set (n := r_con r || _) in *.
  set (ek := failed (r_kbd r) _ _) in *. set (en := failed (r_con r) _ _) in *.
  destruct ss2 as [[[a0 a1] a2] a3], es2 as [[[e0 e1] e2] e3]. destruct Hon as (H0 & H1 & H2 & H3).
  pose proof (ag_state _ _ _ _ _ Ha2) as Hs. pose proof (ag_errst _ _ _ _ _ Ha2) as He.
  destruct (ag_err _ _ _ _ _ Ha2) as [Hek Hen]. cbn in Hs, He, Hek, Hen.
  unfold state_at, errst_at. do 6 (rewrite run_assoc, run_get, ?Hs, ?He; erewrite run_some by reflexivity).
  cbv zeta. rewrite (on_and i k), (on_and o n), (on_or ek en) by done.
  destruct (negb (i && k) && negb (o && n) && (ek || en)) eqn:Hstop.
  - apply andb_true_iff in Hstop as [[Hx1 Hx2]%andb_true_iff _]. apply negb_true_iff in Hx1, Hx2. rewrite Hx1, Hx2.
    exists s2. split; [done|]. split_and!; try congruence; [|cbn; rewrite app_nil_r; congruence].
    eexists _, _, _. replace (i && negb k) with i by (destruct i, k; done). replace (o && negb n) with o by (destruct o, n; done).
    replace (k && negb i) with k by (destruct i, k; done). replace (n && negb o) with n by (destruct o, n; done). exact Ha2.
  - destruct (transfers_run s2 _ _ _ _ (i && k) (o && n) t Ha2) as (s3 & Hr3 & Ha3 & Ht3 & Hc3 & Hk3 & Hi3).
    { by intros [? ?]%andb_true_iff. }
    { by intros [? ?]%andb_true_iff. }
    exists s3. split; [exact Hr3|]. split; [|rewrite Ht3, Hc2, Hk2, Hc1, Hk1; split_and!; congruence].
    eexists _, _, _. revert Ha3. cbn.
    replace (i && negb (i && k)) with (i && negb k) by (destruct i, k; done).
    replace (o && negb (o && n)) with (o && negb n) by (destruct o, n; done).
    replace (k && negb (i && k)) with (k && negb i) by (destruct i, k; done).
    replace (n && negb (o && n)) with (n && negb o) by (destruct o, n; done). done.
Qed.

Definition turn_ok (t : turn) : Prop := length (answers t) = 4%nat.

Lemma io_turns_run l : ∀ s r, Forall turn_ok l → refines s r →
  let '(stop, a, r') := relay_turns (confd s) (kbdfd s) l r in
  ∃ s', io_turns l s = Ok (stop, s') ∧ refines s' r' ∧ trace s' = trace s ++ a ∧
    confd s' = confd s ∧ kbdfd s' = kbdfd s ∧ INPUT_OPEN s' = INPUT_OPEN s.
Proof.
  induction l as [|t l IH]; intros s r Hl Hr; cbn [relay_turns io_turns].
  - exists s. by rewrite app_nil_r.
  - apply Forall_cons in Hl as [Ht Hl]. pose proof (io_turn_run s r t Hr Ht) as H1.
    destruct (relay_turn (confd s) (kbdfd s) t r) as [[stop a] r1].
    destruct H1 as (s1 & Hr1 & Ha1 & Ht1 & Hc1 & Hk1 & Hi1). destruct stop.
    + exists s1. split; [by erewrite bind_run by exact Hr1|]. done.
    + pose proof (IH s1 r1 Hl Ha1) as H2. rewrite Hc1, Hk1 in H2.
      destruct (relay_turns (confd s) (kbdfd s) l r1) as [[stop b] r2].
      destruct H2 as (s2 & Hr2 & Ha2 & Ht2 & Hc2 & Hk2 & Hi2). exists s2.
      split; [by erewrite bind_run by exact Hr1|]. split; [done|]. rewrite Ht2, Ht1, app_assoc. split_and!; congruence.
Qed.

(** The connections as the host gives them. *)
Definition session_ok (x : Z * Z * list turn) : Prop := 0 ≤ x.1.1 ∧ 0 ≤ x.1.2 ∧ Forall turn_ok x.2.
(** Between connections the entries of the pipes are out of date. *)
Definition between (s : emu) (r : relay) : Prop := ∃ con kbd, 0 ≤ con ∧ 0 ≤ kbd ∧ refines (set_pipes con kbd s) r.

Lemma reconnect_refines s r con kbd : 0 ≤ con → 0 ≤ kbd → between s r →
  ∃ s', (put_fd 2 kbd ;; put_fd 3 con) (acts (Connected con kbd) (set_pipes con kbd s)) = Ok (tt, s') ∧
    refines s' (reconnect r) ∧ trace s' = trace s ++ [Connected con kbd] ∧
    confd s' = con ∧ kbdfd s' = kbd ∧ INPUT_OPEN s' = INPUT_OPEN s.
Proof.
  intros Hc Hk (c0 & k0 & _ & _ & [[[x0 x1] x2] x3] & [[[a0 a1] a2] a3] & [[[e0 e1] e2] e3] & [Hf Hs He Hids Hset Herr]).
  destruct s as [io con0 kbd0 l st er tr]. cbn in *. subst l st er.
  eexists. split; [reflexivity|]. split; [|done]. exists (x0, x1, x2, x3), (a0, a1, a2, a3), (e0, e1, e2, e3).
  split; cbn; try done. split_and!; naive_solver.
Qed.

Lemma mainloop_run l : ∀ s r, Forall session_ok l → between s r → INPUT_OPEN s = 1 →
  ∃ s', mainloop l s = Ok (false, s') ∧ INPUT_OPEN s' = 1 ∧ trace s' = trace s ++ relay_main l r.
Proof.
  induction l as [|[[con kbd] turns] l IH]; intros s r Hl Hb Hi; cbn [mainloop relay_main].
  - rewrite run_get, decide_False by lia. exists s. by rewrite app_nil_r.
  - apply Forall_cons in Hl as [(Hc & Hk & Htu) Hl]. cbn in Hc, Hk, Htu.
    rewrite run_get, decide_False by lia. rewrite !run_modify.
    destruct (reconnect_refines s r con kbd Hc Hk Hb) as (s1 & Hr1 & Hf1 & Ht1 & Hc1 & Hk1 & Hi1).
    unfold io_loop. rewrite run_assoc, run_get. cbn [kbdfd confd acts set_pipes].
    apply bind_Ok in Hr1 as ([] & s0 & Hr0 & Hr1).
    rewrite run_assoc. erewrite bind_run by exact Hr0. rewrite run_assoc. erewrite bind_run by exact Hr1. rewrite run_assoc.
    pose proof (io_turns_run turns s1 _ Htu Hf1) as H2. rewrite Hc1, Hk1 in H2.
    destruct (relay_turns con kbd turns (reconnect r)) as [[stop a] r2].
    destruct H2 as (s2 & Hr2 & Hf2 & Ht2 & Hc2 & Hk2 & Hi2). erewrite bind_run by exact Hr2. destruct stop.
    + rewrite run_assoc. unfold mbind at 1, M_bind at 1.
      set (s3 := acts (CloseFd kbd) (acts (CloseFd con) s2)).
      destruct (IH s3 r2 Hl) as (s' & Hr' & Hi' & Ht'); [|unfold s3; cbn; congruence|].
      { exists con, kbd. split; [done|]. split; [done|]. destruct Hf2 as (xs & ss & es & [Hf Hs He Hids Hset Herr]).
        exists xs, ss, es. split; try done. cbn. by rewrite <-Hc2, <-Hk2. }
      exists s'. split; [|split; [done|]].
      * unfold get, modify, mret, M_ret, mbind, M_bind. cbn. rewrite Hc2, Hk2. exact Hr'.
      * rewrite Ht'. unfold s3. cbn. rewrite Ht2, Ht1. by rewrite <-!app_assoc.
    + exists s2. split; [done|]. split; [congruence|]. rewrite Ht2, Ht1, <-app_assoc. by rewrite app_nil_r.
Qed.

Lemma start_between : between emu_start relay_start.
Proof.
  exists 0, 0. split; [done|]. split; [done|]. exists (0, 0, 0, 0), (0, 0, 0, 0), (0, 0, 0, 0). by split.
Qed.

(** ** What the relay does *)

(** The bytes of the input, those that go to the keyboard, those of the console, and
    those that are shown. *)
Definition keyed (a : action) : option Z := match a with Read f b => if decide (f = 0) then b else None | _ => None end.
Definition typed (a : action) : option Z := match a with Write f b => if decide (f = 1) then None else Some b | _ => None end.
Definition printed (a : action) : option Z := match a with Read f b => if decide (f = 0) then None else b | _ => None end.
Definition shown (a : action) : option Z := match a with Write f b => if decide (f = 1) then Some b else None | _ => None end.
Definition orderly (l : list action) : Prop := omap typed l = omap keyed l ∧ omap shown l = omap printed l.

Lemma orderly_app l l' : orderly l → orderly l' → orderly (l ++ l').
Proof. intros [H1 H2] [H3 H4]. split; rewrite !omap_app; congruence. Qed.
Lemma orderly_keys go kbd b : 2 ≤ kbd → orderly (carry go 0 kbd b).
Proof. intros Hk. destruct go, b; [|done..]. unfold orderly. cbn. rewrite !(decide_False (P := kbd = 1)) by lia. done. Qed.
Lemma orderly_prints go con b : 2 ≤ con → orderly (carry go con 1 b).
Proof.
  intros Hk. unfold orderly. destruct go; [|done]. destruct b; cbn; by rewrite !(decide_False (P := con = 0)) by lia.
Qed.
Lemma relay_turns_orderly con kbd l : ∀ r, 2 ≤ con → 2 ≤ kbd → orderly (relay_turns con kbd l r).1.2.
Proof.
  induction l as [|t l IH]; intros r Hc Hk; cbn [relay_turns]; [done|].
  destruct (relay_turn con kbd t r) as [[stop a] r1] eqn:Ht.
  assert (orderly a) as Ha.
  { unfold relay_turn in Ht. injection Ht as _ <- _. by apply orderly_app; [apply orderly_keys|apply orderly_prints]. }
  destruct stop; [done|]. specialize (IH r1 Hc Hk). destruct (relay_turns con kbd l r1) as [[stop b] r2]. by apply orderly_app.
Qed.

(** Reads of the input and of the pipe, and reports that there is something to read. *)
Definition is_read (keys : bool) (a : action) : bool :=
  match a with Read f _ => Bool.eqb (bool_decide (f = 0)) keys | _ => false end.
Definition reads (keys : bool) (l : list action) : nat := length (filter (λ a, is_read keys a = true) l).
Definition reports (i : nat) (l : list turn) : nat := length (filter (λ t, reported POLLIN (answer t i) = true) l).
Definition flag (b : bool) : nat := if b then 1 else 0.

Lemma reads_app keys l l' : reads keys (l ++ l') = (reads keys l + reads keys l')%nat.
Proof. unfold reads. by rewrite filter_app, length_app. Qed.
Lemma reports_app i l l' : reports i (l ++ l') = (reports i l + reports i l')%nat.
Proof. unfold reports. by rewrite filter_app, length_app. Qed.
Lemma reports_cons i t l : reports i (t :: l) = (flag (reported POLLIN (answer t i)) + reports i l)%nat.
Proof. unfold reports. rewrite filter_cons. by destruct (reported POLLIN (answer t i)). Qed.
Lemma reads_keys go kbd b : reads true (carry go 0 kbd b) = flag go ∧ reads false (carry go 0 kbd b) = 0%nat.
Proof. by destruct go, b. Qed.
Lemma reads_prints go con b : 2 ≤ con → reads true (carry go con 1 b) = 0%nat ∧ reads false (carry go con 1 b) = flag go.
Proof.
  intros Hc. assert (bool_decide (con = 0) = false) as Hd by (apply bool_decide_eq_false; lia).
  unfold reads. destruct go; [|done]. destruct b; cbn [carry]; rewrite !filter_cons; cbn; by rewrite Hd.
Qed.

Lemma relay_turns_reads con kbd l : ∀ r, 2 ≤ con →
  let '(_, a, r') := relay_turns con kbd l r in
  (reads true a + flag (r_in r') ≤ reports 0 l + flag (r_in r))%nat ∧
  (reads false a + flag (r_con r') ≤ reports 3 l + flag (r_con r))%nat.
Proof.
  induction l as [|t l IH]; intros r Hc; cbn [relay_turns]; [done|].
  destruct (relay_turn con kbd t r) as [[stop a] r1] eqn:Ht.
  assert ((reads true a + flag (r_in r1) ≤ flag (reported POLLIN (answer t 0)) + flag (r_in r))%nat ∧
          (reads false a + flag (r_con r1) ≤ flag (reported POLLIN (answer t 3)) + flag (r_con r))%nat) as [H1 H2].
  { unfold relay_turn in Ht. injection Ht as _ <- <-. cbn [r_in r_con]. rewrite !reads_app.
    destruct (reads_keys ((r_in r || reported POLLIN (answer t 0)) && (r_kbd r || reported POLLOUT (answer t 2))) kbd (key t)) as [-> ->].
    destruct (reads_prints ((r_out r || reported POLLOUT (answer t 1)) && (r_con r || reported POLLIN (answer t 3))) con (print t) Hc) as [-> ->].
    split.
    - destruct (r_in r), (reported POLLIN (answer t 0)), (r_kbd r || reported POLLOUT (answer t 2)); cbn; lia.
    - destruct (r_con r), (reported POLLIN (answer t 3)), (r_out r || reported POLLOUT (answer t 1)); cbn; lia. }
  rewrite !reports_cons. destruct stop; [lia|]. specialize (IH r1 Hc). destruct (relay_turns con kbd l r1) as [[stop b] r2].
  rewrite !reads_app. lia.
Qed.

Definition all_turns (l : list (Z * Z * list turn)) : list turn := concat (snd <$> l).
Lemma relay_main_reads l : ∀ r, Forall (λ x, 2 ≤ x.1.1) l →
  (reads true (relay_main l r) ≤ reports 0 (all_turns l) + flag (r_in r))%nat ∧
  (reads false (relay_main l r) ≤ reports 3 (all_turns l))%nat.
Proof.
  induction l as [|[[con kbd] turns] l IH]; intros r Hl; cbn [relay_main]; [cbn; lia|].
  apply Forall_cons in Hl as [Hc Hl]. pose proof (relay_turns_reads con kbd turns (reconnect r) Hc) as H1.
  destruct (relay_turns con kbd turns (reconnect r)) as [[stop a] r1]. cbn [reconnect r_in r_con] in H1.
  change (all_turns ((con, kbd, turns) :: l)) with (turns ++ all_turns l). rewrite !reports_app.
  assert (∀ b m, reads b (Connected con kbd :: m) = reads b m) as Hcn by done.
  assert (∀ b m, reads b (CloseFd con :: CloseFd kbd :: m) = reads b m) as Hcl by done.
  rewrite !Hcn, !reads_app. destruct stop.
  - rewrite !Hcl. destruct (IH r1 Hl). cbn in H1. lia.
  - cbn in *. lia.
Qed.

Lemma relay_main_orderly l : ∀ r, Forall (λ x, 2 ≤ x.1.1 ∧ 2 ≤ x.1.2) l → orderly (relay_main l r).
Proof.
  induction l as [|[[con kbd] turns] l IH]; intros r Hl; cbn [relay_main]; [done|].
  apply Forall_cons in Hl as [[Hc Hk] Hl]. pose proof (relay_turns_orderly con kbd turns (reconnect r) Hc Hk) as H1.
  destruct (relay_turns con kbd turns (reconnect r)) as [[stop a] r1]. cbn in H1.
  apply (orderly_app [Connected con kbd]); [done|]. apply orderly_app; [done|]. destruct stop; [|done].
  apply (orderly_app [CloseFd con; CloseFd kbd]); [done|]. by apply IH.
Qed.

(** C22 (refinement). The terminal carries its bytes in order.  Through all its
    connections, whatever [poll] reports, the program runs without a fault as the
    relay does: the bytes written to the keyboard pipe are those read from the input,
    and those shown are those of the console pipe, each in the same order, with none
    lost or doubled.  The turned entries keep it from blocking: it reads an end at
    most as often as [poll] has reported it.  Its main loop never ends. *)
Theorem terminal_relays l :
  Forall (λ x, 2 ≤ x.1.1 ∧ 2 ≤ x.1.2 ∧ Forall turn_ok x.2) l →
  ∃ s, mainloop l emu_start = Ok (false, s) ∧ trace s = relay_main l relay_start ∧
    omap typed (trace s) = omap keyed (trace s) ∧ omap shown (trace s) = omap printed (trace s) ∧
    (reads true (trace s) ≤ reports 0 (all_turns l))%nat ∧ (reads false (trace s) ≤ reports 3 (all_turns l))%nat ∧
    INPUT_OPEN s = 1.
Proof.
  intros Hl. destruct (mainloop_run l emu_start relay_start) as (s & Hr & Hi & Ht); [|apply start_between|done|].
  { eapply Forall_impl; [exact Hl|]. intros x (H1 & H2 & H3). split; [lia|]. split; [lia|done]. }
  cbn [trace emu_start app] in Ht.
  destruct (relay_main_orderly l relay_start) as [H1 H2].
  { eapply Forall_impl; [exact Hl|]. by intros x (? & ? & _). }
  destruct (relay_main_reads l relay_start) as [H3 H4].
  { eapply Forall_impl; [exact Hl|]. by intros x (? & _ & _). }
  exists s. rewrite Ht. cbn in H3. split_and!; try done. lia.
Qed.

(** Two connections; a key is pressed before the keyboard pipe is ready, and the
    first connection ends. *)
Definition demo_turns : list (Z * Z * list turn) :=
  [(3, 4, [Turn [POLLIN; POLLOUT; 0; 0] None None; Turn [0; 0; POLLOUT; POLLIN] (Some 65) (Some 66);
           Turn [0; POLLOUT; 0; POLLHUP] None None]);
   (3, 4, [Turn [POLLIN; 0; POLLOUT; POLLIN] (Some 67) (Some 68)])].
Lemma terminal_relays_witness :
  ∃ s, mainloop demo_turns emu_start = Ok (false, s) ∧ omap typed (trace s) = [65; 67] ∧ omap shown (trace s) = [66; 68].
Proof.
  destruct (terminal_relays demo_turns) as (s & Hr & Ht & _).
  { repeat constructor; cbn; lia. }
  exists s. split; [exact Hr|]. rewrite Ht. split; vm_compute; reflexivity.
Defined.

(** C38 (error). The end of the input is not handled.  When the input is at its end,
    [poll] reports it as ready and [read] gives nothing; as long as the keyboard pipe
    takes bytes, the loop goes round without waiting, reads nothing each time, and
    neither ends nor notices that the console pipe was closed. *)
Theorem terminal_spins con kbd l :
  0 ≤ con → 0 ≤ kbd →
  Forall (λ t, turn_ok t ∧ key t = None ∧ reported POLLIN (answer t 0) = true ∧
    reported POLLOUT (answer t 2) = true ∧ reported POLLIN (answer t 3) = false) l →
  ∃ s, mainloop [(con, kbd, l)] emu_start = Ok (false, s) ∧
    trace s = Connected con kbd :: replicate (length l) (Read 0 None).
Proof.
  intros Hc Hk Hl. destruct (mainloop_run [(con, kbd, l)] emu_start relay_start) as (s & Hr & _ & Ht); [|apply start_between|done|].
  { constructor; [|constructor]. split; [done|]. split; [done|]. eapply Forall_impl; [exact Hl|]. by intros t [? _]. }
  exists s. split; [exact Hr|]. rewrite Ht. cbn [trace emu_start app relay_main].
  assert (∀ r, r_con r = false → ∃ r', relay_turns con kbd l r = (false, replicate (length l) (Read 0 None), r')) as Hspin.
  { clear Hr Ht. induction Hl as [|t l (_ & Hkey & Hi & Ho & Hn) Hl IH]; intros r Hcon; [by exists r|].
    cbn [relay_turns]. unfold relay_turn. rewrite Hi, Ho, Hn, Hcon, Hkey, !orb_true_r, !orb_false_l, !andb_false_r. cbn [andb negb carry app].
    match goal with |- context [relay_turns con kbd l ?r'] => destruct (IH r' eq_refl) as (r2 & ->) end. by exists r2. }
  destruct (Hspin (reconnect relay_start) eq_refl) as (r' & ->). by rewrite app_nil_r.
Qed.

Lemma terminal_spins_witness :
  ∃ s, mainloop [(3, 4, replicate 50 (Turn [Z.lor POLLIN POLLHUP; POLLOUT; POLLOUT; POLLHUP] None None))] emu_start = Ok (false, s) ∧
    trace s = Connected 3 4 :: replicate 50 (Read 0 None).
Proof.
  apply (terminal_spins 3 4 (replicate 50 (Turn [Z.lor POLLIN POLLHUP; POLLOUT; POLLOUT; POLLHUP] None None))); [lia|lia|].
  apply Forall_replicate. by split_and!.
Defined.
